(* ===== verification/_CoqProject ===== *)
-Q . S2P
Prelude.v
Bytes.v
Heap.v
Alloc.v
Blocks.v
AllocSafe.v
AllocGrow.v
AllocCorrect.v
AllocSession.v
AllocTheorems.v
AllocRoom.v
System.v
RuntimeIO.v
RuntimeTree.v
RuntimeInit.v
RuntimeOutput.v
RuntimeExit.v
RuntimeTheorems.v
Paths.v
PathSpec.v
FsStore.v
FileSystem.v
FsImpl.v
FsLemmas.v
FsTree.v
FsResolve.v
FsData.v
FsWrite.v
FsSeek.v
FsRemove.v
FsExport.v
FsExportNode.v
FsTerminate.v
FsNames.v
FsSpace.v
FsDirs.v
FsInput.v
FsClose.v
FsInit.v
FsDemo.v
PathTheorems.v
FsNodeTheorems.v
FsFileTheorems.v
Freestanding.v
Pthread.v
Shim.v
LibTheorems.v
ShimTheorems.v
ExportTheorems.v
Unsupported.v
Extension.v
Sockets.v
StubTheorems.v
SocketTheorems.v
FsArgs.v
FsStart.v
FsShape.v
FsPrint.v
InputTheorems.v
LifeTheorems.v
ArgTheorems.v
RemoveTheorems.v
FsCalls.v
FsFetch.v
PrintTheorems.v
CallTheorems.v
SysCalls.v
Platforms.v
PlatformTheorems.v
Kernel.v
Debug.v
DebugLemmas.v
DebugStep.v
DebugDirs.v
DebugInit.v
DebugSets.v
DebugDump.v
DebugDemo.v
DebugTheorems.v
