(* ===== verification/Prelude.v ===== *)
(** * The Dandelion SDK: a verification development

    The Dandelion SDK turns a C program into a function that runs without an
    operating system.  A platform hands it flat arrays of input items, the
    runtime builds a tree of input and output sets and manages the heap, a file
    system in memory shows the sets as directories and files, and shims put
    the C library on top.  At exit the files become output items again.

    ** Parts, from the bottom up

    - Heap ([Heap], [Alloc] model src/runtime/runtime.c).  The state is
      [Heap.heap]: the words of memory from [heap_begin] to [heap_end], the
      break, and the static variables of the allocator.  [dandelion_sbrk] moves
      the break; [dandelion_alloc] and [dandelion_free] keep descriptors inside
      the words they manage.  Everything is computed on [size_t] values with
      their wrap-around.  [Blocks] is the abstract view: the managed words are
      cut into free blocks, blocks in use and gaps.  [AllocSafe], [AllocGrow]
      and [AllocCorrect] prove that the words always represent such a list and
      that the two operations act on it like the pure operations of [Blocks];
      [AllocSession] and [AllocTheorems] say what any caller sees after any
      sequence of calls, and where a legal request ends the process.
      [AllocRoom] bounds the memory a request can take, so that callers can
      promise that there is enough.
    - Interface ([System]).  What the code above the heap needs from it: a
      class with allocation, release and exit and with the laws that the
      allocator satisfies ([System.session_system] is the instance), among
      them a count of the bytes that are left ([sys_room]) and of the bytes a
      request can take ([sys_cost]).
    - Input and output sets ([RuntimeIO] models the rest of runtime.c and its
      headers).  [runtime] holds the platform's arrays and the tree; arrays are
      looked up by address.  [RuntimeTree], [RuntimeInit], [RuntimeOutput] and
      [RuntimeExit] relate arrays and tree, [RuntimeTheorems] states the
      contract: parsing, access, appending, and that the flat arrays written at
      exit parse back to the output tree.
    - Paths ([Paths] models src/file_system/paths.c and paths.h).  A path is a
      view on a string.  [PathSpec] gives the mathematics (lexicographic order,
      components), [PathTheorems] the contract.
    - File system ([FsStore], [FileSystem], [FsImpl] model
      src/file_system/file_system.h, file_system.c with devices.h, and
      fs_implementation.c).  [FsStore.fs] holds nodes, chunks and bytes by
      address, the extent of every allocation, and the table of descriptors; a
      dereference of an address where nothing lives is a fault.  [FsLemmas],
      [FsTree], [FsResolve], [FsData], [FsWrite] and [FsSeek] prove what the
      operations do to lists of children and to the bytes of a file;
      [FsNodeTheorems] and [FsFileTheorems] state it, on the states of
      [FsDemo].  [FsArgs] and [ArgTheorems] compare the splitting of the
      argument text with a reference tokeniser; [FsRemove] and
      [RemoveTheorems] follow the memory that unlink, close and truncate give
      back.  [Bytes] has the lemmas on regions of bytes these files share.
    - From inputs to files ([FsNames], [FsSpace], [FsDirs], [FsInput],
      [FsInit], [FsStart]).  The abstract state is a map from paths to entries
      (a directory, a file with the platform's buffer, a file with a text that
      was written to it, a device);
      [FsStart.start_space] computes the one the sets describe.  [FsSpace.holds]
      relates a tree in memory to a map; the other files follow
      [create_directories], [initialize_item], the loops over the sets and
      [fs_initialize] through it.  [InputTheorems] states the contract.
    - From files to outputs ([FsExport], [FsExportNode], [FsTerminate]).  The
      abstract state is a tree of names and contents; the files follow
      [add_output_from_file] and [fs_terminate].  [ExportTheorems] adds the end
      of the process.  [FsShape] reads the trees off a map of paths and
      contents, and [LifeTheorems] composes the two halves.
    - Programs between the two ([FsPrint], [FsClose], [FsCalls], [FsFetch]).  The calls of
      the program on the same map: writes through a descriptor give a file its
      text, [dandelion_mkdir], and [dandelion_open] and [dandelion_close] of new
      files add entries, [dandelion_read] brings what a file holds into memory of
      the program.  [PrintTheorems] runs programs that print.  [CallTheorems] has
      a type of programs whose calls depend on the results so far
      ([CallTheorems.task]), runs them with the calls of the C library
      ([run_task]) and on the map ([perform]), and shows that the two agree up to
      the items the platform finds.
    - C library shims ([Freestanding], [Pthread], [Shim] model
      src/system/freestanding.c, src/newlib_shim/pthread.c, the implemented part
      of src/newlib_shim/shim.c with time.c, libc_extension/dirent.c and the
      entry point of include/dandelion/crt.h).  [LibTheorems] and
      [ShimTheorems] state what they promise.  [Unsupported] and [Extension]
      list the calls that have no implementation, with the constant each
      returns and the value it leaves in one of the two [errno] of the code, the
      variable of shim.c or the object behind the macro (the second half of shim.c,
      unistd.c, signal_dandelion.c, search.c, the end of pthread.c and
      src/libc_extension); [StubTheorems] says what they do to a program.
      [Sockets] models the macros of netinet/in.h and sys/socket.h,
      [SocketTheorems] what they compute.
    - Platforms of the isolation back ends ([SysCalls] models the system call
      instructions of src/system/syscall, [Platforms] src/system/platform and
      system.c).  A processor has registers and a world; an inline assembly
      block places its operands, traps, and reads its outputs.
      [PlatformTheorems] proves that the back ends implement one interface.
    - Debug platform ([Debug] models src/system/platform/debug/debug.c and
      system.c).  It fills the arrays of the runtime from the directories of
      the host and writes the outputs to files.  [Kernel] has the system calls
      as a class, its documented laws as a second one.  [DebugLemmas] and
      [DebugStep] treat the small routines, [DebugDirs] the loops over
      directory records, [DebugInit] and [DebugSets] the input and output sets,
      [DebugDump] the outputs; [DebugDemo] is a concrete host.  [DebugTheorems]
      states the contract and composes the platform with the runtime.

    ** How the code is modelled

    A function of the program is a Rocq function of the same name in the state
    monad [prog] of this file, with the faults of [fault] for undefined
    behaviour; the end of the process is recorded in the state.  Structures are
    records, unions and enumerations inductive types, pointers are addresses
    (0 is [NULL]), bytes are [Z].  Integers of the C code are [Z] values, and
    each operation that can leave its type is followed by the conversion
    ([wrap64], [wrap32], [int32], [int64]).  Loops are [for_loop] or [loop] with
    a bound.  Theorems about a program are stated with [wp]: the program
    returns, without a fault, with a result and state that satisfy the
    postcondition.  [wpf] allows one named fault besides, for the places where
    the code uses the result of an allocation without looking.

    ** Bounds on loops

    A loop whose number of turns is not in the code carries fuel: the size of
    the table of nodes or chunks plus one for walks along lists
    ([FsStore.file_fuel], [FsStore.chunk_fuel]; a walk visits no object twice in
    a well-formed list, see [FsLemmas.chain_size]), the length of the text for
    scans of strings and paths ([Paths.scan], [FileSystem.path_fuel],
    [FileSystem.text_fuel]; every turn advances), the length of the buffer for
    the write loop (every turn writes a byte), the number of descriptors for the
    search of the allocator, the number of bytes read for a directory listing (a
    record has at least one byte).  [turns], an argument of the platform's
    set-up, bounds the getdents calls; [DebugTheorems.host_ok] asks that it
    exceeds the entries of each directory.  Running out is the fault
    [FuelExhausted], so a [wp] statement includes that the bound is enough.

    ** Parameters

    What the memory that an allocation returns holds before it is written is a
    parameter, byte by byte and for every call of the allocator anew
    ([FsStore.found]): words of the allocator, data of earlier owners.  Nodes, chunks
    and arrays of pointers are these bytes until their fields are set.  Code that is
    not in the repository is a parameter too: the conversion of an integer to [char]
    and the random numbers ([FsStore.Machine]); the constructors, [main], [memalign], the time stamp
    counter, the output and the exit of the C library ([Shim]); constants of
    headers of the C library ([Unsupported]); [ntohl], which no file defines
    ([Sockets]); what a system call does to registers and world ([SysCalls]); the
    kernel of the host ([Kernel.Kernel]), whose laws ([Kernel.KernelSpec]) say
    what a directory lists, what a file contains, that a write stores a
    prefix, and that opening with [O_TRUNC] erases the file a path leads to.

    ** Memory

    Many operations use the result of an allocation without looking.  Theorems
    on one call allow the fault [NullDeref] there ([wpf]); the theorems on the
    set-up and on the export ask for enough memory instead, counted by
    [FsStart.start_cost] and [FsTerminate.total_cost], and exclude every fault.
    The set-up is specified for inputs whose paths are all different, without
    argv and environ in the set stdio (their splitting has its own theorems), and
    under a hypothesis on the memory of new nodes: [create_file] copies a name without
    a terminator, so the byte behind each file name in use must be found zero
    ([FsSpace.ends], [FsStart.names_end], and the argument [ended] of
    [CallTheorems.perform] for the files a program makes); [FsNodeTheorems.create_file_name]
    is what happens without it.  Directories need nothing of the kind.  At the end
    of a run the constructors and destructors of the C library leave the files alone,
    and [fcloseall] closes descriptors of the standard streams
    ([LifeTheorems.closes_streams], [FsClose]); the programs write with [write], so
    that no stream holds data back.  The programs of [PrintTheorems] and
    [CallTheorems] write text that lies outside the heap or in an allocation of
    theirs, to every new file while it is open for the first time, and what they
    may take is counted by [FsPrint.print_cost] and computed by
    [CallTheorems.perform], whose recursion follows the program, so that it needs
    no fuel.

    ** Groups of theorems

    Safety and isolation of allocations, refinement of the block list, what
    succeeds and what does not ([AllocTheorems]); parsing, growth and
    flattening of sets ([RuntimeTheorems]); order of names, components and
    splitting of paths, resolution ([PathTheorems]); sorted directories,
    search, creation, descriptors ([FsNodeTheorems]); append, read, seek, size
    and export of file contents ([FsFileTheorems]); words and quotes of the
    argument text ([ArgTheorems]); what removal, the last close and truncation
    release ([RemoveTheorems]); memory functions, mutexes, keys
    ([LibTheorems]); the error convention and a write-read round trip through
    the system calls ([ShimTheorems]); calls without an implementation and the
    exit status ([StubTheorems]); address tests and control messages
    ([SocketTheorems]); the files a program finds and reads ([InputTheorems]),
    the items the platform finds at the end ([ExportTheorems]), and both for a
    whole run, of a program that leaves the files alone ([LifeTheorems]), that
    prints ([PrintTheorems]), that makes directories, reads and writes files
    ([CallTheorems], with what other calls do to the inputs); what the back ends do with exit and thread
    pointer ([PlatformTheorems]); what the debug platform presents to the
    runtime and writes at the end ([DebugTheorems]).

    ** Not modelled

    Headers with nothing but declarations and constants, the patch to the C
    library, tests and scripts.  Integers and pointers are not modelled at the
    level of bytes in the heap: structures live in typed tables beside the
    bytes of buffers. *)

From Stdlib Require Export ZArith Lia.
From Stdlib Require Ascii.
From Stdlib Require Strings.String.
From stdpp Require Export prelude list list_numbers gmap strings.

#[global] Open Scope Z_scope.

(** * Machine integers

    C integers are [Z] values; an operation that can leave the range of its
    type is followed by the conversion to that type. *)

Definition size_max : Z := 2 ^ 64 - 1.
Definition wrap64 (z : Z) : Z := z mod 2 ^ 64.
Definition wrap32 (z : Z) : Z := z mod 2 ^ 32.
Definition int32 (z : Z) : Z := (z + 2 ^ 31) mod 2 ^ 32 - 2 ^ 31.
Definition int64 (z : Z) : Z := (z + 2 ^ 63) mod 2 ^ 64 - 2 ^ 63.

Lemma wrap64_small z : 0 <= z < 2 ^ 64 -> wrap64 z = z.
Proof. intros. by apply Z.mod_small. Qed.

Lemma wrap64_range z : 0 <= wrap64 z < 2 ^ 64.
Proof. by apply Z.mod_pos_bound. Qed.

Lemma wrap64_neg z : - 2 ^ 64 <= z < 0 -> wrap64 z = z + 2 ^ 64.
Proof.
  intros. unfold wrap64. symmetry.
  apply (Z.mod_unique_pos _ _ (-1)); lia.
Qed.

Lemma wrap32_small z : 0 <= z < 2 ^ 32 -> wrap32 z = z.
Proof. intros. by apply Z.mod_small. Qed.

Lemma int32_small z : - 2 ^ 31 <= z < 2 ^ 31 -> int32 z = z.
Proof. intros. unfold int32. rewrite Z.mod_small; lia. Qed.

Lemma int64_small z : - 2 ^ 63 <= z < 2 ^ 63 -> int64 z = z.
Proof. intros. unfold int64. rewrite Z.mod_small; lia. Qed.

(** Rounding up to a multiple, the way the code writes it:
    [((x + m - 1) / m) * m]. *)
Definition round_up (x m : Z) : Z := ((x + m - 1) / m) * m.

Lemma round_up_spec x m :
  0 < m -> x <= round_up x m < x + m /\ (m | round_up x m).
Proof.
  intros Hm. unfold round_up. split; [|by exists ((x + m - 1) / m)].
  pose proof (Z.div_mod (x + m - 1) m ltac:(lia)).
  pose proof (Z.mod_pos_bound (x + m - 1) m Hm). nia.
Qed.

(** * Arrays

    Lists indexed by C integers; an index outside the array is undefined. *)
Definition zlookup {A} (i : Z) (l : list A) : option A :=
  if 0 <=? i then l !! Z.to_nat i else None.
Definition zinsert {A} (i : Z) (a : A) (l : list A) : list A := <[Z.to_nat i := a]> l.

Lemma zlookup_lt {A} i (l : list A) : 0 <= i < Z.of_nat (length l) -> is_Some (zlookup i l).
Proof.
  intros Hi. unfold zlookup. rewrite (proj2 (Z.leb_le _ _)) by lia.
  apply lookup_lt_is_Some_2. lia.
Qed.

Lemma zlookup_range {A} i (l : list A) a :
  zlookup i l = Some a -> 0 <= i < Z.of_nat (length l).
Proof.
  unfold zlookup. destruct (0 <=? i) eqn:E; [|done].
  intros Hl%lookup_lt_Some. apply Z.leb_le in E. lia.
Qed.

Lemma zlookup_insert_eq {A} i (l : list A) a :
  0 <= i < Z.of_nat (length l) -> zlookup i (zinsert i a l) = Some a.
Proof.
  intros Hi. unfold zlookup, zinsert. rewrite (proj2 (Z.leb_le _ _)) by lia.
  apply list_lookup_insert_eq. lia.
Qed.

Lemma zlookup_insert_ne {A} i j (l : list A) a :
  0 <= i -> i <> j -> zlookup j (zinsert i a l) = zlookup j l.
Proof.
  intros Hi Hj. unfold zlookup, zinsert. destruct (0 <=? j) eqn:E; [|done].
  apply Z.leb_le in E. apply list_lookup_insert_ne. lia.
Qed.

Lemma zinsert_length {A} i (l : list A) a : length (zinsert i a l) = length l.
Proof. apply length_insert. Qed.

Lemma zinsert_insert {A} i (l : list A) a b : zinsert i a (zinsert i b l) = zinsert i a l.
Proof. apply list_insert_insert_eq. Qed.

Lemma zinsert_id {A} i (l : list A) a : zlookup i l = Some a -> zinsert i a l = l.
Proof. unfold zlookup, zinsert. destruct (0 <=? i); [|done]. apply list_insert_id. Qed.

Lemma zlookup_insert_case {A} i k (l : list A) a b :
  0 <= i < Z.of_nat (length l) -> zlookup k (zinsert i a l) = Some b ->
  (k = i /\ b = a) \/ (k <> i /\ zlookup k l = Some b).
Proof.
  intros Hi. destruct (decide (k = i)) as [->|].
  - rewrite zlookup_insert_eq by done. intros [= ->]. by left.
  - rewrite zlookup_insert_ne by lia. by right.
Qed.

Lemma zlookup_nat {A} (i : nat) (l : list A) : zlookup (Z.of_nat i) l = l !! i.
Proof. unfold zlookup. rewrite (proj2 (Z.leb_le _ _)) by lia. by rewrite Nat2Z.id. Qed.

(** * Strings

    The characters of a literal, and the array the compiler makes of it. *)
Definition chars (str : String.string) : list Z :=
  map (fun c => Z.of_N (Ascii.N_of_ascii c)) (String.list_ascii_of_string str).
Definition literal (str : String.string) : list Z := chars str ++ [0].
Arguments chars str%_string.
Arguments literal str%_string.

(** * Programs

    A C function with effects is a state transformer that can also stop at an
    undefined operation (an access outside the object, a dereference of
    [NULL], the release of memory that is not allocated) or run out of the fuel
    of one of its loops. *)

Inductive fault := OutOfBounds | NullDeref | InvalidFree | FuelExhausted.

Inductive outcome (S A : Type) :=
| Ret (a : A) (s : S)
| Fault (f : fault).
Arguments Ret {S A}.
Arguments Fault {S A}.

Definition prog (S A : Type) := S -> outcome S A.

Declare Scope prog_scope.
Delimit Scope prog_scope with prog.
Bind Scope prog_scope with prog.

Definition ret {S A} (a : A) : prog S A := fun s => Ret a s.
Definition bind {S A B} (c : prog S A) (k : A -> prog S B) : prog S B :=
  fun s => match c s with Ret a s' => k a s' | Fault f => Fault f end.
Definition fail {S A} (f : fault) : prog S A := fun _ => Fault f.
Definition gets {S A} (f : S -> A) : prog S A := fun s => Ret (f s) s.
Definition modify {S} (f : S -> S) : prog S unit := fun s => Ret tt (f s).
Definition from_option {S A} (f : fault) (o : option A) : prog S A :=
  match o with Some a => ret a | None => fail f end.

Notation "'let!' x := c 'in' k" := (bind c (fun x => k))
  (at level 10, x pattern, c at level 150, k at level 200,
   format "'let!'  x  :=  c  'in' '//' k") : prog_scope.
#[global] Open Scope prog_scope.

(** A C loop: the body maps the loop variables to their next values ([inl])
    or leaves the loop with a result ([inr]). *)
Fixpoint loop {S A B} (fuel : nat) (body : A -> prog S (A + B)) (a : A) : prog S B :=
  match fuel with
  | O => fail FuelExhausted
  | Datatypes.S n =>
      let! r := body a in
      match r with inl a' => loop n body a' | inr b => ret b end
  end.

(** [for (size_t i = 0; i < n; ++i)], with a body that can leave the loop. *)
Fixpoint for_from {S R} (fuel : nat) (i : Z) (body : Z -> prog S (option R))
    : prog S (option R) :=
  match fuel with
  | O => ret None
  | Datatypes.S k =>
      let! r := body i in
      match r with Some x => ret (Some x) | None => for_from k (i + 1) body end
  end.
Definition for_loop {S R} (n : Z) (body : Z -> prog S (option R)) : prog S (option R) :=
  for_from (Z.to_nat n) 0 body.

(** Run a program on a part of the state. *)
Definition zoom {S T A} (get : S -> T) (put : T -> S -> S) (c : prog T A) : prog S A :=
  fun s => match c (get s) with
           | Ret a t => Ret a (put t s)
           | Fault f => Fault f
           end.

(** [wp c Q s]: started in [s], [c] returns without a fault, and its result
    and final state satisfy [Q].  It is a total-correctness triple: a loop that
    runs out of fuel or an undefined operation makes it false. *)
Definition wp {S A} (c : prog S A) (Q : A -> S -> Prop) (s : S) : Prop :=
  match c s with Ret a s' => Q a s' | Fault _ => False end.

Section wp_rules.
Context {S : Type}.
Implicit Types s : S.

Lemma wp_ret {A} (a : A) Q s : Q a s -> wp (ret a) Q s.
Proof. done. Qed.

Lemma wp_bind {A B} (c : prog S A) (k : A -> prog S B) Q s :
  wp c (fun a s' => wp (k a) Q s') s -> wp (bind c k) Q s.
Proof. unfold wp, bind. by destruct (c s). Qed.

Lemma wp_gets {A} (f : S -> A) Q s : Q (f s) s -> wp (gets f) Q s.
Proof. done. Qed.

Lemma wp_modify (f : S -> S) Q s : Q tt (f s) -> wp (modify f) Q s.
Proof. done. Qed.

Lemma wp_mono {A} (c : prog S A) (P Q : A -> S -> Prop) s :
  wp c P s -> (forall a s', P a s' -> Q a s') -> wp c Q s.
Proof. unfold wp. destruct (c s); naive_solver. Qed.

Lemma wp_and {A} (c : prog S A) (P Q : A -> S -> Prop) s :
  wp c P s -> wp c Q s -> wp c (fun a s' => P a s' /\ Q a s') s.
Proof. unfold wp. destruct (c s); naive_solver. Qed.

Lemma wp_run {A} (c : prog S A) Q s :
  wp c Q s -> exists a s', c s = Ret a s' /\ Q a s'.
Proof. unfold wp. destruct (c s); naive_solver. Qed.

Lemma wp_from_run {A} (c : prog S A) Q s a s' :
  c s = Ret a s' -> wp c Q s -> Q a s'.
Proof. unfold wp. by intros ->. Qed.

(** One turn of a loop. *)
Lemma wp_loop_step {A B} n (body : A -> prog S (A + B)) a Q s :
  wp (body a) (fun r s' => match r with
    | inl a' => wp (loop n body a') Q s' | inr b => Q b s' end) s ->
  wp (loop (Datatypes.S n) body a) Q s.
Proof.
  intros H. cbn [loop]. apply wp_bind. eapply wp_mono; [exact H|]. by intros [a'|b] s'.
Qed.

(** Two bodies that agree make the same loop. *)
Lemma loop_agree {A B} n (b1 b2 : A -> prog S (A + B)) a s :
  (forall a s, b1 a s = b2 a s) -> loop n b1 a s = loop n b2 a s.
Proof.
  intros E. revert a s. induction n as [|n IH]; intros a s; cbn [loop]; [done|].
  unfold bind. rewrite E. destruct (b2 a s) as [[a'|b] s'|]; [apply IH|done|done].
Qed.

(** [wpx E c Q s]: as [wp], but the program may also stop with a fault that
    [E] allows. *)
Definition wpx {A} (E : fault -> Prop) (c : prog S A) (Q : A -> S -> Prop) (s : S) : Prop :=
  match c s with Ret a s' => Q a s' | Fault g => E g end.

Section faults.
Context (E : fault -> Prop).

Lemma wpx_of_wp {A} (c : prog S A) Q s : wp c Q s -> wpx E c Q s.
Proof. unfold wp, wpx. by destruct (c s). Qed.

Lemma wpx_bind {A B} (c : prog S A) (k : A -> prog S B) Q s :
  wpx E c (fun a s' => wpx E (k a) Q s') s -> wpx E (bind c k) Q s.
Proof. unfold wpx, bind. by destruct (c s). Qed.

Lemma wpx_mono {A} (c : prog S A) (P Q : A -> S -> Prop) s :
  wpx E c P s -> (forall a s', P a s' -> Q a s') -> wpx E c Q s.
Proof. unfold wpx. destruct (c s); naive_solver. Qed.

Lemma wpx_wp_bind {A B} (c : prog S A) (k : A -> prog S B) Q s :
  wp c (fun a s' => wpx E (k a) Q s') s -> wpx E (bind c k) Q s.
Proof. intros. by apply wpx_bind, wpx_of_wp. Qed.

Lemma wpx_ret {A} (a : A) Q s : Q a s -> wpx E (ret a) Q s.
Proof. done. Qed.

Lemma wpx_loop_step {A B} n (body : A -> prog S (A + B)) a Q s :
  wpx E (body a) (fun r s' => match r with
    | inl a' => wpx E (loop n body a') Q s' | inr b => Q b s' end) s ->
  wpx E (loop (Datatypes.S n) body a) Q s.
Proof.
  intros H. cbn [loop]. apply wpx_bind. eapply wpx_mono; [exact H|]. by intros [a'|b] s'.
Qed.
End faults.

(** No fault is allowed. *)
Lemma wpx_none {A} (c : prog S A) Q s : wpx (fun _ => False) c Q s -> wp c Q s.
Proof. done. Qed.

(** [wpf c Q f s]: the program may stop with the fault [f]: the code does not
    check that memory was available, and goes on to dereference [NULL] when it
    was not. *)
Definition wpf {A} (c : prog S A) (Q : A -> S -> Prop) (f : fault) (s : S) : Prop :=
  match c s with Ret a s' => Q a s' | Fault g => g = f end.

Lemma wpf_of_wpx {A} (c : prog S A) Q f s : wpx (fun g => g = f) c Q s -> wpf c Q f s.
Proof. done. Qed.

Lemma wpf_of_wp {A} (c : prog S A) Q f s : wp c Q s -> wpf c Q f s.
Proof. exact (wpx_of_wp _ c Q s). Qed.

Lemma wpf_bind {A B} (c : prog S A) (k : A -> prog S B) Q f s :
  wpf c (fun a s' => wpf (k a) Q f s') f s -> wpf (bind c k) Q f s.
Proof. exact (wpx_bind _ c k Q s). Qed.

Lemma wpf_mono {A} (c : prog S A) (P Q : A -> S -> Prop) f s :
  wpf c P f s -> (forall a s', P a s' -> Q a s') -> wpf c Q f s.
Proof. exact (wpx_mono _ c P Q s). Qed.

Lemma wpf_wp_bind {A B} (c : prog S A) (k : A -> prog S B) Q f s :
  wp c (fun a s' => wpf (k a) Q f s') s -> wpf (bind c k) Q f s.
Proof. exact (wpx_wp_bind _ c k Q s). Qed.

Lemma wpf_ret {A} (a : A) Q f s : Q a s -> wpf (ret a) Q f s.
Proof. done. Qed.

Lemma wpf_loop_step {A B} n (body : A -> prog S (A + B)) a Q f s :
  wpf (body a) (fun r s' => match r with
    | inl a' => wpf (loop n body a') Q f s' | inr b => Q b s' end) f s ->
  wpf (loop (Datatypes.S n) body a) Q f s.
Proof. exact (wpx_loop_step _ n body a Q s). Qed.

(** The loop rule: an invariant on the loop variables and the state, and a
    measure that the body decreases, started below the fuel. *)
Lemma wp_loop {A B} (I : A -> S -> Prop) (m : A -> S -> nat)
    (body : A -> prog S (A + B)) Q :
  (forall a s, I a s ->
     wp (body a) (fun r s' =>
       match r with
       | inl a' => I a' s' /\ (m a' s' < m a s)%nat
       | inr b => Q b s'
       end) s) ->
  forall fuel a s, I a s -> (m a s < fuel)%nat -> wp (loop fuel body a) Q s.
Proof.
  intros Hbody. induction fuel as [|fuel IH]; intros a s HI Hm; [lia|].
  cbn [loop]. apply wp_bind. eapply wp_mono; [by apply Hbody|].
  intros [a'|b] s'; cbn beta iota.
  - intros [??]. apply IH; [done|lia].
  - by intros.
Qed.

(** The rule for counting loops: an invariant at every index. *)
Lemma wp_for {R} (I : Z -> S -> Prop) (body : Z -> prog S (option R)) n Q s :
  0 <= n -> I 0 s ->
  (forall i s, 0 <= i < n -> I i s ->
     wp (body i) (fun r s' =>
       match r with Some x => Q (Some x) s' | None => I (i + 1) s' end) s) ->
  (forall s, I n s -> Q None s) -> wp (for_loop n body) Q s.
Proof.
  intros Hn HI Hbody HQ. unfold for_loop.
  assert (Hgen : forall fuel i s, 0 <= i -> i + Z.of_nat fuel = n -> I i s ->
    wp (for_from fuel i body) Q s).
  { induction fuel as [|fuel IH]; intros i s' Hi Hf HIi; cbn [for_from].
    - apply wp_ret, HQ. by replace n with i by lia.
    - apply wp_bind. eapply wp_mono; [by apply Hbody; [lia|]|].
      intros [x|] s2 Hs2; cbn beta iota in *; [done|]. apply IH; [lia|lia|done]. }
  by apply Hgen; [lia..|].
Qed.

Lemma wp_zoom {T A} (get : S -> T) put (c : prog T A) Q s :
  wp c (fun a t => Q a (put t s)) (get s) -> wp (zoom get put c) Q s.
Proof. unfold wp, zoom. by destruct (c (get s)). Qed.

(** A fault in the first part of a program, or behind a part that returns. *)
Lemma bind_fault {A B} (c : prog S A) (k : A -> prog S B) f s :
  c s = Fault f -> bind c k s = Fault f.
Proof. unfold bind. by intros ->. Qed.

Lemma bind_then_fault {A B} (c : prog S A) (k : A -> prog S B) f s :
  wp c (fun a s' => k a s' = Fault f) s -> bind c k s = Fault f.
Proof. unfold wp, bind. by destruct (c s). Qed.

Lemma for_first_fault {R} (body : Z -> prog S (option R)) n f s :
  0 < n -> body 0 s = Fault f -> for_loop n body s = Fault f.
Proof.
  intros Hn Hb. unfold for_loop. destruct (Z.to_nat n) eqn:E; [lia|]. cbn. by apply bind_fault.
Qed.
End wp_rules.

(** The administrative steps, and conversions of numbers that are in range. *)
Create HintDb prog.
#[export] Hint Resolve wp_ret wp_gets wp_modify wpf_ret : prog.
#[export] Hint Rewrite wrap64_small wrap32_small int32_small int64_small using lia : wrap.

(** Symbolic execution of the administrative steps of a program. *)
Ltac wp_pure :=
  repeat (cbv beta iota zeta;
    lazymatch goal with
    | |- wp (ret _) _ _ => apply wp_ret
    | |- wp (bind _ _) _ _ => apply wp_bind
    | |- wp (gets _) _ _ => apply wp_gets
    | |- wp (modify _) _ _ => apply wp_modify
    end).

(** Case analysis on the boolean conditions of the code, with the comparison
    turned into the proposition it decides. *)
Ltac bool_to_prop :=
  repeat match goal with
  | H : (_ && _) = true |- _ => apply andb_true_iff in H as [??]
  | H : (_ || _) = false |- _ => apply orb_false_iff in H as [??]
  | H : (_ && _) = false |- _ => apply andb_false_iff in H
  | H : (_ || _) = true |- _ => apply orb_true_iff in H
  | H : negb _ = true |- _ => apply negb_true_iff in H
  | H : negb _ = false |- _ => apply negb_false_iff in H
  | H : (_ =? _) = true |- _ => apply Z.eqb_eq in H
  | H : (_ =? _) = false |- _ => apply Z.eqb_neq in H
  | H : (_ <? _) = true |- _ => apply Z.ltb_lt in H
  | H : (_ <? _) = false |- _ => apply Z.ltb_ge in H
  | H : (_ <=? _) = true |- _ => apply Z.leb_le in H
  | H : (_ <=? _) = false |- _ => apply Z.leb_gt in H
  end.

Ltac case_bool :=
  match goal with
  | |- context [if ?b then _ else _] =>
      lazymatch type of b with
      | bool => let H := fresh "Hb" in destruct b eqn:H; bool_to_prop
      end
  end.

(** Remove the conversions to [size_t] whose argument is in range. *)
Ltac wrap_small :=
  repeat match goal with
  | |- context [wrap64 ?z] =>
      lazymatch z with context [wrap64 _] => fail | _ => idtac end;
      rewrite (wrap64_small z) by lia
  end.
