(* ===== verification/Bytes.v ===== *)
(** Memory as a map from addresses to bytes: regions, writes, and how they
    combine.  Shared by the file system, the memory functions and the debug
    platform. *)
From S2P Require Import Prelude.

(** * Regions of bytes *)

(** [region m a l]: the bytes of [l] are at [a]. *)
Definition region (m : gmap Z Z) (a : Z) (l : list Z) : Prop :=
  forall i b, zlookup i l = Some b -> m !! (a + i) = Some b.

(** The addresses from [a] can be written. *)
Definition writable (m : gmap Z Z) (a n : Z) : Prop :=
  forall i, 0 <= i < n -> is_Some (m !! (a + i)).

Fixpoint write_bytes (a : Z) (l : list Z) (m : gmap Z Z) : gmap Z Z :=
  match l with [] => m | b :: l => write_bytes (a + 1) l (<[a := b]> m) end.

Lemma write_bytes_spec a l m x :
  write_bytes a l m !! x =
  match zlookup (x - a) l with Some b => Some b | None => m !! x end.
Proof.
  revert a m. induction l as [|b l IH]; intros a m; cbn [write_bytes].
  { unfold zlookup. destruct (0 <=? x - a); [by rewrite lookup_nil|done]. }
  rewrite IH. unfold zlookup.
  destruct (0 <=? x - (a + 1)) eqn:E1, (0 <=? x - a) eqn:E2; bool_to_prop; try lia.
  - replace (Z.to_nat (x - a)) with (Datatypes.S (Z.to_nat (x - (a + 1)))) by lia. cbn.
    destruct (l !! _); [done|]. rewrite lookup_insert_ne by lia. done.
  - replace (x - a) with 0 by lia. cbn. replace x with a by lia. by rewrite lookup_insert_eq.
  - by rewrite lookup_insert_ne by lia.
Qed.

Lemma write_bytes_in a l m i b : zlookup i l = Some b -> write_bytes a l m !! (a + i) = Some b.
Proof. intros Hb. rewrite write_bytes_spec. by replace (a + i - a) with i by lia; rewrite Hb. Qed.

Lemma write_bytes_out a l m x :
  x < a \/ a + Z.of_nat (length l) <= x -> write_bytes a l m !! x = m !! x.
Proof.
  intros Hx. rewrite write_bytes_spec. destruct (zlookup (x - a) l) eqn:E; [|done].
  apply zlookup_range in E. lia.
Qed.

Lemma region_write a l m : region (write_bytes a l m) a l.
Proof. intros i b. apply write_bytes_in. Qed.

Lemma region_write_other a l m c k :
  region m c k -> c + Z.of_nat (length k) <= a \/ a + Z.of_nat (length l) <= c ->
  region (write_bytes a l m) c k.
Proof.
  intros Hr Hd i b Hi. rewrite write_bytes_out; [by apply Hr|].
  apply zlookup_range in Hi. lia.
Qed.

Lemma region_cons m a b l : region m a (b :: l) <-> m !! a = Some b /\ region m (a + 1) l.
Proof.
  split.
  - intros Hr. split; [rewrite <-(Z.add_0_r a); by apply Hr|].
    intros i c Hi. replace (a + 1 + i) with (a + (i + 1)) by lia. apply Hr.
    unfold zlookup in *. destruct (0 <=? i) eqn:E; [|done]. bool_to_prop.
    rewrite (proj2 (Z.leb_le _ _)) by lia.
    by replace (Z.to_nat (i + 1)) with (Datatypes.S (Z.to_nat i)) by lia.
  - intros [Hb Hr] i c Hi. pose proof (zlookup_range _ _ _ Hi) as Hlt. unfold zlookup in Hi.
    destruct (0 <=? i) eqn:E; [|done]. bool_to_prop.
    destruct (decide (i = 0)) as [->|].
    { rewrite Z.add_0_r. change (Z.to_nat 0) with 0%nat in Hi. cbn in Hi. congruence. }
    replace (a + i) with (a + 1 + (i - 1)) by lia. apply Hr. unfold zlookup.
    rewrite (proj2 (Z.leb_le _ _)) by lia.
    replace (Z.to_nat i) with (Datatypes.S (Z.to_nat (i - 1))) in Hi by lia. done.
Qed.

Lemma region_app m a l k :
  region m a (l ++ k) <-> region m a l /\ region m (a + Z.of_nat (length l)) k.
Proof.
  revert a. induction l as [|b l IH]; intros a.
  - cbn [app length]. rewrite Z.add_0_r. split; [|by intros []]. intros ?. split; [|done].
    intros i c. unfold zlookup. by destruct (0 <=? i).
  - cbn [app]. rewrite !region_cons, IH. cbn [length].
    replace (a + 1 + Z.of_nat (length l)) with (a + Z.of_nat (Datatypes.S (length l))) by lia.
    tauto.
Qed.

Lemma region_writable m a l : region m a l -> writable m a (Z.of_nat (length l)).
Proof. intros Hr i Hi. destruct (zlookup_lt _ _ Hi) as [b Hb]. exists b. by apply Hr. Qed.

Lemma region_nil m a : region m a [].
Proof. intros i b Hi. apply zlookup_range in Hi. cbn in Hi. lia. Qed.

Lemma write_bytes_snoc a l b m :
  write_bytes a (l ++ [b]) m = <[a + Z.of_nat (length l) := b]> (write_bytes a l m).
Proof.
  revert a m. induction l as [|c l IH]; intros a m; [cbn; by rewrite Z.add_0_r|].
  cbn [app write_bytes]. rewrite IH. f_equal. cbn [length]. lia.
Qed.

Lemma writable_write a n d l m : writable m a n -> writable (write_bytes d l m) a n.
Proof.
  intros Hw i Hi. rewrite write_bytes_spec. destruct (zlookup _ l); [by eexists|by apply Hw].
Qed.

(** Two ranges of addresses that share no byte. *)
Definition disjoint_range (a n b k : Z) : Prop := a + n <= b \/ b + k <= a.

Lemma write_bytes_app a l k m :
  write_bytes a (l ++ k) m = write_bytes (a + Z.of_nat (length l)) k (write_bytes a l m).
Proof.
  revert a m. induction l as [|b l IH]; intros a m; cbn [app write_bytes length]; [by rewrite Z.add_0_r|].
  rewrite IH. f_equal. lia.
Qed.

Lemma drop_region m a t k :
  0 <= k <= Z.of_nat (length t) -> region m a t -> region m (a + k) (drop (Z.to_nat k) t).
Proof.
  intros Hk Hr. rewrite <-(take_drop (Z.to_nat k) t) in Hr. apply region_app in Hr as [_ Hr].
  rewrite length_take in Hr. by replace (Z.of_nat (Z.to_nat k `min` length t)%nat) with k in Hr by lia.
Qed.

Lemma take_region m a t k : region m a t -> region m a (take k t).
Proof. intros Hr. rewrite <-(take_drop k t) in Hr. by apply region_app in Hr as [? _]. Qed.

Lemma write_bytes_insert a l x b m :
  x < a \/ a + Z.of_nat (length l) <= x ->
  write_bytes a l (<[x := b]> m) = <[x := b]> (write_bytes a l m).
Proof.
  intros Hx. apply map_eq. intros y. rewrite write_bytes_spec. destruct (decide (x = y)) as [->|Hne].
  - rewrite !lookup_insert_eq. destruct (zlookup (y - a) l) eqn:E; [|done]. apply zlookup_range in E. lia.
  - rewrite !lookup_insert_ne by done. by rewrite write_bytes_spec.
Qed.
