(* ===== verification/Heap.v ===== *)
(** The heap of the runtime (src/runtime/runtime.c): the static variables of
    the allocator, the part of [sysdata] they depend on, the words of heap
    memory, and [dandelion_sbrk], which moves the end of the allocated part of
    the heap.  The allocator proper is in [Alloc]. *)
From S2P Require Import Prelude.

Definition NULL : Z := 0.

(** * State *)

(** [heap_begin], [heap_end] and [exit_code] are the fields of
    [__dandelion_system_data]; [exited] records that
    [__dandelion_system_exit] has been called; [alloc_base], [free_root] and
    [last_descriptor] are the static variables of runtime.c.  [words] holds
    the memory, one machine word per aligned address; a word that the map does
    not list reads as zero. *)
Record heap := Heap {
  heap_begin : Z;
  heap_end : Z;
  exit_code : Z;
  exited : bool;
  alloc_base : Z;
  free_root : Z;
  last_descriptor : Z;
  words : gmap Z Z;
}.

Definition set_exit (code : Z) (h : heap) : heap :=
  Heap (heap_begin h) (heap_end h) code true (alloc_base h) (free_root h)
    (last_descriptor h) (words h).
Definition set_alloc_base (b : Z) (h : heap) : heap :=
  Heap (heap_begin h) (heap_end h) (exit_code h) (exited h) b (free_root h)
    (last_descriptor h) (words h).
Definition set_free_root (r : Z) (h : heap) : heap :=
  Heap (heap_begin h) (heap_end h) (exit_code h) (exited h) (alloc_base h) r
    (last_descriptor h) (words h).
Definition set_last (l : Z) (h : heap) : heap :=
  Heap (heap_begin h) (heap_end h) (exit_code h) (exited h) (alloc_base h)
    (free_root h) l (words h).
Definition set_words (w : gmap Z Z) (h : heap) : heap :=
  Heap (heap_begin h) (heap_end h) (exit_code h) (exited h) (alloc_base h)
    (free_root h) (last_descriptor h) w.

(** Whether the process ended, and the exit code. *)
Definition exit_status (h : heap) : bool * Z := (exited h, exit_code h).

(** The allocator after [dandelion_init] has reset its static variables. *)
Definition init_heap (lo hi : Z) (w : gmap Z Z) : heap :=
  Heap lo hi 0 false 0 NULL 0 w.

(** * Words of the array [free_root[]] *)

(** The address of [free_root[i]], and the test that a word at an address is
    an aligned word of the heap. *)
Definition word_addr (h : heap) (i : Z) : Z := wrap64 (free_root h + 8 * i).
Definition in_heap (h : heap) (a : Z) : bool :=
  (heap_begin h <=? a) && (a + 8 <=? heap_end h) && (a mod 8 =? 0).

(** The word at an address: memory that the map does not list is zero. *)
Definition word_at (w : gmap Z Z) (a : Z) : Z := default 0 (w !! a).

Lemma word_at_eq w a v : word_at (<[a := v]> w) a = v.
Proof. unfold word_at. by rewrite lookup_insert_eq. Qed.
Lemma word_at_ne w a b v : a <> b -> word_at (<[a := v]> w) b = word_at w b.
Proof. intros H. unfold word_at. by rewrite lookup_insert_ne. Qed.

(** The word [free_root[i]] as the state holds it. *)
Definition word (h : heap) (i : Z) : Z := word_at (words h) (free_root h + 8 * i).

Definition load (i : Z) : prog heap Z := fun h =>
  if in_heap h (word_addr h i) then Ret (word_at (words h) (word_addr h i)) h
  else Fault OutOfBounds.

Definition store (i v : Z) : prog heap unit := fun h =>
  if in_heap h (word_addr h i)
  then Ret tt (set_words (<[word_addr h i := v]> (words h)) h)
  else Fault OutOfBounds.

(** * [dandelion_sbrk] *)

(** [sizeof(void * )] is 8. *)
Definition dandelion_sbrk (size : Z) : prog heap Z :=
  let! b := gets alloc_base in
  let! _ :=
    if b =? 0 then
      let! lo := gets heap_begin in
      let alloc_rounding := lo mod 8 in
      modify (set_alloc_base
        (wrap64 (lo + if alloc_rounding =? 0 then 0 else 8 - alloc_rounding)))
    else ret tt in
  let! b := gets alloc_base in
  let! hi := gets heap_end in
  if wrap64 (b + size) >? hi then ret NULL else
  let result := b in
  let size_rounding := size mod 8 in
  let b' := wrap64 (b + size) in
  let! _ := modify (set_alloc_base
    (wrap64 (b' + if size_rounding =? 0 then 0 else 8 - size_rounding))) in
  ret result.

(** * Bounds *)

(** The platform gives a heap below [2^62] (user addresses on the supported
    architectures have at most 57 bits), and the break stays inside it, up to
    the rounding of the last request to a whole word. *)
Record heap_bounds (h : heap) : Prop := {
  hb_begin : 0 < heap_begin h <= heap_end h;
  hb_end : heap_end h < 2 ^ 62;
  hb_base : alloc_base h = 0 \/
    (heap_begin h <= alloc_base h <= round_up (heap_end h) 8
     /\ alloc_base h mod 8 = 0);
}.

(** The break before any rounding at the first use. *)
Definition break_of (h : heap) : Z :=
  if alloc_base h =? 0 then round_up (heap_begin h) 8 else alloc_base h.

Lemma pad8 x : 0 <= x ->
  x + (if x mod 8 =? 0 then 0 else 8 - x mod 8) = round_up x 8.
Proof.
  intros Hx. pose proof (round_up_spec x 8 ltac:(lia)) as [? [k Hk]].
  pose proof (Z.div_mod x 8 ltac:(lia)). pose proof (Z.mod_pos_bound x 8 ltac:(lia)).
  case_bool; lia.
Qed.

Lemma round_up_mod x m : 0 < m -> round_up x m mod m = 0.
Proof. intros. unfold round_up. by apply Z_mod_mult. Qed.

Lemma round_up_mono x y m : 0 < m -> x <= y -> round_up x m <= round_up y m.
Proof.
  intros. unfold round_up. apply Z.mul_le_mono_nonneg_r; [lia|].
  apply Z.div_le_mono; lia.
Qed.

Lemma round_up_id x m : 0 < m -> x mod m = 0 -> round_up x m = x.
Proof.
  intros Hm Hx. pose proof (round_up_spec x m Hm) as [? [k Hk]].
  apply Z.mod_divide in Hx as [j ->]; [|lia].
  assert (k = j) as -> by nia. done.
Qed.

Lemma mod8_add b m : b mod 8 = 0 -> (b + 8 * m) mod 8 = 0.
Proof. intros Hb. by rewrite (Z.mul_comm 8), Z.mod_add by lia. Qed.

(** ** Functional specification of [dandelion_sbrk] *)

(** A request that fits returns the old break, word aligned, and moves the
    break past it to the next word; one that does not returns [NULL] and
    leaves the break where it was. *)
Lemma sbrk_spec h size :
  heap_bounds h -> 0 <= size < 2 ^ 63 + 2 ^ 61 ->
  dandelion_sbrk size h =
    if break_of h + size <=? heap_end h
    then Ret (break_of h) (set_alloc_base (round_up (break_of h + size) 8) h)
    else Ret NULL (set_alloc_base (break_of h) h).
Proof.
  intros [Hb He Hbase] Hs. unfold dandelion_sbrk, bind, gets, modify, ret.
  pose proof (round_up_spec (heap_begin h) 8 ltac:(lia)) as [? _].
  pose proof (round_up_spec (heap_end h) 8 ltac:(lia)) as [? _].
  assert (Hbrk : break_of h mod 8 = 0 /\ 0 < break_of h < 2 ^ 62 + 8).
  { unfold break_of. case_bool; [|lia].
    rewrite round_up_mod by lia. lia. }
  destruct Hbrk as [Hbr Hbr'].
  assert (Hpad : (break_of h + size) + (if size mod 8 =? 0 then 0 else 8 - size mod 8)
                 = round_up (break_of h + size) 8).
  { rewrite <-pad8 by lia. replace ((break_of h + size) mod 8) with (size mod 8); [done|].
    rewrite <-Z.add_mod_idemp_l, Hbr by lia. done. }
  pose proof (round_up_spec (break_of h + size) 8 ltac:(lia)) as [? _].
  unfold break_of in *. destruct (alloc_base h =? 0) eqn:E; cbn [alloc_base set_alloc_base heap_end].
  - rewrite pad8 by lia. rewrite (wrap64_small (round_up _ _)) by lia.
    rewrite (wrap64_small (_ + size)) by lia. rewrite Hpad.
    rewrite Z.gtb_ltb, Z.leb_antisym. case_bool; cbn; [done|].
    rewrite wrap64_small by lia. done.
  - rewrite (wrap64_small (_ + size)) by lia. rewrite Hpad.
    rewrite Z.gtb_ltb, Z.leb_antisym. case_bool; cbn.
    + by destruct h.
    + rewrite wrap64_small by lia. done.
Qed.
