(* ===== verification/Alloc.v ===== *)
(** The allocator of the runtime (src/runtime/runtime.c): [dandelion_alloc]
    and [dandelion_free] on the words of the heap, step for step as the C code
    computes them on [size_t] values.  [Blocks] gives the abstract view of the
    descriptors and [AllocSafe] the theorems. *)
From S2P Require Import Prelude Heap.

(** * Descriptors *)

(** [PAGE_SIZE], the default of runtime.c and of CMakeLists.txt. *)
Definition system_page_size : Z := 4096.

(** [((size_t)-1) << (sizeof(size_t) * 8 - 1)] and [(size_t)-1]. *)
Definition OCCUPIED_FLAG : Z := wrap64 (Z.shiftl size_max 63).
Definition MAX_VAL : Z := size_max.
(** [~OCCUPIED_FLAG] *)
Definition NOT_FLAG : Z := Z.lxor size_max OCCUPIED_FLAG.

Definition is_occupied (allocation : Z) : bool :=
  negb (Z.land OCCUPIED_FLAG allocation =? 0).

Definition get_sbrk_size (size alignment : Z) : Z :=
  wrap64 ((wrap64 (size * 8 + 4 * 8 + alignment + system_page_size - 1)
           / system_page_size) * system_page_size).

(** * [dandelion_alloc] *)

(** The first request: get the first pages and make them one free block. *)
Definition alloc_init (local_size local_alignment : Z) : prog heap bool :=
  let allocation_size := get_sbrk_size local_size local_alignment in
  let! p := dandelion_sbrk allocation_size in
  let! _ := modify (set_free_root p) in
  if p =? NULL then ret false else
  let indices_allocated := allocation_size / 8 in
  let! _ := store 0 (wrap64 (indices_allocated - 2)) in
  let! _ := store (wrap64 (indices_allocated - 2)) 0 in
  let! _ := store (wrap64 (indices_allocated - 1)) MAX_VAL in
  let! _ := modify (set_last (wrap64 (indices_allocated - 1))) in
  ret true.

(** One iteration of the search; the loop variables are [current], [smallest]
    and [smallest_size]. *)
Definition search_body (local_size local_alignment : Z) (v : Z * Z * Z)
    : prog heap ((Z * Z * Z) + (Z * Z)) :=
  let '(current, smallest, smallest_size) := v in
  let! d := load current in
  if d =? MAX_VAL then ret (inr (smallest, smallest_size)) else
  let end_index := Z.land d NOT_FLAG in
  if is_occupied d then
    ret (inl (wrap64 (end_index + 1), smallest, smallest_size))
  else
    let index_mod := wrap64 (current + 1) mod local_alignment in
    let rounding_indices :=
      if index_mod =? 0 then 0 else local_alignment - index_mod in
    let potential_size :=
      wrap64 (end_index - (current + rounding_indices) - 1) in
    if (local_size <=? potential_size) && (potential_size <? smallest_size)
    then ret (inl (wrap64 (end_index + 1), current, potential_size))
    else ret (inl (wrap64 (end_index + 1), smallest, smallest_size)).

(** Every iteration moves [current] up, so one iteration per word of the
    managed area is enough. *)
Definition search (local_size local_alignment : Z) : prog heap (Z * Z) :=
  let! last := gets last_descriptor in
  loop (Datatypes.S (Datatypes.S (Z.to_nat last)))
    (search_body local_size local_alignment) (0, MAX_VAL, MAX_VAL).

(** Nothing fits: ask for more pages, adjacent to the managed area or beyond a
    gap that other callers of [dandelion_sbrk] own. *)
Definition alloc_grow (local_size local_alignment : Z) : prog heap (option Z) :=
  let allocation_size := get_sbrk_size local_size local_alignment in
  let! new_allocation := dandelion_sbrk allocation_size in
  if new_allocation =? NULL then ret None else
  let new_size := allocation_size / 8 in
  let! root := gets free_root in
  let! last := gets last_descriptor in
  if new_allocation =? wrap64 (root + 8 * (last + 1)) then
    let new_last := wrap64 (last + new_size) in
    let! _ := store new_last MAX_VAL in
    let! d := load (wrap64 (last - 1)) in
    if negb (is_occupied d) then
      let! smallest := load (wrap64 (last - 1)) in
      let! _ := store smallest (wrap64 (new_last - 1)) in
      let! _ := store (wrap64 (new_last - 1)) smallest in
      let! _ := modify (set_last new_last) in
      ret (Some smallest)
    else
      let! _ := store last (wrap64 (new_last - 1)) in
      let! _ := store (wrap64 (new_last - 1)) last in
      let! _ := modify (set_last new_last) in
      ret (Some last)
  else
    let skip_end_index := wrap64 ((new_allocation - root) / 8) in
    let! _ := store last (Z.lor skip_end_index OCCUPIED_FLAG) in
    let! _ := store skip_end_index (Z.lor last OCCUPIED_FLAG) in
    let last' := wrap64 (skip_end_index + new_size - 1) in
    let! _ := modify (set_last last') in
    let! _ := store (wrap64 (skip_end_index + 1)) (wrap64 (last' - 1)) in
    let! _ := store (wrap64 (last' - 1)) (wrap64 (skip_end_index + 1)) in
    let! _ := store last' MAX_VAL in
    ret (Some (wrap64 (skip_end_index + 1))).

(** The words before an aligned start: given to the previous allocation, or
    made a free block of their own. *)
Definition alloc_skip (start skip_indices : Z) : prog heap unit :=
  let actual_start := wrap64 (start + skip_indices) in
  if skip_indices =? 0 then ret tt else
  if skip_indices <? 3 then
    if negb (start =? 0) then
      let! d := load (wrap64 (start - 1)) in
      let previous_start := Z.land d NOT_FLAG in
      let! _ := store previous_start
                  (Z.lor (wrap64 (actual_start - 1)) OCCUPIED_FLAG) in
      store (wrap64 (actual_start - 1)) (Z.lor previous_start OCCUPIED_FLAG)
    else
      let! _ := store 0 (wrap64 (actual_start - 1)) in
      store (wrap64 (actual_start - 1)) 0
  else
    let! _ := store start (wrap64 (actual_start - 1)) in
    store (wrap64 (actual_start - 1)) start.

(** Take the request out of the free block that starts at [start]. *)
Definition alloc_place (start local_size local_alignment : Z) : prog heap Z :=
  let! end_ := load start in
  let skip_mod := wrap64 (start + 1) mod local_alignment in
  let skip_indices := if skip_mod =? 0 then 0 else local_alignment - skip_mod in
  let actual_start := wrap64 (start + skip_indices) in
  let! _ := alloc_skip start skip_indices in
  let actual_end := wrap64 (actual_start + local_size + 1) in
  if end_ <? actual_end then
    let! _ := modify (set_exit (int32 skip_indices)) in
    ret NULL
  else
    let! actual_end :=
      if end_ >? wrap64 (actual_end + 2) then
        let! _ := store (wrap64 (actual_end + 1)) end_ in
        let! _ := store end_ (wrap64 (actual_end + 1)) in
        ret actual_end
      else ret end_ in
    let! _ := store actual_start (Z.lor actual_end OCCUPIED_FLAG) in
    let! _ := store actual_end (Z.lor actual_start OCCUPIED_FLAG) in
    gets (fun h => word_addr h (wrap64 (actual_start + 1))).

(** The part of the function after the first block exists: search, grow when
    nothing fits, place. *)
Definition alloc_managed (local_size local_alignment : Z) : prog heap Z :=
  let! (smallest, smallest_size) := search local_size local_alignment in
  let! found := if smallest_size =? MAX_VAL
                then alloc_grow local_size local_alignment
                else ret (Some smallest) in
  match found with
  | None => ret NULL
  | Some start => alloc_place start local_size local_alignment
  end.

(** Sizes and alignments in words, as the function computes them. *)
Definition local_size_of (size : Z) : Z := wrap64 (size + 8 - 1) / 8.
Definition local_alignment_of (alignment : Z) : Z :=
  let a := wrap64 (alignment + 8 - 1) / 8 in if a =? 0 then 1 else a.

Definition dandelion_alloc (size alignment : Z) : prog heap Z :=
  if is_occupied size then ret NULL else
  if size =? 0 then ret NULL else
  let local_size := local_size_of size in
  let local_alignment := local_alignment_of alignment in
  let! root := gets free_root in
  let! ready := if root =? NULL then alloc_init local_size local_alignment
                else ret true in
  if negb ready then ret NULL else
  alloc_managed local_size local_alignment.

(** * [dandelion_free] *)

(** The exit codes of system.h. *)
Definition DANDELION_ALLOC_OVERLAP : Z := 257.
Definition DANDELION_ALLOC_FREE_UNOCCUPIED : Z := 258.
Definition DANDELION_OOM : Z := 259.

(** [debug] says whether the library was built with [DEBUG] defined. *)
Definition dandelion_free (debug : bool) (free_ptr : Z) : prog heap unit :=
  let! root := gets free_root in
  let free_index := wrap64 ((free_ptr - root) / 8) in
  let! d_end := load (wrap64 (free_index - 1)) in
  if debug && negb (is_occupied d_end) then
    modify (set_exit DANDELION_ALLOC_FREE_UNOCCUPIED) else
  let free_end := Z.land d_end NOT_FLAG in
  let! d_start := load free_end in
  if debug && negb (is_occupied d_start) then
    modify (set_exit DANDELION_ALLOC_FREE_UNOCCUPIED) else
  let free_start := Z.land d_start NOT_FLAG in
  if debug && negb (free_start =? wrap64 (free_index - 1)) then
    modify (set_exit DANDELION_ALLOC_OVERLAP) else
  let! free_start :=
    if free_start =? 0 then ret free_start else
    let! d := load (wrap64 (free_start - 1)) in
    if is_occupied d then ret free_start
    else load (wrap64 (free_start - 1)) in
  let! free_end :=
    let! d := load (wrap64 (free_end + 1)) in
    if is_occupied d then ret free_end else load (wrap64 (free_end + 1)) in
  let! _ := store free_start free_end in
  store free_end free_start.
