(* ===== verification/Blocks.v ===== *)
(** The abstract state of the allocator: the managed words of the heap are cut
    into consecutive blocks, each of which is free, in use by a caller, or a
    gap owned by somebody else who moved the break.  The pure operations here
    are what [dandelion_alloc] and [dandelion_free] do to that list. *)
From S2P Require Import Prelude Heap Alloc.

(** * Blocks *)

Inductive kind := Free | Used | Gap.
#[export] Instance kind_eq_dec : EqDecision kind.
Proof. solve_decision. Defined.

(** The length counts the two descriptors. *)
Record block := Block { b_kind : kind; b_len : Z }.

Definition b_occ (b : block) : bool := bool_decide (b_kind b <> Free).

Fixpoint total (bs : list block) : Z :=
  match bs with [] => 0 | b :: bs => b_len b + total bs end.

(** The descriptor of a block: the index of its other end, and the flag. *)
Definition tag (occ : bool) (v : Z) : Z := if occ then Z.lor v OCCUPIED_FLAG else v.

(** [seg w i bs]: from index [i] on, the words [w] hold the descriptors of the
    consecutive blocks [bs]. *)
Fixpoint seg (w : Z -> Z) (i : Z) (bs : list block) : Prop :=
  match bs with
  | [] => True
  | b :: bs =>
      w i = tag (b_occ b) (i + b_len b - 1) /\
      w (i + b_len b - 1) = tag (b_occ b) i /\
      seg w (i + b_len b) bs
  end.

(** [held i bs k]: the word [k] is payload of an occupied block. *)
Fixpoint held (i : Z) (bs : list block) (k : Z) : Prop :=
  match bs with
  | [] => False
  | b :: bs =>
      (b_occ b = true /\ i < k < i + b_len b - 1) \/ held (i + b_len b) bs k
  end.

(** The payload indices handed out to callers. *)
Fixpoint starts (i : Z) (bs : list block) : list Z :=
  match bs with
  | [] => []
  | b :: bs =>
      (if bool_decide (b_kind b = Used) then [i + 1] else [])
      ++ starts (i + b_len b) bs
  end.

(** No two free blocks touch: [dandelion_free] merges with both sides. *)
Fixpoint no_adjacent (bs : list block) : Prop :=
  match bs with
  | b1 :: (b2 :: _) as r =>
      (b_occ b1 = true \/ b_occ b2 = true) /\ no_adjacent r
  | _ => True
  end.

(** Sizes: an occupied block holds at least one word, and so does a free one,
    except possibly the one at index 0. *)
Definition min_len (i : Z) (b : block) : Z :=
  if b_occ b || negb (i =? 0) then 3 else 1.

Fixpoint sizes (i : Z) (bs : list block) : Prop :=
  match bs with
  | [] => True
  | b :: bs => min_len i b <= b_len b /\ sizes (i + b_len b) bs
  end.

Definition wf_blocks (bs : list block) : Prop := sizes 0 bs /\ no_adjacent bs.

(** * Operations on blocks *)

(** Words to skip from [i] to reach a multiple of the alignment [a]. *)
Definition pad (a i : Z) : Z := if i mod a =? 0 then 0 else a - i mod a.

(** The room the search computes for a free block of length [len] at [i]; the
    subtraction is done on [size_t]. *)
Definition room (a i len : Z) : Z := wrap64 (len - 2 - pad a (i + 1)).

(** The search for the smallest free block with enough room. *)
Fixpoint best_fit (n a i : Z) (bs : list block) (best : Z * Z) : Z * Z :=
  match bs with
  | [] => best
  | b :: bs =>
      let best' :=
        if b_occ b then best
        else let r := room a i (b_len b) in
             if (n <=? r) && (r <? best.2) then (i, r) else best in
      best_fit n a (i + b_len b) bs best'
  end.

(** Lengthen the last block. *)
Fixpoint extend_last (bs : list block) (d : Z) : list block :=
  match bs with
  | [] => [Block Free d]
  | [b] => [Block (b_kind b) (b_len b + d)]
  | b :: bs => b :: extend_last bs d
  end.

(** Taking [n] payload words out of a free block of length [len], after the
    blocks [pre] and before [post]. *)
Definition carve (pre : list block) (len skip n : Z) (post : list block)
    : list block :=
  let spare := len - skip - (n + 2) in
  (if skip =? 0 then pre else extend_last pre skip)
  ++ (if 2 <? spare then [Block Used (n + 2); Block Free spare]
      else [Block Used (len - skip)])
  ++ post.

(** Adding [new_size] words of fresh memory; [gap] is the number of words
    between the managed area and the new memory. *)
Definition grow (bs : list block) (gap new_size : Z) : list block * Z :=
  if gap =? 0 then
    match last bs with
    | Some (Block Free len) =>
        (removelast bs, len + new_size)
    | _ => (bs, new_size)
    end
  else (bs ++ [Block Gap (gap + 2)], new_size - 2).

(** Releasing a block of length [len] between [pre] and [post]. *)
Definition release (pre : list block) (len : Z) (post : list block) : list block :=
  let '(pre', len1) :=
    match last pre with
    | Some (Block Free l) => (removelast pre, l + len)
    | _ => (pre, len)
    end in
  let '(len2, post') :=
    match post with
    | Block Free l :: r => (len1 + l, r)
    | _ => (len1, post)
    end in
  pre' ++ Block Free len2 :: post'.

(** * Descriptor arithmetic *)

Lemma OCC_val : OCCUPIED_FLAG = 2 ^ 63.
Proof. reflexivity. Qed.

Lemma tag_add v : 0 <= v < 2 ^ 63 -> Z.lor v OCCUPIED_FLAG = v + 2 ^ 63.
Proof.
  intros Hv. rewrite OCC_val. symmetry. apply Z.add_nocarry_lor, Z.bits_inj_iff'.
  intros n Hn. rewrite Z.land_spec, Z.bits_0, Z.pow2_bits_eqb by lia.
  destruct (Z.eqb_spec 63 n) as [<-|]; [|apply andb_false_r].
  rewrite andb_true_r. rewrite <-(Z.mod_small v (2^63)) by lia.
  apply Z.mod_pow2_bits_high. lia.
Qed.

Lemma land_NOT_FLAG v : 0 <= v -> Z.land v NOT_FLAG = v mod 2 ^ 63.
Proof.
  intros. replace NOT_FLAG with (Z.ones 63) by reflexivity. apply Z.land_ones. lia.
Qed.

Lemma untag occ v : 0 <= v < 2 ^ 63 -> Z.land (tag occ v) NOT_FLAG = v.
Proof.
  intros Hv. destruct occ; cbn [tag].
  - rewrite tag_add, land_NOT_FLAG by lia.
    symmetry. apply (Z.mod_unique_pos _ _ 1); lia.
  - rewrite land_NOT_FLAG by lia. apply Z.mod_small. lia.
Qed.

Lemma is_occupied_spec v : 0 <= v < 2 ^ 64 -> is_occupied v = (2 ^ 63 <=? v).
Proof.
  intros Hv. unfold is_occupied. rewrite OCC_val.
  assert (Hl : Z.land (2 ^ 63) v = if 2 ^ 63 <=? v then 2 ^ 63 else 0).
  { apply Z.bits_inj_iff'. intros n Hn. rewrite Z.land_spec, Z.pow2_bits_eqb by lia.
    destruct (Z.eqb_spec 63 n) as [<-|Hne].
    - rewrite andb_true_l. rewrite Z.testbit_eqb by lia.
      destruct (Z.leb_spec (2 ^ 63) v).
      + replace (v / 2 ^ 63) with 1; [done|]. apply (Z.div_unique _ _ _ (v - 2^63)); lia.
      + rewrite Z.div_small by lia. done.
    - rewrite andb_false_l. case_bool; [|by rewrite Z.bits_0].
      rewrite Z.pow2_bits_eqb by lia. by apply Z.eqb_neq in Hne as ->. }
  rewrite Hl. by destruct (2 ^ 63 <=? v).
Qed.

Lemma is_occupied_tag occ v : 0 <= v < 2 ^ 63 -> is_occupied (tag occ v) = occ.
Proof.
  intros Hv. destruct occ; cbn [tag]; rewrite ?tag_add, is_occupied_spec by lia.
  - apply Z.leb_le. lia.
  - apply Z.leb_gt. lia.
Qed.

Lemma tag_not_max occ v : 0 <= v < 2 ^ 63 - 1 -> tag occ v <> MAX_VAL.
Proof.
  intros Hv. destruct occ; cbn [tag]; rewrite ?tag_add by lia;
    unfold MAX_VAL, size_max; lia.
Qed.

Lemma tag_false v : tag false v = v.
Proof. done. Qed.

(** * Structural lemmas *)

Lemma total_app bs1 bs2 : total (bs1 ++ bs2) = total bs1 + total bs2.
Proof. induction bs1 as [|b bs1 IH]; cbn; [lia|]. rewrite IH. lia. Qed.

Lemma total_nonneg bs : Forall (fun b => 1 <= b_len b) bs -> 0 <= total bs.
Proof. induction 1; cbn; lia. Qed.

Lemma seg_app w i bs1 bs2 :
  seg w i (bs1 ++ bs2) <-> seg w i bs1 /\ seg w (i + total bs1) bs2.
Proof.
  revert i. induction bs1 as [|b bs1 IH]; intros i; cbn.
  - rewrite Z.add_0_r. tauto.
  - rewrite IH, Z.add_assoc. tauto.
Qed.

Lemma held_app i bs1 bs2 k :
  held i (bs1 ++ bs2) k <-> held i bs1 k \/ held (i + total bs1) bs2 k.
Proof.
  revert i. induction bs1 as [|b bs1 IH]; intros i; cbn.
  - rewrite Z.add_0_r. tauto.
  - rewrite IH, Z.add_assoc. tauto.
Qed.

Lemma starts_app i bs1 bs2 :
  starts i (bs1 ++ bs2) = starts i bs1 ++ starts (i + total bs1) bs2.
Proof.
  revert i. induction bs1 as [|b bs1 IH]; intros i; cbn.
  - by rewrite Z.add_0_r.
  - by rewrite IH, Z.add_assoc, app_assoc.
Qed.

Lemma held_range i bs k :
  Forall (fun b => 1 <= b_len b) bs -> held i bs k -> i < k < i + total bs - 1.
Proof.
  intros Hf. revert i. induction Hf as [|b bs Hb Hf IH]; intros i; cbn; [done|].
  pose proof (total_nonneg bs Hf). intros [?|Hh]; [lia|]. apply IH in Hh. lia.
Qed.

Lemma seg_frame w w' i bs :
  Forall (fun b => 1 <= b_len b) bs ->
  (forall k, i <= k < i + total bs -> w' k = w k) ->
  seg w i bs -> seg w' i bs.
Proof.
  intros Hf. revert i. induction Hf as [|b bs Hb Hf IH]; intros i Hw; cbn in *; [done|].
  pose proof (total_nonneg bs Hf).
  intros (H1&H2&H3). rewrite !Hw by lia. split_and!; [done..|].
  apply IH; [|done]. intros. apply Hw. lia.
Qed.

Lemma no_adjacent_app bs1 bs2 :
  no_adjacent (bs1 ++ bs2) <->
  no_adjacent bs1 /\ no_adjacent bs2 /\
  (forall b1 b2, last bs1 = Some b1 -> head bs2 = Some b2 ->
     b_occ b1 = true \/ b_occ b2 = true).
Proof.
  induction bs1 as [|b bs1 IH]; [cbn; naive_solver|].
  destruct bs1 as [|b' bs1].
  - cbn [app no_adjacent]. destruct bs2; cbn in *; naive_solver.
  - change ((b :: b' :: bs1) ++ bs2) with (b :: (b' :: bs1) ++ bs2).
    cbn [app no_adjacent] in *. rewrite IH.
    replace (last (b :: b' :: bs1)) with (last (b' :: bs1)) by done. tauto.
Qed.

Lemma extend_last_snoc bs b d :
  extend_last (bs ++ [b]) d = bs ++ [Block (b_kind b) (b_len b + d)].
Proof.
  induction bs as [|c bs IH]; [done|].
  cbn [app]. rewrite <-IH. by destruct bs.
Qed.

Lemma last_split bs (b : block) : last bs = Some b -> bs = removelast bs ++ [b].
Proof.
  intros Hl. apply last_Some in Hl as [l ->]. by rewrite removelast_last.
Qed.

Lemma extend_last_total bs d : total (extend_last bs d) = total bs + d.
Proof.
  destruct bs as [|b bs _] using rev_ind; [cbn; lia|].
  rewrite extend_last_snoc, !total_app. cbn. lia.
Qed.

Lemma min_len_pos i b : 1 <= min_len i b <= 3.
Proof. unfold min_len. case_bool; lia. Qed.

Lemma min_len_3 i b l : 3 <= l -> min_len i b <= l.
Proof. pose proof (min_len_pos i b). lia. Qed.

Lemma sizes_app i bs1 bs2 :
  sizes i (bs1 ++ bs2) <-> sizes i bs1 /\ sizes (i + total bs1) bs2.
Proof.
  revert i. induction bs1 as [|b bs1 IH]; intros i; cbn [app sizes total].
  - rewrite Z.add_0_r. tauto.
  - rewrite IH, Z.add_assoc. tauto.
Qed.

Lemma sizes_lens i bs : sizes i bs -> Forall (fun b => 1 <= b_len b) bs.
Proof.
  revert i. induction bs as [|b bs IH]; intros i; [constructor|].
  intros [Hb Hs]. constructor; [|eauto]. pose proof (min_len_pos i b). lia.
Qed.

(** Past the start of the area every block has three words. *)
Lemma sizes_shift i j bs : i <> 0 -> 0 <= i -> sizes i bs -> j <> 0 -> 0 <= j -> sizes j bs.
Proof.
  revert i j. induction bs as [|b bs IH]; intros i j Hi Hi' Hs Hj Hj'; [done|].
  destruct Hs as [Hb Hs]. unfold min_len in *. cbn [sizes].
  apply Z.eqb_neq in Hi as Hi2. apply Z.eqb_neq in Hj as Hj2.
  unfold min_len. rewrite Hi2, Hj2, orb_true_r in *. split; [done|].
  apply (IH (i + b_len b)); [lia..|done|lia|lia].
Qed.

Lemma total_pos bs i : bs <> [] -> sizes i bs -> 1 <= total bs.
Proof.
  destruct bs as [|b bs]; [done|]. intros _ Hs%sizes_lens.
  apply Forall_cons in Hs as [? Hs%total_nonneg]. cbn. lia.
Qed.

(** * The operations preserve well-formedness *)

Definition skipped (pre : list block) (skip : Z) : list block :=
  if skip =? 0 then pre else extend_last pre skip.

Lemma skipped_total pre skip : total (skipped pre skip) = total pre + skip.
Proof. unfold skipped. case_bool; [lia|apply extend_last_total]. Qed.

Lemma skipped_starts pre skip i : starts i (skipped pre skip) = starts i pre.
Proof.
  unfold skipped. case_bool; [done|].
  destruct pre as [|c pre _] using rev_ind; [done|].
  by rewrite extend_last_snoc, !starts_app.
Qed.

Lemma skipped_held pre skip i k : 0 <= skip -> held i pre k -> held i (skipped pre skip) k.
Proof.
  intros Hs. unfold skipped. case_bool; [done|].
  destruct pre as [|c pre _] using rev_ind; [done|].
  rewrite extend_last_snoc, !held_app. cbn. unfold b_occ; cbn.
  intros [?|[[??]|?]]; [by left| |done]. right; left. split; [done|lia].
Qed.

Lemma skipped_wf pre skip b post :
  0 <= skip -> wf_blocks (pre ++ b :: post) -> b_occ b = false ->
  wf_blocks (skipped pre skip) /\
  (forall c, last (skipped pre skip) = Some c -> b_occ c = false ->
     pre = [] /\ 0 < skip).
Proof.
  intros Hskip [Hs Hn] Hb. apply sizes_app in Hs as [Hs _].
  apply no_adjacent_app in Hn as (Hn & _ & Hj).
  unfold skipped. case_bool.
  - split; [done|]. intros c Hc Hc'. destruct (Hj c b Hc eq_refl); congruence.
  - destruct pre as [|c pre _] using rev_ind.
    + split; [split; cbn; [|done]|cbn; intros; split; [done|lia]].
      split; [|done]. change (1 <= skip). lia.
    + rewrite extend_last_snoc. rewrite last_snoc in Hj. specialize (Hj c b eq_refl eq_refl).
      split.
      * apply sizes_app in Hs as [Hs1 Hs2]. apply no_adjacent_app in Hn as (Hn1&_&Hn3).
        split; [apply sizes_app; split; [done|]|].
        { destruct Hs2 as [Hs2 _]. cbn [sizes b_len]. split; [|done].
          change (min_len (0 + total pre) c <= b_len c + skip). lia. }
        apply no_adjacent_app. split_and!; [done|done|].
        intros b1 b2 H1 H2. cbn in H2. injection H2 as <-. exact (Hn3 b1 c H1 eq_refl).
      * intros c' Hc' Hf. rewrite last_snoc in Hc'. injection Hc' as <-.
        unfold b_occ in *; cbn in *. destruct Hj; congruence.
Qed.

Lemma carve_skipped pre len skip n post :
  carve pre len skip n post = skipped pre skip ++
    (if 2 <? len - skip - (n + 2)
     then [Block Used (n + 2); Block Free (len - skip - (n + 2))]
     else [Block Used (len - skip)]) ++ post.
Proof. done. Qed.

Lemma carve_total pre len skip n post :
  total (carve pre len skip n post) = total (pre ++ Block Free len :: post).
Proof.
  rewrite carve_skipped, !total_app, skipped_total. case_bool; cbn; lia.
Qed.

Lemma carve_starts pre len skip n post :
  starts 0 (carve pre len skip n post) =
  starts 0 pre ++ (total pre + skip + 1) :: starts (total pre + len) post.
Proof.
  rewrite carve_skipped, !starts_app, skipped_starts, skipped_total.
  case_bool; cbn; do 3 f_equal; lia.
Qed.

Lemma carve_wf pre len skip n post :
  wf_blocks (pre ++ Block Free len :: post) ->
  0 <= skip -> 1 <= n -> skip + n + 2 <= len ->
  wf_blocks (carve pre len skip n post).
Proof.
  intros Hwf Hskip Hn Hlen. rewrite carve_skipped.
  destruct (skipped_wf pre skip _ post Hskip Hwf eq_refl) as [[Hs1 Hn1] Hj].
  destruct Hwf as [Hs Hna]. apply sizes_app in Hs as [Hsp Hs2].
  pose proof (total_nonneg _ (sizes_lens _ _ Hsp)).
  apply no_adjacent_app in Hna as (_ & Hna & _).
  change (Block Free len :: post) with ([Block Free len] ++ post) in *.
  apply sizes_app in Hs2 as [Hs2 Hs3]. cbn in Hs3.
  apply no_adjacent_app in Hna as (_ & Hna & Hjp).
  assert (Hhd : forall b, head post = Some b -> b_occ b = true).
  { intros b Hb. destruct (Hjp (Block Free len) b eq_refl Hb) as [?|?]; done. }
  split.
  - apply sizes_app. split; [done|]. rewrite skipped_total. case_bool; cbn [app sizes];
      split_and!; try (apply min_len_3; cbn; lia).
    all: refine (eq_ind _ (fun j => sizes j post) Hs3 _ _); cbn [b_len]; lia.
  - apply no_adjacent_app. split_and!; [done| |].
    + case_bool; apply no_adjacent_app; split_and!; [cbn; by auto|done| |done|done|];
        intros b1 b2 H1 H2; right; by apply Hhd.
    + intros b1 b2 _ H2. right. destruct (2 <? _); cbn in H2; by injection H2 as <-.
Qed.

(** ** Growing *)

Lemma grow_app bs gap m pre len :
  grow bs gap m = (pre, len) -> 0 <= gap ->
  total pre + len = total bs + (if gap =? 0 then m else gap + m).
Proof.
  unfold grow. intros Hg Hgap. case_bool; [|injection Hg as <- <-; rewrite total_app; cbn; lia].
  destruct bs as [|[k l] bs _] using rev_ind; cbn in Hg; [injection Hg as <- <-; done|].
  rewrite last_snoc, removelast_last in Hg.
  destruct k; injection Hg as <- <-; rewrite ?total_app; cbn; lia.
Qed.

Lemma grow_starts bs gap m pre len i :
  grow bs gap m = (pre, len) -> starts i pre = starts i bs.
Proof.
  unfold grow. intros Hg. destruct (gap =? 0).
  - destruct bs as [|[k l] bs _] using rev_ind; cbn in Hg; [by injection Hg as <- <-|].
    rewrite last_snoc, removelast_last in Hg.
    destruct k; injection Hg as <- <-; [|done|done].
    rewrite starts_app. cbn. by rewrite app_nil_r.
  - injection Hg as <- <-. rewrite starts_app. cbn. by rewrite app_nil_r.
Qed.

Lemma grow_wf bs gap m pre len :
  grow bs gap m = (pre, len) -> wf_blocks bs -> bs <> [] -> 0 <= gap -> 5 <= m ->
  wf_blocks (pre ++ [Block Free len]) /\ m - 2 <= len.
Proof.
  intros Hg [Hs Hn] Hne Hgap Hm. unfold grow in Hg.
  destruct (gap =? 0) eqn:Eg; bool_to_prop.
  - destruct bs as [|[k l] bs _] using rev_ind; [done|].
    rewrite last_snoc, removelast_last in Hg.
    pose proof (sizes_lens _ _ Hs) as Hl. apply Forall_app in Hl as [_ Hl].
    apply Forall_cons in Hl as [Hl _]. cbn in Hl.
    apply sizes_app in Hs as [Hs1 [Hs2 _]].
    apply no_adjacent_app in Hn as (Hn1&Hn2&Hn3).
    destruct k; injection Hg as <- <-.
    + split; [split|lia].
      * apply sizes_app. split; [done|]. split; [|done]. apply min_len_3; cbn; lia.
      * apply no_adjacent_app. split_and!; [done|done|].
        intros b1 b2 H1 H2. cbn in H2. injection H2 as <-.
        exact (Hn3 b1 _ H1 eq_refl).
    + split; [split|lia].
      * apply sizes_app. split; [apply sizes_app; by split|].
        split; [|done]. apply min_len_3; cbn; lia.
      * apply no_adjacent_app. split_and!; [apply no_adjacent_app; by split_and!|done|].
        rewrite last_snoc. intros b1 b2 H1 H2. injection H1 as <-. by left.
    + split; [split|lia].
      * apply sizes_app. split; [apply sizes_app; by split|].
        split; [|done]. apply min_len_3; cbn; lia.
      * apply no_adjacent_app. split_and!; [apply no_adjacent_app; by split_and!|done|].
        rewrite last_snoc. intros b1 b2 H1 H2. injection H1 as <-. by left.
  - injection Hg as <- <-. split; [split|lia].
    + rewrite !sizes_app. cbn [sizes]. split_and!; try done; apply min_len_3; cbn; lia.
    + rewrite <-app_assoc. cbn. apply no_adjacent_app. split; [done|]. split; [by split; [left|]|].
      intros b1 b2 _ H2. cbn in H2. injection H2 as <-. by right.
Qed.

Lemma grow_held bs gap m pre len k :
  grow bs gap m = (pre, len) -> 0 <= gap ->
  held 0 bs k \/ (total bs < k < total bs + gap + 1) ->
  held 0 (pre ++ [Block Free len]) k \/ (gap = 0 /\ total bs < k).
Proof.
  intros Hg Hgap Hk. unfold grow in Hg. destruct (gap =? 0) eqn:Eg; bool_to_prop.
  - destruct Hk as [Hk|Hk]; [left|right; lia].
    destruct bs as [|[kd l] bs _] using rev_ind; [done|].
    rewrite last_snoc, removelast_last in Hg.
    destruct kd; injection Hg as <- <-; apply held_app; left; [|done|done].
    apply held_app in Hk as [Hk|[[? _]|[]]]; done.
  - injection Hg as <- <-. left. apply held_app; left. apply held_app.
    destruct Hk as [Hk|Hk]; [by left|]. right. cbn. left. split; [done|lia].
Qed.

Lemma grow_snoc_occ bs c m : b_occ c = true -> grow (bs ++ [c]) 0 m = (bs ++ [c], m).
Proof. unfold grow. cbn. rewrite last_snoc. by destruct c as [[] ?]. Qed.

Lemma grow_snoc_free bs c m :
  b_occ c = false -> grow (bs ++ [c]) 0 m = (bs, b_len c + m).
Proof.
  unfold grow. cbn. rewrite last_snoc, removelast_last. by destruct c as [[] ?].
Qed.

(** ** The best fit *)

Lemma room_range a i len : 0 <= room a i len <= MAX_VAL.
Proof. unfold room, MAX_VAL, size_max. pose proof (wrap64_range (len - 2 - pad a (i + 1))). lia. Qed.

Lemma best_fit_gen n a bs : forall i s0 sz0 s sz,
  best_fit n a i bs (s0, sz0) = (s, sz) ->
  sz <= sz0 /\
  ((s, sz) = (s0, sz0) \/
   exists pre b post, bs = pre ++ b :: post /\ b_occ b = false /\
     s = i + total pre /\ sz = room a s (b_len b) /\ n <= sz < sz0) /\
  (forall pre b post, bs = pre ++ b :: post -> b_occ b = false ->
     n <= room a (i + total pre) (b_len b) ->
     sz <= room a (i + total pre) (b_len b)).
Proof.
  induction bs as [|c bs IH]; intros i s0 sz0 s sz Hb.
  { cbn in Hb. injection Hb as <- <-. split; [lia|]. split; [by left|].
    by intros [] ? ? ?. }
  cbn [best_fit] in Hb.
  set (p := if b_occ c then (s0, sz0) else _) in Hb.
  destruct p as [s1 sz1] eqn:Hp.
  apply IH in Hb as (Hle & Hcase & Hmin).
  assert (Hstep : (p = (s0, sz0) /\
      (b_occ c = false -> n <= room a i (b_len c) -> sz0 <= room a i (b_len c))) \/
    (p = (i, room a i (b_len c)) /\ b_occ c = false /\ n <= room a i (b_len c) < sz0)).
  { unfold p. cbn [snd]. destruct (b_occ c); [by left|]. case_bool; [right|left].
    - split_and!; try done; lia.
    - split; [done|]. intros _ ?. destruct Hb; lia. }
  assert (Hsz1 : sz1 <= sz0).
  { destruct Hstep as [[Hs _]|[Hs ?]]; rewrite Hp in Hs; injection Hs as -> ->; lia. }
  split; [lia|]. split.
  - destruct Hcase as [Hc|(pre&b&post&->&Hb&Hs&Hsz&Hn)].
    + injection Hc as -> ->. destruct Hstep as [[Hs _]|(Hs&Hf&Hn)]; rewrite Hp in Hs.
      * left. exact Hs.
      * right. injection Hs as -> ->. exists [], c, bs. cbn. rewrite Z.add_0_r. done.
    + right. exists (c :: pre), b, post. cbn [total]. rewrite Z.add_assoc.
      split_and!; try done; lia.
  - intros [|c' pre] b post Heq Hf Hn; cbn [app] in Heq; injection Heq as <- ->.
    + cbn [total] in *. rewrite Z.add_0_r in *.
      destruct Hstep as [[Hs Hge]|(Hs&_&_)]; rewrite Hp in Hs; injection Hs as -> ->.
      * specialize (Hge Hf Hn). lia.
      * done.
    + cbn [total] in *. rewrite Z.add_assoc in *. by apply (Hmin pre b post).
Qed.

(** With alignments of at most two words, the room of a free block is what is
    left for the payload after the descriptors and the padding, except for a
    one-word block at index 0, whose room wraps around. *)
Lemma room_cases n a pre len post :
  wf_blocks (pre ++ Block Free len :: post) -> 1 <= a <= 2 -> 1 <= n ->
  total (pre ++ Block Free len :: post) < 2 ^ 59 ->
  let r := room a (total pre) len in
  n <= r < MAX_VAL ->
  (r = len - 2 - pad a (total pre + 1) /\ pad a (total pre + 1) + n + 2 <= len)
  \/ (pre = [] /\ len = 1 /\ a = 2 /\ r = 2 ^ 64 - 2).
Proof.
  intros [Hs _] Ha Hn Htot r Hr.
  apply sizes_app in Hs as [Hsp [Hmin Hsq]]. rewrite Z.add_0_l in *. cbn [b_len] in *.
  pose proof (total_nonneg _ (sizes_lens _ _ Hsp)).
  pose proof (total_nonneg _ (sizes_lens _ _ Hsq)).
  rewrite total_app in Htot. cbn [total b_len] in Htot.
  assert (Hp : 0 <= pad a (total pre + 1) <= 1).
  { unfold pad. pose proof (Z.mod_pos_bound (total pre + 1) a ltac:(lia)).
    case_bool; lia. }
  unfold r, room in *. unfold MAX_VAL, size_max in *.
  destruct (decide (3 <= len)).
  - left. rewrite wrap64_small in * by lia. lia.
  - assert (Hpre : total pre = 0).
    { unfold min_len in Hmin. destruct (total pre =? 0) eqn:E; bool_to_prop; [done|].
      rewrite orb_true_r in Hmin. lia. }
    assert (pre = []) as ->.
    { destruct pre as [|b pre]; [done|].
      apply sizes_lens, Forall_cons in Hsp as [? Hsp%total_nonneg]. cbn in Hpre. lia. }
    cbn [total] in *. change (min_len 0 (Block Free len)) with 1 in Hmin.
    assert (pad 1 (0 + 1) = 0 /\ pad 2 (0 + 1) = 1) as [Hp1 Hp2] by done.
    assert (Hc : (a = 1 \/ a = 2) /\ (len = 1 \/ len = 2)) by lia.
    destruct Hc as [[-> | ->] [-> | ->]]; rewrite ?Hp1, ?Hp2 in Hr |- *.
    + exfalso. rewrite wrap64_neg in Hr; lia.
    + exfalso. rewrite wrap64_small in Hr; lia.
    + right. rewrite wrap64_neg by lia. done.
    + exfalso. rewrite wrap64_neg in Hr; lia.
Qed.

(** ** Releasing *)

(** The free neighbours that [dandelion_free] merges with. *)
Definition merge_left (pre : list block) : list block * Z :=
  match last pre with
  | Some (Block Free l) => (removelast pre, l)
  | _ => (pre, 0)
  end.

Definition merge_right (post : list block) : Z * list block :=
  match post with
  | Block Free l :: r => (l, r)
  | _ => (0, post)
  end.

Lemma release_merge pre len post :
  release pre len post =
  (merge_left pre).1 ++
    Block Free ((merge_left pre).2 + len + (merge_right post).1)
    :: (merge_right post).2.
Proof.
  unfold release, merge_left, merge_right.
  destruct (last pre) as [[[] l]|]; destruct post as [|[[] l'] r]; cbn [fst snd];
    match goal with
    | |- _ ++ Block _ ?a :: _ = _ ++ Block _ ?b :: _ => by replace b with a by lia
    end.
Qed.

Lemma merge_left_spec pre :
  (merge_left pre = (pre, 0) /\ forall b, last pre = Some b -> b_occ b = true) \/
  (exists pre' l, merge_left pre = (pre', l) /\ pre = pre' ++ [Block Free l]).
Proof.
  unfold merge_left. destruct (last pre) as [[k l]|] eqn:Hl; [|by left].
  destruct k; [right|left|left].
  - exists (removelast pre), l. split; [done|]. by apply last_split.
  - split; [done|]. by intros b [= <-].
  - split; [done|]. by intros b [= <-].
Qed.

Lemma merge_right_spec post :
  (merge_right post = (0, post) /\ forall b, head post = Some b -> b_occ b = true) \/
  (exists l post', merge_right post = (l, post') /\ post = Block Free l :: post').
Proof.
  unfold merge_right. destruct post as [|[k l] r]; [by left|].
  destruct k; [right; eauto|left|left]; (split; [done|by intros b [= <-]]).
Qed.

Lemma merge_left_total pre : total (merge_left pre).1 + (merge_left pre).2 = total pre.
Proof.
  destruct (merge_left_spec pre) as [[-> _]|(pre'&l&->&->)]; cbn; [lia|].
  rewrite total_app. cbn. lia.
Qed.

Lemma merge_right_total post : (merge_right post).1 + total (merge_right post).2 = total post.
Proof. by destruct (merge_right_spec post) as [[-> _]|(l&post'&->&->)]. Qed.

Lemma release_total pre len post b :
  b_len b = len -> total (release pre len post) = total (pre ++ b :: post).
Proof.
  intros <-. rewrite release_merge, !total_app. cbn [total b_len].
  pose proof (merge_left_total pre). pose proof (merge_right_total post). lia.
Qed.

Lemma release_post_index pre len post i :
  i + total (merge_left pre).1 + ((merge_left pre).2 + len + (merge_right post).1)
  = i + total pre + len + (merge_right post).1.
Proof. pose proof (merge_left_total pre). lia. Qed.

Lemma merge_left_starts pre i : starts i (merge_left pre).1 = starts i pre.
Proof.
  destruct (merge_left_spec pre) as [[-> _]|(pre'&l&->&->)]; [done|].
  rewrite starts_app. cbn. by rewrite app_nil_r.
Qed.

Lemma merge_right_starts post i :
  starts (i + (merge_right post).1) (merge_right post).2 = starts i post.
Proof.
  destruct (merge_right_spec post) as [[-> _]|(l&post'&->&->)]; [|done].
  cbn. by rewrite Z.add_0_r.
Qed.

Lemma merge_left_held pre i k : held i (merge_left pre).1 k <-> held i pre k.
Proof.
  destruct (merge_left_spec pre) as [[-> _]|(pre'&l&->&->)]; [done|].
  rewrite held_app. cbn. unfold b_occ; cbn. naive_solver.
Qed.

Lemma merge_right_held post i k :
  held (i + (merge_right post).1) (merge_right post).2 k <-> held i post k.
Proof.
  destruct (merge_right_spec post) as [[-> _]|(l&post'&->&->)].
  - cbn. by rewrite Z.add_0_r.
  - cbn. unfold b_occ; cbn. naive_solver.
Qed.

Lemma release_starts pre len post i :
  starts i (release pre len post) = starts i pre ++ starts (i + total pre + len) post.
Proof.
  rewrite release_merge, starts_app, merge_left_starts. cbn [starts b_kind b_len].
  by rewrite release_post_index, merge_right_starts.
Qed.

Lemma release_held pre len post i k :
  held i (release pre len post) k <->
  held i pre k \/ held (i + total pre + len) post k.
Proof.
  rewrite release_merge, held_app, merge_left_held. cbn [held b_len].
  rewrite release_post_index, merge_right_held.
  change (b_occ (Block Free _)) with false. naive_solver.
Qed.

Lemma release_wf pre len post b :
  wf_blocks (pre ++ b :: post) -> b_len b = len -> 3 <= len ->
  wf_blocks (release pre len post).
Proof.
  intros [Hs Hn] Hb Hlen. rewrite release_merge.
  apply sizes_app in Hs as [Hs1 [_ Hs2]]. rewrite Hb in Hs2.
  apply no_adjacent_app in Hn as (Hn1 & Hn2 & _).
  change (b :: post) with ([b] ++ post) in Hn2. apply no_adjacent_app in Hn2 as (_&Hn2&_).
  assert (HL : sizes 0 (merge_left pre).1 /\ no_adjacent (merge_left pre).1 /\
    0 <= (merge_left pre).2 /\
    forall c, last (merge_left pre).1 = Some c -> b_occ c = true).
  { destruct (merge_left_spec pre) as [[-> Hl]|(pre'&l&->&->)]; [done|]. cbn [fst snd].
    apply sizes_app in Hs1 as [Hs1 [Hl _]]. apply no_adjacent_app in Hn1 as (Hn1&_&Hj).
    pose proof (min_len_pos (0 + total pre') (Block Free l)). cbn in Hl.
    split_and!; [done|done|lia|]. intros c Hc. by destruct (Hj c _ Hc eq_refl). }
  assert (HR : sizes (0 + total pre + len + (merge_right post).1) (merge_right post).2 /\
    no_adjacent (merge_right post).2 /\ 0 <= (merge_right post).1 /\
    forall c, head (merge_right post).2 = Some c -> b_occ c = true).
  { destruct (merge_right_spec post) as [[-> Hl]|(l&post'&->&->)]; cbn [fst snd].
    - rewrite Z.add_0_r. done.
    - destruct Hs2 as [Hl Hs2].
      pose proof (min_len_pos (0 + total pre + len) (Block Free l)). cbn in Hl, Hs2.
      change (Block Free l :: post') with ([Block Free l] ++ post') in Hn2.
      apply no_adjacent_app in Hn2 as (_&Hn2&Hj).
      split_and!; [done|done|lia|]. intros c Hc. by destruct (Hj _ c eq_refl Hc). }
  destruct HL as (HL1&HL2&HL3&HL4). destruct HR as (HR1&HR2&HR3&HR4). split.
  - apply sizes_app. split; [done|]. cbn [sizes b_len].
    rewrite release_post_index. split; [|done]. apply min_len_3. cbn. lia.
  - apply no_adjacent_app. split_and!; [done| |].
    + match goal with |- no_adjacent (?b0 :: ?r) => change (b0 :: r) with ([b0] ++ r) end.
      apply no_adjacent_app. split_and!; [done|done|].
      intros b1 b2 _ H2. right. by apply HR4.
    + intros b1 b2 H1 _. left. by apply HL4.
Qed.

Lemma merge_left_nonneg pre :
  Forall (fun b => 1 <= b_len b) pre -> 0 <= (merge_left pre).2.
Proof.
  intros Hf. destruct (merge_left_spec pre) as [[-> _]|(pre'&l&->&->)]; [done|].
  apply Forall_app in Hf as [_ Hf]. apply Forall_cons in Hf as [Hf _]. cbn in *. lia.
Qed.

Lemma merge_right_nonneg post :
  Forall (fun b => 1 <= b_len b) post -> 0 <= (merge_right post).1.
Proof.
  intros Hf. destruct (merge_right_spec post) as [[-> _]|(l&post'&->&->)]; [done|].
  apply Forall_cons in Hf as [Hf _]. cbn in *. lia.
Qed.
