(* ===== verification/AllocSafe.v ===== *)
(** Correctness of [dandelion_alloc] and [dandelion_free]: the words of the
    heap always represent a list of blocks, the two operations act on that
    list as the abstract operations of [Blocks] do, never fault, and never
    touch a word that belongs to somebody else. *)
From S2P Require Import Prelude Heap Alloc Blocks.

(** * Representation *)

(** The word [free_root[i]] lies in the heap. *)
Record inb (h : heap) (i : Z) : Prop := {
  inb_bounds : heap_bounds h;
  inb_root : free_root h mod 8 = 0;
  inb_lo : heap_begin h <= free_root h + 8 * i;
  inb_hi : free_root h + 8 * i + 8 <= heap_end h;
}.

Definition upd (h : heap) (i v : Z) : heap :=
  set_words (<[free_root h + 8 * i := v]> (words h)) h.

(** The heap [h] is managed as the blocks [bs], followed by the sentinel. *)
Record managed (h : heap) (bs : list block) : Prop := {
  mg_bounds : heap_bounds h;
  mg_root : free_root h mod 8 = 0 /\ heap_begin h <= free_root h;
  mg_wf : bs <> [] /\ wf_blocks bs;
  mg_last : last_descriptor h = total bs;
  mg_break : free_root h + 8 * (total bs + 1) <= alloc_base h;
  mg_end : free_root h + 8 * (total bs + 1) <= heap_end h;
  mg_seg : seg (word h) 0 bs;
  mg_sent : word h (total bs) = MAX_VAL;
}.

(** Before the first request nothing is managed. *)
Definition repr (h : heap) (bs : list block) : Prop :=
  match bs with
  | [] => heap_bounds h /\ free_root h = NULL
  | _ => managed h bs
  end.

(** * Words *)

Lemma word_upd h i v k : word (upd h i v) k = if decide (k = i) then v else word h k.
Proof.
  unfold word, upd. cbn. case_decide as Hk.
  - subst. apply word_at_eq.
  - apply word_at_ne. lia.
Qed.

Lemma inb_addr h i : inb h i -> word_addr h i = free_root h + 8 * i /\
  in_heap h (free_root h + 8 * i) = true.
Proof.
  intros [[Hb He _] Hr Hlo Hhi]. unfold word_addr, in_heap. split.
  - apply wrap64_small. lia.
  - rewrite !andb_true_iff, !Z.leb_le, Z.eqb_eq. split_and!; [lia..|].
    rewrite Z.mul_comm, Z.mod_add by lia. done.
Qed.

Lemma inb_upd h i v k : inb h k -> inb (upd h i v) k.
Proof. by intros [[]]. Qed.

Lemma inb_last h l k : inb h k -> inb (set_last l h) k.
Proof. by intros [[]]. Qed.

Lemma wp_load h i (Q : Z -> heap -> Prop) :
  inb h i -> Q (word h i) h -> wp (load i) Q h.
Proof. intros Hi HQ. unfold wp, load. by destruct (inb_addr h i Hi) as [-> ->]. Qed.

Lemma wp_store h i v (Q : unit -> heap -> Prop) :
  inb h i -> Q tt (upd h i v) -> wp (store i v) Q h.
Proof. intros Hi HQ. unfold wp, store. by destruct (inb_addr h i Hi) as [-> ->]. Qed.

Lemma wf_lens bs : wf_blocks bs -> Forall (fun b => 1 <= b_len b) bs.
Proof. intros [Hs _]. by eapply sizes_lens. Qed.

Lemma managed_inb h bs i : managed h bs -> 0 <= i <= total bs -> inb h i.
Proof.
  intros Hm Hi. destruct Hm as [Hb [Hr Hlo] _ _ _ He _ _].
  split; [done|done|lia|lia].
Qed.

(** The whole managed area is below [2^59] words. *)
Lemma managed_small h bs : managed h bs -> 1 <= total bs < 2 ^ 59.
Proof.
  intros Hm. destruct Hm as [[? ? ?] [? ?] [Hne Hwf] _ _ ? _ _].
  destruct Hwf as [Hs _]. pose proof (total_pos _ _ Hne Hs). lia.
Qed.

(** * The search *)

Lemma pad_spec a i : 0 < a -> 0 <= pad a i < a /\ (i + pad a i) mod a = 0.
Proof.
  intros Ha. unfold pad. pose proof (Z.mod_pos_bound i a Ha).
  case_bool; split; try lia.
  - rewrite Z.add_0_r. done.
  - rewrite <-(Z.mod_unique (i + (a - i mod a)) a (i / a + 1) 0); [lia|lia|].
    pose proof (Z.div_mod i a ltac:(lia)). lia.
Qed.

Lemma search_spec h bs n a :
  managed h bs -> 0 < a ->
  wp (search n a)
    (fun r h' => h' = h /\ r = best_fit n a 0 bs (MAX_VAL, MAX_VAL)) h.
Proof.
  intros Hm Ha. pose proof (managed_small _ _ Hm) as Hsm.
  unfold search. wp_pure.
  apply (wp_loop
    (fun '(cur, s, sz) h' => h' = h /\ exists bs1 bs2, bs = bs1 ++ bs2 /\
       cur = total bs1 /\
       best_fit n a cur bs2 (s, sz) = best_fit n a 0 bs (MAX_VAL, MAX_VAL))
    (fun '(cur, _, _) _ => Z.to_nat (total bs - cur))).
  2: { split; [done|]. by exists [], bs. }
  2: { rewrite (mg_last _ _ Hm). lia. }
  intros [[cur s] sz] h' (-> & bs1 & bs2 & Hbs & Hcur & Hbest). subst cur.
  pose proof (mg_wf _ _ Hm) as [_ Hlens%wf_lens]. rewrite Hbs in Hlens.
  apply Forall_app in Hlens as [Hl1 Hl2].
  pose proof (total_nonneg _ Hl1). pose proof (total_nonneg _ Hl2).
  pose proof (f_equal total Hbs) as Htot. rewrite total_app in Htot.
  pose proof (mg_seg _ _ Hm) as Hseg. rewrite Hbs, seg_app, Z.add_0_l in Hseg.
  destruct Hseg as [_ Hseg].
  unfold search_body. wp_pure. apply wp_load.
  { eapply managed_inb; [done|]. lia. }
  destruct bs2 as [|b bs2]; cbn [total seg best_fit snd] in *.
  - replace (total bs1) with (total bs) by lia.
    rewrite (mg_sent _ _ Hm), Z.eqb_refl. wp_pure. done.
  - destruct Hseg as (Hhd & _ & _). rewrite Hhd.
    apply Forall_cons in Hl2 as [Hlb Hl2]. pose proof (total_nonneg _ Hl2).
    rewrite (proj2 (Z.eqb_neq _ _)) by (apply tag_not_max; lia).
    rewrite is_occupied_tag, untag by lia.
    assert (Hnext : wrap64 (total bs1 + b_len b - 1 + 1) = total bs1 + b_len b)
      by (rewrite wrap64_small; lia).
    assert (HI : forall s' sz',
      best_fit n a (total bs1 + b_len b) bs2 (s', sz')
        = best_fit n a 0 bs (MAX_VAL, MAX_VAL) ->
      (h = h /\ exists bs1' bs2', bs = bs1' ++ bs2' /\
         total bs1 + b_len b = total bs1' /\
         best_fit n a (total bs1 + b_len b) bs2' (s', sz')
           = best_fit n a 0 bs (MAX_VAL, MAX_VAL)) /\
      (Z.to_nat (total bs - (total bs1 + b_len b))
         < Z.to_nat (total bs - total bs1))%nat).
    { intros s' sz' Hb. split; [|lia]. split; [done|].
      exists (bs1 ++ [b]), bs2. rewrite <-app_assoc, total_app. cbn.
      split_and!; [done|lia|done]. }
    rewrite Hnext. destruct (b_occ b) eqn:Hocc.
    + wp_pure. by apply HI.
    + assert (Hroom : wrap64 (total bs1 + b_len b - 1 -
          (total bs1 + (if wrap64 (total bs1 + 1) mod a =? 0 then 0
                        else a - wrap64 (total bs1 + 1) mod a)) - 1)
          = room a (total bs1) (b_len b)).
      { rewrite (wrap64_small (total bs1 + 1)) by lia. unfold room, pad.
        f_equal. lia. }
      rewrite Hroom. case_bool; wp_pure; by apply HI.
Qed.

(** * Placing a request in a free block *)

Lemma managed_words h bs w bs' :
  managed h bs -> total bs' = total bs -> bs' <> [] -> wf_blocks bs' ->
  seg (word (set_words w h)) 0 bs' ->
  word (set_words w h) (total bs) = MAX_VAL ->
  managed (set_words w h) bs'.
Proof.
  intros [[] [] [] ? ? ? ? ?] Ht ? ? ? ?.
  split; cbn [free_root heap_begin alloc_base heap_end last_descriptor set_words];
    rewrite ?Ht; try done; by split.
Qed.

(** Words a caller may rely on: payload of occupied blocks and everything
    outside the managed area. *)
Definition foreign (bs : list block) (k : Z) : Prop :=
  k < 0 \/ total bs < k \/ held 0 bs k.

Lemma held_app_cons pre b post k :
  b_occ b = false ->
  held 0 (pre ++ b :: post) k <-> held 0 pre k \/ held (total pre + b_len b) post k.
Proof. intros Hb. rewrite held_app. cbn [held]. rewrite Hb, Z.add_0_l. naive_solver. Qed.

Lemma word_base h B k : word (set_alloc_base B h) k = word h k.
Proof. done. Qed.
Lemma word_last h l k : word (set_last l h) k = word h k.
Proof. done. Qed.

(** Decide the value of a word after a sequence of stores. *)
Ltac words := rewrite ?word_upd, ?word_last, ?word_upd, ?word_base; repeat case_decide; try lia; try done.

Lemma alloc_skip_spec h pre len post skip :
  managed h (pre ++ Block Free len :: post) -> 0 <= skip < 3 -> skip < len ->
  wp (alloc_skip (total pre) skip)
    (fun _ h' => exists w, h' = set_words w h /\
       seg (word h') 0 (skipped pre skip) /\
       (forall k, k < 0 \/ held 0 pre k \/ total pre + skip <= k ->
          word h' k = word h k)) h.
Proof.
  intros Hm Hskip Hlen. pose proof (managed_small _ _ Hm) as Hsm.
  pose proof (mg_seg _ _ Hm) as Hseg. apply seg_app in Hseg as [Hseg _].
  destruct (mg_wf _ _ Hm) as [_ [Hsz Hna]]. apply sizes_app in Hsz as [Hsz Hsz2].
  apply no_adjacent_app in Hna as (_&_&Hj).
  pose proof (sizes_lens _ _ Hsz) as Hl. pose proof (total_nonneg _ Hl).
  destruct Hsz2 as [_ Hl2%sizes_lens]. apply total_nonneg in Hl2.
  rewrite total_app in Hsm. cbn [total b_len] in Hsm.
  unfold alloc_skip, skipped. wrap_small. wp_pure.
  destruct (skip =? 0) eqn:E0; bool_to_prop.
  { wp_pure. exists (words h). split_and!; [by destruct h|done|done]. }
  rewrite (proj2 (Z.ltb_lt skip 3)) by lia. wp_pure.
  destruct pre as [|c pre _] using rev_ind.
  - cbn [total] in *. cbn. wp_pure. wrap_small.
    apply wp_store; [eapply managed_inb; [done|rewrite total_app; cbn; lia]|].
    apply wp_store; [apply inb_upd; eapply managed_inb; [done|rewrite total_app; cbn; lia]|].
    eexists. split; [reflexivity|]. split.
    + cbn [extend_last seg b_len]. change (b_occ (Block Free skip)) with false.
      rewrite !tag_false. split_and!; words.
    + intros k Hk. words.
  - rewrite total_app in *. cbn [total] in *.
    rewrite sizes_app in Hsz. destruct Hsz as [Hsz1 [Hc _]].
    apply sizes_lens in Hsz1 as Hl1. pose proof (total_nonneg _ Hl1).
    pose proof (min_len_pos (0 + total pre) c).
    rewrite last_snoc in Hj. destruct (Hj c _ eq_refl eq_refl) as [Hocc|]; [|done].
    assert (Hc3 : 3 <= b_len c) by (unfold min_len in Hc; rewrite Hocc in Hc; done).
    apply seg_app in Hseg as [Hseg1 (Hc1&Hc2&_)].
    rewrite (proj2 (Z.eqb_neq _ 0)) by lia. cbn [negb]. wp_pure.
    wrap_small.
    apply wp_load; [eapply managed_inb; [done|rewrite !total_app; cbn; lia]|].
    replace (total pre + (b_len c + 0) - 1) with (0 + total pre + b_len c - 1) by lia.
    rewrite Hc2, untag by lia. wp_pure.
    apply wp_store; [eapply managed_inb; [done|rewrite !total_app; cbn; lia]|].
    apply wp_store; [apply inb_upd; eapply managed_inb; [done|rewrite !total_app; cbn; lia]|].
    eexists. split; [reflexivity|]. rewrite extend_last_snoc. split.
    + apply seg_app. split.
      { eapply seg_frame; [done| |exact Hseg1]. intros k Hk. words. }
      cbn [seg b_len]. change (b_occ (Block (b_kind c) (b_len c + skip))) with (b_occ c).
      rewrite Hocc. cbn [tag]. split_and!; words; f_equal; lia.
    + intros k Hk. rewrite held_app in Hk. cbn [held] in Hk.
      assert (k < 0 \/ 0 < k < total pre - 1 \/
              total pre < k < total pre + b_len c - 1 \/
              total pre + (b_len c + 0) + skip <= k).
      { destruct Hk as [?|[[Hk|[[_ ?]|[]]]|?]]; [lia| |lia|lia].
        apply held_range in Hk; [lia|done]. }
      words.
Qed.

Lemma inb_words h w k : inb h k -> inb (set_words w h) k.
Proof. by intros [[]]. Qed.

Lemma set_words_upd w h i v :
  upd (set_words w h) i v = set_words (<[free_root h + 8 * i := v]> w) h.
Proof. done. Qed.

(** The words that others own lie outside the free block. *)
Lemma foreign_outside h pre len post k :
  managed h (pre ++ Block Free len :: post) -> foreign (pre ++ Block Free len :: post) k ->
  k < 0 \/ total pre + len + total post < k \/ (held 0 pre k /\ k < total pre) \/
  (total pre + len < k < total pre + len + total post).
Proof.
  intros Hm. pose proof (mg_wf _ _ Hm) as [_ Hwf]. pose proof (wf_lens _ Hwf) as Hl.
  apply Forall_app in Hl as [Hl1 Hl2]. apply Forall_cons in Hl2 as [_ Hl2].
  intros [?|[Hk|Hk]]; [by left|rewrite total_app in Hk; cbn in Hk; lia|].
  apply held_app_cons in Hk as [Hk|Hk]; [| |done].
  - apply held_range in Hk as ?; [|done]. right; right; left. split; [done|lia].
  - apply held_range in Hk; [|done]. cbn in Hk. lia.
Qed.

(** [w] has the padding in place, and [w'] differs from it inside the free
    block only, where it has the used block and the rest. *)
Record carved h (w w' : gmap Z Z) (pre : list block) (len skip n : Z) (post : list block) : Prop := {
  cv_skipped : seg (word (set_words w h)) 0 (skipped pre skip);
  cv_kept : forall k, k < 0 \/ held 0 pre k \/ total pre + skip <= k ->
    word (set_words w h) k = word h k;
  cv_inside : forall k, ~ (total pre + skip <= k < total pre + len) ->
    word (set_words w' h) k = word (set_words w h) k;
  cv_pieces : seg (word (set_words w' h)) (total pre + skip)
    (if 2 <? len - skip - (n + 2)
     then [Block Used (n + 2); Block Free (len - skip - (n + 2))]
     else [Block Used (len - skip)]);
}.

Lemma carved_foreign h w w' pre len skip n post k :
  managed h (pre ++ Block Free len :: post) -> 0 <= skip < len ->
  carved h w w' pre len skip n post -> foreign (pre ++ Block Free len :: post) k ->
  word (set_words w' h) k = word h k.
Proof.
  intros Hm Hskip [_ Hkeep Hout _] Hk. pose proof (mg_wf _ _ Hm) as [_ Hwf].
  pose proof (wf_lens _ Hwf) as Hl. apply Forall_app in Hl as [Hl1 Hl2].
  apply Forall_cons in Hl2 as [_ Hl2]. pose proof (total_nonneg _ Hl1). pose proof (total_nonneg _ Hl2).
  apply (foreign_outside h) in Hk; [|done].
  rewrite Hout by lia. apply Hkeep. naive_solver lia.
Qed.

Lemma carved_managed h w w' pre len skip n post :
  managed h (pre ++ Block Free len :: post) -> 0 <= skip -> 1 <= n -> skip + n + 2 <= len ->
  carved h w w' pre len skip n post -> managed (set_words w' h) (carve pre len skip n post).
Proof.
  intros Hm Hs0 Hn Hlen [Hsk Hkeep Hout Htk].
  pose proof (mg_seg _ _ Hm) as Hseg. apply seg_app in Hseg as [_ (_&_&Hs3)].
  rewrite Z.add_0_l in Hs3. cbn [b_len] in Hs3.
  pose proof (mg_wf _ _ Hm) as [_ Hwf]. pose proof (wf_lens _ Hwf) as Hl.
  apply Forall_app in Hl as [Hl1 Hl2]. apply Forall_cons in Hl2 as [_ Hl2].
  pose proof (total_nonneg _ Hl1). pose proof (total_nonneg _ Hl2).
  apply (managed_words _ _ _ _ Hm).
  - apply carve_total.
  - rewrite carve_skipped. intros [_ Hnil%app_nil]%app_nil.
    destruct Hnil as [Hnil _]. by destruct (2 <? _).
  - by apply carve_wf; try lia.
  - rewrite carve_skipped. apply seg_app. split.
    { eapply seg_frame; [|intros k Hk; apply Hout|exact Hsk].
      - eapply sizes_lens, (skipped_wf pre skip); [|done|done]; lia.
      - rewrite skipped_total in Hk. lia. }
    rewrite skipped_total, Z.add_0_l. apply seg_app. split; [done|].
    eapply seg_frame; [done| |refine (eq_ind _ (fun j => seg (word h) j post) Hs3 _ _)].
    + intros k Hk. destruct (2 <? _); cbn in Hk; rewrite Hout by lia; apply Hkeep; lia.
    + destruct (2 <? _); cbn; lia.
  - rewrite total_app. cbn. rewrite Hout by lia. rewrite Hkeep by lia.
    rewrite <-(mg_sent _ _ Hm), total_app. done.
Qed.

(** Where the request goes in a free block, and that nothing else moves. *)
Lemma place_spec h pre len post n a :
  managed h (pre ++ Block Free len :: post) -> 1 <= a <= 2 -> 1 <= n ->
  pad a (total pre + 1) + n + 2 <= len ->
  wp (alloc_place (total pre) n a)
    (fun p h' => exists w, h' = set_words w h /\
       p = free_root h + 8 * (total pre + pad a (total pre + 1) + 1) /\
       managed h' (carve pre len (pad a (total pre + 1)) n post) /\
       forall k, foreign (pre ++ Block Free len :: post) k ->
         word h' k = word h k) h.
Proof.
  intros Hm Ha Hn Hlen. pose proof (managed_small _ _ Hm) as Hsm.
  pose proof (pad_spec a (total pre + 1) ltac:(lia)) as [Hpad _].
  pose proof (mg_seg _ _ Hm) as Hseg. apply seg_app in Hseg as [_ (Hs1&_&_)].
  pose proof (mg_wf _ _ Hm) as [_ Hwf]. pose proof (wf_lens _ Hwf) as Hl.
  apply Forall_app in Hl as [Hl1 Hl2]. apply Forall_cons in Hl2 as [_ Hl2].
  pose proof (total_nonneg _ Hl1). pose proof (total_nonneg _ Hl2).
  rewrite total_app in Hsm. cbn [total b_len] in Hsm.
  assert (Hin : forall k, 0 <= k <= total pre + len + total post -> inb h k).
  { intros. eapply managed_inb; [done|]. rewrite total_app. cbn. lia. }
  unfold alloc_place. wp_pure. apply wp_load; [apply Hin; lia|].
  rewrite Z.add_0_l in Hs1. cbn [b_len] in *.
  change (b_occ (Block Free len)) with false in *. rewrite tag_false in Hs1.
  rewrite Hs1, (wrap64_small (total pre + 1)) by lia.
  change (if (total pre + 1) mod a =? 0 then 0 else a - (total pre + 1) mod a)
    with (pad a (total pre + 1)).
  set (skip := pad a (total pre + 1)) in *. wp_pure. wrap_small.
  eapply wp_mono; [apply (alloc_skip_spec _ _ len post); [done|lia|lia]|].
  intros _ h' (w & -> & Hsk & Hkeep).
  rewrite (proj2 (Z.ltb_ge _ _)) by lia. wp_pure.
  set (ae := total pre + skip + n + 1) in *.
  assert (Hgoal : forall w', carved h w w' pre len skip n post ->
    exists w0, set_words w' h = set_words w0 h /\
      word_addr (set_words w' h) (total pre + skip + 1) = free_root h + 8 * (total pre + skip + 1) /\
      managed (set_words w' h) (carve pre len skip n post) /\
      (forall k, foreign (pre ++ Block Free len :: post) k -> word (set_words w' h) k = word h k)).
  { intros w' Hcv. exists w'. split_and!; [done| | |].
    - refine (proj1 (inb_addr (set_words w' h) _ _)). apply inb_words, Hin. lia.
    - eapply (carved_managed _ _ _ _ _ _ _ _ Hm); [lia|lia|lia|exact Hcv].
    - intros k. eapply carved_foreign; [exact Hm| |exact Hcv]. lia. }
  destruct (2 <? len - skip - (n + 2)) eqn:Hrem; bool_to_prop.
  - rewrite Z.gtb_ltb, (proj2 (Z.ltb_lt _ _)) by lia. wrap_small.
    do 4 (wp_pure; apply wp_store; [repeat apply inb_upd; apply inb_words, Hin; lia|]).
    wp_pure. wrap_small. rewrite !set_words_upd.
    apply Hgoal; constructor; [done|done| |]; rewrite <-!set_words_upd; [intros k Hk; words|].
    rewrite (proj2 (Z.ltb_lt _ _)) by lia. cbn [seg b_len].
    change (b_occ (Block Used (n + 2))) with true.
    change (b_occ (Block Free (len - skip - (n + 2)))) with false. cbn [tag].
    split_and!; words; f_equal; lia.
  - rewrite Z.gtb_ltb, (proj2 (Z.ltb_ge _ _)) by lia.
    do 2 (wp_pure; apply wp_store; [repeat apply inb_upd; apply inb_words, Hin; lia|]).
    wp_pure. wrap_small. rewrite !set_words_upd.
    apply Hgoal; constructor; [done|done| |]; rewrite <-!set_words_upd; [intros k Hk; words|].
    rewrite (proj2 (Z.ltb_ge _ _)) by lia. cbn [seg b_len].
    change (b_occ (Block Used (len - skip))) with true. cbn [tag].
    split_and!; words; f_equal; lia.
Qed.
