(* ===== verification/AllocGrow.v ===== *)
(** Growing the managed area: what [alloc_init] and [alloc_grow] of
    src/runtime/runtime.c do to the words and to the list of blocks. *)
From S2P Require Import Prelude Heap Alloc Blocks AllocSafe.

(** * Getting more memory *)

Lemma get_sbrk_size_spec n a :
  1 <= n <= 2 ^ 60 -> 1 <= a <= 2 ->
  exists m, get_sbrk_size n a = 8 * m /\ n + 5 <= m < n + 2000.
Proof.
  intros Hn Ha. unfold get_sbrk_size, system_page_size.
  pose proof (round_up_spec (n * 8 + 4 * 8 + a) 4096 ltac:(lia)) as [Hr [k Hk]].
  unfold round_up in *. rewrite (wrap64_small (n * 8 + 4 * 8 + a + 4096 - 1)) by lia.
  rewrite wrap64_small by lia. exists (512 * k). lia.
Qed.

(** [free_root[start]] begins a free block [len] after the blocks [pre], up to
    the new end of the managed area. *)
Lemma managed_tail h pre len B w L :
  heap_bounds (set_alloc_base B h) ->
  free_root h mod 8 = 0 -> heap_begin h <= free_root h ->
  wf_blocks (pre ++ [Block Free len]) ->
  L = total pre + len ->
  free_root h + 8 * (L + 1) <= B -> free_root h + 8 * (L + 1) <= heap_end h ->
  (let h' := set_words w (set_last L (set_alloc_base B h)) in
   seg (word h') 0 pre -> word h' (total pre) = L - 1 ->
   word h' (L - 1) = total pre -> word h' L = MAX_VAL ->
   managed h' (pre ++ [Block Free len])).
Proof.
  intros [] Hr Hlo Hwf -> ? ? h' ????. subst h'. split; cbn in *; rewrite ?total_app; cbn [total b_len].
  - by split.
  - by split.
  - split; [|done]. by intros [_ ?]%app_nil.
  - lia.
  - lia.
  - lia.
  - apply seg_app. split; [done|]. cbn [seg b_len].
    change (b_occ (Block Free len)) with false. rewrite !tag_false, !Z.add_0_l.
    split_and!; [done|done|done].
  - by rewrite Z.add_0_r.
Qed.

Lemma managed_break h bs : managed h bs -> break_of h = alloc_base h /\
  alloc_base h mod 8 = 0 /\ alloc_base h <= round_up (heap_end h) 8.
Proof.
  intros Hm. pose proof (managed_small _ _ Hm).
  destruct Hm as [[] [? ?] _ _ ? _ _ _]. unfold break_of.
  assert (0 < alloc_base h) by lia. rewrite (proj2 (Z.eqb_neq _ _)) by lia. lia.
Qed.

(** Words between the sentinel and the break. *)
Definition gap_of (h : heap) (bs : list block) : Z :=
  (alloc_base h - free_root h) / 8 - (total bs + 1).

Lemma gap_of_spec h bs : managed h bs -> 0 <= gap_of h bs /\
  alloc_base h = free_root h + 8 * (total bs + 1 + gap_of h bs).
Proof.
  intros Hm. destruct (managed_break _ _ Hm) as (_&Hb&_).
  destruct Hm as [_ [Hr _] _ _ ? _ _ _]. unfold gap_of.
  apply Z.mod_divide in Hb as [x Hx]; [|lia]. apply Z.mod_divide in Hr as [y Hy]; [|lia].
  replace (alloc_base h - free_root h) with ((x - y) * 8) by lia.
  rewrite Z.div_mul by lia. lia.
Qed.

Lemma wp_sbrk h size (Q : Z -> heap -> Prop) :
  heap_bounds h -> 0 <= size < 2 ^ 63 + 2 ^ 61 ->
  (if break_of h + size <=? heap_end h
   then Q (break_of h) (set_alloc_base (round_up (break_of h + size) 8) h)
   else Q NULL (set_alloc_base (break_of h) h)) ->
  wp (dandelion_sbrk size) Q h.
Proof. intros Hb Hs HQ. unfold wp. rewrite sbrk_spec by done. by case_bool. Qed.

Lemma inb_intro h B l i :
  heap_bounds (set_alloc_base B h) -> free_root h mod 8 = 0 ->
  heap_begin h <= free_root h -> 0 <= i <= l ->
  free_root h + 8 * (l + 1) <= heap_end h -> inb (set_alloc_base B h) i.
Proof. intros ? ? ? ? ?. split; cbn; [done|done|lia|lia]. Qed.

Lemma heap_bounds_base h B :
  heap_bounds h -> heap_begin h <= B <= round_up (heap_end h) 8 -> B mod 8 = 0 ->
  heap_bounds (set_alloc_base B h).
Proof. intros [] ? ?. split; cbn; [done|done|by right]. Qed.

(** What [alloc_grow] leaves behind: [pre] and one free block after it. *)
Definition grown (h : heap) (bs : list block) (m : Z) (r : option Z) (h' : heap) : Prop :=
  exists pre len w, grow bs (gap_of h bs) m = (pre, len) /\ r = Some (total pre) /\
    h' = set_words w (set_last (total pre + len)
           (set_alloc_base (alloc_base h + 8 * m) h)) /\
    managed h' (pre ++ [Block Free len]) /\
    forall k, free_root h + 8 * k < alloc_base h -> foreign bs k -> word h' k = word h k.

Section grow.
Context (h : heap) (bs : list block) (m : Z).
Context (Hm : managed h bs) (Hm5 : 5 <= m)
  (Hfit : alloc_base h + 8 * m <= heap_end h).

Lemma grow_bounds : heap_bounds (set_alloc_base (alloc_base h + 8 * m) h).
Proof using Hm Hm5 Hfit.
  destruct (managed_break _ _ Hm) as (_&Hb&_).
  destruct Hm as [Hbd [? ?] _ _ ? _ _ _]. pose proof (managed_small _ _ Hm).
  pose proof (round_up_spec (heap_end h) 8 ltac:(lia)).
  apply heap_bounds_base; [done|lia|].
  by apply mod8_add.
Qed.

Lemma grow_inb i : 0 <= i <= total bs + gap_of h bs + m -> inb (set_alloc_base (alloc_base h + 8 * m) h) i.
Proof using Hm Hm5 Hfit.
  intros Hi. destruct (gap_of_spec _ _ Hm) as [? ?].
  destruct (mg_root _ _ Hm) as [? ?].
  eapply (inb_intro _ _ (total bs + gap_of h bs + m)); [apply grow_bounds|done|done|done|lia].
Qed.

(** The shared end of the three cases of the code. *)
Lemma grow_finish pre len h' :
  grow bs (gap_of h bs) m = (pre, len) ->
  h' = set_words (words h') (set_last (total bs + gap_of h bs + m)
         (set_alloc_base (alloc_base h + 8 * m) h)) ->
  seg (word h') 0 pre ->
  word h' (total pre) = total bs + gap_of h bs + m - 1 ->
  word h' (total bs + gap_of h bs + m - 1) = total pre ->
  word h' (total bs + gap_of h bs + m) = MAX_VAL ->
  (forall k, k < total bs \/ total bs < k < total bs + gap_of h bs + 1 ->
     foreign bs k -> word h' k = word h k) ->
  grown h bs m (Some (total pre)) h'.
Proof using Hm Hm5 Hfit.
  intros Hg Hh Hsg H1 H2 H3 Hk. destruct (gap_of_spec _ _ Hm) as [Hgap Hbase].
  pose proof (mg_wf _ _ Hm) as [Hne Hwf]. pose proof (mg_root _ _ Hm) as [Hr Hlo].
  destruct (grow_wf _ _ _ _ _ Hg Hwf Hne Hgap Hm5) as [Hwf' _].
  pose proof (grow_app _ _ _ _ _ Hg Hgap) as Htot.
  assert (Hgm : (if gap_of h bs =? 0 then m else gap_of h bs + m) = gap_of h bs + m)
    by (case_bool; lia).
  rewrite Hgm in Htot.
  replace (total bs + gap_of h bs + m) with (total pre + len) in * by lia.
  exists pre, len, (words h'). split_and!; [done|done|done| |].
  - rewrite Hh in *.
    refine (managed_tail h pre len _ _ _ grow_bounds Hr Hlo Hwf' eq_refl _ _ Hsg H1 H2 H3); lia.
  - intros k Hk1 Hf. apply Hk; [|done]. pose proof (wf_lens _ Hwf).
    pose proof (managed_small _ _ Hm).
    destruct Hf as [?|[?|Hf]]; [lia|lia|]. apply held_range in Hf; [lia|done].
Qed.

(** The last block is in use: the sentinel starts the new free block. *)
Lemma grow_after_used bs0 c :
  bs = bs0 ++ [c] -> b_occ c = true -> gap_of h bs = 0 ->
  let l := total bs in
  grown h bs m (Some l)
    (set_last (l + m)
      (upd (upd (upd (set_alloc_base (alloc_base h + 8 * m) h) (l + m) MAX_VAL)
        l (l + m - 1)) (l + m - 1) l)).
Proof using Hm Hm5 Hfit.
  intros Hbs Hoc Hg0 l. pose proof (managed_small _ _ Hm) as Hsm.
  pose proof (mg_seg _ _ Hm) as Hseg.
  apply grow_finish with m; rewrite ?Hg0, ?Z.add_0_r; fold l; [|done| |words..].
  - rewrite Hbs. by apply grow_snoc_occ.
  - eapply seg_frame; [apply wf_lens, (mg_wf _ _ Hm)| |exact Hseg].
    intros k Hk. words.
  - intros k Hk Hf. words.
Qed.

(** The last block is free: it is lengthened over the sentinel. *)
Lemma grow_after_free bs0 c :
  bs = bs0 ++ [c] -> b_occ c = false -> gap_of h bs = 0 ->
  let l := total bs in
  grown h bs m (Some (total bs0))
    (set_last (l + m)
      (upd (upd (upd (set_alloc_base (alloc_base h + 8 * m) h) (l + m) MAX_VAL)
        (total bs0) (l + m - 1)) (l + m - 1) (total bs0))).
Proof using Hm Hm5 Hfit.
  intros Hbs Hoc Hg0 l. pose proof (managed_small _ _ Hm) as Hsm.
  pose proof (mg_seg _ _ Hm) as Hseg.
  pose proof (mg_wf _ _ Hm) as [_ Hl%wf_lens].
  assert (Hl2 : l = total bs0 + b_len c) by (unfold l; rewrite Hbs, total_app; cbn; lia).
  rewrite Hbs in Hseg, Hl. apply seg_app in Hseg as [Hseg _].
  apply Forall_app in Hl as [Hl0 Hlc]. apply Forall_cons in Hlc as [Hlc _].
  pose proof (total_nonneg _ Hl0).
  apply grow_finish with (b_len c + m); rewrite ?Hg0, ?Z.add_0_r; fold l;
    [|done| |words..].
  - rewrite Hbs. by apply grow_snoc_free.
  - eapply seg_frame; [done| |exact Hseg]. intros k Hk. words.
  - intros k Hk Hf. assert (k < total bs0 - 1 \/ l < k \/ k < 0).
    { destruct Hf as [?|[?|Hf]]; [lia|lia|].
      rewrite Hbs in Hf. apply held_app_cons in Hf as [Hf|[]]; [|done].
      apply held_range in Hf; [lia|done]. }
    words.
Qed.

(** Somebody else moved the break: the words in between become a gap. *)
Lemma grow_after_gap :
  gap_of h bs <> 0 ->
  let l := total bs in
  let s := l + gap_of h bs + 1 in
  grown h bs m (Some (s + 1))
    (upd (upd (upd (set_last (s + m - 1)
      (upd (upd (set_alloc_base (alloc_base h + 8 * m) h)
        l (Z.lor s OCCUPIED_FLAG)) s (Z.lor l OCCUPIED_FLAG)))
      (s + 1) (s + m - 2)) (s + m - 2) (s + 1)) (s + m - 1) MAX_VAL).
Proof using Hm Hm5 Hfit.
  intros Hg0 l s. pose proof (managed_small _ _ Hm) as Hsm.
  pose proof (mg_seg _ _ Hm) as Hseg. pose proof (mg_wf _ _ Hm) as [_ Hl%wf_lens].
  destruct (gap_of_spec _ _ Hm) as [Hgap _]. set (g := gap_of h bs) in *.
  assert (Hgrow : grow bs g m = (bs ++ [Block Gap (g + 2)], m - 2)).
  { unfold grow. by rewrite (proj2 (Z.eqb_neq _ _)) by done. }
  assert (Htot : total (bs ++ [Block Gap (g + 2)]) = l + g + 2)
    by (rewrite total_app; cbn; lia).
  unfold s. replace (l + g + 1 + m - 1) with (l + g + m) by lia.
  replace (l + g + 1 + 1) with (total (bs ++ [Block Gap (g + 2)])) by lia.
  apply grow_finish with (m - 2); rewrite ?Htot; fold l; [done|done| |words..|].
  - apply seg_app. rewrite Z.add_0_l. split.
    { eapply seg_frame; [done| |exact Hseg]. intros k Hk. words. }
    cbn [seg b_len]. change (b_occ (Block Gap (g + 2))) with true. cbn [tag].
    fold l. split_and!; words; f_equal; lia.
  - intros k Hk Hf. words.
Qed.
End grow.

Lemma grow_spec h bs n a m :
  managed h bs -> 1 <= n <= 2 ^ 60 -> 1 <= a <= 2 ->
  get_sbrk_size n a = 8 * m ->
  wp (alloc_grow n a) (fun r h' =>
    if alloc_base h + 8 * m <=? heap_end h then grown h bs m r h'
    else r = None /\ h' = h) h.
Proof.
  intros Hm Hn Ha Hsz. destruct (get_sbrk_size_spec n a Hn Ha) as (m' & Hm' & Hmn).
  assert (m' = m) as -> by lia. clear Hm'.
  destruct (managed_break _ _ Hm) as (Hbr & Hb8 & _).
  destruct (gap_of_spec _ _ Hm) as [Hgap Hbase].
  pose proof (managed_small _ _ Hm) as Hsm. pose proof (mg_root _ _ Hm) as [Hr Hlo].
  pose proof (mg_bounds _ _ Hm) as Hbd. pose proof (hb_begin _ Hbd). pose proof (hb_end _ Hbd).
  unfold alloc_grow. rewrite Hsz. wp_pure. apply wp_sbrk; [done|lia|]. rewrite Hbr.
  destruct (alloc_base h + 8 * m <=? heap_end h) eqn:Efit; bool_to_prop; cycle 1.
  { cbn. split; [done|]. by destruct h. }
  rewrite round_up_id by first [lia | by apply mod8_add].
  rewrite (proj2 (Z.eqb_neq (alloc_base h) NULL)) by (unfold NULL; lia).
  assert (Hin : forall i, 0 <= i <= total bs + gap_of h bs + m ->
    inb (set_alloc_base (alloc_base h + 8 * m) h) i)
    by (intros; apply (grow_inb h bs m); [done|lia|done|done]).
  wp_pure. cbn [free_root last_descriptor set_alloc_base].
  rewrite (mg_last _ _ Hm). replace (8 * m / 8) with m by (rewrite Z.mul_comm, Z.div_mul; lia).
  replace ((alloc_base h - free_root h) / 8) with (total bs + gap_of h bs + 1)
    by (rewrite Hbase; Z.div_mod_to_equations; lia).
  rewrite Hbase at 1. wrap_small. destruct (_ =? _) eqn:Egap; bool_to_prop.
  - assert (Hg0 : gap_of h bs = 0) by lia. rewrite Hg0, Z.add_0_r in *.
    destruct (last bs) as [c|] eqn:Hlast;
      [|apply last_None in Hlast; by destruct (proj1 (mg_wf _ _ Hm))].
    apply last_Some in Hlast as [bs0 Hbs].
    assert (Htot : total bs = total bs0 + b_len c) by (rewrite Hbs, total_app; cbn; lia).
    pose proof (mg_seg _ _ Hm) as Hseg. rewrite Hbs in Hseg.
    apply seg_app in Hseg as [_ (_&Hc2&_)].
    pose proof (mg_wf _ _ Hm) as [_ Hl%wf_lens]. rewrite Hbs in Hl.
    apply Forall_app in Hl as [Hl0 Hlc]. apply Forall_cons in Hlc as [Hlc _].
    pose proof (total_nonneg _ Hl0).
    wp_pure. apply wp_store; [apply Hin; lia|]. wp_pure.
    apply wp_load; [apply inb_upd, Hin; lia|].
    assert (Hd : word (upd (set_alloc_base (alloc_base h + 8 * m) h)
                   (total bs + m) MAX_VAL) (total bs - 1) = tag (b_occ c) (total bs0)).
    { words. replace (total bs - 1) with (0 + total bs0 + b_len c - 1) by lia. done. }
    rewrite Hd, is_occupied_tag by lia. destruct (b_occ c) eqn:Hoc; cbn [negb].
    + do 2 (wp_pure; apply wp_store; [repeat apply inb_upd; apply Hin; lia|]). wp_pure.
      by eapply grow_after_used; [done|lia|done|done|..].
    + wp_pure. apply wp_load; [apply inb_upd, Hin; lia|]. rewrite Hd, tag_false.
      do 2 (wp_pure; apply wp_store; [repeat apply inb_upd; apply Hin; lia|]). wp_pure.
      by eapply grow_after_free; [done|lia|done|done|..].
  - assert (Hg0 : gap_of h bs <> 0) by (intros Hg; apply Egap; lia).
    do 2 (wp_pure; apply wp_store; [repeat apply inb_upd; apply Hin; lia|]). wp_pure.
    do 3 (wp_pure; apply wp_store;
      [repeat apply inb_upd; apply inb_last; repeat apply inb_upd; apply Hin; lia|]).
    wp_pure. replace (total bs + gap_of h bs + 1 + m - 1 - 1)
      with (total bs + gap_of h bs + 1 + m - 2) by lia.
    apply grow_after_gap; [done|lia|done|done].
Qed.

(** * The first request *)

Lemma break_spec h : heap_bounds h ->
  break_of h mod 8 = 0 /\ heap_begin h <= break_of h <= round_up (heap_end h) 8.
Proof.
  intros [Hb He Hbase]. pose proof (round_up_spec (heap_begin h) 8 ltac:(lia)).
  pose proof (round_up_mono (heap_begin h) (heap_end h) 8 ltac:(lia) ltac:(lia)).
  unfold break_of. case_bool; [rewrite round_up_mod by lia|]; lia.
Qed.

Lemma init_spec h n a m :
  repr h [] -> 1 <= n <= 2 ^ 60 -> 1 <= a <= 2 -> get_sbrk_size n a = 8 * m ->
  wp (alloc_init n a) (fun ok h' =>
    if break_of h + 8 * m <=? heap_end h then
      ok = true /\ free_root h' = break_of h /\
      (exists w, h' = set_words w (set_last (m - 1)
         (set_alloc_base (break_of h + 8 * m) (set_free_root (break_of h) h)))) /\
      managed h' [Block Free (m - 1)] /\
      (forall x, x < break_of h -> word_at (words h') x = word_at (words h) x)
    else ok = false /\ h' = set_alloc_base (break_of h) h) h.
Proof.
  intros [Hb Hroot] Hn Ha Hsz. destruct (get_sbrk_size_spec n a Hn Ha) as (m' & Hm' & Hmn).
  assert (m' = m) as -> by lia. clear Hm'.
  destruct (break_spec h Hb) as [Hb8 Hbr]. pose proof (hb_begin _ Hb). pose proof (hb_end _ Hb).
  pose proof (round_up_spec (heap_end h) 8 ltac:(lia)).
  unfold alloc_init. rewrite Hsz. wp_pure. apply wp_sbrk; [done|lia|].
  destruct (_ <=? _) eqn:Efit; bool_to_prop; wp_pure; cycle 1.
  { cbn. wp_pure. split; [done|]. destruct h; cbn in *. by subst. }
  rewrite round_up_id by first [lia | by apply mod8_add].
  rewrite (proj2 (Z.eqb_neq _ NULL)) by (unfold NULL; lia).
  replace (8 * m / 8) with m by (rewrite Z.mul_comm, Z.div_mul; lia).
  set (h1 := set_free_root (break_of h) (set_alloc_base (break_of h + 8 * m) h)).
  assert (Hb1 : heap_bounds (set_alloc_base (break_of h + 8 * m) (set_free_root (break_of h) h))).
  { apply heap_bounds_base; cbn; [by destruct Hb; split|lia|by apply mod8_add]. }
  assert (Hin : forall i, 0 <= i <= m - 1 -> inb h1 i).
  { intros i Hi. split; cbn; [exact Hb1|done|lia|lia]. }
  wrap_small.
  do 3 (wp_pure; apply wp_store; [repeat apply inb_upd; apply Hin; lia|]). wp_pure.
  set (h2 := upd (upd (upd h1 0 (m - 2)) (m - 2) 0) (m - 1) MAX_VAL).
  split_and!; [done|done| | |].
  - exists (words h2). done.
  - change (set_last (m - 1) h2) with
      (set_words (words h2) (set_last (m - 1)
        (set_alloc_base (break_of h + 8 * m) (set_free_root (break_of h) h)))).
    change [Block Free (m - 1)] with ([] ++ [Block Free (m - 1)]).
    change (set_words (words h2) _) with (set_last (m - 1) h2).
    assert (Hwf : wf_blocks ([] ++ [Block Free (m - 1)])).
    { split; [split|]; [apply min_len_3; cbn; lia|done|done]. }
    refine (managed_tail (set_free_root (break_of h) h) [] (m - 1) _ (words h2) _
      Hb1 Hb8 (proj1 Hbr) Hwf eq_refl _ _ I _ _ _); cbn [total free_root heap_end set_free_root];
      try lia;
      change (word (set_words (words h2) _) ?k) with (word h2 k); unfold h2; words; lia.
  - intros x Hx. cbn. rewrite !word_at_ne by lia. done.
Qed.
