(* ===== verification/AllocCorrect.v ===== *)
(** The theorems on the allocator as its callers see it. *)
From S2P Require Import Prelude Heap Alloc Blocks AllocSafe AllocGrow.

(** * [dandelion_free] *)

(** The address of the payload of the block that starts at index [i]. *)
Definition payload_addr (h : heap) (i : Z) : Z := free_root h + 8 * (i + 1).

Section free.
Context (h : heap) (pre : list block) (len : Z) (post : list block).
Context (Hm : managed h (pre ++ Block Used len :: post)).

Lemma free_facts :
  3 <= len /\ 0 <= total pre /\ 0 <= total post /\
  total pre + len + total post < 2 ^ 59 /\
  (forall k, 0 <= k <= total pre + len + total post -> inb h k) /\
  word h (total pre) = tag true (total pre + len - 1) /\
  word h (total pre + len - 1) = tag true (total pre).
Proof using Hm.
  pose proof (managed_small _ _ Hm) as Hsm.
  destruct (mg_wf _ _ Hm) as [_ [Hs _]].
  pose proof (mg_seg _ _ Hm) as Hseg.
  apply seg_app in Hseg as [_ (Hs1&Hs2&_)]. rewrite Z.add_0_l in Hs1, Hs2.
  apply sizes_app in Hs as [Hp [Hb Hq]].
  apply sizes_lens, total_nonneg in Hp. apply sizes_lens, total_nonneg in Hq.
  rewrite total_app in Hsm. cbn [total b_len] in *.
  split_and!; try done; try lia.
  intros k Hk. eapply managed_inb; [done|]. rewrite total_app. cbn. lia.
Qed.

(** The merge with the block in front. *)
Lemma free_left (Q : Z -> heap -> Prop) :
  Q (total (merge_left pre).1) h ->
  wp (if total pre =? 0 then ret (total pre) else
      let! d := load (wrap64 (total pre - 1)) in
      if is_occupied d then ret (total pre)
      else load (wrap64 (total pre - 1))) Q h.
Proof using Hm.
  intros HQ. destruct free_facts as (?&?&?&?&Hin&_&_).
  pose proof (mg_seg _ _ Hm) as Hseg. apply seg_app in Hseg as [Hseg _].
  destruct (mg_wf _ _ Hm) as [_ [Hs _]]. apply sizes_app in Hs as [Hp _].
  apply sizes_lens in Hp.
  destruct (last pre) as [b|] eqn:Hlast.
  - apply last_Some in Hlast as [pre0 Hpre].
    rewrite Hpre in Hseg, Hp. apply seg_app in Hseg as [_ (_&Hw&_)].
    apply Forall_app in Hp as [Hp0 Hb]. apply Forall_cons in Hb as [Hb _].
    pose proof (total_nonneg _ Hp0).
    assert (Ht : total pre = total pre0 + b_len b) by (rewrite Hpre, total_app; cbn; lia).
    rewrite (proj2 (Z.eqb_neq _ _)) by lia. wrap_small.
    wp_pure. apply wp_load; [apply Hin; lia|].
    replace (0 + total pre0 + b_len b - 1) with (total pre - 1) in Hw by lia.
    rewrite Hw, is_occupied_tag by lia.
    destruct (merge_left_spec pre) as [[HL Hocc]|(pre'&l&HL&Hp')]; rewrite HL in HQ; cbn in HQ.
    + rewrite Hpre, last_snoc in Hocc. rewrite (Hocc b eq_refl). by wp_pure.
    + rewrite Hpre in Hp'. apply app_inj_tail in Hp' as [-> ->].
      cbn. apply wp_load; [apply Hin; lia|]. rewrite Hw.
      replace (0 + total pre') with (total pre') by lia. done.
  - apply last_None in Hlast. rewrite Hlast in *. cbn. by wp_pure.
Qed.

(** The merge with the block behind. *)
Lemma free_right (Q : Z -> heap -> Prop) :
  Q (total pre + len + (merge_right post).1 - 1) h ->
  wp (let! d := load (wrap64 (total pre + len - 1 + 1)) in
      if is_occupied d then ret (total pre + len - 1)
      else load (wrap64 (total pre + len - 1 + 1))) Q h.
Proof using Hm.
  intros HQ. destruct free_facts as (?&?&?&?&Hin&_&_). wrap_small.
  replace (total pre + len - 1 + 1) with (total pre + len) by lia.
  wp_pure. apply wp_load; [apply Hin; lia|].
  pose proof (mg_seg _ _ Hm) as Hseg. apply seg_app in Hseg as [_ (_&_&Hseg)].
  cbn [b_len] in Hseg. rewrite Z.add_0_l in Hseg.
  destruct (mg_wf _ _ Hm) as [_ [Hs _]].
  apply sizes_app in Hs as [_ [_ Hq]]. apply sizes_lens in Hq.
  destruct (merge_right_spec post) as [[HR Hocc]|(l&post'&HR&Hpost)]; rewrite HR in HQ.
  - assert (Hd : is_occupied (word h (total pre + len)) = true).
    { destruct post as [|b r].
      - pose proof (mg_sent _ _ Hm) as Hs. rewrite total_app in Hs. cbn in Hs.
        replace (total pre + len) with (total pre + (len + 0)) by lia. by rewrite Hs.
      - destruct Hseg as [-> _]. apply Forall_cons in Hq as [Hb Hr%total_nonneg].
        cbn in *. rewrite is_occupied_tag by lia. by apply Hocc. }
    rewrite Hd. wp_pure. cbn in HQ. by replace (total pre + len - 1)
      with (total pre + len + 0 - 1) by lia.
  - rewrite Hpost in Hseg, Hq. destruct Hseg as [Hw _].
    change (b_occ (Block Free l)) with false in Hw. rewrite tag_false in Hw. cbn in Hw.
    apply Forall_cons in Hq as [Hb Hr%total_nonneg]. rewrite Hpost in *. cbn in *.
    rewrite Hw, is_occupied_spec, (proj2 (Z.leb_gt _ _)) by lia.
    apply wp_load; [apply Hin; lia|]. by rewrite Hw.
Qed.

(** ** The released block *)

Notation first_word := (total (merge_left pre).1).
Notation last_word := (total pre + len + (merge_right post).1 - 1).

Lemma release_range :
  Forall (fun b => 1 <= b_len b) (merge_left pre).1 /\ Forall (fun b => 1 <= b_len b) (merge_right post).2 /\
  0 <= first_word <= total pre /\ total pre + len - 1 <= last_word <= total pre + len + total post - 1 /\
  first_word + (merge_left pre).2 = total pre /\ (merge_right post).1 + total (merge_right post).2 = total post.
Proof using Hm.
  destruct free_facts as (Hlen&_). destruct (mg_wf _ _ Hm) as [_ Hwf]. pose proof (wf_lens _ Hwf) as Hl0.
  apply Forall_app in Hl0 as [HlP Hl0]. apply Forall_cons in Hl0 as [_ HlQ].
  pose proof (release_wf _ _ _ _ Hwf eq_refl Hlen) as Hl'%wf_lens. cbn [b_len] in Hl'. rewrite release_merge in Hl'.
  apply Forall_app in Hl' as [HlL Hl']. apply Forall_cons in Hl' as [_ HlR].
  pose proof (total_nonneg _ HlL). pose proof (total_nonneg _ HlR).
  pose proof (merge_left_total pre). pose proof (merge_right_total post).
  pose proof (merge_left_nonneg _ HlP). pose proof (merge_right_nonneg _ HlQ). split_and!; try done; lia.
Qed.

(** The words of the heap after the two ends of the block were written. *)
Lemma released_seg w : word w first_word = last_word -> word w last_word = first_word ->
  (forall k, k < first_word \/ first_word < k < last_word \/ last_word < k -> word w k = word h k) ->
  seg (word w) 0 (release pre len post).
Proof using Hm.
  intros Hw1 Hw2 Hout. destruct release_range as (HlL & HlR & Hr1 & Hr2 & HtL & HtR).
  pose proof (mg_seg _ _ Hm) as Hseg. apply seg_app in Hseg as [HsP (_&_&HsQ)].
  rewrite release_merge. apply seg_app. split.
  { assert (HsL : seg (word h) 0 (merge_left pre).1).
    { destruct (merge_left_spec pre) as [[HL _]|(pre'&l&HL&Hp')]; rewrite HL; [done|].
      rewrite Hp' in HsP. by apply seg_app in HsP as [HsP _]. }
    eapply seg_frame; [exact HlL| |exact HsL]. intros k Hk. apply Hout. lia. }
  rewrite Z.add_0_l. cbn [seg b_len]. change (b_occ (Block Free _)) with false. rewrite !tag_false.
  replace (first_word + ((merge_left pre).2 + len + (merge_right post).1)) with (last_word + 1) by lia.
  split_and!; [rewrite Hw1; lia|rewrite <-Hw2; f_equal; lia|].
  assert (HsR : seg (word h) (last_word + 1) (merge_right post).2).
  { rewrite Z.add_0_l in HsQ. cbn [b_len] in HsQ.
    destruct (merge_right_spec post) as [[HR _]|(l&post'&HR&Hp')]; rewrite HR in *; cbn [fst snd] in *.
    - by replace (total pre + len + 0 - 1 + 1) with (total pre + len) by lia.
    - rewrite Hp' in HsQ. destruct HsQ as (_&_&HsQ). cbn [b_len] in HsQ.
      by replace (total pre + len + l - 1 + 1) with (total pre + len + l) by lia. }
  eapply seg_frame; [exact HlR| |exact HsR]. intros k Hk. apply Hout. lia.
Qed.

(** What belongs to somebody else lies outside the block. *)
Lemma released_foreign k : foreign (release pre len post) k -> k < first_word \/ first_word < k < last_word \/ last_word < k.
Proof using Hm.
  intros Hk. destruct release_range as (HlL & HlR & Hr1 & Hr2 & HtL & HtR).
  assert (Hk' : k < 0 \/ total (release pre len post) < k \/
    held 0 (merge_left pre).1 k \/ held (last_word + 1) (merge_right post).2 k).
  { destruct Hk as [?|[?|Hk]]; [by left|by right; left|]. right; right.
    rewrite release_merge, held_app in Hk. destruct Hk as [?|[[? _]|Hk]]; [by left|done|].
    right. cbn [b_len] in Hk. refine (eq_ind _ (fun j => held j _ k) Hk _ _). lia. }
  rewrite (release_total pre len post (Block Used len) eq_refl), total_app in Hk'. cbn in Hk'.
  destruct Hk' as [?|[?|[Hk'|Hk']]]; [lia|lia| |]; apply held_range in Hk'; try done; lia.
Qed.

Lemma free_spec debug :
  wp (dandelion_free debug (payload_addr h (total pre))) (fun _ h' =>
    exists w, h' = set_words w h /\ managed h' (release pre len post) /\
      forall k, foreign (release pre len post) k -> word h' k = word h k) h.
Proof using Hm.
  destruct free_facts as (Hlen&Hp&Hq&Hsm&Hin&Hw1&Hw2). destruct release_range as (HlL & HlR & Hr1 & Hr2 & HtL & HtR).
  unfold dandelion_free, payload_addr. wp_pure.
  replace ((free_root h + 8 * (total pre + 1) - free_root h) / 8)
    with (total pre + 1) by (Z.div_mod_to_equations; lia).
  wrap_small. replace (total pre + 1 - 1) with (total pre) by lia.
  apply wp_load; [apply Hin; lia|].
  rewrite Hw1, is_occupied_tag, untag, andb_false_r by lia. wp_pure.
  apply wp_load; [apply Hin; lia|].
  rewrite Hw2, is_occupied_tag, untag, andb_false_r, Z.eqb_refl, andb_false_r by lia.
  wp_pure. apply free_left. cbv beta. apply wp_bind, free_right.
  wp_pure. apply wp_store; [apply Hin; lia|]. wp_pure.
  apply wp_store; [apply inb_upd, Hin; lia|].
  set (h' := upd (upd h first_word last_word) last_word first_word).
  assert (Hout : forall k, k < first_word \/ first_word < k < last_word \/ last_word < k -> word h' k = word h k).
  { intros k Hk. unfold h'. words. }
  exists (words h'). split; [done|]. change (set_words (words h') h) with h'.
  split; [|intros k Hk; by apply Hout, released_foreign].
  pose proof (release_wf _ _ _ _ (proj2 (mg_wf _ _ Hm)) eq_refl Hlen) as Hwf'. cbn [b_len] in Hwf'.
  apply (managed_words _ _ _ _ Hm); [by apply release_total| |done| |].
  - rewrite release_merge. by intros [_ ?]%app_nil.
  - change (set_words (words h') h) with h'. apply (released_seg h'); [unfold h'; words|unfold h'; words|exact Hout].
  - rewrite total_app. cbn [total b_len]. change (set_words (words h') h) with h'.
    rewrite Hout by lia. pose proof (mg_sent _ _ Hm) as Hs. rewrite total_app in Hs. exact Hs.
Qed.
End free.

(** * [dandelion_alloc] *)

Definition same_env (h h' : heap) : Prop :=
  heap_begin h' = heap_begin h /\ heap_end h' = heap_end h.

(** Memory that somebody else relies on: below the break, and, once memory is
    managed, either outside the managed area or payload of a block in use. *)
Definition client (h : heap) (bs : list block) (x : Z) : Prop :=
  x mod 8 = 0 /\ x < break_of h /\
  (bs = [] \/ exists k, x = free_root h + 8 * k /\ foreign bs k).

Definition keeps (h : heap) (bs : list block) (h' : heap) : Prop :=
  forall x, client h bs x -> word_at (words h') x = word_at (words h) x.

(** Whoever relied on a word can still rely on it, and payload stays payload. *)
Definition stays (h : heap) (bs : list block) (h' : heap) (bs' : list block) : Prop :=
  (forall x, client h bs x -> client h' bs' x) /\
  (forall k, held 0 bs k -> held 0 bs' k).

(** A successful request for [n] words aligned to [a] words: the payload starts
    at index [q], a multiple of the alignment; its words are in use afterwards
    and nobody relied on them before; every other block is still handed out. *)
Definition handed_out (h : heap) (bs : list block) (n a p : Z)
    (h' : heap) (bs' : list block) : Prop :=
  exists q, p = free_root h' + 8 * q /\ q mod a = 0 /\
    starts 0 bs' ≡ₚ q :: starts 0 bs /\
    (forall k, q <= k < q + n ->
       held 0 bs' k /\ ~ client h bs (free_root h' + 8 * k)).

Lemma keeps_word h bs h' :
  managed h bs -> free_root h' = free_root h ->
  (forall k, free_root h + 8 * k < alloc_base h -> foreign bs k ->
     word h' k = word h k) -> keeps h bs h'.
Proof.
  intros Hm Hr Hk x (_ & Hx & [->|(k&->&Hf)]); [by destruct (mg_wf _ _ Hm)|].
  destruct (managed_break _ _ Hm) as (Hb&_). specialize (Hk k ltac:(lia) Hf).
  unfold word in Hk. by rewrite Hr in Hk.
Qed.

Lemma carve_held pre len skip n post k :
  0 <= skip -> skip + n + 2 <= len ->
  total pre + skip < k < total pre + skip + n + 1 ->
  held 0 (carve pre len skip n post) k.
Proof.
  intros Hs Hlen Hk. rewrite carve_skipped. apply held_app. right.
  rewrite skipped_total, Z.add_0_l. apply held_app. left.
  case_bool; cbn; left; (split; [done|lia]).
Qed.

Lemma carve_held_mono pre len skip n post k :
  0 <= skip -> held 0 (pre ++ Block Free len :: post) k ->
  held 0 (carve pre len skip n post) k.
Proof.
  intros Hs Hk. apply held_app_cons in Hk as [Hk|Hk]; [| |done];
    rewrite carve_skipped; apply held_app.
  - left. by apply skipped_held.
  - right. apply held_app. right. rewrite skipped_total.
    refine (eq_ind _ (fun j => held j post k) Hk _ _).
    case_bool; cbn; lia.
Qed.

Lemma carve_starts_perm pre len skip n post :
  starts 0 (carve pre len skip n post) ≡ₚ
  (total pre + skip + 1) :: starts 0 (pre ++ Block Free len :: post).
Proof.
  rewrite carve_starts, starts_app. cbn. rewrite <-Permutation_middle. done.
Qed.

(** Words of a free block are nobody's. *)
Lemma free_not_held pre len post k i :
  Forall (fun b => 1 <= b_len b) pre -> Forall (fun b => 1 <= b_len b) post ->
  i = total pre -> i <= k < i + len -> ~ held 0 (pre ++ Block Free len :: post) k.
Proof.
  intros Hp Hq -> Hk Hh. apply held_app_cons in Hh as [Hh|Hh]; [| |done].
  - apply held_range in Hh; [lia|done].
  - apply held_range in Hh; [cbn in Hh; lia|done].
Qed.

Lemma fit_spec h pre len post n a :
  let bs := pre ++ Block Free len :: post in
  managed h bs -> 1 <= a <= 2 -> 1 <= n -> pad a (total pre + 1) + n + 2 <= len ->
  wp (alloc_place (total pre) n a) (fun p h' => exists bs',
    managed h' bs' /\ same_env h h' /\ free_root h' = free_root h /\
    exit_status h' = exit_status h /\ p <> NULL /\
    (keeps h bs h' /\ stays h bs h' bs') /\ handed_out h bs n a p h' bs') h.
Proof.
  intros bs Hm Ha Hn Hlen. pose proof (managed_small _ _ Hm) as Hsm.
  pose proof (pad_spec a (total pre + 1) ltac:(lia)) as [Hpad Hpada].
  pose proof (mg_wf _ _ Hm) as [_ Hwf]. pose proof (wf_lens _ Hwf) as Hl.
  apply Forall_app in Hl as [Hl1 Hl2]. apply Forall_cons in Hl2 as [_ Hl2].
  pose proof (total_nonneg _ Hl1). pose proof (total_nonneg _ Hl2).
  pose proof (mg_bounds _ _ Hm) as Hbd. pose proof (hb_begin _ Hbd).
  destruct (mg_root _ _ Hm) as [_ Hlo].
  eapply wp_mono; [by apply (place_spec _ _ len post)|].
  intros p h' (w & -> & -> & Hm' & Hk). eexists. split_and!; [exact Hm'|done|done|done|..].
  - unfold NULL. lia.
  - apply keeps_word; [done|done|]. intros k _. apply Hk.
  - split; [|intros k; apply carve_held_mono; lia].
    intros x (Hx8 & Hx & [?|(k & -> & Hf)]);
      [by destruct (app_cons_not_nil pre post (Block Free len))|].
    split; [done|]. split; [done|]. right. exists k. split; [done|].
    destruct Hf as [?|[Hf|Hf]]; [by left|right; left; by rewrite carve_total|right; right].
    apply carve_held_mono; [lia|done].
  - exists (total pre + pad a (total pre + 1) + 1). cbn [free_root set_words].
    split_and!; [done| |apply carve_starts_perm|].
    + replace (total pre + pad a (total pre + 1) + 1)
        with (total pre + 1 + pad a (total pre + 1)) by lia. done.
    + intros k Hkk. split; [apply carve_held; lia|].
      intros (_ & _ & [?|(j & Hj & Hf)]); [by destruct (app_cons_not_nil pre post (Block Free len))|].
      assert (j = k) as -> by lia. unfold bs in *. rewrite total_app in Hsm. cbn in Hsm.
      destruct Hf as [?|[Hf|Hf]]; [lia|rewrite total_app in Hf; cbn in Hf; lia|].
      by eapply (free_not_held pre len post k (total pre)) in Hf; [| | | |lia].
Qed.

(** ** The stuck block

    A free block of one word at index 0 (the skip of a 16-byte aligned first
    allocation) is never big enough, but the room computed for it wraps
    around. *)
Lemma degenerate_spec h post n :
  managed h (Block Free 1 :: post) -> 1 <= n <= 2 ^ 60 ->
  wp (alloc_place 0 n 2) (fun p h' => p = NULL /\
    exists w, h' = set_exit 1 (set_words w h) /\
    forall k, word h' k = word h k) h.
Proof.
  intros Hm Hn.
  assert (Hin : inb h 0).
  { eapply managed_inb; [done|]. pose proof (managed_small _ _ Hm). lia. }
  assert (Hw : word h 0 = 0) by apply (mg_seg _ _ Hm).
  unfold alloc_place. wp_pure. apply wp_load; [done|]. rewrite Hw.
  assert (Hskip : alloc_skip 0 1 = (let! _ := store 0 0 in store 0 0)) by done.
  change (wrap64 (0 + 1) mod 2 =? 0) with false. cbv beta iota zeta.
  change (2 - wrap64 (0 + 1) mod 2) with 1. change (wrap64 (0 + 1)) with 1.
  rewrite Hskip. wp_pure.
  apply wp_store; [done|]. wp_pure. apply wp_store; [by apply inb_upd|].
  wrap_small. rewrite (proj2 (Z.ltb_lt _ _)) by lia. wp_pure. split; [done|].
  eexists. split; [reflexivity|]. intros k.
  change (word (set_exit (int32 1) (upd (upd h 0 0) 0 0)) k)
    with (word (upd (upd h 0 0) 0 0) k). words. by subst.
Qed.

(** ** Growing, seen by the clients *)

Section grown.
Context (h : heap) (bs : list block) (m : Z) (r : option Z) (h1 : heap).
Context (Hm : managed h bs) (Hm5 : 5 <= m) (Hg : grown h bs m r h1).

Lemma grown_block : exists pre len,
  grow bs (gap_of h bs) m = (pre, len) /\ r = Some (total pre) /\
  managed h1 (pre ++ [Block Free len]) /\ m - 2 <= len /\ 0 <= gap_of h bs /\
  free_root h1 = free_root h /\ same_env h h1 /\ exit_status h1 = exit_status h /\
  alloc_base h1 = alloc_base h + 8 * m /\ keeps h bs h1.
Proof using Hm Hm5 Hg.
  destruct Hg as (pre & len & w & Hgr & -> & -> & Hm1 & Hk).
  destruct (gap_of_spec _ _ Hm) as [Hgap _]. pose proof (mg_wf _ _ Hm) as [Hne Hwf].
  destruct (grow_wf _ _ _ _ _ Hgr Hwf Hne Hgap Hm5) as [_ Hlen].
  exists pre, len. split_and!; try done. by apply keeps_word.
Qed.

(** Payload stays payload. *)
Lemma grown_held pre len k :
  grow bs (gap_of h bs) m = (pre, len) -> held 0 bs k -> held 0 (pre ++ [Block Free len]) k.
Proof using Hm.
  intros Hgr Hk. destruct (gap_of_spec _ _ Hm) as [Hgap _].
  destruct (mg_wf _ _ Hm) as [_ Hl%wf_lens].
  destruct (grow_held bs (gap_of h bs) m pre len k Hgr Hgap) as [|[_ ?]]; [by left|done|].
  apply held_range in Hk; [lia|done].
Qed.

(** Nobody loses memory when the managed area grows. *)
Lemma grown_client pre len x :
  grow bs (gap_of h bs) m = (pre, len) -> managed h1 (pre ++ [Block Free len]) ->
  client h bs x -> client h1 (pre ++ [Block Free len]) x.
Proof using Hm Hm5 Hg.
  intros Hgr Hm1 (Hx8 & Hx & [->|(k & -> & Hf)]); [by destruct (mg_wf _ _ Hm)|].
  destruct grown_block as (pre' & len' & Hgr' & _ & _ & _ & Hgap & Hroot & _ & _ & Hbase & _).
  rewrite Hgr in Hgr'. injection Hgr' as <- <-.
  destruct (managed_break _ _ Hm) as (Hb&_). destruct (managed_break _ _ Hm1) as (Hb1&_).
  destruct (gap_of_spec _ _ Hm) as [_ Hbs].
  split; [done|]. split; [lia|]. right. exists k. split; [by rewrite Hroot|].
  destruct Hf as [?|Hf]; [by left|].
  destruct (grow_held bs (gap_of h bs) m pre len k Hgr Hgap) as [Hh|[Hg0 Ht]].
  - destruct Hf as [Hf|Hf]; [right|by left]. lia.
  - by right; right.
  - lia.
Qed.
End grown.

Lemma keeps_trans h bs h1 bs1 h2 :
  keeps h bs h1 -> (forall x, client h bs x -> client h1 bs1 x) ->
  keeps h1 bs1 h2 -> keeps h bs h2.
Proof. intros H1 Hc H2 x Hx. rewrite H2 by auto. auto. Qed.

Lemma handed_out_mono h bs h1 bs1 n a p h2 bs2 :
  starts 0 bs1 = starts 0 bs -> (forall x, client h bs x -> client h1 bs1 x) ->
  handed_out h1 bs1 n a p h2 bs2 -> handed_out h bs n a p h2 bs2.
Proof.
  intros Hs Hc (q & Hp & Hq & Hst & Hk). exists q. rewrite <-Hs.
  split_and!; [done..|]. intros k Hkk. destruct (Hk k Hkk) as [? Hn]. split; [done|].
  intros Hc'. by apply Hn, Hc.
Qed.

(** No free block has room for [n] words aligned to [a] words. *)
Definition no_fit (n a : Z) (bs : list block) : Prop :=
  forall pre len post, bs = pre ++ Block Free len :: post ->
    len < pad a (total pre + 1) + n + 2.

(** The result of a request for [n] words aligned to [a] words, in every
    case. *)
Definition alloc_result (h : heap) (bs : list block) (n a p : Z) (h' : heap) : Prop :=
  exists bs', repr h' bs' /\ same_env h h' /\
    (bs = [] \/ free_root h' = free_root h) /\
    (keeps h bs h' /\ stays h bs h' bs') /\
    if p =? NULL then
      starts 0 bs' = starts 0 bs /\
      ((exit_status h' = exit_status h /\ no_fit n a bs /\
        heap_end h < break_of h + get_sbrk_size n a) \/
       (exited h' = true /\ exit_code h' = 1 /\ a = 2 /\
        head bs = Some (Block Free 1)))
    else exit_status h' = exit_status h /\ handed_out h bs n a p h' bs'.

Lemma managed_repr h bs : managed h bs -> repr h bs.
Proof. intros Hm. destruct bs; [|done]. by destruct (mg_wf _ _ Hm). Qed.

Lemma repr_managed h bs : repr h bs -> bs <> [] -> managed h bs.
Proof. by destruct bs. Qed.

Lemma managed_exit h bs c : managed h bs -> managed (set_exit c h) bs.
Proof. intros [[] [] [] ? ? ? ? ?]. split; try done; by split. Qed.

Lemma managed_same_words h bs w :
  managed h bs -> (forall k, word (set_words w h) k = word h k) ->
  managed (set_words w h) bs.
Proof.
  intros Hm Hw. pose proof (mg_wf _ _ Hm) as [Hne Hwf].
  apply (managed_words _ _ _ _ Hm); [done|done|done| |rewrite Hw; apply (mg_sent _ _ Hm)].
  eapply seg_frame; [by apply wf_lens|by intros; apply Hw|apply (mg_seg _ _ Hm)].
Qed.

(** When the search keeps its initial value, nothing fits. *)
Lemma search_no_fit h bs n a s :
  managed h bs -> 1 <= n -> 1 <= a <= 2 ->
  best_fit n a 0 bs (MAX_VAL, MAX_VAL) = (s, MAX_VAL) -> no_fit n a bs.
Proof.
  intros Hm Hn Ha Hb pre len post Hbs. apply Z.nle_gt. intros Hlen.
  pose proof (managed_small _ _ Hm) as Hsm. destruct (mg_wf _ _ Hm) as [_ Hl%wf_lens].
  rewrite Hbs in Hsm, Hl. apply Forall_app in Hl as [Hl1%total_nonneg Hl2].
  apply Forall_cons in Hl2 as [_ Hl2%total_nonneg].
  rewrite total_app in Hsm. cbn [total b_len] in Hsm.
  pose proof (pad_spec a (total pre + 1) ltac:(lia)) as [Hpad _].
  apply best_fit_gen in Hb as (_ & _ & Hmin).
  specialize (Hmin pre (Block Free len) post Hbs eq_refl).
  rewrite Z.add_0_l in Hmin. unfold room, MAX_VAL, size_max in Hmin. cbn [b_len] in Hmin.
  rewrite wrap64_small in Hmin by lia. lia.
Qed.

Lemma managed_result h bs n a :
  managed h bs -> 1 <= n <= 2 ^ 60 -> 1 <= a <= 2 ->
  wp (alloc_managed n a) (fun p h' => alloc_result h bs n a p h') h.
Proof.
  intros Hm Hn Ha. pose proof (managed_small _ _ Hm) as Hsm.
  destruct (get_sbrk_size_spec n a Hn Ha) as (m & Hsz & Hmn).
  destruct (managed_break _ _ Hm) as (Hbr & _).
  unfold alloc_managed. wp_pure. eapply wp_mono; [apply search_spec; [done|lia]|].
  intros [s sz] h0 [-> Hbest]. symmetry in Hbest.
  pose proof (fun H => search_no_fit h bs n a s Hm (proj1 Hn) Ha H) as Hnofit.
  pose proof Hbest as Hbest'. apply best_fit_gen in Hbest' as (_ & Hcase & _).
  destruct Hcase as [Hc|(pre & b & post & Hbs & Hb & Hs & Hsz' & Hfit)].
  - injection Hc as -> ->. rewrite Z.eqb_refl. wp_pure.
    eapply wp_mono; [by apply grow_spec|]. intros r h1 Hg. cbv beta in Hg.
    destruct (_ <=? _) eqn:Efit; bool_to_prop.
    + destruct (grown_block h bs m r h1 Hm ltac:(lia) Hg)
        as (pre & len & Hgr & -> & Hm1 & Hlen & Hgap & Hroot & [He1 He2] & Hex & Hba & Hk).
      pose proof (pad_spec a (total pre + 1) ltac:(lia)) as [Hpad _].
      eapply wp_mono; [apply (fit_spec _ pre len []); [done|done|lia|lia]|].
      intros p h2 (bs2 & Hm2 & [? ?] & Hr2 & Hex2 & Hp & Hk2 & Hout).
      assert (Hcl : forall x, client h bs x -> client h1 (pre ++ [Block Free len]) x)
        by (intros x; by apply (grown_client h bs m (Some (total pre)) h1 Hm ltac:(lia) Hg)).
      exists bs2. split; [by apply managed_repr|]. split; [split; congruence|].
      split; [right; congruence|].
      destruct Hk2 as [Hk2 [Hst2 Hh2]].
      split; [split; [by eapply keeps_trans; [..|apply Hk2]|split]|].
      { intros x Hx. by apply Hst2, Hcl. }
      { intros k Hkk. apply Hh2. by apply (grown_held h bs m Hm). }
      rewrite (proj2 (Z.eqb_neq _ _)) by done.
      split; [congruence|]. eapply handed_out_mono; [|exact Hcl|exact Hout].
      rewrite starts_app. cbn. rewrite app_nil_r. by apply (grow_starts bs (gap_of h bs) m _ len).
    + destruct Hg as [-> ->]. wp_pure. exists bs. cbn.
      split_and!; [by apply managed_repr|done|by right|by intros x|by split; intros|done|].
      left. split_and!; [done|by apply Hnofit|lia].
  - rewrite (proj2 (Z.eqb_neq _ _)) by lia. wp_pure.
    destruct b as [[] len]; try done. cbn [b_len] in *. subst s. rewrite Z.add_0_l in *.
    pose proof (mg_wf _ _ Hm) as [_ Hwf]. rewrite Hbs in Hwf, Hsm.
    destruct (room_cases n a pre len post Hwf Ha ltac:(lia) ltac:(lia) ltac:(lia))
      as [[Hr Hroom]|(-> & -> & -> & Hr)].
    + rewrite Hbs in Hm |- *. eapply wp_mono; [by apply fit_spec; [..|lia|]|].
      intros p h2 (bs2 & Hm2 & ? & Hr2 & Hex2 & Hp & Hk2 & Hout). exists bs2.
      split_and!; [by apply managed_repr|done|by right|by destruct Hk2..|].
      by rewrite (proj2 (Z.eqb_neq _ _)) by done.
    + cbn [app total] in *. rewrite Hbs in Hm |- *.
      eapply wp_mono; [by eapply degenerate_spec|].
      intros p h2 (-> & w & -> & Hw). exists (Block Free 1 :: post).
      assert (Hm2 : managed (set_words w h) (Block Free 1 :: post))
        by (by apply managed_same_words).
      split; [by apply managed_exit|]. split; [done|]. split; [by right|]. split; [split|].
      * apply keeps_word; [done|done|]. intros k _ _. apply Hw.
      * done.
      * split; [done|]. by right.
Qed.
