(* ===== verification/AllocSession.v ===== *)
(** The contract of the allocator: what a single call of [dandelion_alloc] or
    [dandelion_free] does, when a request succeeds, and what holds after any
    sequence of calls and of writes by the callers. *)
From S2P Require Import Prelude Heap Alloc Blocks AllocSafe AllocGrow AllocCorrect.

(** * Sessions: a caller using the allocator *)

(** [s_live] lists the live allocations: pointer and size in words. *)
Record session := Session { s_heap : heap; s_live : list (Z * Z) }.

Definition write_word (x v : Z) (h : heap) : heap := set_words (<[x := v]> (words h)) h.

(** A caller requests memory, with any alignment C objects have; releases what
    it was given; moves the break itself; or writes to a word it owns. *)
Inductive step (debug : bool) : session -> session -> Prop :=
| step_alloc h L size align p h' :
    dandelion_alloc size align h = Ret p h' ->
    0 <= size < 2 ^ 64 -> 0 <= align <= 16 ->
    step debug (Session h L)
      (Session h' (if p =? NULL then L else (p, local_size_of size) :: L))
| step_free h L1 p n L2 h' :
    dandelion_free debug p h = Ret tt h' ->
    step debug (Session h (L1 ++ (p, n) :: L2)) (Session h' (L1 ++ L2))
| step_sbrk h L size p h' :
    dandelion_sbrk size h = Ret p h' -> 0 <= size < 2 ^ 63 ->
    step debug (Session h L) (Session h' L)
| step_write h L p n i v :
    (p, n) ∈ L -> 0 <= i < n ->
    step debug (Session h L) (Session (write_word (p + 8 * i) v h) L).

(** Sessions that start after [dandelion_init] with the heap [lo, hi). *)
Inductive reachable (debug : bool) (lo hi : Z) : session -> Prop :=
| reach_init w : reachable debug lo hi (Session (init_heap lo hi w) [])
| reach_step s s' : reachable debug lo hi s -> step debug s s' -> reachable debug lo hi s'.

(** * One call *)

Lemma local_size_range size : 0 < size < 2 ^ 63 -> 1 <= local_size_of size <= 2 ^ 60.
Proof. intros. unfold local_size_of. rewrite wrap64_small by lia. Z.div_mod_to_equations; lia. Qed.

Lemma local_size_bytes size : 0 <= size < 2 ^ 63 -> size <= 8 * local_size_of size < size + 8.
Proof. intros. unfold local_size_of. rewrite wrap64_small by lia. Z.div_mod_to_equations; lia. Qed.

Lemma local_alignment_range align :
  0 <= align <= 16 -> local_alignment_of align = if 8 <? align then 2 else 1.
Proof.
  intros. unfold local_alignment_of. rewrite wrap64_small by lia.
  destruct (8 <? align) eqn:E; bool_to_prop; case_bool; Z.div_mod_to_equations; lia.
Qed.

Lemma is_occupied_size size : 0 <= size < 2 ^ 64 ->
  is_occupied size = (2 ^ 63 <=? size).
Proof. apply is_occupied_spec. Qed.

Lemma repr_bounds h bs : repr h bs -> heap_bounds h.
Proof. destruct bs; [by intros []|]. apply mg_bounds. Qed.

Lemma init_client h h1 m :
  repr h [] -> free_root h1 = break_of h -> alloc_base h1 = break_of h + 8 * m ->
  0 < m -> forall x, client h [] x -> client h1 [Block Free (m - 1)] x.
Proof.
  intros [Hb _] Hr Ha Hm x (Hx8 & Hx & _). destruct (break_spec h Hb) as [Hb8 Hbr].
  pose proof (hb_begin _ Hb). split; [done|]. split.
  - unfold break_of at 1. rewrite (proj2 (Z.eqb_neq _ _)) by lia. lia.
  - right. exists ((x - break_of h) / 8). rewrite Hr.
    split; [|left]; Z.div_mod_to_equations; lia.
Qed.

Lemma alloc_cases h bs size align :
  repr h bs -> 0 < size < 2 ^ 63 -> 0 <= align <= 16 ->
  wp (dandelion_alloc size align) (fun p h' =>
    alloc_result h bs (local_size_of size) (local_alignment_of align) p h') h.
Proof.
  intros Hr Hs Ha. pose proof (local_size_range size Hs) as Hn.
  assert (Hal : 1 <= local_alignment_of align <= 2)
    by (rewrite local_alignment_range by done; case_bool; lia).
  unfold dandelion_alloc. rewrite is_occupied_size, (proj2 (Z.leb_gt _ _)) by lia.
  rewrite (proj2 (Z.eqb_neq _ _)) by lia. wp_pure.
  set (n := local_size_of size) in *. set (a := local_alignment_of align) in *.
  destruct (decide (bs = [])) as [->|Hbs].
  - destruct Hr as [Hb Hroot]. rewrite Hroot, Z.eqb_refl.
    destruct (get_sbrk_size_spec n a Hn Hal) as (m & Hsz & Hmn).
    eapply wp_mono; [by apply (init_spec h n a m)|]. intros ok h1 Hi. cbv beta in Hi.
    destruct (_ <=? _) eqn:Efit; bool_to_prop.
    + destruct Hi as (-> & Hr1 & (w & Hh1) & Hm1 & Hk1). cbn [negb].
      assert (Hcl := init_client h h1 m (conj Hb Hroot) Hr1
                       ltac:(by rewrite Hh1) ltac:(lia)).
      eapply wp_mono; [by apply managed_result|]. intros p h2 (bs2&Hr2&He2&_&[Hk2 [Hst2 _]]&Hp).
      assert (He1 : same_env h h1) by by rewrite Hh1.
      assert (Hx1 : exit_status h1 = exit_status h) by by rewrite Hh1.
      exists bs2. split; [done|]. split; [destruct He1, He2; split; congruence|].
      split; [by left|].
      split; [split|].
      * eapply keeps_trans; [|exact Hcl|exact Hk2]. intros x (_&Hx&_). by apply Hk1.
      * split; [|by intros]. intros x Hx. by apply Hst2, Hcl.
      * destruct (p =? NULL).
        -- destruct Hp as [Hst Hp]. split; [done|]. left.
           destruct Hp as [(_ & Hp & _)|(_&_&_&Hhd)].
           ++ specialize (Hp [] (m - 1) [] eq_refl).
              pose proof (pad_spec a (total [] + 1) ltac:(lia)). lia.
           ++ cbn in Hhd. injection Hhd as Hhd. lia.
        -- destruct Hp as [Hex Ho]. split; [congruence|].
           eapply handed_out_mono; [|exact Hcl|exact Ho]. done.
    + destruct Hi as [-> ->]. cbn [negb]. wp_pure. exists [].
      assert (Hbb : break_of (set_alloc_base (break_of h) h) = break_of h).
      { destruct (break_spec h Hb) as [_ ?]. pose proof (hb_begin _ Hb). unfold break_of at 1. cbn.
        by rewrite (proj2 (Z.eqb_neq _ _)) by lia. }
      split; [|split; [done|split; [by left|split; [split|]]]].
      * destruct (break_spec h Hb). split; [|done]. by apply heap_bounds_base.
      * by intros x.
      * split; [|done]. intros x (?&?&_). split; [done|]. rewrite Hbb. split; [done|by left].
      * split; [done|]. left. split_and!; [done|by intros []|lia].
  - assert (Hm : managed h bs) by by apply repr_managed.
    assert (Hr0 : free_root h <> NULL).
    { destruct (mg_root _ _ Hm). pose proof (hb_begin _ (mg_bounds _ _ Hm)). unfold NULL. lia. }
    rewrite (proj2 (Z.eqb_neq _ _)) by done. wp_pure. cbn [negb]. apply managed_result; done || lia.
Qed.

(** * Handed-out payloads *)

Lemma starts_block bs : forall i q, q ∈ starts i bs ->
  exists pre len post, bs = pre ++ Block Used len :: post /\ q = i + total pre + 1.
Proof.
  induction bs as [|b bs IH]; intros i q Hq; cbn [starts] in Hq; [by apply elem_of_nil in Hq|].
  apply elem_of_app in Hq as [Hq|Hq].
  - case_bool_decide as Hk; [|by apply elem_of_nil in Hq].
    apply list_elem_of_singleton in Hq as ->. destruct b as [k len]. cbn in Hk. subst k.
    exists [], len, bs. cbn. split; [done|lia].
  - apply IH in Hq as (pre&len&post&->&->). exists (b :: pre), len, post. cbn. split; [done|lia].
Qed.

Lemma starts_range bs : forall i q, Forall (fun b => 1 <= b_len b) bs ->
  q ∈ starts i bs -> i < q.
Proof.
  intros i q Hf (pre&len&post&->&->)%starts_block.
  apply Forall_app in Hf as [Hf%total_nonneg _]. lia.
Qed.

Lemma starts_nodup bs : forall i, Forall (fun b => 1 <= b_len b) bs -> NoDup (starts i bs).
Proof.
  induction bs as [|b bs IH]; intros i Hf; cbn [starts]; [constructor|].
  apply Forall_cons in Hf as [Hb Hf]. apply NoDup_app. split_and!; [|..|by apply IH].
  - case_bool_decide; repeat constructor. apply not_elem_of_nil.
  - intros q Hq Hq'. apply starts_range in Hq'; [|done]. case_bool_decide; [|by apply elem_of_nil in Hq].
    apply list_elem_of_singleton in Hq as ->. lia.
Qed.

(** The ends of a block are descriptors: nobody holds them. *)
Lemma descriptor_not_held pre b post k :
  Forall (fun b => 1 <= b_len b) (pre ++ b :: post) ->
  k = total pre \/ k = total pre + b_len b - 1 -> ~ held 0 (pre ++ b :: post) k.
Proof.
  intros Hf Hk Hh. apply Forall_app in Hf as [Hp Hf]. apply Forall_cons in Hf as [Hb Hq].
  apply held_app in Hh as [Hh|[[_ Hh]|Hh]]; [..|lia|];
    apply held_range in Hh; try done; lia.
Qed.

(** A run of held words that starts at a payload stays inside its block. *)
Lemma run_in_block pre len post n :
  wf_blocks (pre ++ Block Used len :: post) -> 1 <= n ->
  (forall k, total pre + 1 <= k < total pre + 1 + n ->
     held 0 (pre ++ Block Used len :: post) k) ->
  n + 2 <= len.
Proof.
  intros Hwf Hn Hh. pose proof (wf_lens _ Hwf) as Hf.
  apply Z.nlt_ge. intros Hlt. destruct Hwf as [Hs _].
  apply sizes_app in Hs as [_ [Hmin _]]. change (3 <= len) in Hmin.
  apply (descriptor_not_held pre (Block Used len) post (total pre + len - 1)); [done|by right|].
  apply Hh. lia.
Qed.

(** ** Writing to a held word *)

Lemma seg_blocks w i bs :
  seg w i bs <-> forall pre b post, bs = pre ++ b :: post ->
    w (i + total pre) = tag (b_occ b) (i + total pre + b_len b - 1) /\
    w (i + total pre + b_len b - 1) = tag (b_occ b) (i + total pre).
Proof.
  split.
  - intros Hs pre b post ->. apply seg_app in Hs as [_ (?&?&_)]. done.
  - revert i. induction bs as [|b bs IH]; intros i Hb; [done|].
    destruct (Hb [] b bs eq_refl) as [H1 H2]. cbn [total] in H1, H2.
    rewrite Z.add_0_r in H1, H2. split_and!; [done|done|]. apply IH. intros pre c post ->.
    specialize (Hb (b :: pre) c post eq_refl). cbn [total] in Hb.
    by rewrite Z.add_assoc in Hb.
Qed.

Lemma managed_write h bs k v :
  managed h bs -> held 0 bs k -> managed (write_word (free_root h + 8 * k) v h) bs.
Proof.
  intros Hm Hk. pose proof (mg_wf _ _ Hm) as [Hne Hwf]. pose proof (wf_lens _ Hwf) as Hl.
  unfold write_word. apply (managed_words _ _ _ _ Hm); [done|done|done|..];
    change (set_words _ h) with (upd h k v).
  - apply seg_blocks. intros pre b post Hbs. rewrite Hbs in Hl, Hk.
    pose proof (mg_seg _ _ Hm) as Hs. rewrite seg_blocks in Hs. destruct (Hs _ _ _ Hbs) as [H1 H2].
    rewrite !word_upd, !decide_False; [done|intros Hj..];
      eapply (descriptor_not_held pre b post k); try done; lia.
  - rewrite word_upd, decide_False; [apply (mg_sent _ _ Hm)|].
    intros <-. apply held_range in Hk; [lia|done].
Qed.

Lemma managed_base h bs B :
  managed h bs -> heap_bounds (set_alloc_base B h) -> alloc_base h <= B ->
  managed (set_alloc_base B h) bs.
Proof. intros [] Hb HB. split; try done. cbn. lia. Qed.

(** * The invariant of sessions *)

(** The payload at index [q], as an address. *)
Definition payload (h : heap) (q : Z) : Z := free_root h + 8 * q.

(** The live pointers are exactly the payloads that the blocks in use start
    with, and every word of a live allocation is held. *)
Record inv (s : session) (bs : list block) : Prop := {
  inv_repr : repr (s_heap s) bs;
  inv_ptrs : (s_live s).*1 ≡ₚ payload (s_heap s) <$> starts 0 bs;
  inv_runs : forall p n, (p, n) ∈ s_live s -> 1 <= n /\
    forall i, 0 <= i < n -> exists k, p + 8 * i = payload (s_heap s) k /\ held 0 bs k;
}.

Lemma inv_block h L bs p n :
  inv (Session h L) bs -> (p, n) ∈ L ->
  exists pre len post, bs = pre ++ Block Used len :: post /\
    p = payload_addr h (total pre) /\ 1 <= n <= len - 2.
Proof.
  intros [Hr Hp Hn] Hin. cbn in *. destruct (Hn _ _ Hin) as [Hn1 Hk].
  assert (Hpq : p ∈ payload h <$> starts 0 bs).
  { rewrite <-Hp. apply list_elem_of_fmap. by exists (p, n). }
  apply list_elem_of_fmap in Hpq as (q & Hpq & Hq).
  apply starts_block in Hq as (pre & len & post & -> & Hq).
  exists pre, len, post. unfold payload, payload_addr in *.
  split_and!; [done|lia|done|].
  assert (Hm : managed h (pre ++ Block Used len :: post)) by by apply repr_managed; [|destruct pre].
  enough (n + 2 <= len) by lia. eapply run_in_block; [apply Hm|done|].
  intros k Hkr. destruct (Hk (k - total pre - 1)) as (k' & Hk' & ?); [lia|].
  by replace k with k' by lia.
Qed.

Lemma inv_managed h L bs x : inv (Session h L) bs -> x ∈ L -> managed h bs.
Proof.
  intros Hi Hx. destruct x as [p n]. destruct (inv_block _ _ _ _ _ Hi Hx) as (pre&len&post&->&_).
  apply repr_managed; [apply Hi|by destruct pre].
Qed.

Lemma inv_nil h L : inv (Session h L) [] -> L = [].
Proof. intros [_ Hp _]. by apply Permutation_nil_r, fmap_nil_inv in Hp. Qed.

Lemma inv_init lo hi w :
  0 < lo <= hi -> hi < 2 ^ 62 -> inv (Session (init_heap lo hi w) []) [].
Proof. intros. split; [|done|by intros p n ?%elem_of_nil]. split; [|done]. by split; [..|left]. Qed.

(** ** Every step preserves it *)

Lemma inv_alloc h L bs n a p h' :
  inv (Session h L) bs -> 1 <= n -> alloc_result h bs n a p h' ->
  exists bs', inv (Session h' (if p =? NULL then L else (p, n) :: L)) bs'.
Proof.
  intros Hi Hn (bs' & Hr' & _ & Hroot & [_ [_ Hh]] & Hcase).
  assert (Hpay : L = [] \/ payload h' = payload h).
  { destruct Hroot as [->|Hroot]; [left; by eapply inv_nil|right].
    unfold payload. by rewrite Hroot. }
  assert (Hold : forall p n, (p, n) ∈ L -> 1 <= n /\
    forall i, 0 <= i < n -> exists k, p + 8 * i = payload h' k /\ held 0 bs' k).
  { intros p0 n0 Hin. destruct (inv_runs _ _ Hi _ _ Hin) as [? Hk]. split; [done|].
    intros i Hii. destruct (Hk i Hii) as (k & Hki & Hkh). exists k.
    destruct Hpay as [-> | ->]; [by apply elem_of_nil in Hin|]. split; [done|by apply Hh]. }
  assert (Hptrs : L.*1 ≡ₚ payload h' <$> starts 0 bs).
  { rewrite (inv_ptrs _ _ Hi). destruct Hpay as [-> | ->]; [|done].
    pose proof (inv_ptrs _ _ Hi) as Hp. cbn in Hp. symmetry in Hp.
    by apply Permutation_nil_r, fmap_nil_inv in Hp as ->. }
  exists bs'. destruct (p =? NULL).
  - destruct Hcase as [Hst _]. split; [done|by rewrite Hst|done].
  - destruct Hcase as (_ & q & Hp & _ & Hst & Hrun). split; [done|..]; cbn [s_live s_heap].
    + rewrite Hst. cbn. by rewrite Hptrs, Hp.
    + intros p0 n0 [Heq|Hin]%elem_of_cons; [injection Heq as -> ->|by apply Hold].
      split; [done|]. intros i Hii. exists (q + i). split; [unfold payload; lia|].
      apply Hrun. lia.
Qed.

Lemma inv_nodup h L bs : inv (Session h L) bs -> NoDup L.*1.
Proof.
  intros Hi. rewrite (inv_ptrs _ _ Hi). apply NoDup_fmap_2.
  - intros q1 q2. unfold payload. lia.
  - destruct bs as [|b bs]; [constructor|]. apply starts_nodup, wf_lens.
    apply (mg_wf _ _ (inv_repr _ _ Hi)).
Qed.

(** The words of two different live allocations lie in different blocks. *)
Lemma inv_other h L1 n L2 pre len post x v :
  inv (Session h (L1 ++ (payload_addr h (total pre), n) :: L2))
    (pre ++ Block Used len :: post) ->
  (x, v) ∈ L1 ++ L2 -> forall i, 0 <= i < v -> exists k, x + 8 * i = payload h k /\
    (held 0 pre k \/ held (total pre + len) post k).
Proof.
  intros Hi Hx i Hiv. set (L := L1 ++ _ :: L2) in *. set (bs := pre ++ _ :: post) in *.
  assert (HxL : (x, v) ∈ L) by (unfold L; set_solver).
  assert (Hne : x <> payload_addr h (total pre)).
  { intros ->. pose proof (inv_nodup _ _ _ Hi) as Hnd. unfold L in Hnd.
    rewrite fmap_app in Hnd. cbn in Hnd. rewrite <-Permutation_middle in Hnd.
    apply NoDup_cons in Hnd as [Hnd _]. apply Hnd. rewrite <-fmap_app.
    apply list_elem_of_fmap. by exists (payload_addr h (total pre), v). }
  destruct (inv_runs _ _ Hi _ _ HxL) as [Hv Hrun]. cbn [s_heap] in Hrun.
  pose proof (inv_managed _ _ _ _ Hi HxL) as Hm. destruct (mg_wf _ _ Hm) as [_ Hl%wf_lens].
  destruct (inv_block _ _ _ _ _ Hi HxL) as (pre2 & len2 & post2 & Hbs & Hx2 & Hlen2).
  destruct (Hrun i Hiv) as (k & Hk & Hh). exists k. split; [done|].
  unfold bs in Hh. apply held_app in Hh as [Hh|[[_ Hin]|Hh]]; [by left| |by right].
  exfalso. cbn [b_len] in Hin. unfold payload, payload_addr in *.
  destruct (Z.lt_trichotomy (total pre2) (total pre)) as [Hlt|[Heq|Hgt]]; [|by rewrite Heq in Hx2|].
  - apply (descriptor_not_held pre (Block Used len) post (total pre)); [done|by left|].
    destruct (Hrun (total pre - total pre2 - 1)) as (k' & Hk' & ?); [lia|].
    by replace (total pre) with k' by lia.
  - apply (descriptor_not_held pre2 (Block Used len2) post2 (total pre2));
      [by rewrite <-Hbs|by left|]. rewrite <-Hbs. unfold bs.
    apply held_app. right. left. cbn. split; [done|lia].
Qed.

Lemma inv_free h L1 p n L2 bs debug :
  inv (Session h (L1 ++ (p, n) :: L2)) bs ->
  wp (dandelion_free debug p) (fun _ h' =>
    exit_status h' = exit_status h /\ exists bs', inv (Session h' (L1 ++ L2)) bs' /\
    forall x v i, (x, v) ∈ L1 ++ L2 -> 0 <= i < v ->
      word_at (words h') (x + 8 * i) = word_at (words h) (x + 8 * i)) h.
Proof.
  intros Hi.
  assert (Hin : (p, n) ∈ L1 ++ (p, n) :: L2) by (apply elem_of_app; right; constructor).
  destruct (inv_block _ _ _ _ _ Hi Hin) as (pre & len & post & -> & -> & Hn).
  pose proof (inv_managed _ _ _ _ Hi Hin) as Hm.
  eapply wp_mono; [by apply free_spec|]. intros _ h' (w & -> & Hm' & Hk). split; [done|].
  exists (release pre len post).
  assert (Hptrs : (L1 ++ L2).*1 ≡ₚ payload h <$> starts 0 (release pre len post)).
  { pose proof (inv_ptrs _ _ Hi) as Hp. cbn [s_live s_heap] in Hp.
    rewrite starts_app, release_starts in *. cbn [starts b_kind b_len] in Hp.
    rewrite bool_decide_eq_true_2 in Hp by done.
    rewrite !fmap_app in *. cbn in Hp. rewrite <-!Permutation_middle in Hp.
    apply (Permutation_cons_inv (a := payload_addr h (total pre))).
    etransitivity; [exact Hp|]. by rewrite Z.add_0_l. }
  assert (Hkeep : forall x v i, (x, v) ∈ L1 ++ L2 -> 0 <= i < v ->
    exists k, x + 8 * i = payload h k /\ held 0 (release pre len post) k).
  { intros x v i Hx Hiv. destruct (inv_other _ _ _ _ _ _ _ _ _ Hi Hx i Hiv) as (k & ? & Hkh).
    exists k. split; [done|]. apply release_held. by rewrite Z.add_0_l. }
  split.
  - split; [apply managed_repr, Hm'|done|]. intros x v Hx. split; [|intros; by eapply Hkeep].
    apply (inv_runs _ _ Hi x v). cbn. apply elem_of_app in Hx as [?|?]; apply elem_of_app; [by left|].
    right. by right.
  - intros x v i Hx Hiv. destruct (Hkeep x v i Hx Hiv) as (k & -> & Hh).
    specialize (Hk k (or_intror (or_intror Hh))). exact Hk.
Qed.

Lemma repr_base h bs B :
  repr h bs -> break_of h <= B <= round_up (heap_end h) 8 -> B mod 8 = 0 ->
  repr (set_alloc_base B h) bs.
Proof.
  intros Hr HB HB8. pose proof (repr_bounds _ _ Hr) as Hb. destruct (break_spec h Hb) as [_ ?].
  assert (heap_bounds (set_alloc_base B h)) by (apply heap_bounds_base; [done|lia|done]).
  destruct bs; [by destruct Hr|].
  apply managed_base; [done|done|]. destruct (managed_break _ _ Hr) as [<- _]. lia.
Qed.

Lemma inv_sbrk h L bs size :
  inv (Session h L) bs -> 0 <= size < 2 ^ 63 ->
  wp (dandelion_sbrk size) (fun _ h' => inv (Session h' L) bs /\ words h' = words h) h.
Proof.
  intros [Hr Hp Hn] Hs. pose proof (repr_bounds _ _ Hr) as Hb.
  destruct (break_spec h Hb) as [? ?]. pose proof (round_up_spec (break_of h + size) 8 ltac:(lia)).
  apply wp_sbrk; [done|lia|]. case_bool; (split; [split; [cbn [s_heap]|done..]|done]);
    apply repr_base; try done; try lia.
  - split; [lia|]. by apply round_up_mono.
  - by apply round_up_mod.
Qed.

Lemma inv_write h L bs p n i v :
  inv (Session h L) bs -> (p, n) ∈ L -> 0 <= i < n ->
  inv (Session (write_word (p + 8 * i) v h) L) bs.
Proof.
  intros Hi Hin Hii. pose proof (inv_managed _ _ _ _ Hi Hin) as Hm.
  destruct (inv_runs _ _ Hi _ _ Hin) as [_ Hk]. destruct (Hk i Hii) as (k & Hpk & Hh).
  cbn in Hpk. rewrite Hpk. destruct Hi as [_ Hp Hn]. split; [|done..].
  apply managed_repr. by apply managed_write.
Qed.

Lemma alloc_rejects size align h :
  size = 0 \/ 2 ^ 63 <= size < 2 ^ 64 -> dandelion_alloc size align h = Ret NULL h.
Proof.
  intros Hs. unfold dandelion_alloc. rewrite is_occupied_size by lia.
  destruct Hs as [->|Hs]; [done|]. by rewrite (proj2 (Z.leb_le _ _)) by lia.
Qed.

Lemma inv_step debug s s' bs :
  inv s bs -> step debug s s' -> exists bs', inv s' bs'.
Proof.
  intros Hi Hst. destruct Hst as [h L size align p h' Hrun Hs Ha|h L1 p n L2 h' Hrun
    |h L size p h' Hrun Hs|h L p n i v Hin Hii].
  - destruct (decide (0 < size < 2 ^ 63)) as [Hsz|Hsz].
    + eapply inv_alloc; [done|pose proof (local_size_range size Hsz); lia|].
      eapply wp_from_run; [done|]. by apply alloc_cases; [apply Hi|..].
    + rewrite alloc_rejects in Hrun by lia. injection Hrun as <- <-. by exists bs.
  - destruct (wp_from_run _ _ _ _ _ Hrun (inv_free h L1 p n L2 bs debug Hi)) as (_ & bs' & ? & _).
    by exists bs'.
  - exists bs. by destruct (wp_from_run _ _ _ _ _ Hrun (inv_sbrk h L bs size Hi Hs)).
  - exists bs. by apply (inv_write h L bs p n).
Qed.

Lemma reachable_inv debug lo hi s :
  0 < lo <= hi -> hi < 2 ^ 62 -> reachable debug lo hi s -> exists bs, inv s bs.
Proof.
  intros Hlo Hhi. induction 1 as [w|s s' _ [bs Hi] Hst]; [|by eapply inv_step].
  exists []. by apply inv_init.
Qed.
