(* ===== verification/AllocTheorems.v ===== *)
(** The allocator as its callers see it: what holds in every session that
    follows the rules (memory safety, isolation, freshness), when a request
    succeeds, which blocks the two operations leave behind, and the two cases
    in which a legal request takes the whole program down. *)
From S2P Require Import Prelude Heap Alloc Blocks AllocSafe AllocGrow AllocCorrect AllocSession.

(** * Regions *)

(** [n] words from [p] and [v] words from [x] do not overlap. *)
Definition apart (p n x v : Z) : Prop := p + 8 * n <= x \/ x + 8 * v <= p.

(** The [n] words from [p] lie in the heap and are aligned. *)
Definition inside (h : heap) (p n : Z) : Prop :=
  heap_begin h <= p /\ p + 8 * n <= heap_end h /\ p mod 8 = 0.

Lemma payload_mod8 h bs q : managed h bs -> payload h q mod 8 = 0.
Proof. intros Hm. unfold payload. apply mod8_add. apply (mg_root _ _ Hm). Qed.

Lemma inv_inside h L bs p n : inv (Session h L) bs -> (p, n) ∈ L -> inside h p n /\ p <> NULL.
Proof.
  intros Hi Hin. pose proof (inv_managed _ _ _ _ Hi Hin) as Hm.
  destruct (inv_block _ _ _ _ _ Hi Hin) as (pre & len & post & -> & -> & Hn).
  pose proof (mg_wf _ _ Hm) as [_ Hl%wf_lens]. apply Forall_app in Hl as [Hl1%total_nonneg Hl2].
  apply Forall_cons in Hl2 as [_ Hl2%total_nonneg].
  pose proof (mg_end _ _ Hm) as He. rewrite total_app in He. cbn in He.
  destruct (mg_root _ _ Hm) as [? ?]. pose proof (hb_begin _ (mg_bounds _ _ Hm)).
  unfold inside, payload_addr, NULL. split_and!; try lia. by apply mod8_add.
Qed.

(** Two runs of held words that start at different payloads are apart. *)
Lemma inv_apart h L bs p n x v :
  inv (Session h L) bs -> (p, n) ∈ L -> (x, v) ∈ L -> p <> x -> apart p n x v.
Proof.
  intros Hi Hp Hx Hne. pose proof (inv_managed _ _ _ _ Hi Hp) as Hm.
  destruct (inv_block _ _ _ _ _ Hi Hp) as (pre & len & post & Hbs & Hpp & Hn).
  destruct (inv_block _ _ _ _ _ Hi Hx) as (pre2 & len2 & post2 & Hbs2 & Hxx & Hv).
  destruct (inv_runs _ _ Hi _ _ Hp) as [_ Hrp]. destruct (inv_runs _ _ Hi _ _ Hx) as [_ Hrx].
  destruct (mg_wf _ _ Hm) as [_ Hl%wf_lens]. cbn [s_heap] in *.
  unfold apart, payload_addr, payload in *.
  destruct (Z.lt_trichotomy (total pre) (total pre2)) as [Hlt|[Heq|Hgt]]; [|lia|].
  - left. apply Z.nlt_ge. intros Hover.
    destruct (Hrp (total pre2 - total pre - 1)) as (k & Hk & Hh); [lia|].
    revert Hh. rewrite Hbs2 in Hl |- *. eapply descriptor_not_held; [done|left; lia].
  - right. apply Z.nlt_ge. intros Hover.
    destruct (Hrx (total pre - total pre2 - 1)) as (k & Hk & Hh); [lia|].
    revert Hh. rewrite Hbs in Hl |- *. eapply descriptor_not_held; [done|left; lia].
Qed.

Lemma inv_same_words h L bs h' x v i :
  inv (Session h L) bs -> (x, v) ∈ L -> 0 <= i < v -> keeps h bs h' ->
  word_at (words h') (x + 8 * i) = word_at (words h) (x + 8 * i).
Proof.
  intros Hi Hx Hiv Hk. apply Hk.
  pose proof (inv_managed _ _ _ _ Hi Hx) as Hm.
  destruct (inv_runs _ _ Hi _ _ Hx) as [_ Hr]. destruct (Hr i Hiv) as (k & Hk2 & Hh).
  cbn in Hk2. rewrite Hk2. destruct (managed_break _ _ Hm) as (Hb & _).
  destruct (mg_wf _ _ Hm) as [_ Hl%wf_lens]. pose proof (held_range _ _ _ Hl Hh).
  pose proof (mg_break _ _ Hm). split; [by eapply payload_mod8|].
  split; [unfold payload; lia|]. right. exists k. split; [done|]. by right; right.
Qed.

(** The bytes of the live allocations of [L] are the same in both heaps. *)
Definition preserves (h : heap) (L : list (Z * Z)) (h' : heap) : Prop :=
  forall x v i, (x, v) ∈ L -> 0 <= i < v -> word_at (words h') (x + 8 * i) = word_at (words h) (x + 8 * i).

(** * Safety of sessions *)

Section sessions.
Context (debug : bool) (lo hi : Z) (Hlo : 0 < lo <= hi) (Hhi : hi < 2 ^ 62).

(** C1: after any sequence of requests (alignment up to 16), releases,
    moves of the break and writes by the owners, starting from a fresh heap,
    every live allocation lies inside the heap, is word aligned and not
    [NULL], and no two of them overlap. *)
Theorem live_disjoint h L :
  reachable debug lo hi (Session h L) ->
  (forall p n, (p, n) ∈ L -> inside h p n /\ p <> NULL) /\
  (forall L1 p n L2 x v, L = L1 ++ (p, n) :: L2 -> (x, v) ∈ L1 ++ L2 -> apart p n x v).
Proof using Hlo Hhi.
  intros [bs Hi]%reachable_inv; [|done..]. split; [intros p n; by eapply inv_inside|].
  intros L1 p n L2 x v -> Hx. eapply inv_apart; [done|set_solver..|].
  intros ->. pose proof (inv_nodup _ _ _ Hi) as Hnd.
  rewrite fmap_app in Hnd. cbn in Hnd. rewrite <-Permutation_middle in Hnd.
  apply NoDup_cons in Hnd as [Hnd _]. apply Hnd. rewrite <-fmap_app.
  apply list_elem_of_fmap. by exists (x, v).
Qed.

(** C2: in every such session a request never faults and leaves every live
    allocation as it was; what it returns, when it is not [NULL], is in the
    heap, has room for [size] bytes, starts at a multiple of the alignment
    counted from the root of the managed area, and overlaps no live
    allocation. *)
Theorem alloc_safe h L size align :
  reachable debug lo hi (Session h L) -> 0 <= size < 2 ^ 64 -> 0 <= align <= 16 ->
  wp (dandelion_alloc size align) (fun p h' =>
    preserves h L h' /\
    (p <> NULL ->
      size <= 8 * local_size_of size /\ inside h' p (local_size_of size) /\
      (p - free_root h') mod (8 * local_alignment_of align) = 0 /\
      forall x v, (x, v) ∈ L -> apart p (local_size_of size) x v)) h.
Proof using Hlo Hhi.
  intros [bs Hi]%reachable_inv Hs Ha; [|done..].
  destruct (decide (0 < size < 2 ^ 63)) as [Hsz|Hsz].
  2: { unfold wp. rewrite alloc_rejects by lia. split; [by intros x|done]. }
  eapply wp_mono; [by apply alloc_cases; [apply Hi|..]|]. intros p h' Hres.
  pose proof Hres as (bs1 & _ & _ & _ & [Hk _] & Hcase). split.
  { intros x v i Hx Hiv. by eapply inv_same_words. }
  intros Hp. destruct (inv_alloc _ _ _ _ _ _ _ Hi (proj1 (local_size_range _ Hsz)) Hres)
    as [bs2 Hi2].
  rewrite (proj2 (Z.eqb_neq _ _)) in Hi2, Hcase by done.
  destruct Hcase as (_ & q & -> & Hq & _).
  split; [apply local_size_bytes; lia|].
  split; [eapply inv_inside; [done|constructor]|]. split.
  - replace (free_root h' + 8 * q - free_root h') with (8 * q) by lia.
    rewrite Zmult_mod_distr_l, Hq. lia.
  - intros x v Hx. eapply inv_apart; [done|constructor|by constructor|].
    intros <-. pose proof (inv_nodup _ _ _ Hi2) as Hnd. apply NoDup_cons in Hnd as [Hnd _].
    apply Hnd, list_elem_of_fmap. by exists (free_root h' + 8 * q, v).
Qed.

(** C3: in every such session releasing a live pointer never faults, never
    takes a debug exit, leaves the other allocations as they were, and the
    session goes on without the pointer. *)
Theorem free_safe h L1 p n L2 :
  reachable debug lo hi (Session h (L1 ++ (p, n) :: L2)) ->
  wp (dandelion_free debug p) (fun _ h' =>
    exit_status h' = exit_status h /\ preserves h (L1 ++ L2) h' /\
    reachable debug lo hi (Session h' (L1 ++ L2))) h.
Proof using Hlo Hhi.
  intros Hr. destruct (reachable_inv _ _ _ _ Hlo Hhi Hr) as [bs Hi].
  pose proof (inv_free _ _ _ _ _ _ debug Hi) as Hw.
  destruct (wp_run _ _ _ Hw) as ([] & h' & Hrun & Hex & _ & _ & Hkeep).
  unfold wp. rewrite Hrun. split_and!; [done|done|].
  eapply reach_step; [exact Hr|]. by apply step_free.
Qed.
End sessions.

(** * When a request succeeds *)

Lemma alloc_returns h bs size align :
  repr h bs -> 0 < size < 2 ^ 63 -> 0 <= align <= 16 ->
  ~ no_fit (local_size_of size) (local_alignment_of align) bs \/
    break_of h + get_sbrk_size (local_size_of size) (local_alignment_of align) <= heap_end h ->
  align <= 8 \/ head bs <> Some (Block Free 1) ->
  wp (dandelion_alloc size align) (fun p h' => p <> NULL /\ exit_status h' = exit_status h) h.
Proof.
  intros Hr Hs Ha Hroom Hd. eapply wp_mono; [by apply alloc_cases|].
  intros p h' (bs' & _ & _ & _ & _ & Hcase).
  destruct (p =? NULL) eqn:Ep; bool_to_prop; [exfalso|by destruct Hcase].
  destruct Hcase as [_ [(_ & Hn & Hlt)|(_ & _ & Ha2 & Hhd)]].
  - destruct Hroom; [done|lia].
  - destruct Hd; [|done]. rewrite local_alignment_range, (proj2 (Z.ltb_ge _ _)) in Ha2 by lia. lia.
Qed.

(** C19: on every represented heap a request for 1 to [2^63 - 1] bytes with an
    alignment up to 16 returns memory if some free block has room for it, or if
    the break can move by [get_sbrk_size]; unless the first block is the
    one-word free block of a 16-byte aligned first request. *)
Theorem alloc_succeeds h bs size align :
  repr h bs -> 0 < size < 2 ^ 63 -> 0 <= align <= 16 ->
  ~ no_fit (local_size_of size) (local_alignment_of align) bs \/
    break_of h + get_sbrk_size (local_size_of size) (local_alignment_of align) <= heap_end h ->
  align <= 8 \/ head bs <> Some (Block Free 1) ->
  wp (dandelion_alloc size align) (fun p h' => p <> NULL /\ exit_status h' = exit_status h) h.
Proof. apply alloc_returns. Qed.

(** a request of no bytes, or of [2^63] bytes and more, is refused and
    changes nothing. *)
Theorem alloc_refuses size align h :
  size = 0 \/ 2 ^ 63 <= size < 2 ^ 64 -> dandelion_alloc size align h = Ret NULL h.
Proof. apply alloc_rejects. Qed.

(** * The allocator as an operation on blocks *)

(** The block that starts at index [s], with what is in front and behind. *)
Fixpoint split_at (i : Z) (bs : list block) (s : Z) : option (list block * Z * list block) :=
  match bs with
  | [] => None
  | b :: bs =>
      if i =? s then Some ([], b_len b, bs)
      else match split_at (i + b_len b) bs s with
           | Some (pre, len, post) => Some (b :: pre, len, post)
           | None => None
           end
  end.

(** What a request for [n] words aligned to [a] does to the blocks [bs]: take
    it out of the smallest free block with room, or of fresh memory beyond
    [gap] words that are not ours, if there is any ([avail]).  The result is
    the new blocks and the index of the payload. *)
Definition abs_alloc (avail : bool) (gap : Z) (bs : list block) (n a : Z)
    : option (list block * Z) :=
  let place pre len post :=
    let skip := pad a (total pre + 1) in
    Some (carve pre len skip n post, total pre + skip + 1) in
  let '(s, sz) := best_fit n a 0 bs (MAX_VAL, MAX_VAL) in
  if sz =? MAX_VAL then
    if avail then
      let '(pre, len) := grow bs gap (get_sbrk_size n a / 8) in place pre len []
    else None
  else match split_at 0 bs s with
       | Some (pre, len, post) => if len <? n + 2 then None else place pre len post
       | None => None
       end.

Lemma split_at_app i pre b post :
  Forall (fun b => 1 <= b_len b) pre ->
  split_at i (pre ++ b :: post) (i + total pre) = Some (pre, b_len b, post).
Proof.
  intros Hf. revert i. induction Hf as [|c pre Hc Hf IH]; intros i; cbn [app split_at total].
  - by rewrite Z.add_0_r, Z.eqb_refl.
  - pose proof (total_nonneg _ Hf). rewrite (proj2 (Z.eqb_neq _ _)) by lia.
    by rewrite Z.add_assoc, IH.
Qed.

(** The break moves by at most one piece of [get_sbrk_size] bytes. *)
Lemma alloc_abs_break h bs size align :
  managed h bs -> 0 < size < 2 ^ 63 -> 0 <= align <= 16 ->
  let n := local_size_of size in
  let a := local_alignment_of align in
  wp (dandelion_alloc size align) (fun p h' =>
    (heap_end h' = heap_end h /\ alloc_base h <= alloc_base h' <= alloc_base h + get_sbrk_size n a) /\
    match abs_alloc (alloc_base h + get_sbrk_size n a <=? heap_end h) (gap_of h bs) bs n a with
    | Some (bs', q) => managed h' bs' /\ free_root h' = free_root h /\ p = payload h q
    | None => managed h' bs /\ p = NULL
    end) h.
Proof.
  intros Hm Hs Ha n a. pose proof (local_size_range _ Hs : 1 <= n <= 2 ^ 60) as Hn.
  assert (Hal : 1 <= a <= 2) by (unfold a; rewrite local_alignment_range by done; case_bool; lia).
  destruct (get_sbrk_size_spec n a Hn Hal) as (m & Hsz & Hmn).
  pose proof (managed_small _ _ Hm) as Hsm.
  unfold dandelion_alloc. rewrite is_occupied_size, (proj2 (Z.leb_gt _ _)) by lia.
  rewrite (proj2 (Z.eqb_neq size 0)) by lia. wp_pure.
  rewrite (proj2 (Z.eqb_neq (free_root h) NULL)); [wp_pure; cbn [negb]; fold n a|].
  2: { destruct (mg_root _ _ Hm). pose proof (hb_begin _ (mg_bounds _ _ Hm)). unfold NULL. lia. }
  unfold alloc_managed, abs_alloc. wp_pure. eapply wp_mono; [apply search_spec; [done|lia]|].
  intros [s sz] h0 [-> Hbest]. rewrite <-Hbest.
  symmetry in Hbest. apply best_fit_gen in Hbest as (_ & Hcase & _). cbv beta iota.
  destruct Hcase as [Hc|(pre & b & post & Hbs & Hb & Hs0 & Hsz' & Hfit)].
  - injection Hc as -> ->. rewrite Z.eqb_refl. wp_pure. rewrite Hsz.
    replace (8 * m / 8) with m by (rewrite Z.mul_comm, Z.div_mul; lia).
    eapply wp_mono; [by apply grow_spec|]. intros r h1 Hg. cbv beta in Hg.
    destruct (_ <=? _) eqn:Efit; bool_to_prop; [|destruct Hg as [-> ->]; wp_pure; by split; [lia|]].
    destruct (grown_block h bs m r h1 Hm ltac:(lia) Hg)
      as (pre & len & Hgr & -> & Hm1 & Hlen & _ & Hroot & [_ Hend] & _ & Hbase & _). rewrite Hgr.
    pose proof (pad_spec a (total pre + 1) ltac:(lia)) as [Hpad _].
    eapply wp_mono; [apply (place_spec _ pre len []); [done|done|lia|lia]|].
    intros p h2 (w & -> & -> & Hm2 & _). split; [cbn; lia|]. split; [done|]. split; [done|]. unfold payload. by rewrite Hroot.
  - rewrite (proj2 (Z.eqb_neq sz MAX_VAL)) by lia. wp_pure.
    pose proof (mg_wf _ _ Hm) as [_ Hwf]. pose proof (wf_lens _ Hwf) as Hl. rewrite Hbs in Hl.
    apply Forall_app in Hl as [Hl _].
    assert (split_at 0 bs s = Some (pre, b_len b, post)) as -> by (by rewrite Hs0, Hbs, split_at_app).
    rewrite Z.add_0_l in Hs0.
    destruct b as [[] len]; try done. cbn [b_len] in *. subst s. rewrite Hbs in Hwf, Hsm, Hm |- *.
    pose proof (pad_spec a (total pre + 1) ltac:(lia)) as [Hpad _].
    destruct (room_cases n a pre len post Hwf Hal ltac:(lia) ltac:(lia) ltac:(lia))
      as [[Hr Hroom]|(-> & -> & -> & Hr)].
    + rewrite (proj2 (Z.ltb_ge _ _)) by lia.
      eapply wp_mono; [apply place_spec; done || lia|].
      intros p h2 (w & -> & -> & Hm2 & _). split; [cbn; lia|done].
    + rewrite (proj2 (Z.ltb_lt _ _)) by lia. cbn [app total] in *.
      eapply wp_mono; [by eapply degenerate_spec|].
      intros p h2 (-> & w & -> & Hw). split; [cbn; lia|]. split; [|done].
      by apply managed_exit, managed_same_words.
Qed.

Lemma alloc_abs h bs size align :
  managed h bs -> 0 < size < 2 ^ 63 -> 0 <= align <= 16 ->
  let n := local_size_of size in
  let a := local_alignment_of align in
  wp (dandelion_alloc size align) (fun p h' =>
    match abs_alloc (alloc_base h + get_sbrk_size n a <=? heap_end h) (gap_of h bs) bs n a with
    | Some (bs', q) => managed h' bs' /\ free_root h' = free_root h /\ p = payload h q
    | None => managed h' bs /\ p = NULL
    end) h.
Proof. intros Hm Hs Ha n a. eapply wp_mono; [by apply alloc_abs_break|]. by intros p h' [_ H]. Qed.

(** C4: on a managed heap [dandelion_alloc] computes exactly [abs_alloc] on
    the blocks: the heap it leaves represents the blocks that the
    abstract operation returns, and the pointer is the payload it chose. *)
Theorem alloc_refines h bs size align :
  managed h bs -> 0 < size < 2 ^ 63 -> 0 <= align <= 16 ->
  let n := local_size_of size in
  let a := local_alignment_of align in
  wp (dandelion_alloc size align) (fun p h' =>
    match abs_alloc (alloc_base h + get_sbrk_size n a <=? heap_end h) (gap_of h bs) bs n a with
    | Some (bs', q) => managed h' bs' /\ free_root h' = free_root h /\ p = payload h q
    | None => managed h' bs /\ p = NULL
    end) h.
Proof. apply alloc_abs. Qed.

Lemma free_abs debug h pre len post :
  managed h (pre ++ Block Used len :: post) ->
  wp (dandelion_free debug (payload h (total pre + 1))) (fun _ h' =>
    managed h' (release pre len post) /\
    forall k, held 0 pre k \/ held (total pre + len) post k -> word h' k = word h k) h.
Proof.
  intros Hm. eapply wp_mono; [by apply free_spec|]. intros _ h' (w & -> & Hm' & Hk).
  split; [done|]. intros k Hh. apply Hk. right; right. apply release_held. by rewrite Z.add_0_l.
Qed.

(** C18: releasing a block in use joins it with the free blocks on both sides,
    and changes nothing else. *)
Theorem free_refines debug h pre len post :
  managed h (pre ++ Block Used len :: post) ->
  wp (dandelion_free debug (payload h (total pre + 1))) (fun _ h' =>
    managed h' (release pre len post) /\
    forall k, held 0 pre k \/ held (total pre + len) post k -> word h' k = word h k) h.
Proof. apply free_abs. Qed.

(** ** Alloc, then free *)

Lemma release_carve pre len n post :
  wf_blocks (pre ++ Block Free len :: post) ->
  exists l post', carve pre len 0 n post = pre ++ Block Used l :: post' /\
    release pre l post' = pre ++ Block Free len :: post.
Proof.
  intros [_ Hna]. apply no_adjacent_app in Hna as (_ & Hna & Hj).
  change (Block Free len :: post) with ([Block Free len] ++ post) in Hna.
  apply no_adjacent_app in Hna as (_ & _ & Hjp).
  assert (HL : merge_left pre = (pre, 0)).
  { destruct (merge_left_spec pre) as [[? _]|(pre'&l&_&->)]; [done|].
    rewrite last_snoc in Hj. by destruct (Hj _ _ eq_refl eq_refl). }
  assert (HR : merge_right post = (0, post)).
  { destruct (merge_right_spec post) as [[? _]|(l&post'&_&->)]; [done|].
    by destruct (Hjp _ _ eq_refl eq_refl). }
  unfold carve. rewrite Z.eqb_refl. case_bool; do 2 eexists; (split; [done|]);
    rewrite release_merge, HL; [cbn [app merge_right fst snd]|rewrite HR; cbn [fst snd]];
    do 3 f_equal; lia.
Qed.

(** What the search finds when something fits, or when the first block is
    stuck. *)
Lemma best_fit_found h bs n a :
  managed h bs -> 1 <= n <= 2 ^ 60 -> 1 <= a <= 2 ->
  (exists sz, best_fit n a 0 bs (MAX_VAL, MAX_VAL) = (sz, MAX_VAL) /\ no_fit n a bs) \/
  (exists pre len post sz, bs = pre ++ Block Free len :: post /\
     best_fit n a 0 bs (MAX_VAL, MAX_VAL) = (total pre, sz) /\ sz <> MAX_VAL /\
     split_at 0 bs (total pre) = Some (pre, len, post) /\
     (pad a (total pre + 1) + n + 2 <= len \/ (pre = [] /\ len = 1 /\ a = 2))).
Proof.
  intros Hm Hn Ha. destruct (best_fit n a 0 bs _) as [s sz] eqn:Hbest.
  destruct (decide (sz = MAX_VAL)) as [->|Hsz].
  { left. exists s. split; [done|]. by eapply search_no_fit; [|lia|..]. }
  right. apply best_fit_gen in Hbest as (_ & [Hc|Hc] & _); [by injection Hc|].
  destruct Hc as (pre & b & post & Hbs & Hb & Hs0 & Hsz' & Hfit).
  pose proof (mg_wf _ _ Hm) as [_ Hwf]. pose proof (wf_lens _ Hwf) as Hl. rewrite Hbs in Hl.
  apply Forall_app in Hl as [Hl _]. destruct b as [[] len]; try done.
  rewrite Z.add_0_l in Hs0. subst s. pose proof (managed_small _ _ Hm).
  rewrite Hbs in Hwf, Hm. exists pre, len, post, sz. cbn [b_len] in *.
  split_and!; [done|done|done|by rewrite Hbs, <-(Z.add_0_l (total pre)), split_at_app|].
  subst sz. destruct (room_cases n a pre len post Hwf Ha ltac:(lia)) as [[_ ?]|(?&?&?&_)];
    [rewrite <-Hbs; lia|lia|by left|by right].
Qed.

(** C20: memory requested without extra alignment, when a free block is large
    enough for it already, and released at once leaves the same blocks as before.
    When none is, the heap grows and its blocks change. *)
Theorem alloc_free_roundtrip debug h bs size align :
  managed h bs -> 0 < size < 2 ^ 63 -> 0 <= align <= 8 -> ~ no_fit (local_size_of size) 1 bs ->
  wp (let! p := dandelion_alloc size align in dandelion_free debug p)
    (fun _ h' => managed h' bs) h.
Proof.
  intros Hm Hs Ha Hfit. pose proof (local_size_range size Hs) as Hn.
  assert (Hal : local_alignment_of align = 1)
    by (rewrite local_alignment_range, (proj2 (Z.ltb_ge _ _)) by lia; done).
  wp_pure. eapply wp_mono; [apply alloc_abs; done || lia|]. intros p h' Hres.
  rewrite Hal in Hres. unfold abs_alloc in Hres.
  destruct (best_fit_found h bs (local_size_of size) 1 Hm Hn ltac:(lia))
    as [(?&_&?)|(pre&len&post&sz&Hbs&Hbest&Hsz&Hsplit&[Hlen|(?&?&?)])]; [done| |done].
  rewrite Hbest, (proj2 (Z.eqb_neq _ _)), Hsplit in Hres by done.
  unfold pad in Hres, Hlen. rewrite Z.mod_1_r in Hres, Hlen. cbn [Z.eqb] in Hres, Hlen.
  rewrite (proj2 (Z.ltb_ge _ _)) in Hres by lia. destruct Hres as (Hm' & Hroot & ->).
  pose proof (mg_wf _ _ Hm) as [_ Hwf]. rewrite Hbs in Hwf.
  destruct (release_carve pre len (local_size_of size) post Hwf) as (l & post' & Hc & Hr).
  rewrite Hc in Hm'. rewrite Z.add_0_r.
  replace (payload h (total pre + 1)) with (payload h' (total pre + 1))
    by (unfold payload; by rewrite Hroot).
  eapply wp_mono; [by apply free_abs|]. intros _ h2 [Hm2 _]. by rewrite Hbs, <-Hr.
Qed.

(** ** Releasing everything *)

Lemma all_free bs :
  bs <> [] -> no_adjacent bs -> starts 0 bs = [] -> Forall (fun b => b_kind b <> Gap) bs ->
  bs = [Block Free (total bs)].
Proof.
  intros Hne Hna Hst Hg.
  assert (Hf : Forall (fun b => b_kind b = Free) bs).
  { clear Hne Hna. revert Hst. generalize 0. induction Hg as [|b bs Hb Hg IH]; intros i Hst; [done|].
    cbn in Hst. apply app_eq_nil in Hst as [H1 H2]. constructor; [|by eapply IH].
    destruct b as [[] ?]; done. }
  destruct bs as [|[k1 l1] [|[k2 l2] bs]]; [done| |].
  - apply Forall_cons in Hf as [Hf _]. cbn in *. subst. do 2 f_equal. lia.
  - apply Forall_cons in Hf as [Hf1 Hf]. apply Forall_cons in Hf as [Hf2 _]. cbn in *. subst.
    by destruct Hna as [[|] _].
Qed.

Lemma release_kinds (P : block -> Prop) pre len post :
  Forall P pre -> Forall P post -> (forall l, P (Block Free l)) -> Forall P (release pre len post).
Proof.
  intros Hp Hq HF. rewrite release_merge. apply Forall_app. split; [|constructor; [done|]].
  - destruct (merge_left_spec pre) as [[-> _]|(pre'&l&->&Heq)]; [done|].
    rewrite Heq in Hp. by apply Forall_app in Hp as [? _].
  - destruct (merge_right_spec post) as [[-> _]|(l&post'&->&Heq)]; [done|].
    rewrite Heq in Hq. by apply Forall_cons in Hq as [_ ?].
Qed.

(** when nobody else moved the break (no gaps), releasing the last live
    allocation gives back one single free block over the whole area. *)
Theorem last_free_coalesces debug h bs p n :
  inv (Session h [(p, n)]) bs -> Forall (fun b => b_kind b <> Gap) bs ->
  wp (dandelion_free debug p) (fun _ h' => managed h' [Block Free (total bs)]) h.
Proof.
  intros Hi Hg. assert (Hin : (p, n) ∈ [(p, n)]) by constructor.
  destruct (inv_block _ _ _ _ _ Hi Hin) as (pre & len & post & -> & -> & _).
  pose proof (inv_managed _ _ _ _ Hi Hin) as Hm.
  change (payload_addr h (total pre)) with (payload h (total pre + 1)).
  eapply wp_mono; [by apply free_abs|]. intros _ h' [Hm' _].
  rewrite <-(release_total pre len post (Block Used len) eq_refl).
  rewrite <-all_free; [done|apply (mg_wf _ _ Hm')..| |].
  - pose proof (inv_ptrs _ _ Hi) as Hp. cbn in Hp. rewrite release_starts, Z.add_0_l.
    apply Permutation_length in Hp. rewrite length_fmap, starts_app, length_app in Hp.
    cbn [length starts b_kind b_len] in Hp. rewrite bool_decide_eq_true_2, Z.add_0_l in Hp by done.
    rewrite length_app in Hp. cbn [length] in Hp.
    apply length_zero_iff_nil. rewrite length_app. lia.
  - apply Forall_app in Hg as [Hg1 Hg2]. apply Forall_cons in Hg2 as [_ Hg2].
    by apply release_kinds.
Qed.

(** * Requests that take the program down *)

(** C21: a one-word free block at index 0, which a 16-byte aligned first request
    leaves behind, makes every later 16-byte aligned request that no free block
    can serve end the program with exit code 1, however much memory is left. *)
Theorem stuck_block h post size align :
  managed h (Block Free 1 :: post) -> 0 < size < 2 ^ 63 -> 8 < align <= 16 ->
  no_fit (local_size_of size) 2 (Block Free 1 :: post) ->
  wp (dandelion_alloc size align) (fun p h' =>
    p = NULL /\ exited h' = true /\ exit_code h' = 1) h.
Proof.
  intros Hm Hs Ha Hno. set (bs := Block Free 1 :: post) in *.
  pose proof (local_size_range size Hs) as Hn.
  assert (Hal : local_alignment_of align = 2)
    by (rewrite local_alignment_range, (proj2 (Z.ltb_lt _ _)) by lia; done).
  unfold dandelion_alloc. rewrite is_occupied_size, (proj2 (Z.leb_gt _ _)) by lia.
  rewrite (proj2 (Z.eqb_neq size 0)) by lia. wp_pure.
  rewrite (proj2 (Z.eqb_neq (free_root h) NULL)); [wp_pure; cbn [negb]|].
  2: { destruct (mg_root _ _ Hm). pose proof (hb_begin _ (mg_bounds _ _ Hm)). unfold NULL. lia. }
  rewrite Hal. unfold alloc_managed. wp_pure.
  eapply wp_mono; [by apply search_spec|]. intros [s sz] h0 [-> Hb].
  destruct (best_fit_found h bs (local_size_of size) 2 Hm Hn ltac:(lia))
    as [(s1 & Hb1 & _)|(pre&len&post2&sz1&Hbs&Hb1&Hsz1&_&[Hlen|(->&->&_)])].
  - rewrite Hb1 in Hb. apply best_fit_gen in Hb1 as (_ & _ & Hmin).
    specialize (Hmin [] (Block Free 1) post eq_refl eq_refl).
    change (room 2 (0 + total []) (b_len (Block Free 1))) with (2 ^ 64 - 2) in Hmin.
    specialize (Hmin ltac:(lia)). unfold MAX_VAL, size_max in Hmin. lia.
  - specialize (Hno _ _ _ Hbs). lia.
  - rewrite Hb1 in Hb. injection Hb as -> ->. rewrite (proj2 (Z.eqb_neq _ _)) by done.
    wp_pure. cbn [total].
    eapply wp_mono; [by eapply degenerate_spec|]. by intros p h' (-> & w & -> & _).
Qed.

(** The heap that the examples run on: 16 pages, all zero. *)
Definition demo_heap : heap := init_heap 4096 (4096 + 16 * 4096) ∅.

(** The result of a program that does not fault. *)
Definition run_result {S A} (c : prog S A) (s : S) : option (A * S) :=
  match c s with Ret a s' => Some (a, s') | Fault _ => None end.

(** on a heap of 16 pages, a request for 100 bytes aligned to 16 and one
    for 8192 bytes aligned to 16 end the program with code 1 while fifteen pages
    are still free; with alignment 8 the same two requests succeed. *)
Theorem stuck_example :
  option_map (fun '(p, h) => (p, exited h, exit_code h, heap_end h - break_of h))
    (run_result (let! _ := dandelion_alloc 100 16 in dandelion_alloc 8192 16) demo_heap)
  = Some (NULL, true, 1, 15 * 4096) /\
  option_map (fun '(p, h) => (p =? NULL, exited h))
    (run_result (let! _ := dandelion_alloc 100 8 in dandelion_alloc 8192 8) demo_heap)
  = Some (false, false).
Proof. split; vm_compute; reflexivity. Qed.

(** on a fresh heap with 16 free pages a request for 8 bytes aligned to a
    page ends the program with code 511: the block of fresh memory is too short
    for the padding, because [get_sbrk_size] counts the alignment in words. *)
Theorem over_aligned_example :
  option_map (fun '(p, h) => (p, exited h, exit_code h))
    (run_result (dandelion_alloc 8 4096) demo_heap) = Some (NULL, true, 511).
Proof. vm_compute. reflexivity. Qed.

(** * Concrete instances *)

(** The examples' heap after a request for 100 bytes, and after a request for
    100 bytes aligned to 16. *)
Definition after (c : prog heap Z) : heap :=
  match run_result c demo_heap with Some (_, h) => h | None => demo_heap end.
Definition demo_used : heap := after (dandelion_alloc 100 8).
Definition demo_stuck : heap := after (dandelion_alloc 100 16).

Ltac concrete := vm_compute; repeat split; solve [reflexivity | discriminate | intuition discriminate].

Lemma demo_used_status : exit_status demo_used = (false, 0).
Proof. vm_compute. reflexivity. Qed.

Lemma demo_used_managed : managed demo_used [Block Used 15; Block Free 496].
Proof. split; concrete. Qed.

Lemma demo_stuck_managed : managed demo_stuck [Block Free 1; Block Used 15; Block Free 495].
Proof. split; concrete. Qed.

Lemma demo_reachable debug :
  reachable debug 4096 (4096 + 16 * 4096) (Session demo_used ([] ++ (4104, 13) :: [])).
Proof.
  eapply reach_step; [apply (reach_init _ _ _ ∅)|].
  apply (step_alloc debug demo_heap [] 100 8 4104); [vm_compute; reflexivity|lia|lia].
Qed.

Lemma demo_inv : inv (Session demo_used [(4104, 13)]) [Block Used 15; Block Free 496].
Proof.
  split; [apply demo_used_managed|vm_compute; reflexivity|].
  intros p n Hin%list_elem_of_singleton. injection Hin as -> ->. split; [lia|].
  intros i Hi. exists (1 + i). cbn [s_heap]. change (payload demo_used (1 + i)) with (4096 + 8 * (1 + i)).
  split; [lia|]. left. cbn. split; [done|lia].
Qed.

Lemma live_disjoint_witness : apart 4104 13 4104 13 \/ inside demo_used 4104 13.
Proof.
  right. apply (live_disjoint true 4096 (4096 + 16 * 4096) ltac:(lia) ltac:(lia)
    demo_used [(4104, 13)] (demo_reachable true)). constructor.
Defined.

Lemma alloc_safe_witness :
  wp (dandelion_alloc 64 16) (fun p h' => preserves demo_used [(4104, 13)] h') demo_used.
Proof.
  eapply wp_mono; [apply (alloc_safe true 4096 (4096 + 16 * 4096) ltac:(lia) ltac:(lia)
    demo_used [(4104, 13)] 64 16 (demo_reachable true)); lia|]. by intros p h' [? _].
Defined.

Lemma free_safe_witness :
  wp (dandelion_free true 4104) (fun _ h' => exited h' = false) demo_used.
Proof.
  eapply wp_mono; [apply (free_safe true 4096 (4096 + 16 * 4096) ltac:(lia) ltac:(lia)
    demo_used [] 4104 13 [] (demo_reachable true))|].
  intros p h' [He _]. rewrite demo_used_status in He. by injection He.
Defined.

Lemma demo_fits : ~ no_fit (local_size_of 100) 1 [Block Used 15; Block Free 496].
Proof. intros H. specialize (H [Block Used 15] 496 [] eq_refl). vm_compute in H. discriminate. Qed.

Lemma alloc_succeeds_witness :
  wp (dandelion_alloc 100 8) (fun p h' => p <> NULL /\ exited h' = false) demo_used.
Proof.
  eapply wp_mono; [apply (alloc_succeeds demo_used [Block Used 15; Block Free 496] 100 8);
    [apply demo_used_managed|lia|lia|left; apply demo_fits|left; lia]|].
  intros p h' [Hp He]. split; [done|]. rewrite demo_used_status in He. by injection He.
Defined.

Lemma alloc_refuses_witness : dandelion_alloc (2 ^ 63) 8 demo_heap = Ret NULL demo_heap.
Proof. apply (alloc_refuses (2 ^ 63) 8). right. lia. Defined.

Lemma alloc_refines_witness :
  wp (dandelion_alloc 64 8) (fun p h' =>
    managed h' [Block Used 15; Block Used 10; Block Free 486] /\ p = 4096 + 8 * 16) demo_used.
Proof.
  eapply wp_mono; [apply (alloc_refines demo_used [Block Used 15; Block Free 496] 64 8
    demo_used_managed); lia|]. vm_compute abs_alloc. cbv beta iota. by intros p h' (? & _ & ->).
Defined.

Lemma free_refines_witness :
  wp (dandelion_free false 4104) (fun _ h' => managed h' [Block Free 511]) demo_used.
Proof.
  eapply wp_mono; [apply (free_refines false demo_used [] 15 [Block Free 496] demo_used_managed)|].
  by intros _ h' [? _].
Defined.

Lemma alloc_free_roundtrip_witness :
  wp (let! p := dandelion_alloc 100 8 in dandelion_free true p)
    (fun _ h' => managed h' [Block Used 15; Block Free 496]) demo_used.
Proof.
  apply (alloc_free_roundtrip true demo_used _ 100 8 demo_used_managed); [lia|lia|apply demo_fits].
Defined.

Lemma last_free_coalesces_witness :
  wp (dandelion_free true 4104) (fun _ h' => managed h' [Block Free 511]) demo_used.
Proof.
  apply (last_free_coalesces true demo_used [Block Used 15; Block Free 496] 4104 13 demo_inv).
  repeat constructor; done.
Defined.

Lemma stuck_block_witness :
  wp (dandelion_alloc 8192 16) (fun p h' => p = NULL /\ exited h' = true /\ exit_code h' = 1)
    demo_stuck.
Proof.
  apply (stuck_block demo_stuck [Block Used 15; Block Free 495] 8192 16 demo_stuck_managed); [lia|lia|].
  intros [|[k1 l1] [|[k2 l2] [|[k3 l3] [|]]]] len post Heq; try discriminate; injection Heq as; subst;
    vm_compute; reflexivity.
Defined.

(** * The break *)

(** a request to move the break up returns the old break, word aligned,
    and leaves it at the next word boundary behind the requested bytes; one
    that would pass the end of the heap returns [NULL] and changes no memory. *)
Theorem sbrk_grows h size :
  heap_bounds h -> 0 <= size < 2 ^ 63 ->
  wp (dandelion_sbrk size) (fun p h' =>
    heap_bounds h' /\ words h' = words h /\
    if break_of h + size <=? heap_end h
    then p = break_of h /\ p mod 8 = 0 /\ alloc_base h' = round_up (p + size) 8
    else p = NULL /\ alloc_base h' = break_of h) h.
Proof.
  intros Hb Hs. destruct (break_spec h Hb) as [Hb8 Hbr].
  pose proof (round_up_spec (break_of h + size) 8 ltac:(lia)).
  apply wp_sbrk; [done|lia|]. case_bool; (split; [apply heap_bounds_base; try done|split; done]).
  - split; [lia|]. by apply round_up_mono.
  - by apply round_up_mod.
Qed.

(** a decrement of [k] bytes, which reaches the function as the [size_t]
    value [2^64 - k], gives back the whole words among them. *)
Theorem sbrk_shrinks h k :
  heap_bounds h -> 0 < k <= break_of h -> break_of h - k <= heap_end h ->
  dandelion_sbrk (2 ^ 64 - k) h =
    Ret (break_of h) (set_alloc_base (break_of h - 8 * (k / 8)) h).
Proof.
  intros Hb Hk Hend. destruct (break_spec h Hb) as [Hb8 Hbr].
  pose proof (hb_begin _ Hb). pose proof (hb_end _ Hb).
  pose proof (round_up_spec (heap_end h) 8 ltac:(lia)) as [? _].
  pose proof (round_up_spec (heap_begin h) 8 ltac:(lia)) as [? _].
  assert (Hwrap : wrap64 (break_of h + (2 ^ 64 - k)) = break_of h - k).
  { unfold wrap64. symmetry. apply (Z.mod_unique_pos _ _ 1); lia. }
  assert (Hpad : (break_of h - k) + (if (2 ^ 64 - k) mod 8 =? 0 then 0 else 8 - (2 ^ 64 - k) mod 8)
                 = break_of h - 8 * (k / 8)).
  { case_bool; Z.div_mod_to_equations; lia. }
  assert (Hpos : 0 <= break_of h - 8 * (k / 8) < 2 ^ 64) by (Z.div_mod_to_equations; lia).
  unfold dandelion_sbrk, bind, gets, modify, ret.
  unfold break_of in *. destruct (alloc_base h =? 0) eqn:E; cbn [alloc_base set_alloc_base heap_end].
  - rewrite pad8 in * by lia. rewrite (wrap64_small (round_up _ _)) in * by lia.
    rewrite Hwrap, Z.gtb_ltb, (proj2 (Z.ltb_ge _ _)), Hpad, wrap64_small by lia. done.
  - rewrite Hwrap, Z.gtb_ltb, (proj2 (Z.ltb_ge _ _)), Hpad, wrap64_small by lia. done.
Qed.

Lemma demo_bounds : heap_bounds demo_heap.
Proof. split; concrete. Qed.

Lemma sbrk_grows_witness :
  wp (dandelion_sbrk 12) (fun p h' => p = 4096 /\ alloc_base h' = 4112) demo_heap.
Proof.
  eapply wp_mono; [apply (sbrk_grows demo_heap 12 demo_bounds); lia|].
  vm_compute (break_of demo_heap + 12 <=? heap_end demo_heap). cbv beta iota.
  intros p h' (_ & _ & -> & _ & ->). split; vm_compute; reflexivity.
Defined.

Lemma sbrk_shrinks_witness :
  dandelion_sbrk (2 ^ 64 - 20) (set_alloc_base 8192 demo_heap) =
    Ret 8192 (set_alloc_base 8176 demo_heap).
Proof.
  apply (sbrk_shrinks (set_alloc_base 8192 demo_heap) 20); [|concrete|concrete].
  split; concrete.
Defined.
