(* ===== verification/AllocRoom.v ===== *)
(** How much memory the allocator still has: a request that the break can
    still serve succeeds, and the distance from the break to the end of the
    heap shrinks by a bounded amount. *)
From S2P Require Import Prelude Heap Alloc Blocks AllocSafe AllocGrow AllocCorrect AllocSession AllocTheorems.

(** The bytes behind the break, and what a request can take of them: its
    words, the descriptors and the rounding to pages. *)
Definition room (h : heap) : Z := heap_end h - break_of h.
Definition cost (size : Z) : Z := 8 * local_size_of size + 16000.

(** The first payload: as long as it is in use, no free block is stuck in
    front of everything. *)
Definition first_payload (h : heap) : Z := payload h 1.

Lemma cost_mono n m : 0 <= n <= m -> m < 2 ^ 63 -> 0 <= cost n <= cost m.
Proof.
  intros Hn Hm. unfold cost, local_size_of. rewrite !wrap64_small by lia.
  pose proof (Z.div_le_mono (n + 8 - 1) (m + 8 - 1) 8 ltac:(lia) ltac:(lia)).
  pose proof (Z.div_pos (n + 8 - 1) 8 ltac:(lia) ltac:(lia)). lia.
Qed.

Lemma sbrk_cost size align :
  0 < size < 2 ^ 63 -> 0 <= align <= 16 ->
  get_sbrk_size (local_size_of size) (local_alignment_of align) <= cost size.
Proof.
  intros Hs Ha. destruct (get_sbrk_size_spec (local_size_of size) (local_alignment_of align)) as (m & -> & Hm).
  - by apply local_size_range.
  - rewrite local_alignment_range by done. case_bool; lia.
  - unfold cost. lia.
Qed.

(** The first block is the one whose payload comes first. *)
Lemma first_used h L bs n :
  inv (Session h L) bs -> (first_payload h, n) ∈ L -> exists len bs', bs = Block Used len :: bs'.
Proof.
  intros Hi Hin. pose proof (inv_managed _ _ _ _ Hi Hin) as Hm.
  destruct (inv_block _ _ _ _ _ Hi Hin) as (pre & len & post & -> & Hp & Hn).
  destruct (mg_wf _ _ Hm) as [_ Hl%wf_lens]. apply Forall_app in Hl as [Hl _].
  unfold first_payload, payload, payload_addr in Hp. destruct pre as [|b pre]; [by eexists _, _|].
  apply Forall_cons in Hl as [Hb Hl%total_nonneg]. cbn in Hp. lia.
Qed.

Lemma managed_room h bs : managed h bs -> room h = heap_end h - alloc_base h.
Proof. intros Hm. unfold room. by destruct (managed_break _ _ Hm) as [-> _]. Qed.

Lemma alloc_with_room h L bs size align :
  inv (Session h L) bs -> L <> [] -> 0 < size < 2 ^ 63 -> 0 <= align <= 16 ->
  align <= 8 \/ (first_payload h ∈ L.*1) -> cost size <= room h ->
  wp (dandelion_alloc size align) (fun p h' => p <> NULL /\
    room h - cost size <= room h' /\ first_payload h' = first_payload h) h.
Proof.
  intros Hi HL Hs Ha Hstuck Hroom. destruct L as [|[q k] L]; [done|].
  pose proof (inv_managed _ _ _ _ Hi ltac:(by left)) as Hm. cbn [s_heap] in Hm.
  pose proof (sbrk_cost size align Hs Ha) as Hcost.
  rewrite (managed_room _ _ Hm) in *. destruct (managed_break _ _ Hm) as (Hb & _).
  eapply wp_mono; [apply wp_and; [apply (alloc_abs_break h bs size align); done|
    apply (alloc_returns h bs size align); [apply Hi|done|done|right; lia|]]|].
  - destruct Hstuck as [|[[x n] [E Hin]]%list_elem_of_fmap]; [by left|right].
    cbn in E. subst x. destruct (first_used _ _ _ _ Hi Hin) as (len & bs' & ->). done.
  - intros p h' [[[He Hbase] Habs] [Hp _]]. split; [done|].
    destruct (abs_alloc _ _ _ _ _) as [[bs' i]|]; [|by destruct Habs].
    destruct Habs as (Hm' & Hr & _). rewrite (managed_room _ _ Hm').
    unfold first_payload, payload. rewrite Hr. split; [lia|done].
Qed.

Lemma free_with_room debug h L1 p n L2 bs :
  inv (Session h (L1 ++ (p, n) :: L2)) bs ->
  wp (dandelion_free debug p) (fun _ h' => room h' = room h /\ first_payload h' = first_payload h) h.
Proof.
  intros Hi. assert (Hin : (p, n) ∈ L1 ++ (p, n) :: L2) by set_solver.
  destruct (inv_block _ _ _ _ _ Hi Hin) as (pre & len & post & -> & -> & Hn).
  eapply wp_mono; [apply (free_spec _ _ _ _ (inv_managed _ _ _ _ Hi Hin))|].
  by intros _ h' (w & -> & _).
Qed.
