(* ===== verification/System.v ===== *)
(** The interface between the runtime and the code above it: what
    [dandelion_alloc], [dandelion_free] and the exit of the process promise to
    a caller that holds pointers, and the proof that the allocator of
    [Alloc] keeps the promise. *)
From S2P Require Import Prelude Heap Alloc Blocks AllocSafe AllocGrow AllocCorrect AllocSession AllocTheorems AllocRoom.

(** * The interface *)

(** A system has a state [M] with the live allocations [live] (pointer and
    size in words) and the exit code of the process.  [sys_sound] is the
    invariant of the implementation; clients only pass it on. *)
Class System (M : Type) := {
  sys_alloc : Z -> Z -> prog M Z;
  sys_free : Z -> prog M unit;
  sys_reset : prog M unit;
  sys_set_code : Z -> prog M unit;
  sys_exit : prog M unit;
  sys_live : M -> list (Z * Z);
  sys_code : M -> Z;
  sys_exited : M -> bool;
  sys_sound : M -> Prop;
  sys_area : M -> Z * Z;
  (** The memory that is left, and the most that a request takes of it;
      [sys_first] is the pointer that a first request returns. *)
  sys_room : M -> Z;
  sys_cost : Z -> Z;
  sys_first : M -> Z;

  (** A request returns [NULL], or memory that no live allocation overlaps. *)
  sys_alloc_law m size align :
    sys_sound m -> 0 <= size < 2 ^ 64 -> 0 <= align <= 16 ->
    wp (sys_alloc size align) (fun p m' => sys_sound m' /\
      (align <= 8 \/ p <> NULL ->
        sys_code m' = sys_code m /\ sys_exited m' = sys_exited m) /\
      if p =? NULL then sys_live m' = sys_live m
      else exists n, 0 < p /\ size <= 8 * n /\ sys_live m' = (p, n) :: sys_live m /\
        (p ∉ (sys_live m).*1) /\ forall x v, (x, v) ∈ sys_live m -> apart p n x v) m;
  (** A request of no bytes is refused. *)
  sys_alloc_zero m align : sys_alloc 0 align m = Ret NULL m;
  (** A release takes the allocation away. *)
  sys_free_law m p n L1 L2 :
    sys_sound m -> sys_live m = L1 ++ (p, n) :: L2 ->
    wp (sys_free p) (fun _ m' => sys_sound m' /\ sys_live m' = L1 ++ L2) m;
  (** Starting over forgets every allocation. *)
  sys_reset_law m : sys_sound m ->
    wp sys_reset (fun _ m' => sys_sound m' /\ sys_live m' = []) m;
  sys_set_code_law m c : sys_sound m ->
    wp (sys_set_code c) (fun _ m' => sys_sound m' /\ sys_live m' = sys_live m /\
      sys_code m' = c /\ sys_exited m' = sys_exited m) m;
  sys_exit_law m : sys_sound m ->
    wp sys_exit (fun _ m' => sys_sound m' /\ sys_live m' = sys_live m /\
      sys_code m' = sys_code m /\ sys_exited m' = true) m;
  (** Allocations come from one area of memory, which stays where it is. *)
  sys_area_law m p n : sys_sound m -> (p, n) ∈ sys_live m ->
    (sys_area m).1 <= p /\ p + 8 * n <= (sys_area m).2;
  sys_alloc_area m size align : sys_sound m -> 0 <= size < 2 ^ 64 -> 0 <= align <= 16 ->
    wp (sys_alloc size align) (fun _ m' => sys_area m' = sys_area m) m;
  sys_free_area m p n L1 L2 : sys_sound m -> sys_live m = L1 ++ (p, n) :: L2 ->
    wp (sys_free p) (fun _ m' => sys_area m' = sys_area m) m;
  (** Live allocations are apart from each other. *)
  sys_nodup_law m : sys_sound m -> NoDup (sys_live m).*1;
  sys_apart_law m p n q k : sys_sound m -> (p, n) ∈ sys_live m -> (q, k) ∈ sys_live m -> p <> q ->
    apart p n q k;
  (** A request succeeds when enough memory is left, if its alignment is that
      of a word or the first allocation is still in use. *)
  sys_cost_mono n k : 0 <= n <= k -> k < 2 ^ 63 -> 0 <= sys_cost n <= sys_cost k;
  sys_room_law m size align :
    sys_sound m -> sys_live m <> [] -> 0 < size < 2 ^ 63 -> 0 <= align <= 16 ->
    align <= 8 \/ (sys_first m ∈ (sys_live m).*1) -> sys_cost size <= sys_room m ->
    wp (sys_alloc size align) (fun p m' => p <> NULL /\
      sys_room m - sys_cost size <= sys_room m' /\ sys_first m' = sys_first m) m;
  sys_free_room m p n L1 L2 : sys_sound m -> sys_live m = L1 ++ (p, n) :: L2 ->
    wp (sys_free p) (fun _ m' => sys_room m' = sys_room m /\ sys_first m' = sys_first m) m;
  sys_set_code_room m c : wp (sys_set_code c) (fun _ m' => sys_room m' = sys_room m) m;
}.

(** * The runtime's implementation *)

(** The first statements of [dandelion_init] on the allocator's variables. *)
Definition reset_statics : prog heap unit :=
  let! _ := modify (set_free_root NULL) in
  let! _ := modify (set_alloc_base 0) in
  modify (set_last 0).

Definition put_code (c : Z) (h : heap) : heap :=
  Heap (heap_begin h) (heap_end h) c (exited h) (alloc_base h) (free_root h)
    (last_descriptor h) (words h).
Definition put_exited (h : heap) : heap := set_exit (exit_code h) h.

(** A heap operation with the record of the live allocations beside it. *)
Definition on_heap {A} (c : prog heap A) (g : A -> list (Z * Z) -> list (Z * Z))
    : prog session A := fun s =>
  match c (s_heap s) with
  | Ret a h' => Ret a (Session h' (g a (s_live s)))
  | Fault f => Fault f
  end.

Lemma wp_on_heap {A} (c : prog heap A) g (Q : A -> session -> Prop) h L :
  wp c (fun a h' => Q a (Session h' (g a L))) h -> wp (on_heap c g) Q (Session h L).
Proof. unfold wp, on_heap. cbn. by destruct (c h). Qed.

Definition session_alloc (size align : Z) : prog session Z :=
  on_heap (dandelion_alloc size align)
    (fun p L => if p =? NULL then L else (p, local_size_of size) :: L).
Definition session_free (debug : bool) (p : Z) : prog session unit :=
  on_heap (dandelion_free debug p) (fun _ L => filter (fun x => x.1 <> p) L).

(** Changing the exit code or the exit flag does not touch the memory. *)
Lemma inv_code h L bs c e :
  inv (Session h L) bs ->
  inv (Session (Heap (heap_begin h) (heap_end h) c e (alloc_base h) (free_root h)
    (last_descriptor h) (words h)) L) bs.
Proof.
  intros [Hr Hp Hn]. split; [|done|done]. cbn [s_heap] in *. destruct bs as [|b bs].
  - destruct Hr as [[] ?]. by split; [split|].
  - destruct Hr as [[] [] [] ? ? ? ? ?]. split; try done; by split.
Qed.

Lemma inv_reset h L bs :
  inv (Session h L) bs ->
  inv (Session (set_last 0 (set_alloc_base 0 (set_free_root NULL h))) []) [].
Proof.
  intros Hi. destruct (repr_bounds _ _ (inv_repr _ _ Hi)) as [? ? _].
  split; [|done|by intros p n ?%elem_of_nil]. split; [|done]. split; [done|done|by left].
Qed.

Lemma filter_live h L1 p n L2 bs :
  inv (Session h (L1 ++ (p, n) :: L2)) bs ->
  filter (fun x => x.1 <> p) (L1 ++ (p, n) :: L2) = L1 ++ L2.
Proof.
  intros Hnd%inv_nodup. rewrite fmap_app in Hnd. cbn in Hnd.
  rewrite <-Permutation_middle in Hnd. apply NoDup_cons in Hnd as [Hni _].
  rewrite <-fmap_app in Hni.
  assert (Hf : forall L, L ⊆ L1 ++ L2 -> filter (fun x : Z * Z => x.1 <> p) L = L).
  { intros L HL. induction L as [|x L IH]; [done|]. rewrite filter_cons_True.
    - f_equal. apply IH. set_solver.
    - intros Hx. apply Hni. rewrite <-Hx. apply list_elem_of_fmap. exists x. set_solver. }
  rewrite filter_app, filter_cons_False by naive_solver.
  rewrite !Hf by set_solver. done.
Qed.

Lemma session_alloc_law s size align :
  (exists bs, inv s bs) -> 0 <= size < 2 ^ 64 -> 0 <= align <= 16 ->
  wp (session_alloc size align) (fun p s' => (exists bs, inv s' bs) /\
    (align <= 8 \/ p <> NULL -> exit_code (s_heap s') = exit_code (s_heap s) /\
      exited (s_heap s') = exited (s_heap s)) /\
    if p =? NULL then s_live s' = s_live s
    else exists n, 0 < p /\ size <= 8 * n /\ s_live s' = (p, n) :: s_live s /\
      (p ∉ (s_live s).*1) /\ forall x v, (x, v) ∈ s_live s -> apart p n x v) s.
Proof.
  destruct s as [h L]. intros [bs Hi] Hs Ha. cbn [s_live]. apply wp_on_heap.
  destruct (decide (0 < size < 2 ^ 63)) as [Hsz|Hsz].
  2: { unfold wp. rewrite alloc_rejects by lia. cbn. by eauto. }
  eapply wp_mono; [by apply alloc_cases; [apply Hi|..]|]. intros p h' Hres.
  destruct (inv_alloc _ _ _ _ _ _ _ Hi (proj1 (local_size_range _ Hsz)) Hres) as [bs' Hi'].
  split; [by eauto|]. split.
  { destruct Hres as (? & _ & _ & _ & _ & Hcase). cbn [s_heap]. intros Hp.
    destruct (p =? NULL) eqn:E; bool_to_prop; [|destruct Hcase as [Hcase _]; by injection Hcase].
    destruct Hcase as [_ [[He _]|(_ & _ & Ha2 & _)]]; [by injection He|].
    rewrite local_alignment_range, (proj2 (Z.ltb_ge _ _)) in Ha2 by (done || lia). lia. }
  destruct (p =? NULL); [done|]. cbn [s_live].
  exists (local_size_of size). pose proof (inv_nodup _ _ _ Hi') as Hnd.
  apply NoDup_cons in Hnd as [Hni _]. pose proof (local_size_bytes size ltac:(lia)).
  split_and!; [|lia|done|done|].
  { destruct (inv_inside _ _ _ _ _ Hi' ltac:(by constructor)) as [[Hlo _] _].
    pose proof (inv_managed _ _ _ _ Hi' ltac:(by constructor)) as Hm'.
    pose proof (hb_begin _ (mg_bounds _ _ Hm')). lia. }
  intros x v Hx.
  eapply inv_apart; [done|constructor|by constructor|]. intros <-.
  apply Hni, list_elem_of_fmap. by exists (p, v).
Qed.

(** The heap stays where it is. *)
Definition heap_area (s : session) : Z * Z := (heap_begin (s_heap s), heap_end (s_heap s)).

Lemma session_alloc_area s size align :
  (exists bs, inv s bs) -> 0 <= size < 2 ^ 64 -> 0 <= align <= 16 ->
  wp (session_alloc size align) (fun _ s' => heap_area s' = heap_area s) s.
Proof.
  destruct s as [h L]. intros [bs Hi] Hs Ha. apply wp_on_heap.
  destruct (decide (0 < size < 2 ^ 63)) as [Hsz|Hsz].
  2: { unfold wp. by rewrite alloc_rejects by lia. }
  eapply wp_mono; [by apply alloc_cases; [apply Hi|..]|]. intros p h' (_ & _ & [Hb He] & _).
  unfold heap_area. cbn [s_heap]. by rewrite Hb, He.
Qed.

Lemma session_free_area debug s p n L1 L2 :
  (exists bs, inv s bs) -> s_live s = L1 ++ (p, n) :: L2 ->
  wp (session_free debug p) (fun _ s' => heap_area s' = heap_area s) s.
Proof.
  destruct s as [h L]. intros [bs Hi] HL. cbn [s_live] in HL. subst L. apply wp_on_heap.
  assert (Hin : (p, n) ∈ L1 ++ (p, n) :: L2) by set_solver.
  destruct (inv_block _ _ _ _ _ Hi Hin) as (pre & len & post & -> & -> & Hn).
  eapply wp_mono; [apply (free_spec _ _ _ _ (inv_managed _ _ _ _ Hi Hin))|].
  by intros _ h' (w & -> & _).
Qed.

Lemma session_room_law s size align :
  (exists bs, inv s bs) -> s_live s <> [] -> 0 < size < 2 ^ 63 -> 0 <= align <= 16 ->
  align <= 8 \/ (first_payload (s_heap s) ∈ (s_live s).*1) -> cost size <= room (s_heap s) ->
  wp (session_alloc size align) (fun p s' => p <> NULL /\
    room (s_heap s) - cost size <= room (s_heap s') /\
    first_payload (s_heap s') = first_payload (s_heap s)) s.
Proof.
  destruct s as [h L]. intros [bs Hi] HL Hs Ha Hf Hr. apply wp_on_heap.
  by eapply alloc_with_room.
Qed.

Lemma session_free_room debug s p n L1 L2 :
  (exists bs, inv s bs) -> s_live s = L1 ++ (p, n) :: L2 ->
  wp (session_free debug p) (fun _ s' => room (s_heap s') = room (s_heap s) /\
    first_payload (s_heap s') = first_payload (s_heap s)) s.
Proof.
  destruct s as [h L]. intros [bs Hi] HL. cbn [s_live] in HL. subst L. apply wp_on_heap.
  by eapply free_with_room.
Qed.

#[export, refine] Instance session_system (debug : bool) : System session := {
  sys_alloc := session_alloc;
  sys_free := session_free debug;
  sys_reset := on_heap reset_statics (fun _ _ => []);
  sys_set_code c := on_heap (modify (put_code c)) (fun _ L => L);
  sys_exit := on_heap (modify put_exited) (fun _ L => L);
  sys_live := s_live;
  sys_code s := exit_code (s_heap s);
  sys_exited s := exited (s_heap s);
  sys_sound s := exists bs, inv s bs;
  sys_area := heap_area;
  sys_alloc_law := session_alloc_law;
  sys_alloc_zero := _; sys_free_law := _; sys_reset_law := _;
  sys_set_code_law := _; sys_exit_law := _;
  sys_area_law := _; sys_alloc_area := session_alloc_area; sys_free_area := session_free_area debug;
  sys_room s := room (s_heap s); sys_cost := cost; sys_first s := first_payload (s_heap s);
  sys_nodup_law := _; sys_apart_law := _; sys_cost_mono := cost_mono;
  sys_room_law := session_room_law; sys_free_room := session_free_room debug;
  sys_set_code_room := _;
}.
Proof.
  - intros [h L] align. unfold session_alloc, on_heap. cbn [s_heap].
    rewrite alloc_rejects by lia. done.
  - intros [h L] p n L1 L2 [bs Hi] HL. cbn in HL. subst L. apply wp_on_heap.
    eapply wp_mono; [by eapply inv_free|]. intros _ h' (_ & bs' & Hi' & _).
    rewrite (filter_live _ _ _ _ _ _ Hi). by eauto.
  - intros [h L] [bs Hi]. split; [|done]. exists []. by eapply inv_reset.
  - intros [h L] c [bs Hi]. split_and!; try done. exists bs. by apply inv_code.
  - intros [h L] [bs Hi]. split_and!; try done. exists bs. by apply inv_code.
  - intros [h L] p n [bs Hi] Hin. by destruct (inv_inside _ _ _ _ _ Hi Hin) as [(? & ? & _) _].
  - intros [h L] [bs Hi]. by eapply inv_nodup.
  - intros [h L] p n q k [bs Hi] Hp Hq Hne. by eapply inv_apart.
  - by intros [h L] c.
Defined.
