(* ===== verification/RuntimeIO.v ===== *)
(** The input and output sets of the runtime (src/runtime/runtime.c):
    [dandelion_init] parses the platform's flat arrays into a tree of sets,
    the accessors read it, [dandelion_add_output] grows it, and
    [dandelion_exit] flattens the output tree for the platform. *)
From S2P Require Import Prelude Heap Alloc System.

(** * Data *)

Record io_buffer := IoBuffer {
  ib_ident : Z; ib_ident_len : Z; ib_data : Z; ib_data_len : Z; ib_key : Z }.

(** A set of the tree; [buffers] is a pointer to an array of [IoBuffer]. *)
Record io_set := IoSet {
  is_ident : Z; is_ident_len : Z; buffers : Z; buffers_len : Z; buffers_cap : Z }.

(** A set of the platform's flat representation. *)
Record io_set_info := IoSetInfo { si_ident : Z; si_ident_len : Z; si_offset : Z }.

(** [sizeof(IoSet)] and [sizeof(IoBuffer)] are 40, their alignment is 8. *)
Definition sizeof_io : Z := 40.
Definition alignof_io : Z := 8.

(** The runtime's state: the fields of [__dandelion_system_data] about sets
    ([input_sets], [input_bufs], [output_sets] are arrays of the platform),
    [__runtime_global_data], and the arrays the runtime allocated, by
    address. *)
Record runtime (M : Type) := Runtime {
  rt_sys : M;
  input_sets_len : Z;
  input_sets : list io_set_info;
  output_sets_len : Z;
  output_sets : list io_set_info;
  input_bufs : list io_buffer;
  output_bufs : Z;
  rt_input_sets : Z;
  rt_output_sets : Z;
  set_arrays : gmap Z (list io_set);
  buf_arrays : gmap Z (list io_buffer);
}.
Arguments Runtime {M}.
Arguments rt_sys {M}. Arguments input_sets_len {M}. Arguments input_sets {M}.
Arguments output_sets_len {M}. Arguments output_sets {M}. Arguments input_bufs {M}.
Arguments output_bufs {M}. Arguments rt_input_sets {M}. Arguments rt_output_sets {M}.
Arguments set_arrays {M}. Arguments buf_arrays {M}.

Section runtime.
Context {M : Type} {HS : System M}.
(** What freshly allocated memory happens to hold. *)
Context (junk_set : io_set) (junk_buf : io_buffer).
Implicit Types s : runtime M.

Definition set_sys (m : M) s : runtime M :=
  Runtime m (input_sets_len s) (input_sets s) (output_sets_len s) (output_sets s)
    (input_bufs s) (output_bufs s) (rt_input_sets s) (rt_output_sets s)
    (set_arrays s) (buf_arrays s).
Definition set_set_arrays a s : runtime M :=
  Runtime (rt_sys s) (input_sets_len s) (input_sets s) (output_sets_len s) (output_sets s)
    (input_bufs s) (output_bufs s) (rt_input_sets s) (rt_output_sets s) a (buf_arrays s).
Definition set_buf_arrays a s : runtime M :=
  Runtime (rt_sys s) (input_sets_len s) (input_sets s) (output_sets_len s) (output_sets s)
    (input_bufs s) (output_bufs s) (rt_input_sets s) (rt_output_sets s) (set_arrays s) a.
Definition set_rt_input p s : runtime M :=
  Runtime (rt_sys s) (input_sets_len s) (input_sets s) (output_sets_len s) (output_sets s)
    (input_bufs s) (output_bufs s) p (rt_output_sets s) (set_arrays s) (buf_arrays s).
Definition set_rt_output p s : runtime M :=
  Runtime (rt_sys s) (input_sets_len s) (input_sets s) (output_sets_len s) (output_sets s)
    (input_bufs s) (output_bufs s) (rt_input_sets s) p (set_arrays s) (buf_arrays s).
Definition set_output_bufs p s : runtime M :=
  Runtime (rt_sys s) (input_sets_len s) (input_sets s) (output_sets_len s) (output_sets s)
    (input_bufs s) p (rt_input_sets s) (rt_output_sets s) (set_arrays s) (buf_arrays s).
Definition set_output_sets o s : runtime M :=
  Runtime (rt_sys s) (input_sets_len s) (input_sets s) (output_sets_len s) o
    (input_bufs s) (output_bufs s) (rt_input_sets s) (rt_output_sets s)
    (set_arrays s) (buf_arrays s).

Definition on_sys {A} (c : prog M A) : prog (runtime M) A := zoom rt_sys set_sys c.

(** ** Arrays *)

Definition array_get {A} (arrays : runtime M -> gmap Z (list A)) (p i : Z)
    : prog (runtime M) A := fun s =>
  if p =? NULL then Fault NullDeref else
  match arrays s !! p with
  | Some l => match zlookup i l with Some a => Ret a s | None => Fault OutOfBounds end
  | None => Fault OutOfBounds
  end.

Definition array_put {A} (arrays : runtime M -> gmap Z (list A))
    (put : gmap Z (list A) -> runtime M -> runtime M) (p i : Z) (a : A)
    : prog (runtime M) unit := fun s =>
  if p =? NULL then Fault NullDeref else
  match arrays s !! p with
  | Some l =>
      match zlookup i l with
      | Some _ => Ret tt (put (<[p := zinsert i a l]> (arrays s)) s)
      | None => Fault OutOfBounds
      end
  | None => Fault OutOfBounds
  end.

Definition get_set := array_get set_arrays.
Definition put_set := array_put set_arrays set_set_arrays.
Definition get_buf := array_get buf_arrays.
Definition put_buf := array_put buf_arrays set_buf_arrays.

(** An element of an array of the platform. *)
Definition platform_get {A} (arr : runtime M -> list A) (i : Z) : prog (runtime M) A :=
  fun s => match zlookup i (arr s) with Some a => Ret a s | None => Fault OutOfBounds end.

(** [dandelion_alloc(n * sizeof( * p), _Alignof( * p))]: the product is
    computed on [size_t], and the array has the elements that fit. *)
Definition alloc_sets (n : Z) : prog (runtime M) Z :=
  let bytes := wrap64 (n * sizeof_io) in
  let! p := on_sys (sys_alloc bytes alignof_io) in
  let! _ := if p =? NULL then ret tt else modify (fun s =>
    set_set_arrays (<[p := replicate (Z.to_nat (bytes / sizeof_io)) junk_set]> (set_arrays s)) s) in
  ret p.
Definition alloc_bufs (n : Z) : prog (runtime M) Z :=
  let bytes := wrap64 (n * sizeof_io) in
  let! p := on_sys (sys_alloc bytes alignof_io) in
  let! _ := if p =? NULL then ret tt else modify (fun s =>
    set_buf_arrays (<[p := replicate (Z.to_nat (bytes / sizeof_io)) junk_buf]> (buf_arrays s)) s) in
  ret p.

(** ** [dandelion_init] *)

(** [sysdata.exit_code = DANDELION_OOM; __dandelion_system_exit(); return;] *)
Definition out_of_memory : prog (runtime M) (option unit) :=
  let! _ := on_sys (sys_set_code DANDELION_OOM) in
  let! _ := on_sys sys_exit in
  ret (Some tt).

(** Assignments to the fields of [set = &rtdata.input_sets[i]] (or of the
    output sets). *)
Definition update_set (p i : Z) (f : io_set -> io_set) : prog (runtime M) unit :=
  let! set := get_set p i in put_set p i (f set).

Definition copy_input_bufs (p i num_bufs : Z) : prog (runtime M) (option unit) :=
  for_loop num_bufs (fun j =>
    let! info := platform_get input_sets i in
    let buf_offset := wrap64 (si_offset info + j) in
    let! raw := platform_get input_bufs buf_offset in
    let! set := get_set p i in
    let! _ := put_buf (buffers set) j raw in
    ret None).

Definition parse_input_set (p i : Z) : prog (runtime M) (option unit) :=
  let! next := platform_get input_sets (wrap64 (i + 1)) in
  let! info := platform_get input_sets i in
  let num_bufs := wrap64 (si_offset next - si_offset info) in
  let! _ := update_set p i (fun set => IoSet (si_ident info) (si_ident_len info)
              (buffers set) (buffers_len set) (buffers_cap set)) in
  let! bufs := alloc_bufs num_bufs in
  let! _ := update_set p i (fun set => IoSet (is_ident set) (is_ident_len set)
              bufs (buffers_len set) (buffers_cap set)) in
  if (bufs =? NULL) && negb (num_bufs =? 0) then out_of_memory else
  let! _ := update_set p i (fun set => IoSet (is_ident set) (is_ident_len set)
              (buffers set) num_bufs num_bufs) in
  copy_input_bufs p i num_bufs.

Definition parse_output_set (p i : Z) : prog (runtime M) (option unit) :=
  let! info := platform_get output_sets i in
  let! _ := put_set p i (IoSet (si_ident info) (si_ident_len info) NULL 0 0) in
  ret None.

Definition parse_inputs : prog (runtime M) (option unit) :=
  let! n := gets input_sets_len in
  let! p := alloc_sets n in
  let! _ := modify (set_rt_input p) in
  if (p =? NULL) && negb (n =? 0) then out_of_memory
  else for_loop n (parse_input_set p).

Definition parse_outputs : prog (runtime M) (option unit) :=
  let! n := gets output_sets_len in
  let! p := alloc_sets n in
  let! _ := modify (set_rt_output p) in
  if (p =? NULL) && negb (n =? 0) then out_of_memory
  else for_loop n (parse_output_set p).

Definition dandelion_init : prog (runtime M) unit :=
  let! _ := on_sys sys_reset in
  let! stop := parse_inputs in
  match stop with
  | Some _ => ret tt
  | None => let! _ := parse_outputs in ret tt
  end.

(** ** [dandelion_exit] *)

(** [num_output_bufs] after the first loop. *)
Fixpoint count_output_bufs (fuel : nat) (i acc : Z) : prog (runtime M) Z :=
  match fuel with
  | O => ret acc
  | Datatypes.S k =>
      let! p := gets rt_output_sets in
      let! set := get_set p i in
      count_output_bufs k (i + 1) (wrap64 (acc + buffers_len set))
  end.

Definition put_offset (i off : Z) : prog (runtime M) unit :=
  let! info := platform_get output_sets i in
  modify (fun s => set_output_sets
    (zinsert i (IoSetInfo (si_ident info) (si_ident_len info) off) (output_sets s)) s).

(** One output set: its offset, then its buffers. *)
Definition flatten_set (i current_offset : Z) : prog (runtime M) Z :=
  let! _ := put_offset i current_offset in
  let! p := gets rt_output_sets in
  let! tree_set := get_set p i in
  let! _ := for_loop (R := unit) (buffers_len tree_set) (fun j =>
    let! tree_buf := get_buf (buffers tree_set) j in
    let! info := platform_get output_sets i in
    let! out := gets output_bufs in
    let! _ := put_buf out (wrap64 (si_offset info + j)) tree_buf in
    ret None) in
  ret (wrap64 (current_offset + buffers_len tree_set)).

Fixpoint flatten_sets (fuel : nat) (i current_offset : Z) : prog (runtime M) Z :=
  match fuel with
  | O => ret current_offset
  | Datatypes.S k =>
      let! off := flatten_set i current_offset in flatten_sets k (i + 1) off
  end.

Definition dandelion_exit (exit_code : Z) : prog (runtime M) unit :=
  let! _ := on_sys (sys_set_code exit_code) in
  let! n := gets output_sets_len in
  let! num_output_bufs := count_output_bufs (Z.to_nat n) 0 0 in
  let! p := alloc_bufs num_output_bufs in
  let! _ := modify (set_output_bufs p) in
  if (p =? NULL) && negb (num_output_bufs =? 0)
  then let! _ := out_of_memory in ret tt else
  let! current_offset := flatten_sets (Z.to_nat n) 0 0 in
  let! _ := put_offset n current_offset in
  on_sys sys_exit.

(** ** Accessors *)

Definition dandelion_input_set_count : prog (runtime M) Z := gets input_sets_len.
Definition dandelion_output_set_count : prog (runtime M) Z := gets output_sets_len.

(** A field of a set, or a default when the index is out of range. *)
Definition dandelion_input_buffer_count (set_idx : Z) : prog (runtime M) Z :=
  let! n := gets input_sets_len in
  if n <=? set_idx then ret 0 else
  let! p := gets rt_input_sets in
  let! set := get_set p set_idx in ret (buffers_len set).
Definition dandelion_output_buffer_count (set_idx : Z) : prog (runtime M) Z :=
  let! n := gets output_sets_len in
  if n <=? set_idx then ret 0 else
  let! p := gets rt_output_sets in
  let! set := get_set p set_idx in ret (buffers_len set).
Definition dandelion_input_set_ident (set_idx : Z) : prog (runtime M) Z :=
  let! n := gets input_sets_len in
  if n <=? set_idx then ret NULL else
  let! p := gets rt_input_sets in
  let! set := get_set p set_idx in ret (is_ident set).
Definition dandelion_input_set_ident_len (set_idx : Z) : prog (runtime M) Z :=
  let! n := gets input_sets_len in
  if n <=? set_idx then ret 0 else
  let! p := gets rt_input_sets in
  let! set := get_set p set_idx in ret (is_ident_len set).
Definition dandelion_output_set_ident (set_idx : Z) : prog (runtime M) Z :=
  let! n := gets output_sets_len in
  if n <=? set_idx then ret NULL else
  let! p := gets rt_output_sets in
  let! set := get_set p set_idx in ret (is_ident set).
Definition dandelion_output_set_ident_len (set_idx : Z) : prog (runtime M) Z :=
  let! n := gets output_sets_len in
  if n <=? set_idx then ret 0 else
  let! p := gets rt_output_sets in
  let! set := get_set p set_idx in ret (is_ident_len set).

(** The result is [&array[index]], written as the pair, or [NULL]. *)
Definition dandelion_get_input (set_idx buf_idx : Z) : prog (runtime M) (option (Z * Z)) :=
  let! n := gets input_sets_len in
  if n <=? set_idx then ret None else
  let! p := gets rt_input_sets in
  let! set := get_set p set_idx in
  if buffers_len set <=? buf_idx then ret None else
  ret (Some (buffers set, buf_idx)).

(** ** [dandelion_add_output] *)

Definition copy_bufs (src dst n : Z) : prog (runtime M) (option unit) :=
  for_loop n (fun i => let! b := get_buf src i in let! _ := put_buf dst i b in ret None).

Definition grow_output_set (p set_idx : Z) (set : io_set) : prog (runtime M) unit :=
  if buffers_len set =? buffers_cap set then
    let new_cap := wrap64 (buffers_cap set * 2) in
    let new_cap := if new_cap =? 0 then 1 else new_cap in
    let! new_bufs := alloc_bufs new_cap in
    let! _ := copy_bufs (buffers set) new_bufs (buffers_len set) in
    update_set p set_idx (fun set => IoSet (is_ident set) (is_ident_len set)
      new_bufs (buffers_len set) new_cap)
  else ret tt.

Definition dandelion_add_output (set_idx : Z) (buf : io_buffer) : prog (runtime M) unit :=
  let! n := gets output_sets_len in
  if n <=? set_idx then ret tt else
  let! p := gets rt_output_sets in
  let! set := get_set p set_idx in
  let! _ := grow_output_set p set_idx set in
  let! set := get_set p set_idx in
  let! _ := update_set p set_idx (fun set => IoSet (is_ident set) (is_ident_len set)
              (buffers set) (wrap64 (buffers_len set + 1)) (buffers_cap set)) in
  put_buf (buffers set) (buffers_len set) buf.
End runtime.
