(* ===== verification/RuntimeTree.v ===== *)
(** The tree of input and output sets: what the runtime's arrays represent,
    and the lemmas on reading, writing and allocating them. *)
From S2P Require Import Prelude Heap Alloc System RuntimeIO.

(** * The tree *)

(** A set as its users see it: its name, the length of the name, its
    buffers. *)
Definition view : Type := Z * Z * list io_buffer.

(** The tree that the platform's flat arrays describe: the buffers of a set are
    the ones between its offset and the offset of the next set. *)
Fixpoint unflatten (infos : list io_set_info) (bufs : list io_buffer) : list view :=
  match infos with
  | a :: (b :: _) as r =>
      (si_ident a, si_ident_len a,
        take (Z.to_nat (si_offset b - si_offset a)) (drop (Z.to_nat (si_offset a)) bufs))
      :: unflatten r bufs
  | _ => []
  end.

(** The flat arrays for a tree, with the offsets starting at [off]; the last
    set is the sentinel. *)
Fixpoint flat_infos (off : Z) (sentinel : io_set_info) (t : list view) : list io_set_info :=
  match t with
  | [] => [IoSetInfo (si_ident sentinel) (si_ident_len sentinel) off]
  | (id, len, bs) :: t =>
      IoSetInfo id len off :: flat_infos (off + Z.of_nat (length bs)) sentinel t
  end.
Definition flat_bufs (t : list view) : list io_buffer := concat (snd <$> t).

Lemma flat_infos_head off sen t : exists a r,
  flat_infos off sen t = a :: r /\ si_offset a = off.
Proof. destruct t as [|[[id len] bs] t]; cbn; eauto. Qed.

Lemma unflatten_cons a b r bufs :
  unflatten (a :: b :: r) bufs =
  (si_ident a, si_ident_len a,
    take (Z.to_nat (si_offset b - si_offset a)) (drop (Z.to_nat (si_offset a)) bufs))
  :: unflatten (b :: r) bufs.
Proof. done. Qed.

Lemma unflatten_flat pre sen t :
  unflatten (flat_infos (Z.of_nat (length pre)) sen t) (pre ++ flat_bufs t) = t.
Proof.
  revert pre. induction t as [|[[id len] bs] t IH]; intros pre; [done|].
  cbn [flat_infos]. rewrite <-Nat2Z.inj_add, <-length_app.
  pose proof (IH (pre ++ bs)) as IHb.
  destruct (flat_infos_head (Z.of_nat (length (pre ++ bs))) sen t) as (a & r & Hf & Ha).
  rewrite Hf in IHb |- *. rewrite unflatten_cons.
  cbn [si_ident si_ident_len si_offset].
  change (flat_bufs ((id, len, bs) :: t)) with (bs ++ flat_bufs t).
  rewrite (app_assoc pre bs), IHb. f_equal. f_equal. rewrite Ha, Nat2Z.id, <-app_assoc, drop_app_length.
  rewrite length_app, take_app_le by lia. apply take_ge. lia.
Qed.

(** ** Flat arrays that the platform may pass *)

Record wf_raw (infos : list io_set_info) (n : Z) (bufs : list io_buffer) : Prop := {
  wr_len : Z.of_nat (length infos) = n + 1;
  wr_n : 0 <= n;
  wr_fits : n * sizeof_io < 2 ^ 64;
  wr_bufs : Z.of_nat (length bufs) * sizeof_io < 2 ^ 64;
  wr_mono : forall i a b, zlookup i infos = Some a -> zlookup (i + 1) infos = Some b ->
    0 <= si_offset a <= si_offset b /\ si_offset b <= Z.of_nat (length bufs);
}.

Definition slice (a b : io_set_info) (bufs : list io_buffer) : list io_buffer :=
  take (Z.to_nat (si_offset b - si_offset a)) (drop (Z.to_nat (si_offset a)) bufs).

Lemma unflatten_lookup_nat infos bufs i a b :
  infos !! i = Some a -> infos !! S i = Some b ->
  unflatten infos bufs !! i = Some (si_ident a, si_ident_len a, slice a b bufs).
Proof.
  revert i. induction infos as [|c infos IH]; intros i Ha Hb; [done|].
  destruct infos as [|d infos]; [by destruct i|]. rewrite unflatten_cons. destruct i as [|i].
  - cbn in Ha, Hb |- *. by injection Ha as ->; injection Hb as ->.
  - by apply IH.
Qed.

Lemma unflatten_lookup infos bufs i a b :
  zlookup i infos = Some a -> zlookup (i + 1) infos = Some b ->
  zlookup i (unflatten infos bufs) = Some (si_ident a, si_ident_len a, slice a b bufs).
Proof.
  intros Ha Hb. pose proof (zlookup_range _ _ _ Ha) as Hi. unfold zlookup in *.
  rewrite (proj2 (Z.leb_le 0 (i + 1))) in Hb by lia.
  rewrite (proj2 (Z.leb_le 0 i)) in * by lia. apply unflatten_lookup_nat; [done|].
  rewrite <-Hb. f_equal. lia.
Qed.

Lemma unflatten_length infos bufs :
  length (unflatten infos bufs) = pred (length infos).
Proof.
  induction infos as [|a infos IH]; [done|]. destruct infos as [|b infos]; [done|].
  cbn [unflatten length pred] in *. by rewrite IH.
Qed.

(** * Representation *)

Section tree.
Context {M : Type} {HS : System M} (junk_set : io_set) (junk_buf : io_buffer).
Implicit Types s : runtime M.

Definition owned s (p : Z) : Prop := p ∈ (sys_live (rt_sys s)).*1.

(** The array of buffers of a set: none yet, or an allocated one. *)
Definition arr_of s (set : io_set) : option (list io_buffer) :=
  if buffers_cap set =? 0 then Some []
  else if buffers set =? NULL then None else buf_arrays s !! buffers set.

Record set_view s (set : io_set) (v : view) : Prop := {
  sv_ident : is_ident set = v.1.1;
  sv_len : is_ident_len set = v.1.2;
  sv_bufs : exists arr, arr_of s set = Some arr /\ buffers_cap set = Z.of_nat (length arr) /\
    v.2 = take (length v.2) arr;
  sv_count : buffers_len set = Z.of_nat (length v.2);
  sv_cap : buffers_len set <= buffers_cap set;
  sv_owned : buffers_cap set <> 0 -> owned s (buffers set);
}.

(** The array of sets at [p] represents the tree [t]. *)
Definition sets_at s (p : Z) (t : list view) (sets : list io_set) : Prop :=
  (t = [] /\ sets = [] \/ p <> NULL /\ owned s p /\ set_arrays s !! p = Some sets) /\
  Forall2 (set_view s) sets t.

Definition tree_at s (p : Z) (t : list view) : Prop := exists sets, sets_at s p t sets.

(** Two sets never share an array, so that one can grow without the other. *)
Definition distinct (sets : list io_set) : Prop :=
  forall i j a b, i <> j -> zlookup i sets = Some a -> zlookup j sets = Some b ->
    buffers_cap a <> 0 -> buffers_cap b <> 0 -> buffers a <> buffers b.

(** The output tree: its sets can grow. *)
Definition out_tree s (p : Z) (t : list view) : Prop :=
  exists sets, sets_at s p t sets /\ distinct sets.

(** What a client of the runtime relies on stays as it is. *)
Definition frame s s' : Prop :=
  (forall p, owned s p -> owned s' p) /\
  (forall p, owned s p -> set_arrays s' !! p = set_arrays s !! p) /\
  (forall p, owned s p -> buf_arrays s' !! p = buf_arrays s !! p).

Lemma frame_refl s : frame s s.
Proof. by split_and!. Qed.

Lemma frame_trans s1 s2 s3 : frame s1 s2 -> frame s2 s3 -> frame s1 s3.
Proof.
  intros (H1&H2&H3) (H4&H5&H6). split_and!; intros p Hp; [auto| |].
  - rewrite H5, H2; auto.
  - rewrite H6, H3; auto.
Qed.

Lemma set_view_frame s s' set v :
  (forall p, owned s p -> owned s' p) ->
  (buffers_cap set <> 0 -> buf_arrays s' !! buffers set = buf_arrays s !! buffers set) ->
  set_view s set v -> set_view s' set v.
Proof.
  intros Ho Hb [? ? (arr & Ha & Hc & Hv) ? ? Hown]. split; try done; [|by auto].
  exists arr. split_and!; [|done|done]. unfold arr_of in *.
  destruct (buffers_cap set =? 0) eqn:E; [done|]. destruct (_ =? NULL); [done|].
  rewrite Hb; [done|]. by apply Z.eqb_neq.
Qed.

Lemma tree_frame s s' p t : frame s s' -> tree_at s p t -> tree_at s' p t.
Proof.
  intros (Ho & Hs & Hb) (sets & Hp & Hv). exists sets. split.
  - destruct Hp as [?|(?&?&?)]; [by left|right]. split_and!; [done|by auto|by rewrite Hs].
  - eapply Forall2_impl; [exact Hv|]. intros set v Hset.
    eapply set_view_frame; [done| |done]. intros Hc. apply Hb. by apply (sv_owned _ _ _ Hset).
Qed.

Lemma out_tree_sys s m p t :
  sys_live m = sys_live (rt_sys s) -> out_tree s p t -> out_tree (set_sys m s) p t.
Proof.
  intros Hl (sets & (Hp & Hv) & Hd). exists sets. split; [split|done].
  - unfold owned. cbn. by rewrite Hl.
  - eapply Forall2_impl; [exact Hv|]. intros set v Hset.
    apply (set_view_frame s); [|done|exact Hset]. unfold owned. cbn. by rewrite Hl.
Qed.

(** ** Arrays *)

Lemma wp_array_get {A} (arrays : runtime M -> gmap Z (list A)) p i l a s Q :
  p <> NULL -> arrays s !! p = Some l -> zlookup i l = Some a -> Q a s ->
  wp (array_get arrays p i) Q s.
Proof.
  intros Hp Hl Ha HQ. unfold wp, array_get. by rewrite (proj2 (Z.eqb_neq _ _)), Hl, Ha by done.
Qed.

Lemma wp_array_put {A} (arrays : runtime M -> gmap Z (list A)) put p i l a s
    (Q : unit -> runtime M -> Prop) :
  p <> NULL -> arrays s !! p = Some l -> 0 <= i < Z.of_nat (length l) ->
  Q tt (put (<[p := zinsert i a l]> (arrays s)) s) -> wp (array_put arrays put p i a) Q s.
Proof.
  intros Hp Hl Hi HQ. unfold wp, array_put. rewrite (proj2 (Z.eqb_neq _ _)), Hl by done.
  destruct (zlookup_lt i l Hi) as [? ->]. done.
Qed.

Lemma wp_update_set p i l set f s (Q : unit -> runtime M -> Prop) :
  p <> NULL -> set_arrays s !! p = Some l -> zlookup i l = Some set ->
  Q tt (set_set_arrays (<[p := zinsert i (f set) l]> (set_arrays s)) s) ->
  wp (update_set p i f) Q s.
Proof.
  intros Hp Hl Hi HQ. unfold update_set. wp_pure. eapply wp_array_get; [done..|].
  eapply wp_array_put; [done..| |done]. by eapply zlookup_range.
Qed.

Lemma wp_platform_get {A} (arr : runtime M -> list A) i a s Q :
  zlookup i (arr s) = Some a -> Q a s -> wp (platform_get arr i) Q s.
Proof. intros Ha HQ. unfold wp, platform_get. by rewrite Ha. Qed.

Definition same_status (m m' : M) : Prop :=
  sys_code m' = sys_code m /\ sys_exited m' = sys_exited m.

Lemma wp_alloc_array m n (Q : Z -> M -> Prop) :
  sys_sound m -> 0 <= n -> n * sizeof_io < 2 ^ 64 ->
  (forall m', sys_alloc (n * sizeof_io) alignof_io m = Ret NULL m' ->
     sys_sound m' -> sys_live m' = sys_live m -> same_status m m' -> Q NULL m') ->
  (forall p k m', p <> NULL -> 0 < n -> sys_sound m' -> sys_live m' = (p, k) :: sys_live m ->
     ~ p ∈ (sys_live m).*1 -> same_status m m' ->
     sys_alloc (n * sizeof_io) alignof_io m = Ret p m' -> Q p m') ->
  wp (sys_alloc (n * sizeof_io) alignof_io) Q m.
Proof.
  intros Hs Hn Hfit HN HP. unfold alignof_io, sizeof_io in *.
  destruct (decide (n = 0)) as [->|Hn0].
  { unfold wp. rewrite sys_alloc_zero. apply HN; [apply sys_alloc_zero|done..]. }
  destruct (wp_run _ _ _ (sys_alloc_law m (n * 40) 8 Hs ltac:(lia) ltac:(lia)))
    as (p & m' & Hrun & Hm & Hst & Hp).
  unfold wp. rewrite Hrun. destruct (p =? NULL) eqn:E; bool_to_prop.
  - subst. apply HN; try done. apply Hst. left. done.
  - destruct Hp as (k & _ & _ & Hl & Hni & _). eapply HP; try done; [lia|]. apply Hst. by right.
Qed.

Lemma wp_alloc_bufs s n (Q : Z -> runtime M -> Prop) :
  sys_sound (rt_sys s) -> 0 <= n -> n * sizeof_io < 2 ^ 64 ->
  (forall m, sys_alloc (n * sizeof_io) alignof_io (rt_sys s) = Ret NULL m ->
     sys_sound m -> sys_live m = sys_live (rt_sys s) -> same_status (rt_sys s) m ->
     Q NULL (set_sys m s)) ->
  (forall p k m, p <> NULL -> 0 < n -> sys_sound m -> sys_live m = (p, k) :: sys_live (rt_sys s) ->
     ~ owned s p -> same_status (rt_sys s) m ->
     sys_alloc (n * sizeof_io) alignof_io (rt_sys s) = Ret p m ->
     Q p (set_buf_arrays (<[p := replicate (Z.to_nat n) junk_buf]> (buf_arrays s)) (set_sys m s))) ->
  wp (alloc_bufs junk_buf n) Q s.
Proof.
  intros Hs Hn Hfit HN HP. unfold alloc_bufs.
  rewrite (wrap64_small (n * sizeof_io)) by (unfold sizeof_io in *; lia).
  wp_pure. apply wp_zoom, wp_alloc_array; [done..| |].
  - intros m Hrun Hm Hl Hst. rewrite Z.eqb_refl. wp_pure. by apply HN.
  - intros p k m Hp H0 Hm Hl Hni Hst Hrun. rewrite (proj2 (Z.eqb_neq _ _)) by done. wp_pure.
    rewrite Z.div_mul by done. by eapply HP.
Qed.

Lemma wp_alloc_sets s n (Q : Z -> runtime M -> Prop) :
  sys_sound (rt_sys s) -> 0 <= n -> n * sizeof_io < 2 ^ 64 ->
  (forall m, sys_alloc (n * sizeof_io) alignof_io (rt_sys s) = Ret NULL m ->
     sys_sound m -> sys_live m = sys_live (rt_sys s) -> same_status (rt_sys s) m ->
     Q NULL (set_sys m s)) ->
  (forall p k m, p <> NULL -> 0 < n -> sys_sound m -> sys_live m = (p, k) :: sys_live (rt_sys s) ->
     ~ owned s p -> same_status (rt_sys s) m ->
     sys_alloc (n * sizeof_io) alignof_io (rt_sys s) = Ret p m ->
     Q p (set_set_arrays (<[p := replicate (Z.to_nat n) junk_set]> (set_arrays s)) (set_sys m s))) ->
  wp (alloc_sets junk_set n) Q s.
Proof.
  intros Hs Hn Hfit HN HP. unfold alloc_sets.
  rewrite (wrap64_small (n * sizeof_io)) by (unfold sizeof_io in *; lia).
  wp_pure. apply wp_zoom, wp_alloc_array; [done..| |].
  - intros m Hrun Hm Hl Hst. rewrite Z.eqb_refl. wp_pure. by apply HN.
  - intros p k m Hp H0 Hm Hl Hni Hst Hrun. rewrite (proj2 (Z.eqb_neq _ _)) by done. wp_pure.
    rewrite Z.div_mul by done. by eapply HP.
Qed.
End tree.
