(* ===== verification/RuntimeInit.v ===== *)
(** [dandelion_init] parses the platform's arrays into the tree they
    describe, or ends the process with [DANDELION_OOM]. *)
From S2P Require Import Prelude Heap Alloc System RuntimeIO RuntimeTree.

(** Filling an array from the front. *)
Definition filled {A} (sl : list A) (junk : A) (num j : Z) : list A :=
  take (Z.to_nat j) sl ++ replicate (Z.to_nat (num - j)) junk.

Lemma filled_length {A} (sl : list A) junk num j :
  0 <= j <= num -> Z.of_nat (length sl) = num ->
  Z.of_nat (length (filled sl junk num j)) = num.
Proof. intros. unfold filled. rewrite length_app, length_take, length_replicate. lia. Qed.

Lemma filled_0 {A} (sl : list A) junk num : filled sl junk num 0 = replicate (Z.to_nat num) junk.
Proof. unfold filled. by rewrite Z.sub_0_r. Qed.

Lemma filled_all {A} (sl : list A) junk num :
  Z.of_nat (length sl) = num -> filled sl junk num num = sl.
Proof.
  intros. unfold filled. rewrite Z.sub_diag. cbn. rewrite app_nil_r. apply take_ge. lia.
Qed.

Lemma filled_step {A} (sl : list A) junk num j a :
  0 <= j < num -> zlookup j sl = Some a ->
  zinsert j a (filled sl junk num j) = filled sl junk num (j + 1).
Proof.
  intros Hj Ha. pose proof (zlookup_range _ _ _ Ha) as Hl. unfold filled, zinsert, zlookup in *.
  rewrite (proj2 (Z.leb_le _ _)) in Ha by lia.
  replace (Z.to_nat (num - j)) with (S (Z.to_nat (num - (j + 1)))) by lia.
  replace (Z.to_nat (j + 1)) with (S (Z.to_nat j)) by lia.
  rewrite (take_S_r _ _ _ Ha), insert_app_r_alt by (rewrite length_take; lia).
  rewrite length_take. replace (Z.to_nat j - _)%nat with 0%nat by lia. cbn.
  by rewrite <-app_assoc.
Qed.

Section init.
Context {M : Type} {HS : System M} (junk_set : io_set) (junk_buf : io_buffer).
Implicit Types s : runtime M.

(** The arrays of the platform do not change. *)
Definition same_platform s s' : Prop :=
  input_sets_len s' = input_sets_len s /\ input_sets s' = input_sets s /\
  output_sets_len s' = output_sets_len s /\ output_sets s' = output_sets s /\
  input_bufs s' = input_bufs s.

(** The process ended for lack of memory. *)
Definition oom s : Prop :=
  sys_exited (rt_sys s) = true /\ sys_code (rt_sys s) = DANDELION_OOM.

Lemma out_of_memory_spec s (Q : option unit -> runtime M -> Prop) :
  sys_sound (rt_sys s) ->
  (forall m, sys_sound m -> sys_live m = sys_live (rt_sys s) ->
     sys_exited m = true -> sys_code m = DANDELION_OOM -> Q (Some tt) (set_sys m s)) ->
  wp out_of_memory Q s.
Proof.
  intros Hs HQ. unfold out_of_memory. wp_pure. apply wp_zoom.
  eapply wp_mono; [by apply sys_set_code_law|]. intros _ m (Hm & Hl & Hc & He). wp_pure.
  apply wp_zoom. eapply wp_mono; [by apply sys_exit_law|]. intros _ m' (Hm' & Hl' & Hc' & He').
  wp_pure. cbn [rt_sys set_sys] in *. apply HQ; congruence.
Qed.

Lemma copy_input_spec p i num s q sets set info (Q : option unit -> runtime M -> Prop) :
  p <> NULL -> set_arrays s !! p = Some sets -> zlookup i sets = Some set ->
  zlookup i (input_sets s) = Some info -> 0 <= num -> 0 <= si_offset info ->
  si_offset info + num <= Z.of_nat (length (input_bufs s)) < 2 ^ 64 ->
  (num <> 0 -> q <> NULL /\ buffers set = q /\
    buf_arrays s !! q = Some (replicate (Z.to_nat num) junk_buf)) ->
  (num = 0 -> Q None s) ->
  (num <> 0 -> Q None (set_buf_arrays (<[q := take (Z.to_nat num)
     (drop (Z.to_nat (si_offset info)) (input_bufs s))]> (buf_arrays s)) s)) ->
  wp (copy_input_bufs p i num) Q s.
Proof.
  intros Hp Hsets Hset Hinfo Hnum Hoff Hend Hq Q0 Q1.
  destruct (decide (num = 0)) as [->|Hn0]; [by apply wp_ret, Q0|].
  destruct (Hq Hn0) as (Hq0 & <- & Harr). clear Hq.
  set (sl := take _ (drop _ _)) in *.
  assert (Hsl : Z.of_nat (length sl) = num)
    by (unfold sl; rewrite length_take, length_drop; lia).
  unfold copy_input_bufs. eapply (wp_for (fun j s' =>
    s' = set_buf_arrays (<[buffers set := filled sl junk_buf num j]> (buf_arrays s)) s)).
  - done.
  - rewrite filled_0, insert_id by done. by destruct s.
  - intros j s' Hj ->. wp_pure. eapply wp_platform_get; [done|].
    wp_pure. rewrite wrap64_small by lia.
    destruct (zlookup_lt (si_offset info + j) (input_bufs s) ltac:(lia)) as [b Hb].
    eapply wp_platform_get; [done|]. wp_pure.
    eapply wp_array_get; [done..|]. wp_pure.
    eapply wp_array_put; [done|apply lookup_insert_eq|by rewrite filled_length by lia|].
    wp_pure. cbn. rewrite insert_insert_eq. rewrite (filled_step sl junk_buf num j b); [done|done|].
    revert Hb. unfold zlookup, sl. rewrite !(proj2 (Z.leb_le _ _)) by lia.
    rewrite lookup_take_lt by lia. rewrite lookup_drop. intros <-. f_equal. lia.
  - intros s' ->. rewrite filled_all by done. by apply Q1.
Qed.

(** The first [i] sets of the array at [p] represent the first [i] sets of
    the tree [t]. *)
Record parsed s0 (p n : Z) (t : list view) (i : Z) s : Prop := {
  pa_sound : sys_sound (rt_sys s);
  pa_same : same_platform s0 s;
  pa_input : rt_input_sets s = rt_input_sets s0;
  pa_output : rt_output_sets s = rt_output_sets s0;
  pa_sets : exists sets, p <> NULL /\ owned s p /\ set_arrays s !! p = Some sets /\
    Z.of_nat (length sets) = n /\ forall k set v, 0 <= k < i ->
      zlookup k sets = Some set -> zlookup k t = Some v -> set_view s set v;
}.

Lemma parsed_all s0 p n t s :
  parsed s0 p n t n s -> Z.of_nat (length t) = n -> tree_at s p t.
Proof.
  intros [_ _ _ _ (sets & Hp & Ho & Hs & Hl & Hv)] Ht. exists sets. split; [by right|].
  apply Forall2_same_length_lookup_2; [lia|]. intros k set v Hset Hv'.
  apply (Hv (Z.of_nat k)); rewrite ?zlookup_nat; try done.
  apply lookup_lt_Some in Hset. lia.
Qed.

(** A new array of buffers does not disturb the sets that exist. *)
Lemma set_view_alloc s s' set v p k m :
  set_view s set v -> ~ owned s p -> sys_live m = (p, k) :: sys_live (rt_sys s) ->
  rt_sys s' = m -> (forall q, q <> p -> buf_arrays s' !! q = buf_arrays s !! q) ->
  set_view s' set v.
Proof.
  intros Hv Hp Hl Hm Hb. eapply set_view_frame; [| |done].
  - intros q Hq. unfold owned in *. rewrite Hm, Hl. cbn. by right.
  - intros Hc. apply Hb. intros Heq. apply Hp. rewrite <-Heq. by apply (sv_owned _ _ _ Hv).
Qed.

Lemma set_view_same s s' set v :
  set_view s set v -> sys_live (rt_sys s') = sys_live (rt_sys s) ->
  buf_arrays s' = buf_arrays s -> set_view s' set v.
Proof.
  intros Hv Hl Hb. eapply set_view_frame; [| |done].
  - intros q. unfold owned. by rewrite Hl.
  - intros _. by rewrite Hb.
Qed.

Lemma parsed_step s0 p n t i s s' sets set v :
  parsed s0 p n t i s -> 0 <= i < n -> set_arrays s !! p = Some sets ->
  zlookup i t = Some v ->
  sys_sound (rt_sys s') -> same_platform s s' ->
  rt_input_sets s' = rt_input_sets s -> rt_output_sets s' = rt_output_sets s ->
  owned s' p -> set_arrays s' !! p = Some (zinsert i set sets) -> set_view s' set v ->
  (forall set v, set_view s set v -> set_view s' set v) ->
  parsed s0 p n t (i + 1) s'.
Proof.
  intros [_ (E1&E2&E3&E4&E5) Hin Hout (sets0&Hp&_&Hsets0&Hl&Hv)] Hi Hsets Hti
    Hs' (F1&F2&F3&F4&F5) Hin' Hout' Ho Hsets' Hview Hkeep.
  rewrite Hsets in Hsets0. injection Hsets0 as <-.
  split; [done|split_and!; congruence|congruence|congruence|].
  exists (zinsert i set sets). rewrite zinsert_length. split_and!; try done.
  intros k set' v' Hk Hz Hv'. apply zlookup_insert_case in Hz as [[-> ->]|[? Hz]]; [| |lia].
  - congruence.
  - apply Hkeep, (Hv k); [lia|done|done].
Qed.

(** The set with its array; an empty one needs none. *)
Lemma set_view_made s info l q n : n = Z.of_nat (length l) ->
  (n <> 0 -> q <> NULL /\ owned s q /\ buf_arrays s !! q = Some l) ->
  set_view s (IoSet (si_ident info) (si_ident_len info) q n n) (si_ident info, si_ident_len info, l).
Proof.
  intros -> Hn. split; cbn; try done; [|intros H; by apply Hn]. unfold arr_of. cbn. destruct l as [|b l]; [by exists []|].
  destruct Hn as (Hq & _ & Hb); [done|]. exists (b :: l). rewrite !(proj2 (Z.eqb_neq _ _)) by done.
  split_and!; [done|done|]. cbn. by rewrite firstn_all.
Qed.

Lemma parse_input_spec s0 p n t i s :
  wf_raw (input_sets s0) n (input_bufs s0) -> t = unflatten (input_sets s0) (input_bufs s0) ->
  0 <= i < n -> parsed s0 p n t i s ->
  wp (parse_input_set junk_buf p i)
    (fun r s' => match r with Some _ => oom s' | None => parsed s0 p n t (i + 1) s' end) s.
Proof.
  intros [Hlen Hn Hfit Hbufs Hmono] Ht Hi Hpar.
  pose proof Hpar as [Hs (H1&H2&H3&H4&H5) Hpi Hpo (sets&Hp&Ho&Hsets&Hls&Hv)].
  unfold sizeof_io in *.
  destruct (zlookup_lt i (input_sets s0) ltac:(lia)) as [a Ha].
  destruct (zlookup_lt (i + 1) (input_sets s0) ltac:(lia)) as [b Hb].
  destruct (Hmono i a b Ha Hb) as [[Ha0 Hab] Hbl].
  pose proof (unflatten_lookup _ (input_bufs s0) i a b Ha Hb) as Hti. rewrite <-Ht in Hti.
  destruct (zlookup_lt i sets ltac:(lia)) as [set Hset].
  unfold parse_input_set. wp_pure. rewrite (wrap64_small (i + 1)) by lia.
  eapply wp_platform_get; [by rewrite H2|]. wp_pure.
  eapply wp_platform_get; [by rewrite H2|]. wp_pure. rewrite wrap64_small by lia.
  set (num := si_offset b - si_offset a) in *.
  assert (Hsl : length (slice a b (input_bufs s0)) = Z.to_nat num)
    by (unfold slice; rewrite length_take, length_drop; lia).
  eapply wp_update_set; [done..|]. wp_pure.
  apply wp_alloc_bufs; [done|lia|unfold sizeof_io; lia| |]; cbn [rt_sys set_set_arrays set_sys].
  - intros m _ Hm Hl _. wp_pure. eapply wp_update_set; [done|by apply lookup_insert_eq|
      by apply zlookup_insert_eq; lia|].
    cbn. destruct (negb (num =? 0)) eqn:E; bool_to_prop.
    { apply out_of_memory_spec; [done|]. intros m' _ _ He Hc. by split. }
    wp_pure. eapply wp_update_set; [done|by apply lookup_insert_eq|
      by apply zlookup_insert_eq; rewrite zinsert_length; lia|].
    cbn. rewrite !insert_insert_eq, !zinsert_insert. unfold copy_input_bufs. rewrite E.
    apply wp_ret. eapply parsed_step; [exact Hpar|done|done|done|..]; try done.
    + unfold owned. cbn. by rewrite Hl.
    + by apply lookup_insert_eq.
    + apply set_view_made; lia.
    + intros ? ? ?. by eapply set_view_same.
  - intros q k m Hq Hnum0 Hm Hl Hni _ _. wp_pure.
    eapply wp_update_set; [done|by apply lookup_insert_eq|by apply zlookup_insert_eq; lia|].
    rewrite (proj2 (Z.eqb_neq _ _)) by done. cbn [andb]. wp_pure.
    eapply wp_update_set; [done|by apply lookup_insert_eq|
      by apply zlookup_insert_eq; rewrite zinsert_length; lia|].
    eapply (copy_input_spec p i num _ q); cbn.
    + done.
    + by apply lookup_insert_eq.
    + apply zlookup_insert_eq. rewrite !zinsert_length. lia.
    + by rewrite H2.
    + lia.
    + lia.
    + rewrite H5. lia.
    + intros _. split_and!; [done|done|by apply lookup_insert_eq].
    + lia.
    + intros _. rewrite !insert_insert_eq, !zinsert_insert.
      assert (Hown : forall x, owned s x -> x ∈ (sys_live m).*1) by (rewrite Hl; by right).
      eapply parsed_step; [exact Hpar|done|done|done|..]; try done; cbn.
      * by apply Hown.
      * by apply lookup_insert_eq.
      * apply set_view_made; [lia|]. intros _. split_and!; [done|unfold owned; cbn; rewrite Hl; by left|].
        cbn. by rewrite lookup_insert_eq, H5.
      * intros set' v Hview. eapply set_view_alloc; [exact Hview|exact Hni|exact Hl|done|].
        intros x Hx. cbn. by rewrite !lookup_insert_ne.
Qed.

(** The output tree at the start: every set is there, without buffers. *)
Definition empty_tree (infos : list io_set_info) (n : Z) : list view :=
  (fun info => (si_ident info, si_ident_len info, [])) <$> take (Z.to_nat n) infos.

Record wf_out (infos : list io_set_info) (n : Z) : Prop := {
  wo_len : Z.of_nat (length infos) = n + 1;
  wo_n : 0 <= n;
  wo_fits : n * sizeof_io < 2 ^ 64;
}.

Lemma empty_tree_lookup infos n i info :
  0 <= i < n -> zlookup i infos = Some info ->
  zlookup i (empty_tree infos n) = Some (si_ident info, si_ident_len info, []).
Proof.
  intros Hi. unfold zlookup, empty_tree. rewrite (proj2 (Z.leb_le _ _)) by lia.
  intros Hl. rewrite list_lookup_fmap, lookup_take_lt by lia. by rewrite Hl.
Qed.

(** The first [i] sets have no array of buffers yet. *)
Definition caps_zero (p i : Z) s : Prop :=
  forall sets set k, set_arrays s !! p = Some sets -> 0 <= k < i ->
    zlookup k sets = Some set -> buffers_cap set = 0.

Lemma caps_zero_step p i s sets set :
  caps_zero p i s -> set_arrays s !! p = Some sets -> 0 <= i < Z.of_nat (length sets) ->
  buffers_cap set = 0 ->
  caps_zero p (i + 1) (set_set_arrays (<[p := zinsert i set sets]> (set_arrays s)) s).
Proof.
  intros Hc Hs Hi Hz sets' set' k Hs' Hk Hl. cbn in Hs'. rewrite lookup_insert_eq in Hs'.
  injection Hs' as <-. apply zlookup_insert_case in Hl as [[-> ->]|[? Hl]]; [done| |done].
  apply (Hc sets set' k); [done|lia|done].
Qed.

Lemma parse_output_spec s0 p n t i s :
  wf_out (output_sets s0) n -> t = empty_tree (output_sets s0) n ->
  0 <= i < n -> parsed s0 p n t i s ->
  wp (parse_output_set p i) (fun r s' => r = None /\ parsed s0 p n t (i + 1) s' /\
    exists sets set, set_arrays s !! p = Some sets /\ Z.of_nat (length sets) = n /\
      buffers_cap set = 0 /\
      s' = set_set_arrays (<[p := zinsert i set sets]> (set_arrays s)) s) s.
Proof.
  intros [Hlen Hn Hfit] Ht Hi Hpar.
  pose proof Hpar as [Hs (H1&H2&H3&H4&H5) Hpi Hpo (sets&Hp&Ho&Hsets&Hls&Hv)].
  destruct (zlookup_lt i (output_sets s0) ltac:(lia)) as [a Ha].
  unfold parse_output_set. wp_pure. eapply wp_platform_get; [by rewrite H4|].
  wp_pure. eapply wp_array_put; [done..|lia|]. wp_pure. split; [done|].
  split; [|do 2 eexists; split_and!; [exact Hsets|done| |reflexivity]; done].
  eapply parsed_step; [exact Hpar|done|done|rewrite Ht; by apply empty_tree_lookup|..]; try done.
  - by apply lookup_insert_eq.
  - split; try done. by exists [].
  - intros set v Hset. by eapply set_view_same.
Qed.

(** An array of fresh sets, none of them parsed yet. *)
Lemma parsed_start s0 p n t k m :
  sys_sound m -> p <> NULL -> 0 < n -> sys_live m = (p, k) :: sys_live (rt_sys s0) ->
  parsed s0 p n t 0
    (set_set_arrays (<[p := replicate (Z.to_nat n) junk_set]> (set_arrays s0)) (set_sys m s0)).
Proof.
  intros Hm Hp Hn Hl. split; try done. eexists. split_and!; [done| |by apply lookup_insert_eq| |].
  - unfold owned. cbn. rewrite Hl. by left.
  - rewrite length_replicate. lia.
  - lia.
Qed.

Lemma parsed_rt_input s0 p n t i q s :
  parsed s0 p n t i s -> parsed (set_rt_input q s0) p n t i (set_rt_input q s).
Proof.
  intros [? ? ? ? (sets&?&?&?&?&Hv)]. split; try done. exists sets. split_and!; try done.
  intros k set v Hk Hz Ht. eapply set_view_same; [by eapply (Hv k)|done|done].
Qed.

Lemma parsed_rt_output s0 p n t i q s :
  parsed s0 p n t i s -> parsed (set_rt_output q s0) p n t i (set_rt_output q s).
Proof.
  intros [? ? ? ? (sets&?&?&?&?&Hv)]. split; try done. exists sets. split_and!; try done.
  intros k set v Hk Hz Ht. eapply set_view_same; [by eapply (Hv k)|done|done].
Qed.

(** The two halves of the function. *)
Lemma init_inputs s (Q : option unit -> runtime M -> Prop) :
  sys_sound (rt_sys s) -> wf_raw (input_sets s) (input_sets_len s) (input_bufs s) ->
  (forall s', oom s' -> Q (Some tt) s') ->
  (forall s', sys_sound (rt_sys s') -> same_platform s s' ->
     tree_at s' (rt_input_sets s') (unflatten (input_sets s) (input_bufs s)) -> Q None s') ->
  wp (parse_inputs junk_set junk_buf) Q s.
Proof.
  intros Hs Hwf Hoom HQ. pose proof Hwf as [Hlen Hn Hfit _ _].
  assert (Ht : Z.of_nat (length (unflatten (input_sets s) (input_bufs s))) = input_sets_len s)
    by (rewrite unflatten_length; lia).
  unfold parse_inputs. wp_pure. apply wp_alloc_sets; [done..| |].
  - intros m _ Hm Hl _. wp_pure. cbn [Z.eqb NULL andb]. destruct (negb _) eqn:E; bool_to_prop.
    { apply out_of_memory_spec; [done|]. intros m' _ _ He Hc. by apply Hoom. }
    rewrite E. apply wp_ret, HQ; [done|done|]. exists []. split; [left; split; [|done]|];
      rewrite (nil_length_inv (unflatten _ _)) by lia; done.
  - intros p k m Hp Hn0 Hm Hl _ _ _. wp_pure. rewrite (proj2 (Z.eqb_neq _ _)) by done. cbn [andb].
    apply (wp_for (fun i s' => parsed (set_rt_input p s) p (input_sets_len s)
      (unflatten (input_sets s) (input_bufs s)) i s')).
    + done.
    + apply parsed_rt_input. by eapply parsed_start.
    + intros i s' Hi Hpar. eapply wp_mono; [by apply (parse_input_spec (set_rt_input p s) _ _ _ _ _ Hwf eq_refl Hi Hpar)|].
      intros [[]|] s2; [by apply Hoom|done].
    + intros s' Hpar. apply HQ; [apply (pa_sound _ _ _ _ _ _ Hpar)|apply (pa_same _ _ _ _ _ _ Hpar)|].
      rewrite (pa_input _ _ _ _ _ _ Hpar). by eapply parsed_all.
Qed.

Lemma init_outputs s (Q : option unit -> runtime M -> Prop) :
  sys_sound (rt_sys s) -> wf_out (output_sets s) (output_sets_len s) ->
  (forall s', oom s' -> Q (Some tt) s') ->
  (forall s', sys_sound (rt_sys s') -> same_platform s s' -> frame s s' ->
     rt_input_sets s' = rt_input_sets s ->
     out_tree s' (rt_output_sets s') (empty_tree (output_sets s) (output_sets_len s)) -> Q None s') ->
  wp (parse_outputs junk_set) Q s.
Proof.
  intros Hs Hwf Hoom HQ. pose proof Hwf as [Hlen Hn Hfit].
  assert (Ht : Z.of_nat (length (empty_tree (output_sets s) (output_sets_len s))) = output_sets_len s)
    by (unfold empty_tree; rewrite length_fmap, length_take; lia).
  unfold parse_outputs. wp_pure. apply wp_alloc_sets; [done..| |].
  - intros m _ Hm Hl _. wp_pure. cbn [Z.eqb NULL andb]. destruct (negb _) eqn:E; bool_to_prop.
    { apply out_of_memory_spec; [done|]. intros m' _ _ He Hc. by apply Hoom. }
    rewrite E. apply wp_ret, HQ; [done|done| |done|].
    { unfold frame, owned. cbn. by rewrite Hl. }
    exists []. split; [|by intros ????? ?%zlookup_range; cbn in *; lia].
    split; [left; split; [|done]|]; rewrite (nil_length_inv (empty_tree _ _)) by lia; done.
  - intros p k m Hp Hn0 Hm Hl Hni _ _. wp_pure. rewrite (proj2 (Z.eqb_neq _ _)) by done. cbn [andb].
    apply (wp_for (fun i s' => frame s s' /\ rt_input_sets s' = rt_input_sets s /\ caps_zero p i s' /\
      parsed (set_rt_output p s) p (output_sets_len s)
        (empty_tree (output_sets s) (output_sets_len s)) i s')).
    + done.
    + split_and!; [|done|by intros ??? k' ?; lia|apply parsed_rt_output; by eapply parsed_start].
      split_and!; intros q Hq; unfold owned in *; cbn; [rewrite Hl; by right| |done].
      rewrite lookup_insert_ne; [done|]. by intros <-.
    + intros i s' Hi (Hfr & Hin & Hcap & Hpar). eapply wp_mono; [by apply (parse_output_spec (set_rt_output p s) _ _ _ _ _ Hwf eq_refl Hi Hpar)|].
      intros r s2 (-> & Hpar2 & sets & set & Hsets & Hls & Hset & ->).
      split_and!; [|done|apply caps_zero_step; done || lia|done].
      destruct Hfr as (F1&F2&F3). split_and!; intros q Hq; cbn; [by apply F1| |by apply F3].
      rewrite lookup_insert_ne; [by apply F2|]. by intros <-.
    + intros s' (Hfr & Hin & Hcap & Hpar). apply HQ; [apply (pa_sound _ _ _ _ _ _ Hpar)|
        apply (pa_same _ _ _ _ _ _ Hpar)|done|done|].
      rewrite (pa_output _ _ _ _ _ _ Hpar). cbn [set_rt_output rt_output_sets].
      destruct (parsed_all _ _ _ _ _ Hpar Ht) as (sets & Hsets & Hview).
      exists sets. split; [by split|]. intros i j a b _ Ha _ Hac _. exfalso. apply Hac.
      destruct Hsets as [[_ ->]|(_&_&Hsets)]; [by apply zlookup_range in Ha; cbn in Ha; lia|].
      apply (Hcap sets a i Hsets); [|done]. apply zlookup_range in Ha.
      apply Forall2_length in Hview. lia.
Qed.

Lemma dandelion_init_spec s :
  sys_sound (rt_sys s) -> wf_raw (input_sets s) (input_sets_len s) (input_bufs s) ->
  wf_out (output_sets s) (output_sets_len s) ->
  wp (dandelion_init junk_set junk_buf) (fun _ s' => oom s' \/
    sys_sound (rt_sys s') /\ same_platform s s' /\
    tree_at s' (rt_input_sets s') (unflatten (input_sets s) (input_bufs s)) /\
    out_tree s' (rt_output_sets s') (empty_tree (output_sets s) (output_sets_len s))) s.
Proof.
  intros Hs Hin Hout. unfold dandelion_init. wp_pure. apply wp_zoom.
  eapply wp_mono; [by apply sys_reset_law|]. intros _ m [Hm _]. wp_pure.
  apply (init_inputs (set_sys m s)); [done|done|intros s' ?; wp_pure; by left|].
  intros s1 Hs1 Hsame Htree. wp_pure. pose proof Hsame as (S1&S2&S3&S4&S5). cbn in S1, S2, S3, S4, S5.
  apply init_outputs; [done|by rewrite S3, S4|intros s' ?; wp_pure; by left|].
  intros s2 Hs2 (T1&T2&T3&T4&T5) Hfr Hroot Htree2. wp_pure. right.
  split_and!; [done|split_and!; congruence| |by rewrite <-S3, <-S4].
  rewrite Hroot. by eapply tree_frame.
Qed.
End init.
