(* ===== verification/RuntimeOutput.v ===== *)
(** Reading the tree, appending to an output set, and flattening the output
    tree at exit. *)
From S2P Require Import Prelude Heap Alloc System RuntimeIO RuntimeTree RuntimeInit.

Lemma take_zinsert {A} i (a : A) l :
  0 <= i < Z.of_nat (length l) ->
  take (S (Z.to_nat i)) (zinsert i a l) = take (Z.to_nat i) l ++ [a].
Proof.
  intros Hi. unfold zinsert. rewrite (take_S_r _ _ a).
  - by rewrite take_insert_ge by lia.
  - apply list_lookup_insert_eq. lia.
Qed.

Lemma Forall2_zlookup {A B} (P : A -> B -> Prop) l k i b :
  Forall2 P l k -> zlookup i k = Some b -> exists a, zlookup i l = Some a /\ P a b.
Proof.
  unfold zlookup. intros HP Hb. destruct (0 <=? i); [|done].
  eapply Forall2_lookup_r in HP as (a & ? & ?); [|done]. by exists a.
Qed.

Section output.
Context {M : Type} {HS : System M} (junk_set : io_set) (junk_buf : io_buffer).
Implicit Types s : runtime M.

Lemma sets_at_lookup s p t sets i v :
  sets_at s p t sets -> zlookup i t = Some v ->
  p <> NULL /\ owned s p /\ set_arrays s !! p = Some sets /\
  exists set, zlookup i sets = Some set /\ set_view s set v.
Proof.
  intros [[[-> _]|(?&?&?)] Hv] Hi.
  - apply zlookup_range in Hi. cbn in Hi. lia.
  - split_and!; [done..|]. by eapply Forall2_zlookup.
Qed.

(** ** Accessors *)

Lemma set_field s p t n i (Q : io_set -> Prop) v :
  tree_at s p t -> zlookup i t = Some v -> (forall set, set_view s set v -> Q set) ->
  n = Z.of_nat (length t) ->
  wp (if n <=? i then ret None else let! set := get_set p i in ret (Some set))
    (fun r s' => s' = s /\ exists set, r = Some set /\ Q set) s.
Proof.
  intros (sets & Hs) Hi HQ ->. destruct (sets_at_lookup _ _ _ _ _ _ Hs Hi) as (?&?&?&set&?&?).
  apply zlookup_range in Hi. rewrite (proj2 (Z.leb_gt _ _)) by lia. wp_pure.
  eapply wp_array_get; [done..|]. wp_pure. eauto.
Qed.

Lemma wp_read_set s p t i v (Q : io_set -> runtime M -> Prop) :
  tree_at s p t -> zlookup i t = Some v ->
  (forall set, set_view s set v -> Q set s) -> wp (get_set p i) Q s.
Proof.
  intros (sets & Hs) Hi HQ. destruct (sets_at_lookup _ _ _ _ _ _ Hs Hi) as (?&?&?&set&?&?).
  eapply wp_array_get; [done..|]. by apply HQ.
Qed.

(** The buffer that a pointer to an element points to. *)
Definition buffer_at s (r : option (Z * Z)) : option io_buffer :=
  match r with
  | None => None
  | Some (p, j) => match buf_arrays s !! p with Some l => zlookup j l | None => None end
  end.

(** The input buffer [j] of set [i] of a tree, if there is one. *)
Definition tree_buffer (t : list view) (i j : Z) : option io_buffer :=
  match zlookup i t with Some v => zlookup j v.2 | None => None end.

Lemma view_buffer s set v j :
  set_view s set v -> 0 <= j < buffers_len set ->
  exists b, buffer_at s (Some (buffers set, j)) = Some b /\ zlookup j v.2 = Some b.
Proof.
  intros [_ _ (arr & Ha & Hc & Hv) Hn Hcap _] Hj.
  destruct (zlookup_lt j v.2 ltac:(lia)) as [b Hb]. exists b. split; [|done].
  cbn. unfold arr_of in Ha. rewrite (proj2 (Z.eqb_neq _ _)) in Ha by lia.
  destruct (_ =? NULL); [done|]. rewrite Ha. rewrite Hv in Hb.
  unfold zlookup in *. destruct (0 <=? j); [|done]. by apply lookup_take_Some in Hb as [? _].
Qed.

Lemma get_input_spec s t i j :
  tree_at s (rt_input_sets s) t -> Z.of_nat (length t) = input_sets_len s ->
  0 <= i -> 0 <= j ->
  wp (dandelion_get_input i j)
    (fun r s' => s' = s /\ buffer_at s r = tree_buffer t i j) s.
Proof.
  intros Ht Hl Hi Hj. unfold dandelion_get_input, tree_buffer. wp_pure.
  destruct (input_sets_len s <=? i) eqn:E; bool_to_prop.
  - wp_pure. split; [done|]. destruct (zlookup i t) eqn:E2; [|done].
    apply zlookup_range in E2. lia.
  - destruct (zlookup_lt i t ltac:(lia)) as [v Hv]. rewrite Hv. wp_pure.
    eapply wp_read_set; [done..|]. intros set Hset. wp_pure.
    destruct (buffers_len set <=? j) eqn:E2; bool_to_prop; wp_pure; (split; [done|]).
    + destruct (zlookup j v.2) eqn:E3; [|done]. apply zlookup_range in E3.
      pose proof (sv_count _ _ _ Hset). lia.
    + destruct (view_buffer s set v j Hset ltac:(lia)) as (b & Hb & ->). done.
Qed.

(** ** Appending *)

Lemma copy_bufs_spec s src dst n k arr (Q : option unit -> runtime M -> Prop) :
  0 <= n <= k -> Z.of_nat (length arr) = n -> dst <> NULL ->
  (n <> 0 -> src <> NULL /\ src <> dst /\ buf_arrays s !! src = Some arr) ->
  buf_arrays s !! dst = Some (replicate (Z.to_nat k) junk_buf) ->
  Q None (set_buf_arrays (<[dst := arr ++ replicate (Z.to_nat (k - n)) junk_buf]> (buf_arrays s)) s) ->
  wp (copy_bufs src dst n) Q s.
Proof.
  intros Hn Ha Hdst Hsrc Hjunk HQ. unfold copy_bufs.
  apply (wp_for (fun j s' => s' = set_buf_arrays (<[dst := filled arr junk_buf k j]> (buf_arrays s)) s)).
  - lia.
  - rewrite filled_0, insert_id by done. by destruct s.
  - intros j s' Hj ->. destruct (Hsrc ltac:(lia)) as (Hs0 & Hne & Hs).
    destruct (zlookup_lt j arr ltac:(lia)) as [b Hb]. wp_pure.
    eapply wp_array_get; [done|by cbn; rewrite lookup_insert_ne|done|]. wp_pure.
    assert (Hlen : Z.of_nat (length (filled arr junk_buf k j)) = k).
    { unfold filled. rewrite length_app, length_take, length_replicate. lia. }
    eapply wp_array_put; [done|apply lookup_insert_eq|lia|]. wp_pure. cbn.
    rewrite insert_insert_eq. rewrite (filled_step arr junk_buf k j b); [done|lia|done].
  - intros s' ->. unfold filled. by rewrite take_ge by lia.
Qed.

(** Replacing one set of a tree. *)
Lemma out_update s s' p t sets i set' v' :
  sets_at s p t sets -> distinct sets -> 0 <= i < Z.of_nat (length t) ->
  set_arrays s' !! p = Some (zinsert i set' sets) ->
  (forall q, owned s q -> owned s' q) -> set_view s' set' v' ->
  (forall k a, k <> i -> zlookup k sets = Some a -> buffers_cap a <> 0 ->
     buf_arrays s' !! buffers a = buf_arrays s !! buffers a /\
     (buffers_cap set' <> 0 -> buffers a <> buffers set')) ->
  sets_at s' p (zinsert i v' t) (zinsert i set' sets) /\ distinct (zinsert i set' sets).
Proof.
  intros [Hp Hv] Hd Hi Hs' Ho Hview Hothers. pose proof (Forall2_length _ _ _ Hv) as Hlen.
  split; [split|].
  - right. destruct Hp as [[-> _]|(?&?&_)]; [cbn in Hi; lia|]. split_and!; [done|by apply Ho|done].
  - apply Forall2_same_length_lookup_2; [by rewrite !zinsert_length|].
    intros k a v Ha Hb. rewrite <-zlookup_nat in Ha. rewrite <-zlookup_nat in Hb.
    apply zlookup_insert_case in Ha as [[Hk ->]|[Hk Ha]]; [| |lia].
    + rewrite Hk, zlookup_insert_eq in Hb by lia. by injection Hb as <-.
    + rewrite zlookup_insert_ne in Hb by lia. rewrite zlookup_nat in Hb.
      pose proof Ha as Ha2. rewrite zlookup_nat in Ha2.
      pose proof (Forall2_lookup_lr _ _ _ _ _ _ Hv Ha2 Hb) as Hold.
      eapply set_view_frame; [exact Ho| |exact Hold]. intros Hc. by apply (Hothers _ _ Hk Ha).
  - intros k1 k2 a b Hne Ha Hb Hca Hcb.
    apply zlookup_insert_case in Ha as [[-> ->]|[Hk1 Ha]]; [| |lia];
      apply zlookup_insert_case in Hb as [[-> ->]|[Hk2 Hb]]; try lia; try done.
    + intros Heq. symmetry in Heq. revert Heq. by apply (Hothers _ _ Hk2 Hb).
    + by apply (Hothers _ _ Hk1 Ha).
    + by apply (Hd k1 k2).
Qed.

(** What stays when set [i] of the array at [p] changes: the other arrays of
    sets, and every array of buffers but the one of that set. *)
Definition grow_frame s s' (p q : Z) : Prop :=
  (forall x, owned s x -> owned s' x) /\
  (forall x, owned s x -> x <> p -> set_arrays s' !! x = set_arrays s !! x) /\
  (forall x, owned s x -> x <> q -> buf_arrays s' !! x = buf_arrays s !! x) /\
  rt_output_sets s' = rt_output_sets s /\ rt_input_sets s' = rt_input_sets s /\
  same_platform s s'.

(** Room for one more buffer. *)
Definition next_cap (cap : Z) : Z := if cap =? 0 then 1 else 2 * cap.

Lemma next_cap_wrap cap : 0 <= cap < 2 ^ 57 ->
  (if wrap64 (cap * 2) =? 0 then 1 else wrap64 (cap * 2)) = next_cap cap.
Proof.
  intros Hc. rewrite wrap64_small by lia. unfold next_cap.
  destruct (Z.eqb_spec cap 0), (Z.eqb_spec (cap * 2) 0); lia.
Qed.

(** The array of a set stays or is a new one, and the only request for memory
    is the one of a full set. *)
Definition moved s (set set' : io_set) : Prop :=
  buffers set' = buffers set /\ buffers_cap set' = buffers_cap set \/ ~ owned s (buffers set').
Definition grow_system s s' (set : io_set) : Prop :=
  rt_sys s' = rt_sys s \/
  buffers_len set = buffers_cap set /\ exists q, q <> NULL /\
    sys_alloc (next_cap (buffers_cap set) * sizeof_io) alignof_io (rt_sys s) = Ret q (rt_sys s').

(** An array that was just allocated is no other set's, and theirs stay. *)
Lemma new_array_apart s p t sets i q (arr : list io_buffer) m k :
  sets_at s p t sets -> ~ owned s q -> k <> i -> forall a, zlookup k sets = Some a -> buffers_cap a <> 0 ->
  buf_arrays (set_buf_arrays (<[q := arr]> (buf_arrays s)) (set_sys m s)) !! buffers a = buf_arrays s !! buffers a /\ buffers a <> q.
Proof.
  intros [_ Hvs] Hni Hk a Hza Hca. pose proof (zlookup_range _ _ _ Hza). pose proof (Forall2_length _ _ _ Hvs).
  destruct (zlookup_lt k t ltac:(lia)) as [va Hva].
  destruct (Forall2_zlookup _ _ _ _ _ Hvs Hva) as (a2 & Ha2 & Hview2). rewrite Hza in Ha2. injection Ha2 as <-.
  assert (buffers a <> q) by (intros <-; apply Hni; by apply (sv_owned _ _ _ Hview2)).
  split; [|done]. cbn. by rewrite lookup_insert_ne.
Qed.

Lemma grow_output_spec s p t sets i set v (Q : unit -> runtime M -> Prop) :
  sys_sound (rt_sys s) -> sets_at s p t sets -> distinct sets ->
  zlookup i sets = Some set -> zlookup i t = Some v -> buffers_len set < 2 ^ 57 ->
  (buffers_len set = buffers_cap set -> forall m r,
     sys_alloc (next_cap (buffers_cap set) * sizeof_io) alignof_io (rt_sys s) = Ret r m ->
     r <> NULL) ->
  (forall s' set', sys_sound (rt_sys s') -> sets_at s' p t (zinsert i set' sets) ->
     distinct (zinsert i set' sets) -> moved s set set' -> grow_system s s' set ->
     buffers_len set' = buffers_len set -> buffers_len set' < buffers_cap set' ->
     grow_frame s s' p (buffers set) -> Q tt s') ->
  wp (grow_output_set junk_buf p i set) Q s.
Proof.
  intros Hsound Hs Hd Hset Ht Hcap Hmem HQ.
  destruct (sets_at_lookup _ _ _ _ _ _ Hs Ht) as (Hp&Ho&Harr&set2&Hset2&Hview).
  rewrite Hset in Hset2. injection Hset2 as <-.
  pose proof Hview as [Hid Hidl (arr&Ha&Hlc&Hv) Hcount Hle Hown].
  unfold grow_output_set. destruct (_ =? _) eqn:E; bool_to_prop.
  2: { wp_pure. apply (HQ s set); rewrite ?(zinsert_id _ _ _ Hset); try done; solve [by left|lia|by split_and!]. }
  rewrite next_cap_wrap by lia. specialize (Hmem E).
  set (nc := next_cap (buffers_cap set)) in *.
  assert (Hnc : buffers_cap set < nc < 2 ^ 58)
    by (unfold nc, next_cap; case_bool; lia).
  pose proof (zlookup_range _ _ _ Hset). pose proof (zlookup_range _ _ _ Ht).
  wp_pure. apply wp_alloc_bufs; [done|lia|unfold sizeof_io; lia| |].
  { intros m Hrun _ _ _. by destruct (Hmem _ _ Hrun). }
  intros q k m Hq _ Hm Hl Hni _ Hrun. wp_pure.
  assert (Hown' : forall x, owned s x -> x ∈ (sys_live m).*1) by (rewrite Hl; by right).
  eapply (copy_bufs_spec _ _ _ _ nc arr); cbn; [lia|lia|done| |by apply lookup_insert_eq|].
  { intros Hn0. unfold arr_of in Ha. rewrite (proj2 (Z.eqb_neq _ _)) in Ha by lia.
    destruct (_ =? NULL) eqn:En; [done|]. bool_to_prop.
    assert (buffers set <> q) by (intros <-; apply Hni, Hown; lia).
    split_and!; [done|done|by rewrite lookup_insert_ne]. }
  rewrite insert_insert_eq. eapply wp_update_set; [done|done|done|]. cbn.
  set (s' := set_set_arrays _ _). set (set' := IoSet (is_ident set) (is_ident_len set) q (buffers_len set) nc).
  assert (Hothers : forall k a, k <> i -> zlookup k sets = Some a -> buffers_cap a <> 0 ->
    buf_arrays s' !! buffers a = buf_arrays s !! buffers a /\
    (buffers_cap set' <> 0 -> buffers a <> buffers set')).
  { intros k' a' Hk' Hza Hca.
    by destruct (new_array_apart s p t sets i q (arr ++ replicate (Z.to_nat (nc - buffers_len set)) junk_buf) m k' Hs Hni Hk' a' Hza Hca). }
  destruct (out_update s s' p t sets i set' v) as [Hs' Hd']; [done..|by apply lookup_insert_eq| |
    |exact Hothers|].
  { intros x Hx. by apply Hown'. }
  { split; cbn; try done; [|lia|intros _; unfold owned; cbn; rewrite Hl; by left].
    exists (arr ++ replicate (Z.to_nat (nc - buffers_len set)) junk_buf).
    unfold arr_of. cbn. rewrite !(proj2 (Z.eqb_neq _ _)) by (done || lia).
    split_and!; [by apply lookup_insert_eq|rewrite length_app, length_replicate; lia|].
    rewrite take_app_le by lia. done. }
  rewrite (zinsert_id _ _ _ Ht) in Hs'.
  apply (HQ s' set'); try done; cbn.
  - by right.
  - right. split; [done|]. by exists q.
  - lia.
  - split_and!; try done.
    + intros x Hx Hne. cbn. by rewrite lookup_insert_ne.
    + intros x Hx Hne. cbn. rewrite lookup_insert_ne; [done|]. intros <-. by apply Hni.
Qed.

Lemma append_spec s p t sets i set v buf (Q : unit -> runtime M -> Prop) :
  sys_sound (rt_sys s) -> sets_at s p t sets -> distinct sets ->
  zlookup i sets = Some set -> zlookup i t = Some v ->
  buffers_len set < buffers_cap set -> buffers_len set < 2 ^ 58 ->
  (forall s' set', rt_sys s' = rt_sys s ->
     sets_at s' p (zinsert i (v.1, v.2 ++ [buf]) t) (zinsert i set' sets) -> distinct (zinsert i set' sets) ->
     moved s set set' -> grow_frame s s' p (buffers set) -> Q tt s') ->
  wp (let! set := get_set p i in
      let! _ := update_set p i (fun set => IoSet (is_ident set) (is_ident_len set)
                  (buffers set) (wrap64 (buffers_len set + 1)) (buffers_cap set)) in
      put_buf (buffers set) (buffers_len set) buf) Q s.
Proof.
  intros Hsound Hs Hd Hset Ht Hcap Hsmall HQ.
  destruct (sets_at_lookup _ _ _ _ _ _ Hs Ht) as (Hp&Ho&Harr&set2&Hset2&Hview).
  rewrite Hset in Hset2. injection Hset2 as <-.
  destruct Hview as [Hid Hidl (arr&Ha&Hlc&Hv) Hcount Hle Hown].
  pose proof (zlookup_range _ _ _ Hset). pose proof (zlookup_range _ _ _ Ht).
  unfold arr_of in Ha. rewrite (proj2 (Z.eqb_neq _ 0)) in Ha by lia.
  destruct (_ =? NULL) eqn:En; [done|]. bool_to_prop.
  wp_pure. eapply wp_array_get; [done..|]. wp_pure. eapply wp_update_set; [done..|].
  rewrite wrap64_small by lia. eapply wp_array_put; [done|exact Ha|lia|]. cbn.
  set (s' := set_buf_arrays _ _). set (set' := IoSet (is_ident set) (is_ident_len set) (buffers set) (buffers_len set + 1) (buffers_cap set)).
  destruct (out_update s s' p t sets i set' (v.1, v.2 ++ [buf])) as [Hs' Hd'];
    [done..|by apply lookup_insert_eq|done| | |by eapply (HQ s' set'); try done; [by left|]; split_and!; try done;
      intros x Hx Hne; cbn; rewrite lookup_insert_ne by done].
  - split; cbn; try done; [|rewrite length_app; cbn; lia|lia].
    exists (zinsert (buffers_len set) buf arr). unfold arr_of. cbn.
    rewrite !(proj2 (Z.eqb_neq _ _)) by (done || lia).
    split_and!; [by apply lookup_insert_eq|by rewrite zinsert_length|].
    rewrite length_app. cbn. replace (length v.2 + 1)%nat with (S (Z.to_nat (buffers_len set))) by lia.
    rewrite take_zinsert by lia. rewrite Hcount, Nat2Z.id, <-Hv. done.
  - intros k a Hk Hza Hca. cbn. pose proof (Hd k i a set Hk Hza Hset Hca ltac:(lia)).
    by rewrite lookup_insert_ne.
Qed.

Lemma grow_frame_trans s1 s2 s3 p q r :
  grow_frame s1 s2 p q -> grow_frame s2 s3 p r -> (r = q \/ ~ owned s1 r) -> grow_frame s1 s3 p q.
Proof.
  intros (A1&A2&A3&A4&A5&(P1&P2&P3&P4&P5)) (B1&B2&B3&B4&B5&(Q1&Q2&Q3&Q4&Q5)) Hr.
  split_and!; try congruence.
  - intros x Hx. by apply B1, A1.
  - intros x Hx Hne. rewrite B2, A2; [done|done..|by apply A1|done].
  - intros x Hx Hne. rewrite B3, A3; [done|done..|by apply A1|]. destruct Hr; congruence.
  - split_and!; congruence.
Qed.

(** The tree with one more buffer in set [i]; there is no such set beyond the
    end. *)
Definition add_at (t : list view) (i : Z) (buf : io_buffer) : list view :=
  match zlookup i t with Some v => zinsert i (v.1, v.2 ++ [buf]) t | None => t end.

(** The entry of an output set, as the runtime's memory has it. *)
Definition output_set s (i : Z) : option io_set :=
  match set_arrays s !! rt_output_sets s with Some l => zlookup i l | None => None end.

(** The allocation that appending to a full set makes. *)
Definition growth s (set : io_set) : outcome M Z :=
  sys_alloc (next_cap (buffers_cap set) * sizeof_io) alignof_io (rt_sys s).

Lemma output_set_eq s t sets i v :
  sets_at s (rt_output_sets s) t sets -> zlookup i t = Some v -> output_set s i = zlookup i sets.
Proof.
  intros Hs Hi. destruct (sets_at_lookup _ _ _ _ _ _ Hs Hi) as (_&_&H&_).
  unfold output_set. by rewrite H.
Qed.

(** The sets after an append: the one at [i] has one more buffer, in its old
    array or in a new one. *)
Lemma add_output_sets s t i v buf sets set :
  sys_sound (rt_sys s) -> sets_at s (rt_output_sets s) t sets -> distinct sets ->
  Z.of_nat (length t) = output_sets_len s -> zlookup i t = Some v -> zlookup i sets = Some set ->
  buffers_len set < 2 ^ 57 ->
  (buffers_len set = buffers_cap set -> forall m r, growth s set = Ret r m -> r <> NULL) ->
  wp (dandelion_add_output junk_buf i buf) (fun _ s' => exists set',
    sys_sound (rt_sys s') /\
    sets_at s' (rt_output_sets s) (zinsert i (v.1, v.2 ++ [buf]) t) (zinsert i set' sets) /\
    distinct (zinsert i set' sets) /\ moved s set set' /\ grow_system s s' set /\
    grow_frame s s' (rt_output_sets s) (buffers set)) s.
Proof.
  intros Hsound Hs Hd Hlen Hv Hset Hcap Hmem. unfold dandelion_add_output. wp_pure.
  pose proof (zlookup_range _ _ _ Hv). rewrite (proj2 (Z.leb_gt _ _)) by lia.
  destruct (sets_at_lookup _ _ _ _ _ _ Hs Hv) as (Hp&Ho&Harr&set2&Hset2&Hview).
  rewrite Hset in Hset2. injection Hset2 as <-.
  wp_pure. eapply wp_array_get; [done..|]. wp_pure. pose proof (zlookup_range _ _ _ Hset).
  eapply grow_output_spec; [done..|]. intros s1 set1 Hsound1 Hs1 Hd1 Hmv1 Hsys1 Hlen1 Hroom Hfr.
  eapply (append_spec s1 _ _ (zinsert i set1 sets) i set1);
    [done|done|done|by apply zlookup_insert_eq|done|done|lia|].
  intros s2 set2 Hsys2 Hs2 Hd2 Hmv2 Hfr2. rewrite zinsert_insert in Hs2, Hd2.
  assert (Hmv : moved s set set2).
  { destruct Hmv2 as [[Hb2 Hc2]|Hn2].
    - destruct Hmv1 as [[Hb1 Hc1]|Hn1]; [left; split; congruence|right; congruence].
    - right. intros Ho2. by apply Hn2, Hfr. }
  exists set2. rewrite Hsys2. split_and!; try done.
  - destruct Hsys1 as [E|(E & q & Hq & Hrun)]; [left; congruence|right]. split; [done|].
    exists q. by rewrite Hsys2.
  - eapply grow_frame_trans; [exact Hfr|exact Hfr2|]. destruct Hmv1 as [[]|]; [by left|by right].
Qed.

Lemma add_output_spec s t i buf :
  sys_sound (rt_sys s) -> out_tree s (rt_output_sets s) t ->
  Z.of_nat (length t) = output_sets_len s -> 0 <= i ->
  (forall set, output_set s i = Some set -> buffers_cap set < 2 ^ 57 /\
     (buffers_len set = buffers_cap set -> forall m r, growth s set = Ret r m -> r <> NULL)) ->
  wp (dandelion_add_output junk_buf i buf) (fun _ s' =>
    sys_sound (rt_sys s') /\ out_tree s' (rt_output_sets s') (add_at t i buf) /\
    exists q, grow_frame s s' (rt_output_sets s) q /\
      forall set, output_set s i = Some set -> q = buffers set) s.
Proof.
  intros Hsound (sets & Hs & Hd) Hlen Hi Hset. unfold add_at.
  destruct (zlookup i t) as [v|] eqn:Hv.
  2: { unfold dandelion_add_output. wp_pure. destruct (_ <=? _) eqn:E; bool_to_prop;
       [|destruct (zlookup_lt i t ltac:(lia)); congruence].
    wp_pure. split; [done|]. split; [by exists sets|].
    exists (match output_set s i with Some set => buffers set | None => NULL end).
    split; [by split_and!|]. by intros set ->. }
  rewrite (output_set_eq s t sets i v Hs Hv) in *.
  destruct (sets_at_lookup _ _ _ _ _ _ Hs Hv) as (Hp&Ho&Harr&set&Hset2&Hview).
  destruct (Hset set Hset2) as [Hcap Hmem]. pose proof (sv_cap _ _ _ Hview).
  eapply wp_mono; [by apply (add_output_sets s t i v buf sets set); try done; lia|].
  intros _ s' (set' & Hsound' & Hs' & Hd' & _ & _ & Hfr). split; [done|]. split.
  - destruct Hfr as (_&_&_&->&_). by exists (zinsert i set' sets).
  - exists (buffers set). split; [done|]. intros set2 E. congruence.
Qed.

(** ** Appending with memory to spare

    What a system call for memory keeps: allocations stay, the area does not
    move, and at most [c] bytes of the rest are gone. *)
Record sys_grows (m m' : M) (c : Z) : Prop := {
  sg_sound : sys_sound m';
  sg_live : sys_live m ⊆ sys_live m';
  sg_area : sys_area m' = sys_area m;
  sg_first : sys_first m' = sys_first m;
  sg_room : sys_room m - c <= sys_room m';
}.

Lemma sys_grows_refl m : sys_sound m -> sys_grows m m 0.
Proof. intros Hm. split; try done. lia. Qed.

Lemma sys_grows_trans m1 m2 m3 c d : sys_grows m1 m2 c -> sys_grows m2 m3 d -> sys_grows m1 m3 (c + d).
Proof. intros [] []. split; [done|by etrans|congruence|congruence|lia]. Qed.

Lemma sys_grows_mono m m' c d : sys_grows m m' c -> c <= d -> sys_grows m m' d.
Proof. intros [] Hcd. split; try done. lia. Qed.

Lemma alloc_grows m size align p m' :
  sys_sound m -> sys_live m <> [] -> 0 < size < 2 ^ 63 -> 0 <= align <= 16 ->
  align <= 8 \/ (sys_first m ∈ (sys_live m).*1) -> sys_cost size <= sys_room m ->
  sys_alloc size align m = Ret p m' -> p <> NULL /\ sys_grows m m' (sys_cost size).
Proof.
  intros Hm Hl Hs Ha Hf Hr Hrun.
  pose proof (wp_from_run _ _ _ _ _ Hrun (sys_room_law m size align Hm Hl Hs Ha Hf Hr)) as (Hp & Hr' & Hf').
  split; [done|].
  pose proof (wp_from_run _ _ _ _ _ Hrun (sys_alloc_law m size align Hm ltac:(lia) Ha)) as (Hm' & _ & Hlive).
  pose proof (wp_from_run _ _ _ _ _ Hrun (sys_alloc_area m size align Hm ltac:(lia) Ha)) as Har.
  rewrite (proj2 (Z.eqb_neq _ _)) in Hlive by done. destruct Hlive as (n & _ & _ & Hlive & _).
  split; try done. rewrite Hlive. by right.
Qed.

(** No array of the tree is at an address of [R]. *)
Definition avoids (R : list Z) (sets : list io_set) : Prop :=
  Forall (fun set => buffers_cap set <> 0 -> (buffers set ∉ R)) sets.
Definition out_avoiding s (R : list Z) (t : list view) : Prop :=
  exists sets, sets_at s (rt_output_sets s) t sets /\ distinct sets /\ avoids R sets /\
    (t <> [] -> rt_output_sets s ∉ R).

(** The most that the growth of a set with [len] buffers takes. *)
Definition growth_cost (len : Z) : Z := sys_cost (80 * (len + 1)).

Lemma next_cap_bound len : 0 <= len -> 0 < next_cap len * sizeof_io <= 80 * (len + 1).
Proof. intros Hl. unfold next_cap, sizeof_io. case_bool; lia. Qed.

Lemma add_output_room s R t i v buf :
  sys_sound (rt_sys s) -> out_avoiding s R t -> Forall (owned s) R ->
  Z.of_nat (length t) = output_sets_len s -> zlookup i t = Some v ->
  Z.of_nat (length v.2) < 2 ^ 56 -> growth_cost (Z.of_nat (length v.2)) <= sys_room (rt_sys s) ->
  wp (dandelion_add_output junk_buf i buf) (fun _ s' =>
    out_avoiding s' R (zinsert i (v.1, v.2 ++ [buf]) t) /\
    sys_grows (rt_sys s) (rt_sys s') (growth_cost (Z.of_nat (length v.2))) /\
    rt_output_sets s' = rt_output_sets s /\ same_platform s s') s.
Proof.
  intros Hsound (sets & Hs & Hd & Hav & HR0) HR Hlen Hv Hsmall Hroom.
  destruct (sets_at_lookup _ _ _ _ _ _ Hs Hv) as (Hp&Ho&Harr&set&Hset&Hview).
  pose proof (sv_count _ _ _ Hview) as Hcount. pose proof (zlookup_range _ _ _ Hv).
  set (len := Z.of_nat (length v.2)) in *.
  pose proof (next_cap_bound len ltac:(lia)) as Hnc.
  pose proof (sys_cost_mono (next_cap len * sizeof_io) (80 * (len + 1)) ltac:(lia) ltac:(lia)) as Hcost.
  fold (growth_cost len) in Hcost.
  assert (Hl : sys_live (rt_sys s) <> []).
  { intros E. unfold owned in Ho. rewrite E in Ho. by apply elem_of_nil in Ho. }
  assert (Hgrow : forall r m, buffers_len set = buffers_cap set ->
    sys_alloc (next_cap (buffers_cap set) * sizeof_io) alignof_io (rt_sys s) = Ret r m ->
    r <> NULL /\ sys_grows (rt_sys s) m (growth_cost len)).
  { intros r m E Hrun. rewrite <-E, Hcount in Hrun.
    destruct (alloc_grows (rt_sys s) (next_cap len * sizeof_io) alignof_io r m Hsound Hl) as [Hr Hg];
      [lia|unfold alignof_io; lia|left; unfold alignof_io; lia|lia|done|].
    split; [done|]. eapply sys_grows_mono; [exact Hg|lia]. }
  eapply wp_mono; [apply (add_output_sets s t i v buf sets set); try done; [lia|]|].
  { intros E m r Hrun. by apply (Hgrow _ _ E Hrun). }
  intros _ s' (set' & Hsound' & Hs' & Hd' & Hmv & Hsys & (Hown & _ & _ & Hout & _ & Hplat)).
  split_and!; [|..|done|done].
  - exists (zinsert i set' sets). rewrite Hout. split_and!; [done..| |].
    2: { intros _. apply HR0. intros ->. cbn in *. lia. }
    apply Forall_forall. intros x Hx. unfold avoids in Hav. rewrite Forall_forall in Hav.
    unfold zinsert in Hx. apply list_elem_of_lookup in Hx as [k Hk].
    destruct (decide (k = Z.to_nat i)) as [->|Hne].
    + apply list_lookup_insert_Some in Hk as [(_ & <- & _)|[Hne _]]; [|done].
      destruct Hmv as [[-> ->]|Hn].
      * apply Hav. unfold zlookup in Hset. destruct (0 <=? i); [|done]. by eapply list_elem_of_lookup_2.
      * intros _ Hx. rewrite Forall_forall in HR. by apply Hn, HR.
    + rewrite list_lookup_insert_ne in Hk by done. apply Hav. by eapply list_elem_of_lookup_2.
  - destruct Hsys as [->|(E & q & Hq & Hrun)]; [|by apply (Hgrow _ _ E Hrun)].
    eapply sys_grows_mono; [by apply sys_grows_refl|lia].
Qed.

(** When the allocation of a bigger array fails, the function writes through
    [NULL]: it does not test what [dandelion_alloc] returned. *)
Lemma add_output_null s t i buf set m :
  out_tree s (rt_output_sets s) t -> 0 <= i < output_sets_len s ->
  Z.of_nat (length t) = output_sets_len s -> output_set s i = Some set ->
  buffers_len set = buffers_cap set -> buffers_cap set < 2 ^ 57 ->
  growth s set = Ret NULL m ->
  dandelion_add_output junk_buf i buf s = Fault NullDeref.
Proof.
  intros (sets & Hs & Hd) Hi Hlen Hset Hfull Hcap Hnull.
  destruct (zlookup_lt i t ltac:(lia)) as [v Hv].
  rewrite (output_set_eq s t sets i v Hs Hv) in Hset.
  destruct (sets_at_lookup _ _ _ _ _ _ Hs Hv) as (Hp&Ho&Harr&set2&Hset2&Hview).
  rewrite Hset in Hset2. injection Hset2 as <-.
  destruct Hview as [_ _ (arr&Ha&Hlc&_) _ _ _].
  assert (Hget : get_set (rt_output_sets s) i s = Ret set s).
  { unfold get_set, array_get. by rewrite (proj2 (Z.eqb_neq _ _)), Harr, Hset by done. }
  assert (Halloc : alloc_bufs junk_buf (next_cap (buffers_cap set)) s = Ret NULL (set_sys m s)).
  { unfold alloc_bufs. rewrite (wrap64_small (next_cap _ * _))
      by (unfold next_cap, sizeof_io; case_bool; lia).
    unfold bind at 1, on_sys, zoom. unfold growth in Hnull. by rewrite Hnull. }
  unfold dandelion_add_output. apply bind_then_fault, wp_gets.
  rewrite (proj2 (Z.leb_gt _ _)) by lia. apply bind_then_fault, wp_gets.
  apply bind_then_fault. unfold wp. rewrite Hget. unfold grow_output_set.
  rewrite (proj2 (Z.eqb_eq _ _) Hfull), next_cap_wrap by lia.
  destruct (decide (buffers_len set = 0)) as [H0|H0].
  - rewrite H0. apply bind_then_fault. wp_pure. unfold wp at 1. rewrite Halloc.
    wp_pure. apply wp_ret. eapply wp_update_set; [done..|]. cbn.
    apply bind_then_fault. eapply wp_array_get; [done|by apply lookup_insert_eq|
      apply zlookup_insert_eq; by eapply zlookup_range|].
    apply bind_then_fault. eapply wp_update_set; [done|by apply lookup_insert_eq|
      apply zlookup_insert_eq; by eapply zlookup_range|]. done.
  - apply bind_fault. apply bind_then_fault. unfold wp. rewrite Halloc.
    apply bind_fault. unfold arr_of in Ha. rewrite (proj2 (Z.eqb_neq _ 0)) in Ha by lia.
    destruct (_ =? NULL) eqn:En; [done|]. bool_to_prop.
    destruct (zlookup_lt 0 arr ltac:(lia)) as [b Hb].
    unfold copy_bufs. apply for_first_fault; [lia|]. apply bind_then_fault.
    eapply wp_array_get; [done|exact Ha|exact Hb|]. by apply bind_fault.
Qed.
End output.
