(* ===== verification/RuntimeExit.v ===== *)
(** [dandelion_exit] flattens the output tree into the arrays from which the
    platform reads it back. *)
From S2P Require Import Prelude Heap Alloc System RuntimeIO RuntimeTree RuntimeInit RuntimeOutput.

(** Overwriting an array from the front. *)
Definition overwritten {A} (new old : list A) (i : Z) : list A :=
  take (Z.to_nat i) new ++ drop (Z.to_nat i) old.

Lemma overwritten_0 {A} (new old : list A) : overwritten new old 0 = old.
Proof. done. Qed.

Lemma overwritten_all {A} (new old : list A) i :
  length new = length old -> i = Z.of_nat (length old) -> overwritten new old i = new.
Proof.
  intros Hl ->. unfold overwritten. rewrite Nat2Z.id, take_ge, drop_ge by lia. apply app_nil_r.
Qed.

Lemma overwritten_lookup {A} (new old : list A) i a :
  length new = length old -> zlookup i old = Some a -> zlookup i (overwritten new old i) = Some a.
Proof.
  intros Hl Ha. pose proof (zlookup_range _ _ _ Ha). unfold overwritten, zlookup in *.
  rewrite (proj2 (Z.leb_le _ _)) in * by lia.
  rewrite lookup_app_r by (rewrite length_take; lia). rewrite length_take, lookup_drop, <-Ha.
  f_equal. lia.
Qed.

Lemma overwritten_lookup_lt {A} (new old : list A) k i a :
  length new = length old -> k < i -> zlookup k new = Some a ->
  zlookup k (overwritten new old i) = Some a.
Proof.
  intros Hl Hk Ha. pose proof (zlookup_range _ _ _ Ha). unfold overwritten, zlookup in *.
  rewrite (proj2 (Z.leb_le _ _)) in * by lia.
  rewrite lookup_app_l by (rewrite length_take; lia). by rewrite lookup_take_lt by lia.
Qed.

Lemma overwritten_step {A} (new old : list A) i a :
  length new = length old -> zlookup i new = Some a ->
  zinsert i a (overwritten new old i) = overwritten new old (i + 1).
Proof.
  intros Hl Ha. pose proof (zlookup_range _ _ _ Ha). unfold overwritten, zinsert, zlookup in *.
  rewrite (proj2 (Z.leb_le _ _)) in Ha by lia.
  replace (Z.to_nat (i + 1)) with (S (Z.to_nat i)) by lia.
  destruct (lookup_lt_is_Some_2 old (Z.to_nat i)) as [b Hb]; [lia|].
  rewrite (take_S_r _ _ _ Ha), (drop_S _ _ _ Hb).
  rewrite insert_app_r_alt by (rewrite length_take; lia).
  rewrite length_take. replace (Z.to_nat i - _)%nat with 0%nat by lia. cbn.
  by rewrite <-app_assoc.
Qed.

Lemma overwritten_length {A} (new old : list A) i :
  length new = length old -> length (overwritten new old i) = length old.
Proof. intros. unfold overwritten. rewrite length_app, length_take, length_drop. lia. Qed.

(** The offset of set [i]: the number of buffers in the sets before it. *)
Definition offset_of (t : list view) (i : Z) : Z :=
  Z.of_nat (length (flat_bufs (take (Z.to_nat i) t))).

Lemma flat_bufs_app t1 t2 : flat_bufs (t1 ++ t2) = flat_bufs t1 ++ flat_bufs t2.
Proof. unfold flat_bufs. by rewrite fmap_app, concat_app. Qed.

Lemma offset_step (t : list view) i (v : view) :
  zlookup i t = Some v -> offset_of t (i + 1) = offset_of t i + Z.of_nat (length v.2).
Proof.
  intros Hv. pose proof (zlookup_range _ _ _ Hv). unfold offset_of, zlookup in *.
  rewrite (proj2 (Z.leb_le _ _)) in Hv by lia.
  replace (Z.to_nat (i + 1)) with (S (Z.to_nat i)) by lia.
  rewrite (take_S_r _ _ _ Hv), flat_bufs_app, length_app. unfold flat_bufs at 2. cbn.
  rewrite app_nil_r. lia.
Qed.

Lemma offset_all t i : i = Z.of_nat (length t) -> offset_of t i = Z.of_nat (length (flat_bufs t)).
Proof. intros ->. unfold offset_of. by rewrite Nat2Z.id, take_ge by lia. Qed.

Lemma offset_le t i : offset_of t i <= Z.of_nat (length (flat_bufs t)).
Proof.
  unfold offset_of. rewrite <-(take_drop (Z.to_nat i) t) at 2.
  rewrite flat_bufs_app, length_app. lia.
Qed.

Lemma flat_bufs_lookup (t : list view) i (v : view) j b :
  zlookup i t = Some v -> zlookup j v.2 = Some b ->
  zlookup (offset_of t i + j) (flat_bufs t) = Some b.
Proof.
  intros Hv Hb. pose proof (zlookup_range _ _ _ Hv). pose proof (zlookup_range _ _ _ Hb).
  unfold zlookup in *. rewrite (proj2 (Z.leb_le _ _)) in Hv by lia.
  rewrite (proj2 (Z.leb_le 0 j)) in Hb by lia.
  unfold offset_of. rewrite (proj2 (Z.leb_le _ _)) by lia.
  rewrite <-(take_drop_middle _ _ _ Hv) at 2. rewrite flat_bufs_app.
  rewrite lookup_app_r by lia.
  replace (Z.to_nat _ - _)%nat with (Z.to_nat j) by lia.
  unfold flat_bufs at 1. cbn. rewrite lookup_app_l by lia. done.
Qed.

Lemma flat_infos_length off sen t : length (flat_infos off sen t) = S (length t).
Proof. revert off. induction t as [|[[id len] bs] t IH]; intros off; cbn; [done|]. by rewrite IH. Qed.

Lemma flat_infos_lookup off sen (t : list view) i (v : view) :
  zlookup i t = Some v ->
  zlookup i (flat_infos off sen t) = Some (IoSetInfo v.1.1 v.1.2 (off + offset_of t i)).
Proof.
  intros Hv. pose proof (zlookup_range _ _ _ Hv) as Hi. unfold zlookup, offset_of in *.
  rewrite (proj2 (Z.leb_le _ _)) in * by lia. revert off Hv. generalize (Z.to_nat i).
  clear i Hi. induction t as [|[[id len] bs] t IH]; intros i off Hv; [done|].
  destruct i as [|i]; cbn in Hv |- *.
  - injection Hv as <-. cbn. by rewrite Z.add_0_r.
  - rewrite (IH i _ Hv). unfold flat_bufs. cbn. rewrite length_app. do 2 f_equal. lia.
Qed.

Lemma flat_infos_last off sen t :
  zlookup (Z.of_nat (length t)) (flat_infos off sen t) =
  Some (IoSetInfo (si_ident sen) (si_ident_len sen) (off + Z.of_nat (length (flat_bufs t)))).
Proof.
  rewrite zlookup_nat. revert off. induction t as [|[[id len] bs] t IH]; intros off; cbn.
  - by rewrite Z.add_0_r.
  - rewrite IH. unfold flat_bufs. cbn. rewrite length_app. do 2 f_equal. lia.
Qed.

(** The offsets of the flat arrays of a tree are in order. *)
Lemma wf_raw_flat sen t :
  Z.of_nat (length t) * sizeof_io < 2 ^ 64 -> Z.of_nat (length (flat_bufs t)) * sizeof_io < 2 ^ 64 ->
  wf_raw (flat_infos 0 sen t) (Z.of_nat (length t)) (flat_bufs t).
Proof.
  intros Hn Hb. split; [rewrite flat_infos_length; lia|lia|done|done|]. intros i a b Ha Hbi.
  pose proof (zlookup_range _ _ _ Ha) as Hra. pose proof (zlookup_range _ _ _ Hbi) as Hrb.
  rewrite flat_infos_length in Hra, Hrb. destruct (zlookup_lt i t ltac:(lia)) as [v Hv].
  rewrite (flat_infos_lookup _ _ _ _ _ Hv) in Ha. injection Ha as <-. cbn [si_offset].
  assert (Eb : si_offset b = offset_of t (i + 1)).
  { destruct (decide (i + 1 = Z.of_nat (length t))) as [E|Hne].
    - rewrite E, flat_infos_last in Hbi. injection Hbi as <-. cbn. by rewrite (offset_all t (i + 1)).
    - destruct (zlookup_lt (i + 1) t ltac:(lia)) as [w Hw]. rewrite (flat_infos_lookup _ _ _ _ _ Hw) in Hbi.
      by injection Hbi as <-. }
  rewrite Eb. pose proof (offset_le t (i + 1)). pose proof (offset_step _ _ _ Hv).
  assert (0 <= offset_of t i) by (unfold offset_of; lia). lia.
Qed.

Section exit.
Context {M : Type} {HS : System M} (junk_set : io_set) (junk_buf : io_buffer).
Implicit Types s : runtime M.

(** The first loop of the function counts the buffers of the tree. *)
Lemma count_spec s t fuel i :
  tree_at s (rt_output_sets s) t -> Z.of_nat (length (flat_bufs t)) < 2 ^ 64 ->
  0 <= i -> i + Z.of_nat fuel = Z.of_nat (length t) ->
  wp (count_output_bufs fuel i (offset_of t i))
    (fun r s' => s' = s /\ r = Z.of_nat (length (flat_bufs t))) s.
Proof.
  intros Ht Hbig. revert i. induction fuel as [|fuel IH]; intros i Hi Hf; cbn [count_output_bufs].
  - apply wp_ret. split; [done|]. apply offset_all. lia.
  - destruct (zlookup_lt i t ltac:(lia)) as [v Hv]. wp_pure.
    eapply wp_read_set; [done..|]. intros set Hset.
    pose proof (offset_step t i v Hv). pose proof (offset_le t (i + 1)).
    rewrite (sv_count _ _ _ Hset), wrap64_small, <-offset_step by (done || unfold offset_of in *; lia).
    apply IH; lia.
Qed.

Section flatten.
Context (s1 : runtime M) (t : list view) (raw : list io_set_info) (sen : io_set_info) (q : Z) (m : M).
Let total : Z := Z.of_nat (length (flat_bufs t)).
Let B := buf_arrays s1.
Context (Htree : tree_at s1 (rt_output_sets s1) t) (Htot : total * sizeof_io < 2 ^ 64).
Context (Hraw : length raw = S (length t)).
Context (Hsen : zlookup (Z.of_nat (length t)) raw = Some sen).
Context (Hid : forall i v info, zlookup i t = Some v -> zlookup i raw = Some info ->
  si_ident info = v.1.1 /\ si_ident_len info = v.1.2).
Context (Hq : total <> 0 -> q <> NULL /\ ~ owned s1 q).
Context (Hm : forall x, owned s1 x -> x ∈ (sys_live m).*1).

(** The state when the sets before [i] and [pos] buffers are written. *)
Definition exit_state (i pos : Z) : runtime M :=
  set_output_sets (overwritten (flat_infos 0 sen t) raw i) (set_output_bufs q
    (set_sys m (if total =? 0 then s1
       else set_buf_arrays (<[q := filled (flat_bufs t) junk_buf total pos]> B) s1))).

Lemma exit_lengths : length (flat_infos 0 sen t) = length raw.
Proof using Hraw. by rewrite flat_infos_length. Qed.

Lemma exit_set_view i pos set v : set_view s1 set v -> set_view (exit_state i pos) set v.
Proof using Hq Hm.
  intros Hv. eapply set_view_frame; [| |done].
  - exact Hm.
  - intros Hc. unfold exit_state. case_bool; [done|]. cbn.
    rewrite lookup_insert_ne; [done|]. intros Heq. destruct (Hq Hb) as [_ Hni].
    apply Hni. rewrite Heq. by apply (sv_owned _ _ _ Hv).
Qed.

Lemma wp_exit_set i pos k v (Q : io_set -> runtime M -> Prop) :
  zlookup k t = Some v ->
  (forall set, set_view s1 set v -> Q set (exit_state i pos)) ->
  wp (let! p := gets rt_output_sets in get_set p k) Q (exit_state i pos).
Proof using Htree.
  intros Hk HQ. destruct Htree as (sets & Hs).
  destruct (sets_at_lookup _ _ _ _ _ _ Hs Hk) as (Hp&Ho&Harr&set&Hset&Hview).
  wp_pure. assert (rt_output_sets (exit_state i pos) = rt_output_sets s1) as ->
    by (unfold exit_state; by case_bool).
  eapply wp_array_get; [done| |done|by apply HQ].
  unfold exit_state. by case_bool.
Qed.

Lemma put_offset_spec i pos off info (Q : unit -> runtime M -> Prop) :
  zlookup i raw = Some info ->
  zlookup i (flat_infos 0 sen t) = Some (IoSetInfo (si_ident info) (si_ident_len info) off) ->
  Q tt (exit_state (i + 1) pos) -> wp (put_offset i off) Q (exit_state i pos).
Proof using Hraw.
  intros Hi Hn HQ. unfold put_offset. wp_pure.
  eapply wp_platform_get; [apply overwritten_lookup; [apply exit_lengths|exact Hi]|].
  wp_pure. revert HQ. unfold exit_state. cbn.
  by rewrite (overwritten_step _ _ _ _ exit_lengths Hn).
Qed.

Lemma flatten_set_spec i (Q : Z -> runtime M -> Prop) :
  0 <= i < Z.of_nat (length t) ->
  Q (offset_of t (i + 1)) (exit_state (i + 1) (offset_of t (i + 1))) ->
  wp (flatten_set i (offset_of t i)) Q (exit_state i (offset_of t i)).
Proof using Htree Htot Hraw Hid Hq Hm.
  intros Hi HQ. destruct (zlookup_lt i t Hi) as [v Hv].
  destruct (zlookup_lt i raw ltac:(lia)) as [info Hinfo].
  destruct (Hid _ _ _ Hv Hinfo) as [Hid1 Hid2].
  pose proof (offset_step t i v Hv) as Hstep. pose proof (offset_le t (i + 1)) as Hle.
  fold total in Hle. unfold sizeof_io in Htot. assert (0 <= offset_of t i) by (unfold offset_of; lia).
  pose proof (flat_infos_lookup 0 sen t i v Hv) as Hnew. rewrite <-Hid1, <-Hid2, Z.add_0_l in Hnew.
  unfold flatten_set. wp_pure. eapply put_offset_spec; [done..|].
  assert (Hassoc : forall (k : io_set -> prog (runtime M) Z) (st : runtime M),
    wp (bind (let! p := gets rt_output_sets in get_set p i) k) Q st ->
    wp (let! p := gets rt_output_sets in let! set := get_set p i in k set) Q st).
  { intros k st. unfold wp, bind, gets. done. }
  apply Hassoc, wp_bind, (wp_exit_set _ _ _ v); [done|]. intros set Hset.
  rewrite (sv_count _ _ _ Hset). wp_pure.
  apply (wp_for (fun j s' => s' = exit_state (i + 1) (offset_of t i + j))).
  - lia.
  - by rewrite Z.add_0_r.
  - intros j s' Hj ->.
    destruct (view_buffer _ set v j (exit_set_view (i + 1) (offset_of t i + j) _ _ Hset)
      ltac:(rewrite (sv_count _ _ _ Hset); lia)) as (b & Hbuf & Hb).
    assert (Hnn : buffers set <> NULL).
    { intros Hn. destruct (sv_bufs _ _ _ Hset) as (arr & Ha & Hc & _). unfold arr_of in Ha.
      pose proof (sv_cap _ _ _ Hset). rewrite (sv_count _ _ _ Hset) in *.
      rewrite (proj2 (Z.eqb_neq _ _)), Hn in Ha by lia. done. }
    unfold buffer_at in Hbuf. destruct (_ !! buffers set) as [arr|] eqn:Harr; [|done].
    wp_pure. eapply wp_array_get; [done..|]. wp_pure.
    eapply wp_platform_get.
    { apply overwritten_lookup_lt; [apply exit_lengths|lia|exact Hnew]. }
    wp_pure. cbn [si_offset]. rewrite wrap64_small by lia.
    assert (Htot0 : total <> 0) by lia. destruct (Hq Htot0) as [Hq0 _].
    unfold exit_state. rewrite (proj2 (Z.eqb_neq total 0) Htot0).
    eapply wp_array_put; [done|by apply lookup_insert_eq|rewrite filled_length by (done || lia); lia|].
    wp_pure. cbn. rewrite insert_insert_eq, (filled_step _ _ _ _ b); [by rewrite Z.add_assoc|lia|].
    by apply (flat_bufs_lookup t i v).
  - intros s' ->. wp_pure. rewrite wrap64_small by lia. by rewrite <-Hstep.
Qed.

Lemma flatten_sets_spec fuel i (Q : Z -> runtime M -> Prop) :
  0 <= i -> i + Z.of_nat fuel = Z.of_nat (length t) ->
  Q total (exit_state (Z.of_nat (length t)) total) ->
  wp (flatten_sets fuel i (offset_of t i)) Q (exit_state i (offset_of t i)).
Proof using Htree Htot Hraw Hid Hq Hm.
  intros Hi Hf HQ. revert i Hi Hf. induction fuel as [|fuel IH]; intros i Hi Hf; cbn [flatten_sets].
  - apply wp_ret. rewrite !offset_all by lia. by replace i with (Z.of_nat (length t)) by lia.
  - wp_pure. apply flatten_set_spec; [lia|]. apply IH; lia.
Qed.
End flatten.

(** The buffers that the platform finds at [output_bufs]. *)
Definition raw_output s : list io_buffer :=
  if output_bufs s =? NULL then []
  else match buf_arrays s !! output_bufs s with Some l => l | None => [] end.

(** The names in the flat output sets are those of the tree. *)
Definition same_idents (t : list view) (raw : list io_set_info) : Prop :=
  forall i v info, zlookup i t = Some v -> zlookup i raw = Some info ->
    si_ident info = v.1.1 /\ si_ident_len info = v.1.2.

Lemma exit_state_done s1 t raw sen q m (H : length raw = S (length t)) :
  let total := Z.of_nat (length (flat_bufs t)) in
  (total <> 0 -> q <> NULL) -> (total = 0 -> q = NULL) ->
  let s' := exit_state s1 t raw sen q m (Z.of_nat (length t) + 1) total in
  output_sets s' = flat_infos 0 sen t /\ raw_output s' = flat_bufs t.
Proof.
  intros total Hq Hq0 s'. split.
  - cbn. apply overwritten_all; rewrite ?flat_infos_length, H; lia.
  - unfold raw_output, s', exit_state. fold total. destruct (total =? 0) eqn:E; bool_to_prop; cbn.
    + rewrite Hq0 by done. cbn. by rewrite (nil_length_inv (flat_bufs t)) by lia.
    + rewrite (proj2 (Z.eqb_neq _ _)), lookup_insert_eq by auto. by apply filled_all.
Qed.

(** Memory for the array of the buffers of all sets. *)
Definition exit_room s (t : list view) : Prop :=
  let size := Z.of_nat (length (flat_bufs t)) * sizeof_io in
  sys_live (rt_sys s) <> [] /\ size < 2 ^ 63 /\ sys_cost size <= sys_room (rt_sys s).

(** The arrays after the flat one was made, and the end of the process. *)
Lemma exit_flat_spec s0 t outs sen q m code :
  tree_at s0 (rt_output_sets s0) t -> length outs = S (length t) -> zlookup (Z.of_nat (length t)) outs = Some sen ->
  same_idents t outs -> Z.of_nat (length (flat_bufs t)) * sizeof_io < 2 ^ 64 ->
  sys_sound m -> sys_code m = code -> (forall x, owned s0 x -> x ∈ (sys_live m).*1) ->
  (Z.of_nat (length (flat_bufs t)) <> 0 -> q <> NULL /\ ~ owned s0 q) -> (Z.of_nat (length (flat_bufs t)) = 0 -> q = NULL) ->
  wp (let! off := flatten_sets (length t) 0 0 in
      let! _ := put_offset (Z.of_nat (length t)) off in on_sys sys_exit)
    (fun _ s' => sys_exited (rt_sys s') = true /\ sys_code (rt_sys s') = code /\
      (exists sen, output_sets s' = flat_infos 0 sen t) /\ raw_output s' = flat_bufs t)
    (exit_state s0 t outs sen q m 0 0).
Proof.
  intros Ht0 Hraw Hsen Hid Htot Hs1 Hc1 Hm1 Hq1 Hq0. wp_pure.
  eapply (flatten_sets_spec s0 t outs sen q m Ht0 Htot Hraw Hid Hq1 Hm1 (length t) 0); [lia|lia|].
  apply wp_bind. eapply put_offset_spec; [done|exact Hsen|by rewrite flat_infos_last|]. apply wp_zoom.
  set (s2 := exit_state _ _ _ _ _ _ _ _). assert (Hs2 : rt_sys s2 = m) by done. rewrite Hs2.
  eapply wp_mono; [by apply sys_exit_law|].
  intros _ m2 (_ & _ & Hcode & Hexit). cbn [rt_sys set_sys].
  destruct (exit_state_done s0 t outs sen q m Hraw (fun H => proj1 (Hq1 H)) Hq0) as [H1 H2].
  split_and!; [done|congruence|by exists sen|done].
Qed.

Lemma dandelion_exit_spec s t code :
  sys_sound (rt_sys s) -> tree_at s (rt_output_sets s) t ->
  Z.of_nat (length t) = output_sets_len s -> length (output_sets s) = S (length t) ->
  same_idents t (output_sets s) -> Z.of_nat (length (flat_bufs t)) * sizeof_io < 2 ^ 64 ->
  wp (dandelion_exit junk_buf code) (fun _ s' =>
    (oom s' /\ ~ exit_room s t) \/ sys_exited (rt_sys s') = true /\ sys_code (rt_sys s') = code /\
      (exists sen, output_sets s' = flat_infos 0 sen t) /\ raw_output s' = flat_bufs t) s.
Proof.
  intros Hs Ht Hlen Hraw Hid Htot. unfold dandelion_exit. wp_pure. apply wp_zoom.
  eapply wp_mono; [apply wp_and; [by apply sys_set_code_law|apply sys_set_code_room]|].
  intros _ m ((Hm & Hl & Hc & He) & Hroom). wp_pure.
  set (s0 := set_sys m s).
  assert (Ht0 : tree_at s0 (rt_output_sets s0) t).
  { eapply tree_frame; [|exact Ht]. unfold frame, owned, s0. cbn. by rewrite Hl. }
  replace (output_sets_len s0) with (Z.of_nat (length t)) by done. rewrite Nat2Z.id.
  eapply wp_mono; [by apply (count_spec s0 t (length t) 0); [|unfold sizeof_io in *; lia| |]|].
  intros r s' [-> ->]. set (total := Z.of_nat (length (flat_bufs t))) in *.
  destruct (zlookup_lt (Z.of_nat (length t)) (output_sets s) ltac:(lia)) as [sen Hsen].
  assert (Hfin : forall q m', sys_sound m' -> sys_code m' = code ->
    (forall x, owned s0 x -> x ∈ (sys_live m').*1) ->
    (total <> 0 -> q <> NULL /\ ~ owned s0 q) -> (total = 0 -> q = NULL) ->
    wp (let! off := flatten_sets (length t) 0 0 in
        let! _ := put_offset (Z.of_nat (length t)) off in on_sys sys_exit)
      (fun _ s' => (oom s' /\ ~ exit_room s t) \/ sys_exited (rt_sys s') = true /\ sys_code (rt_sys s') = code /\
        (exists sen, output_sets s' = flat_infos 0 sen t) /\ raw_output s' = flat_bufs t)
      (exit_state s0 t (output_sets s) sen q m' 0 0)).
  { intros q m' Hs1 Hc1 Hm1 Hq1 Hq0. eapply wp_mono; [by apply exit_flat_spec|]. intros ? ? H. by right. }
  wp_pure. apply wp_alloc_bufs; [done|lia|done| |].
  - intros m' Hrun Hm' Hl' [Hc' _]. wp_pure. cbn [Z.eqb NULL andb].
    destruct (negb _) eqn:E; bool_to_prop.
    { apply wp_bind, out_of_memory_spec; [done|]. intros m2 _ _ He2 Hc2. wp_pure. left. split; [by split|].
      intros (Hl0 & Hbig & Hcost). fold total in Hbig, Hcost.
      destruct (alloc_grows m (total * sizeof_io) alignof_io NULL m' Hm) as [H _];
        [congruence|unfold sizeof_io in *; lia|done|by left|lia|exact Hrun|done]. }
    assert (He0 : exit_state s0 t (output_sets s) sen NULL m' 0 0
      = set_output_bufs NULL (set_sys m' s0)).
    { unfold exit_state. fold total. by rewrite (proj2 (Z.eqb_eq _ _) E). }
    rewrite <-He0. apply Hfin; try done; [cbn in Hc'; congruence|].
    intros x. by rewrite Hl'.
  - intros p k m' Hp Hn Hm' Hl' Hni [Hc' _] _. wp_pure. rewrite (proj2 (Z.eqb_neq _ _)) by done.
    cbn [andb].
    assert (He0 : exit_state s0 t (output_sets s) sen p m' 0 0
      = set_output_bufs p (set_buf_arrays
          (<[p:=replicate (Z.to_nat total) junk_buf]> (buf_arrays s0)) (set_sys m' s0))).
    { unfold exit_state. fold total. rewrite (proj2 (Z.eqb_neq _ 0)), filled_0 by lia. done. }
    rewrite <-He0. apply Hfin; try done.
    + cbn in Hc'; congruence.
    + intros x Hx. rewrite Hl'. by right.
    + lia.
Qed.
End exit.
