(* ===== verification/RuntimeTheorems.v ===== *)
(** The contract of the runtime's input and output sets, against any system
    that keeps the promise of [System], with instances on the real
    allocator. *)
From S2P Require Import Prelude Heap Alloc AllocSession AllocTheorems System RuntimeIO RuntimeTree RuntimeInit RuntimeOutput RuntimeExit.

Section theorems.
Context {M : Type} {HS : System M} (junk_set : io_set) (junk_buf : io_buffer).
Implicit Types s : runtime M.

(** C6: on well-formed arrays of the platform, [dandelion_init] ends without
    undefined behaviour; unless memory runs out, in which case the process
    ends with [DANDELION_OOM], the input tree then holds in set [i] exactly
    the input buffers between the offsets [i] and [i + 1], and the output
    tree holds every output set with no buffers. *)
Theorem init_parses s :
  sys_sound (rt_sys s) -> wf_raw (input_sets s) (input_sets_len s) (input_bufs s) ->
  wf_out (output_sets s) (output_sets_len s) ->
  wp (dandelion_init junk_set junk_buf) (fun _ s' => oom s' \/
    sys_sound (rt_sys s') /\ same_platform s s' /\
    tree_at s' (rt_input_sets s') (unflatten (input_sets s) (input_bufs s)) /\
    out_tree s' (rt_output_sets s') (empty_tree (output_sets s) (output_sets_len s))) s.
Proof. apply dandelion_init_spec. Qed.

(** [dandelion_get_input] returns a pointer to buffer [j] of input set [i],
    or [NULL] exactly when there is no such buffer, and changes nothing. *)
Theorem get_input_reads s t i j :
  tree_at s (rt_input_sets s) t -> Z.of_nat (length t) = input_sets_len s ->
  0 <= i -> 0 <= j ->
  wp (dandelion_get_input i j)
    (fun r s' => s' = s /\ buffer_at s r = tree_buffer t i j) s.
Proof. apply get_input_spec. Qed.

(** the counts and names of output sets are those of the tree, and 0 or
    [NULL] for a set that does not exist. *)
Theorem output_getters s t i :
  tree_at s (rt_output_sets s) t -> Z.of_nat (length t) = output_sets_len s -> 0 <= i ->
  wp (let! n := dandelion_output_buffer_count i in
      let! id := dandelion_output_set_ident i in
      let! len := dandelion_output_set_ident_len i in ret (n, id, len))
    (fun r s' => s' = s /\ r = match zlookup i t with
       | Some (id, len, bs) => (Z.of_nat (length bs), id, len)
       | None => (0, NULL, 0) end) s.
Proof.
  intros Ht Hl Hi. unfold dandelion_output_buffer_count, dandelion_output_set_ident,
    dandelion_output_set_ident_len.
  wp_pure. destruct (output_sets_len s <=? i) eqn:E; bool_to_prop; wp_pure; rewrite ?E.
  - rewrite !(proj2 (Z.leb_le _ _)) by lia. wp_pure.
    rewrite !(proj2 (Z.leb_le _ _)) by lia. wp_pure. split; [done|].
    destruct (zlookup i t) eqn:E2; [|done]. apply zlookup_range in E2. lia.
  - destruct (zlookup_lt i t ltac:(lia)) as [[[id len] bs] Hv]. rewrite Hv.
    eapply wp_read_set; [done..|]. intros set1 [_ _ _ H1 _ _]. wp_pure.
    rewrite (proj2 (Z.leb_gt _ _)) by lia. wp_pure.
    eapply wp_read_set; [done..|]. intros set2 [H2 _ _ _ _ _]. wp_pure.
    rewrite (proj2 (Z.leb_gt _ _)) by lia. wp_pure.
    eapply wp_read_set; [done..|]. intros set3 [_ H3 _ _ _ _]. wp_pure.
    cbn in *. by rewrite H1, H2, H3.
Qed.

(** C7: when the allocation it needs succeeds, [dandelion_add_output] appends
    the buffer to its set and changes no other set of the tree, no other
    array of sets and no other array of buffers; an index beyond the sets
    changes nothing. *)
Theorem add_output_appends s t i buf :
  sys_sound (rt_sys s) -> out_tree s (rt_output_sets s) t ->
  Z.of_nat (length t) = output_sets_len s -> 0 <= i ->
  (forall set, output_set s i = Some set -> buffers_cap set < 2 ^ 57 /\
     (buffers_len set = buffers_cap set -> forall m r, growth s set = Ret r m -> r <> NULL)) ->
  wp (dandelion_add_output junk_buf i buf) (fun _ s' =>
    sys_sound (rt_sys s') /\ out_tree s' (rt_output_sets s') (add_at t i buf) /\
    exists q, grow_frame s s' (rt_output_sets s) q /\
      forall set, output_set s i = Some set -> q = buffers set) s.
Proof. apply add_output_spec. Qed.

(** when the set is full and [dandelion_alloc] returns [NULL],
    [dandelion_add_output] writes through the null pointer. *)
Theorem add_output_null_write s t i buf set m :
  out_tree s (rt_output_sets s) t -> 0 <= i < output_sets_len s ->
  Z.of_nat (length t) = output_sets_len s -> output_set s i = Some set ->
  buffers_len set = buffers_cap set -> buffers_cap set < 2 ^ 57 ->
  growth s set = Ret NULL m ->
  dandelion_add_output junk_buf i buf s = Fault NullDeref.
Proof. apply add_output_null. Qed.

(** C5: [dandelion_exit] hands the platform flat arrays that describe the
    output tree: parsing them as [dandelion_init] parses the input gives the
    tree back, and the process ends with the given code, unless memory for
    the array runs out. *)
Theorem exit_flattens s t code :
  sys_sound (rt_sys s) -> tree_at s (rt_output_sets s) t ->
  Z.of_nat (length t) = output_sets_len s -> length (output_sets s) = S (length t) ->
  same_idents t (output_sets s) -> Z.of_nat (length (flat_bufs t)) * sizeof_io < 2 ^ 64 ->
  wp (dandelion_exit junk_buf code) (fun _ s' =>
    oom s' \/ sys_exited (rt_sys s') = true /\ sys_code (rt_sys s') = code /\
      raw_output s' = flat_bufs t /\ unflatten (output_sets s') (raw_output s') = t) s.
Proof.
  intros Hs Ht Hl Hraw Hid Htot. eapply wp_mono; [by apply dandelion_exit_spec|].
  intros _ s' [[? _]|(? & ? & (sen & Hsets) & Hbufs)]; [by left|right].
  split_and!; [done..|]. rewrite Hsets, Hbufs. apply (unflatten_flat []).
Qed.
End theorems.

(** * Instances on the real allocator *)

Definition buf (n : Z) : io_buffer := IoBuffer (1000 + n) 4 (2000 + n) 16 n.

(** Two input sets with two buffers and one, and one output set. *)
Definition demo_rt : runtime session :=
  Runtime (Session demo_heap [])
    2 [IoSetInfo 100 3 0; IoSetInfo 200 4 2; IoSetInfo 0 0 3]
    1 [IoSetInfo 300 5 0; IoSetInfo 0 0 0]
    [buf 0; buf 1; buf 2] NULL NULL NULL ∅ ∅.

Definition junk_s : io_set := IoSet 7 7 7 7 7.
Definition init_rt : prog (runtime session) unit :=
  dandelion_init (HS := session_system true) junk_s (buf 99).
Definition demo_ready : runtime session :=
  match init_rt demo_rt with Ret _ s => s | Fault _ => demo_rt end.

Definition demo_in : list view := [(100, 3, [buf 0; buf 1]); (200, 4, [buf 2])].
Definition demo_out : list view := [(300, 5, [])].

Lemma demo_sound : sys_sound (System := session_system true) (rt_sys demo_rt).
Proof. exists []. apply inv_init; lia. Qed.

Lemma demo_wf_raw : wf_raw (input_sets demo_rt) 2 (input_bufs demo_rt).
Proof.
  split; try (by cbn); try (unfold sizeof_io; cbn; lia). intros i a b Ha Hb.
  pose proof (zlookup_range _ _ _ Ha) as H1. pose proof (zlookup_range _ _ _ Hb) as H2.
  cbn in H1, H2. assert (Hi : i = 0 \/ i = 1) by lia. destruct Hi as [-> | ->]; cbn in Ha, Hb;
    injection Ha as <-; injection Hb as <-; cbn; lia.
Qed.

Lemma demo_wf_out : wf_out (output_sets demo_rt) 1.
Proof. split; cbn; unfold sizeof_io; lia. Qed.

Lemma demo_init_run : init_rt demo_rt = Ret tt demo_ready.
Proof. vm_compute. reflexivity. Qed.

Lemma demo_not_oom : sys_exited (System := session_system true) (rt_sys demo_ready) = false.
Proof. vm_compute. reflexivity. Qed.

Lemma demo_facts :
  sys_sound (System := session_system true) (rt_sys demo_ready) /\ same_platform demo_rt demo_ready /\
  tree_at (HS := session_system true) demo_ready (rt_input_sets demo_ready) demo_in /\
  out_tree (HS := session_system true) demo_ready (rt_output_sets demo_ready) demo_out.
Proof.
  destruct (wp_from_run _ _ _ _ _ demo_init_run (dandelion_init_spec (HS := session_system true)
    junk_s (buf 99) demo_rt demo_sound demo_wf_raw demo_wf_out)) as [[He _]|H]; [|exact H].
  rewrite demo_not_oom in He. discriminate.
Qed.

Lemma demo_platform :
  input_sets_len demo_ready = 2 /\ output_sets_len demo_ready = 1 /\
  output_sets demo_ready = output_sets demo_rt.
Proof. destruct demo_facts as (_ & (->&_&->&->&_) & _). done. Qed.

Lemma init_parses_witness :
  wp init_rt (fun _ s' => oom (HS := session_system true) s' \/
    tree_at (HS := session_system true) s' (rt_input_sets s') demo_in) demo_rt.
Proof.
  eapply wp_mono; [apply (init_parses (HS := session_system true) junk_s (buf 99) demo_rt
    demo_sound demo_wf_raw demo_wf_out)|].
  intros _ s' [H|(_&_&H&_)]; [by left|by right].
Defined.

Lemma get_input_reads_witness :
  wp (dandelion_get_input 1 0)
    (fun r s' => buffer_at s' r = Some (buf 2)) demo_ready.
Proof.
  destruct demo_facts as (_ & _ & Ht & _). destruct demo_platform as (Hn & _).
  eapply wp_mono; [apply (get_input_reads (HS := session_system true) demo_ready demo_in 1 0 Ht);
    [by rewrite Hn|lia|lia]|].
  intros r s' [-> H]. exact H.
Defined.

Lemma demo_out_tree :
  tree_at (HS := session_system true) demo_ready (rt_output_sets demo_ready) demo_out.
Proof. destruct demo_facts as (_ & _ & _ & (sets & H & _)). by exists sets. Qed.

Lemma output_getters_witness :
  wp (let! n := dandelion_output_buffer_count 0 in
      let! id := dandelion_output_set_ident 0 in
      let! len := dandelion_output_set_ident_len 0 in ret (n, id, len))
    (fun r s' => r = (0, 300, 5)) demo_ready.
Proof.
  eapply wp_mono; [apply (output_getters (HS := session_system true) demo_ready demo_out 0 demo_out_tree);
    [by rewrite (proj1 (proj2 demo_platform))|lia]|].
  intros r s' [_ H]. exact H.
Defined.

Lemma demo_set_eq : output_set demo_ready 0 = Some (IoSet 300 5 0 0 0).
Proof. vm_compute. reflexivity. Qed.

Lemma demo_growth :
  match growth (HS := session_system true) demo_ready (IoSet 300 5 0 0 0) with
  | Ret r _ => r =? NULL | Fault _ => true end = false.
Proof. vm_compute. reflexivity. Qed.

Lemma add_output_appends_witness :
  wp (dandelion_add_output (HS := session_system true) (buf 99) 0 (buf 5)) (fun _ s' =>
    out_tree (HS := session_system true) s' (rt_output_sets s') [(300, 5, [buf 5])]) demo_ready.
Proof.
  destruct demo_facts as (Hs & _ & _ & Ht).
  eapply wp_mono; [apply (add_output_appends (HS := session_system true) (buf 99) demo_ready demo_out
    0 (buf 5) Hs Ht)|].
  - by rewrite (proj1 (proj2 demo_platform)).
  - lia.
  - intros set Hset. rewrite demo_set_eq in Hset. injection Hset as <-. split; [cbn; lia|].
    intros _ m r Hr. pose proof demo_growth as Hg. rewrite Hr in Hg. by apply Z.eqb_neq.
  - intros _ s' (_ & H & _). exact H.
Defined.

(** A runtime whose heap has been replaced, and [demo_ready] with a heap that
    has been used up. *)
Definition with_heap (h : heap) (s : runtime session) : runtime session :=
  set_sys (Session h (s_live (rt_sys s))) s.
Definition used_up : heap := Heap 4096 8192 0 false 8192 NULL 0 ∅.

Lemma with_heap_facts h (s : runtime session) t :
  out_tree (HS := session_system true) s (rt_output_sets s) t ->
  out_tree (HS := session_system true) (with_heap h s) (rt_output_sets (with_heap h s)) t /\
  output_sets_len (with_heap h s) = output_sets_len s /\
  (forall i, output_set (with_heap h s) i = output_set s i) /\
  rt_sys (with_heap h s) = Session h (s_live (rt_sys s)).
Proof. intros Ht. split_and!; try done. by apply (out_tree_sys (HS := session_system true)). Qed.

Lemma used_up_growth L :
  session_alloc (next_cap 0 * sizeof_io) alignof_io (Session used_up L) =
  Ret NULL (Session used_up L).
Proof. vm_compute. reflexivity. Qed.

Lemma add_output_null_write_witness :
  dandelion_add_output (HS := session_system true) (buf 99) 0 (buf 5) (with_heap used_up demo_ready)
  = Fault NullDeref.
Proof.
  destruct demo_facts as (_ & _ & _ & Ht). destruct demo_platform as (_ & Hn & _).
  destruct (with_heap_facts used_up demo_ready demo_out Ht) as (Ht2 & Hn2 & Hset & Hsys).
  rewrite Hn in Hn2. specialize (Hset 0). rewrite demo_set_eq in Hset.
  pose proof (used_up_growth (s_live (rt_sys demo_ready))) as Hg. rewrite <-Hsys in Hg at 1.
  revert Ht2 Hn2 Hset Hg. generalize (with_heap used_up demo_ready). intros s Ht2 Hn2 Hset Hg.
  apply (add_output_null_write (HS := session_system true) (buf 99) s demo_out 0 (buf 5)
    (IoSet 300 5 0 0 0) (Session used_up (s_live (rt_sys demo_ready))) Ht2);
    [lia|by rewrite Hn2|exact Hset|done|cbn; lia|exact Hg].
Defined.

Lemma demo_idents : same_idents demo_out (output_sets demo_rt).
Proof.
  intros i v info Hv Hi. pose proof (zlookup_range _ _ _ Hv) as Hr. cbn in Hr.
  assert (i = 0) as -> by lia. cbn in Hv, Hi. injection Hv as <-. injection Hi as <-. done.
Qed.

Lemma exit_flattens_witness :
  wp (dandelion_exit (HS := session_system true) (buf 99) 42) (fun _ s' =>
    oom (HS := session_system true) s' \/
    sys_code (System := session_system true) (rt_sys s') = 42 /\
    unflatten (output_sets s') (raw_output s') = demo_out) demo_ready.
Proof.
  destruct demo_facts as (Hs & _). destruct demo_platform as (_ & Hn & Hraw).
  eapply wp_mono; [apply (exit_flattens (HS := session_system true) (buf 99) demo_ready demo_out 42
    Hs demo_out_tree)|].
  - by rewrite Hn.
  - by rewrite Hraw.
  - rewrite Hraw. exact demo_idents.
  - unfold sizeof_io. cbn. lia.
  - intros _ s' [H|(_ & Hc & _ & Ht)]; [left; exact H|right; split; [exact Hc|exact Ht]].
Defined.
