(* ===== verification/Paths.v ===== *)
(** Paths and names (src/file_system/paths.c, paths.h): comparison of
    bounded names, and splitting of paths at slashes. *)
From S2P Require Import Prelude.

(** * Strings

    A character is the [Z] value the platform gives it; a pointer into a
    string is the whole string with an offset, so that pointer differences are
    differences of offsets. *)

Definition FS_PATH_LENGTH : Z := 4096.
Definition slash : Z := 47.
Definition dot : Z := 46.
Definition NUL : Z := 0.

Record path := Path { p_str : list Z; p_off : Z; p_len : Z }.

(** [p.path[i]] *)
Definition char_at {S} (str : list Z) (i : Z) : prog S Z :=
  from_option OutOfBounds (zlookup i str).
Definition path_char {S} (p : path) (i : Z) : prog S Z := char_at (p_str p) (p_off p + i).

(** [while (cond(index)) index++], where the condition reads characters and
    cannot hold [fuel] times in a row. *)
Fixpoint scan {S} (fuel : nat) (cond : Z -> prog S bool) (index : Z) : prog S Z :=
  match fuel with
  | O => fail FuelExhausted
  | Datatypes.S k =>
      let! b := cond index in
      if b then scan k cond (index + 1) else ret index
  end.

(** * paths.h *)

Definition namelen {S} (name : list Z) (max_len : Z) : prog S Z :=
  scan (Datatypes.S (Z.to_nat max_len)) (fun length =>
    if length <? max_len then
      let! c := char_at name length in ret (negb (c =? NUL))
    else ret false) 0.

(** One iteration of the loop: [Some] is a result, [None] is [continue]. *)
Definition namecmp_step {S} (name1 name2 : list Z) (index : Z) : prog S (option Z) :=
  let! c1 := char_at name1 index in
  let! c2 := char_at name2 index in
  if (c1 =? c2) && negb (c1 =? NUL) then ret None else
  if (c1 =? NUL) && (c2 =? NUL) then ret (Some 0) else
  if c1 =? NUL then ret (Some (-1)) else
  if c2 =? NUL then ret (Some 1) else
  ret (Some (if c1 <? c2 then -1 else 1)).

Definition namecmp {S} (name1 : list Z) (name1_length : Z) (name2 : list Z)
    (name2_length : Z) : prog S Z :=
  let max_length := if name1_length <? name2_length then name1_length else name2_length in
  let! r := for_loop max_length (namecmp_step name1 name2) in
  match r with
  | Some res => ret res
  | None =>
      let index := max_length in
      let! longer2 := if name1_length <? name2_length then
                        let! c2 := char_at name2 index in ret (negb (c2 =? NUL))
                      else ret false in
      if longer2 : bool then ret (-1) else
      let! longer1 := if name2_length <? name1_length then
                        let! c1 := char_at name1 index in ret (negb (c1 =? NUL))
                      else ret false in
      if longer1 : bool then ret 1 else ret 0
  end.

(** * paths.c *)

Definition ENAMETOOLONG : Z := 36.

(** [exit] is [dandelion_exit]. *)
Definition path_from_string {S} (exit : Z -> prog S unit) (str : list Z) : prog S path :=
  let! index := scan (Datatypes.S (Z.to_nat FS_PATH_LENGTH)) (fun index =>
    let! c := char_at str index in
    ret (negb (c =? NUL) && (index <? FS_PATH_LENGTH))) 0 in
  if FS_PATH_LENGTH <=? index then
    let! _ := exit ENAMETOOLONG in ret (Path [] 0 0)
  else ret (Path str 0 index).

Definition get_next_component {S} (p : path) : prog S path :=
  let! index := scan (Datatypes.S (Z.to_nat (p_len p))) (fun index =>
    if index <? p_len p then let! c := path_char p index in ret (c =? slash)
    else ret false) 0 in
  let new_path := p_off p + index in
  let new_length := wrap64 (p_len p - index) in
  let! index := scan (Datatypes.S (Z.to_nat new_length)) (fun index =>
    if index <? new_length then
      let! c := char_at (p_str p) (new_path + index) in ret (negb (c =? slash))
    else ret false) 0 in
  ret (Path (p_str p) new_path index).

(** Returns the component and the rest that [*path] is left with. *)
Definition get_component_advance {S} (p : path) : prog S (path * path) :=
  let! new_component := get_next_component p in
  let new_end := p_off new_component + p_len new_component in
  ret (new_component,
       Path (p_str p) new_end (wrap64 (p_off p + p_len p - new_end))).

Fixpoint last_slash_loop {S} (fuel : nat) (p : path) (index last_slash : Z) : prog S Z :=
  match fuel with
  | O => ret last_slash
  | Datatypes.S k =>
      let! c := path_char p index in
      last_slash_loop k p (index + 1) (if c =? slash then int32 index else last_slash)
  end.

Definition get_directories {S} (p : path) : prog S path :=
  let! last_slash := last_slash_loop (Z.to_nat (p_len p)) p 0 (-1) in
  let last_slash := if last_slash >? 0 then last_slash else 0 in
  ret (Path (p_str p) (p_off p) last_slash).

(** [while (index > 0 && cond(index)) index--] *)
Fixpoint scan_back {S} (fuel : nat) (cond : Z -> prog S bool) (index : Z) : prog S Z :=
  match fuel with
  | O => fail FuelExhausted
  | Datatypes.S k =>
      if index >? 0 then
        let! b := cond index in
        if b : bool then scan_back k cond (index - 1) else ret index
      else ret index
  end.

Definition get_file {S} (p : path) : prog S path :=
  let file_start := wrap64 (p_len p - 1) in
  let! file_start := scan_back (Datatypes.S (Z.to_nat (p_len p)))
    (fun i => let! c := path_char p i in ret (c =? slash)) file_start in
  let! file_start := scan_back (Datatypes.S (Z.to_nat (p_len p)))
    (fun i => let! c := path_char p i in ret (negb (c =? slash))) file_start in
  let! c := path_char p file_start in
  let file_start := if c =? slash then file_start + 1 else file_start in
  ret (Path (p_str p) (p_off p + file_start) (wrap64 (p_len p - file_start))).
