(* ===== verification/PathSpec.v ===== *)
(** What the functions of [Paths] compute: bounded names are compared in
    lexicographic order, and paths are walked component by component. *)
From S2P Require Import Prelude Paths.

(** * Prefixes *)

Fixpoint take_while (f : Z -> bool) (l : list Z) : list Z :=
  match l with [] => [] | c :: l => if f c then c :: take_while f l else [] end.
Fixpoint drop_while (f : Z -> bool) (l : list Z) : list Z :=
  match l with [] => [] | c :: l' => if f c then drop_while f l' else l end.

Lemma take_drop_while f l : take_while f l ++ drop_while f l = l.
Proof. induction l as [|c l IH]; cbn; [done|]. destruct (f c); cbn; by rewrite ?IH. Qed.

Lemma drop_while_drop f l : drop_while f l = drop (length (take_while f l)) l.
Proof. induction l as [|c l IH]; cbn; [done|]. destruct (f c); cbn; [apply IH|done]. Qed.

Lemma take_while_take f l : take_while f l = take (length (take_while f l)) l.
Proof. induction l as [|c l IH]; cbn; [done|]. destruct (f c); cbn; [by rewrite <-IH|done]. Qed.

Lemma take_while_length f l : (length (take_while f l) <= length l)%nat.
Proof. rewrite <-(take_drop_while f l) at 2. rewrite length_app. lia. Qed.

Lemma take_while_all f l c : c ∈ take_while f l -> f c = true.
Proof.
  induction l as [|d l IH]; cbn; [by intros ?%elem_of_nil|]. destruct (f d) eqn:E.
  - intros [->|?]%elem_of_cons; auto.
  - by intros ?%elem_of_nil.
Qed.

Lemma drop_while_head f l c r : drop_while f l = c :: r -> f c = false.
Proof.
  induction l as [|d l IH]; cbn; [done|]. destruct (f d) eqn:E; [done|]. by intros [= <- <-].
Qed.

(** * Slices of a string *)

Definition sub_string (str : list Z) (off n : Z) : list Z :=
  take (Z.to_nat n) (drop (Z.to_nat off) str).

Lemma sub_string_cons str off n c :
  0 <= off -> 0 < n -> zlookup off str = Some c ->
  sub_string str off n = c :: sub_string str (off + 1) (n - 1).
Proof.
  intros Ho Hn Hc. unfold sub_string, zlookup in *.
  rewrite (proj2 (Z.leb_le _ _)) in Hc by lia. rewrite (drop_S _ _ _ Hc).
  replace (Z.to_nat n) with (S (Z.to_nat (n - 1))) by lia.
  replace (Z.to_nat (off + 1)) with (S (Z.to_nat off)) by lia. done.
Qed.

Lemma sub_string_nil str off n : n <= 0 -> sub_string str off n = [].
Proof. intros. unfold sub_string. replace (Z.to_nat n) with 0%nat by lia. done. Qed.

Lemma sub_string_length str off n :
  0 <= off -> 0 <= n -> off + n <= Z.of_nat (length str) ->
  Z.of_nat (length (sub_string str off n)) = n.
Proof. intros. unfold sub_string. rewrite length_take, length_drop. lia. Qed.

Lemma sub_string_drop str off n k :
  0 <= off -> 0 <= k <= n ->
  drop (Z.to_nat k) (sub_string str off n) = sub_string str (off + k) (n - k).
Proof.
  intros. unfold sub_string. rewrite skipn_firstn_comm, drop_drop.
  f_equal; [lia|]. f_equal. lia.
Qed.

Lemma sub_string_take str off n k :
  0 <= k <= n -> take (Z.to_nat k) (sub_string str off n) = sub_string str off k.
Proof. intros. unfold sub_string. rewrite take_take. f_equal. lia. Qed.

(** * Scans *)

Section scan.
Context {S : Type}.
Implicit Types s : S.

Lemma char_at_eq str i c s : zlookup i str = Some c -> char_at str i s = Ret c s.
Proof. unfold char_at. by intros ->. Qed.

Lemma wp_char_at str i c s (Q : Z -> S -> Prop) :
  zlookup i str = Some c -> Q c s -> wp (char_at str i) Q s.
Proof. intros Hc HQ. unfold wp. by rewrite (char_at_eq _ _ _ _ Hc). Qed.

Lemma scan_spec str f off n (cond : Z -> prog S bool) s fuel :
  0 <= off -> 0 <= n -> off + n <= Z.of_nat (length str) ->
  (forall i c, 0 <= i < n -> zlookup (off + i) str = Some c -> cond i s = Ret (f c) s) ->
  cond n s = Ret false s -> n < Z.of_nat fuel ->
  scan fuel cond 0 s = Ret (Z.of_nat (length (take_while f (sub_string str off n)))) s.
Proof.
  intros Ho Hn Hlen Hcond Hend Hf.
  assert (Hgen : forall k i, 0 <= i <= n -> n - i < Z.of_nat k ->
    scan k cond i s =
    Ret (i + Z.of_nat (length (take_while f (sub_string str (off + i) (n - i))))) s).
  { induction k as [|k IH]; intros i Hi Hk; [lia|]. cbn [scan]. unfold bind.
    destruct (decide (i = n)) as [->|].
    - rewrite Hend, sub_string_nil by lia. cbn. unfold ret. f_equal. lia.
    - destruct (zlookup_lt (off + i) str ltac:(lia)) as [c Hc].
      rewrite (Hcond i c ltac:(lia) Hc), (sub_string_cons _ _ _ c) by (done || lia). cbn.
      destruct (f c); cbn.
      + rewrite IH by lia. f_equal. rewrite !Z.sub_add_distr, !Z.add_assoc. lia.
      + unfold ret. f_equal. lia. }
  rewrite Hgen by lia. by rewrite Z.add_0_r, Z.sub_0_r.
Qed.
End scan.

(** * Names *)

(** The characters of a bounded name, up to its length or a NUL. *)
Definition cstr (n : Z) (l : list Z) : list Z :=
  take_while (fun c => negb (c =? NUL)) (sub_string l 0 n).

Fixpoint lex (a b : list Z) : comparison :=
  match a, b with
  | [], [] => Eq
  | [], _ => Lt
  | _, [] => Gt
  | x :: a, y :: b => match x ?= y with Eq => lex a b | c => c end
  end.

Definition cmp_int (c : comparison) : Z :=
  match c with Lt => -1 | Eq => 0 | Gt => 1 end.

Lemma lex_refl a : lex a a = Eq.
Proof. induction a as [|x a IH]; cbn; [done|]. by rewrite Z.compare_refl. Qed.

Lemma lex_eq a b : lex a b = Eq <-> a = b.
Proof.
  split; [|intros ->; apply lex_refl].
  revert b. induction a as [|x a IH]; intros [|y b]; cbn; try done.
  destruct (Z.compare_spec x y) as [->| |]; try done. intros H%IH. by subst.
Qed.

Lemma lex_antisym a b : lex b a = CompOpp (lex a b).
Proof.
  revert b. induction a as [|x a IH]; intros [|y b]; cbn; try done.
  rewrite (Z.compare_antisym x y). destruct (x ?= y); cbn; [apply IH|done|done].
Qed.

Lemma lex_trans a b c : lex a b = Lt -> lex b c = Lt -> lex a c = Lt.
Proof.
  revert b c. induction a as [|x a IH]; intros [|y b] [|z c]; cbn; try done.
  destruct (Z.compare_spec x y), (Z.compare_spec y z); try done; subst.
  - rewrite Z.compare_refl. apply IH.
  - intros _ _. by rewrite (proj2 (Z.compare_lt_iff _ _)).
  - intros _ _. by rewrite (proj2 (Z.compare_lt_iff _ _)).
  - intros _ _. by rewrite (proj2 (Z.compare_lt_iff x z)) by lia.
Qed.

(** Names are strictly ordered; [<>] goes one way or the other. *)
Definition name_lt (a b : list Z) : Prop := lex a b = Lt.

#[export] Instance name_lt_dec a b : Decision (name_lt a b).
Proof. unfold name_lt. solve_decision. Defined.

#[export] Instance name_lt_strict : StrictOrder name_lt.
Proof.
  split; [intros a H; unfold name_lt in H; by rewrite lex_refl in H|].
  intros a b c. apply lex_trans.
Qed.

Section names.
Context {S : Type}.
Implicit Types s : S.

Lemma namelen_spec name n s :
  0 <= n <= Z.of_nat (length name) ->
  namelen name n s = Ret (Z.of_nat (length (cstr n name))) s.
Proof.
  intros Hn. unfold namelen, cstr. apply scan_spec; [lia..| | |lia].
  - intros i c Hi Hc. rewrite (proj2 (Z.ltb_lt _ _)) by lia. unfold bind.
    by rewrite (char_at_eq name i c).
  - by rewrite Z.ltb_irrefl.
Qed.

(** What is left of a bounded name at index [i]. *)
Let tail (l : list Z) (n i : Z) : list Z :=
  take_while (fun c => negb (c =? NUL)) (sub_string l i (n - i)).

Lemma tail_end l n i : n <= i -> tail l n i = [].
Proof. intros. unfold tail. by rewrite sub_string_nil by lia. Qed.

Lemma tail_cons l n i c :
  0 <= i < n -> zlookup i l = Some c ->
  tail l n i = if c =? NUL then [] else c :: tail l n (i + 1).
Proof.
  intros Hi Hc. unfold tail. rewrite (sub_string_cons _ _ _ c) by (done || lia). cbn.
  rewrite Z.sub_add_distr. by destruct (c =? NUL).
Qed.

Lemma namecmp_loop n1 l1 n2 l2 k i s :
  0 <= i -> i + Z.of_nat k = Z.min n1 n2 ->
  n1 <= Z.of_nat (length l1) -> n2 <= Z.of_nat (length l2) ->
  wp (for_from k i (namecmp_step l1 l2)) (fun r s' => s' = s /\
    match r with
    | Some res => res = cmp_int (lex (tail l1 n1 i) (tail l2 n2 i))
    | None => lex (tail l1 n1 i) (tail l2 n2 i) =
              lex (tail l1 n1 (Z.min n1 n2)) (tail l2 n2 (Z.min n1 n2))
    end) s.
Proof.
  intros Hi Hk H1 H2. revert i Hi Hk. induction k as [|k IH]; intros i Hi Hk; cbn [for_from].
  { apply wp_ret. split; [done|]. by replace i with (Z.min n1 n2) by lia. }
  destruct (zlookup_lt i l1 ltac:(lia)) as [c1 Hc1]. destruct (zlookup_lt i l2 ltac:(lia)) as [c2 Hc2].
  rewrite (tail_cons l1 n1 i c1), (tail_cons l2 n2 i c2) by (done || lia).
  unfold namecmp_step at 1. wp_pure. eapply wp_char_at; [done|].
  wp_pure. eapply wp_char_at; [done|].
  destruct (c1 =? NUL) eqn:E1, (c2 =? NUL) eqn:E2; bool_to_prop;
    cbn [negb andb]; rewrite ?andb_false_r, ?andb_true_r; [by wp_pure|by wp_pure| |].
  { rewrite (proj2 (Z.eqb_neq c1 c2)) by congruence. by wp_pure. }
  cbn [lex]. destruct (Z.compare_spec c1 c2) as [->|Hlt|Hgt].
  - rewrite Z.eqb_refl. wp_pure. apply IH; lia.
  - rewrite (proj2 (Z.eqb_neq _ _)), (proj2 (Z.ltb_lt _ _)) by lia. by wp_pure.
  - rewrite (proj2 (Z.eqb_neq _ _)), (proj2 (Z.ltb_ge _ _)) by lia. by wp_pure.
Qed.

Lemma tail_read l n i s (Q : bool -> S -> Prop) :
  0 <= i < n -> n <= Z.of_nat (length l) ->
  Q (match tail l n i with [] => false | _ => true end) s ->
  wp (let! c := char_at l i in ret (negb (c =? NUL))) Q s.
Proof.
  intros Hi Hn HQ. destruct (zlookup_lt i l ltac:(lia)) as [c Hc].
  rewrite (tail_cons l n i c) in HQ by done.
  wp_pure. eapply wp_char_at; [done|]. wp_pure. by destruct (c =? NUL).
Qed.

(** [namecmp] is the lexicographic comparison of the two names. *)
Lemma namecmp_spec n1 l1 n2 l2 s :
  0 <= n1 <= Z.of_nat (length l1) -> 0 <= n2 <= Z.of_nat (length l2) ->
  namecmp l1 n1 l2 n2 s = Ret (cmp_int (lex (cstr n1 l1) (cstr n2 l2))) s.
Proof.
  intros H1 H2.
  assert (Hw : wp (namecmp l1 n1 l2 n2) (fun r s' => s' = s /\
    r = cmp_int (lex (cstr n1 l1) (cstr n2 l2))) s).
  { replace (cstr n1 l1) with (tail l1 n1 0) by (unfold tail, cstr; by rewrite Z.sub_0_r).
    replace (cstr n2 l2) with (tail l2 n2 0) by (unfold tail, cstr; by rewrite Z.sub_0_r).
    unfold namecmp.
    replace (if n1 <? n2 then n1 else n2) with (Z.min n1 n2) by (case_bool; lia).
    apply wp_bind. unfold for_loop. eapply wp_mono; [apply (namecmp_loop n1 l1 n2 l2); lia|].
    intros [res|] s' [-> Hr]; [by apply wp_ret|]. rewrite Hr.
    wp_pure. destruct (Z.lt_trichotomy n1 n2) as [Hlt|[->|Hgt]].
    - rewrite (proj2 (Z.ltb_lt _ _)) by lia. rewrite Z.min_l by lia.
      rewrite (tail_end l1 n1 n1) by lia. apply (tail_read l2 n2 n1); [lia..|].
      destruct (tail l2 n2 n1); [|by wp_pure]. rewrite (proj2 (Z.ltb_ge _ _)) by lia. by wp_pure.
    - rewrite Z.ltb_irrefl, Z.min_id, !tail_end by lia. by wp_pure.
    - rewrite (proj2 (Z.ltb_ge n1 n2)) by lia. wp_pure.
      rewrite (proj2 (Z.ltb_lt n2 n1)), Z.min_r by lia.
      rewrite (tail_end l2 n2 n2) by lia. apply (tail_read l1 n1 n2); [lia..|].
      destruct (tail l1 n1 n2); by wp_pure. }
  unfold wp in Hw. destruct (namecmp _ _ _ _ _); [|done]. destruct Hw as [-> ->]. done.
Qed.
End names.

(** * Path components *)

Definition is_slash (c : Z) : bool := c =? slash.
Definition not_slash (c : Z) : bool := negb (c =? slash).

(** The text of a path. *)
Definition text (p : path) : list Z := sub_string (p_str p) (p_off p) (p_len p).

(** A path whose characters can be read. *)
Record path_ok (p : path) : Prop := {
  po_off : 0 <= p_off p;
  po_len : 0 <= p_len p < 2 ^ 31;
  po_in : p_off p + p_len p <= Z.of_nat (length (p_str p));
}.

(** The maximal runs of characters other than slashes: [cur] is the run that
    is being read. *)
Fixpoint components_from (cur t : list Z) : list (list Z) :=
  match t with
  | [] => match cur with [] => [] | _ => [cur] end
  | c :: t =>
      if is_slash c then
        match cur with
        | [] => components_from [] t
        | _ => cur :: components_from [] t
        end
      else components_from (cur ++ [c]) t
  end.
Definition components (t : list Z) : list (list Z) := components_from [] t.

Lemma components_skip t : components (drop_while is_slash t) = components t.
Proof.
  unfold components. induction t as [|c t IH]; cbn; [done|].
  destruct (is_slash c) eqn:E; [done|]. cbn. by rewrite E.
Qed.

Lemma components_run cur t :
  components_from cur t =
  match cur ++ take_while not_slash t with
  | [] => components (drop_while not_slash t)
  | _ as w => w :: components (drop_while not_slash t)
  end.
Proof.
  revert cur. induction t as [|c t IH]; intros cur; cbn.
  - rewrite app_nil_r. by destruct cur.
  - unfold not_slash, is_slash in *. destruct (c =? slash) eqn:E; cbn.
    + rewrite app_nil_r. unfold components. cbn. unfold is_slash. rewrite E. by destruct cur.
    + rewrite IH, <-app_assoc. done.
Qed.

(** The first component, and the rest of the text. *)
Lemma components_step t :
  components t =
  match take_while not_slash (drop_while is_slash t) with
  | [] => []
  | _ as w => w :: components (drop_while not_slash (drop_while is_slash t))
  end.
Proof.
  rewrite <-components_skip. unfold components at 1. rewrite components_run. cbn [app].
  destruct (take_while _ _) eqn:E; [|done].
  destruct (drop_while is_slash t) as [|c r] eqn:E2; [done|].
  apply drop_while_head in E2. cbn in E. unfold not_slash, is_slash in *. by rewrite E2 in E.
Qed.

Section paths.
Context {S : Type}.
Implicit Types s : S.

Lemma next_component_spec p s :
  path_ok p ->
  exists q, get_next_component p s = Ret q s /\ path_ok q /\ p_str q = p_str p /\
    p_off p <= p_off q /\ p_off q + p_len q <= p_off p + p_len p /\
    text q = take_while not_slash (drop_while is_slash (text p)) /\
    sub_string (p_str p) (p_off q + p_len q) (p_off p + p_len p - (p_off q + p_len q)) =
      drop_while not_slash (drop_while is_slash (text p)).
Proof.
  intros [Ho Hl Hi]. unfold get_next_component.
  set (k := Z.of_nat (length (take_while is_slash (text p)))).
  assert (Hk : 0 <= k <= p_len p).
  { pose proof (take_while_length is_slash (text p)).
    pose proof (sub_string_length (p_str p) (p_off p) (p_len p) Ho ltac:(lia) Hi).
    unfold k, text in *. lia. }
  assert (Hd : drop_while is_slash (text p) = sub_string (p_str p) (p_off p + k) (p_len p - k)).
  { rewrite drop_while_drop. replace (length _) with (Z.to_nat k) by (unfold k; lia).
    unfold text. apply sub_string_drop; lia. }
  rewrite Hd. set (t2 := sub_string _ (p_off p + k) _).
  set (j := Z.of_nat (length (take_while not_slash t2))).
  assert (Hj : 0 <= j <= p_len p - k).
  { pose proof (take_while_length not_slash t2).
    pose proof (sub_string_length (p_str p) (p_off p + k) (p_len p - k) ltac:(lia) ltac:(lia) ltac:(lia)).
    unfold j, t2 in *. lia. }
  exists (Path (p_str p) (p_off p + k) j). unfold bind.
  rewrite (scan_spec (p_str p) is_slash (p_off p) (p_len p)); [|lia..| | |lia].
  - change (Z.of_nat _) with k. rewrite wrap64_small by lia.
    rewrite (scan_spec (p_str p) not_slash (p_off p + k) (p_len p - k)); [|lia..| | |lia].
    + split; [done|]. split; [split; cbn; lia|]. cbn [p_str p_off p_len].
      split_and!; [done|lia|lia| |].
      * unfold text. cbn [p_str p_off p_len]. rewrite take_while_take.
        replace (length (take_while _ _)) with (Z.to_nat j) by (unfold j; lia).
        unfold t2. symmetry. apply sub_string_take. lia.
      * rewrite drop_while_drop. replace (length (take_while _ _)) with (Z.to_nat j) by (unfold j; lia).
        unfold t2. rewrite sub_string_drop by lia. f_equal; lia.
    + intros i c Hic Hc. rewrite (proj2 (Z.ltb_lt _ _)) by lia. unfold bind.
      by rewrite (char_at_eq _ _ c).
    + by rewrite Z.ltb_irrefl.
  - intros i c Hic Hc. rewrite (proj2 (Z.ltb_lt _ _)) by lia. unfold bind, path_char.
    by rewrite (char_at_eq _ _ c).
  - by rewrite Z.ltb_irrefl.
Qed.

(** [get_component_advance] takes the first component off the path. *)
Lemma component_advance_spec p s :
  path_ok p ->
  exists q p', get_component_advance p s = Ret (q, p') s /\ path_ok q /\ path_ok p' /\
    p_str q = p_str p /\ p_str p' = p_str p /\ p_len p' <= p_len p /\
    text q = take_while not_slash (drop_while is_slash (text p)) /\
    text p' = drop_while not_slash (drop_while is_slash (text p)).
Proof.
  intros Hp. destruct (next_component_spec p s Hp) as (q & Hrun & Hq & Hs & H1 & H2 & Ht & Hr).
  destruct Hp as [Ho Hl Hi]. pose proof Hq as [Hqo Hql Hqi].
  exists q, (Path (p_str p) (p_off q + p_len q) (p_off p + p_len p - (p_off q + p_len q))).
  unfold get_component_advance, bind. rewrite Hrun, wrap64_small by lia.
  split_and!; try done; [split; cbn; lia|cbn; lia].
Qed.

(** The loops over [get_component_advance] visit [components (text p)]: the
    component is empty exactly at the end. *)
Lemma advance_components p q p' :
  text q = take_while not_slash (drop_while is_slash (text p)) ->
  text p' = drop_while not_slash (drop_while is_slash (text p)) ->
  components (text p) = match text q with [] => [] | _ as w => w :: components (text p') end.
Proof. intros -> ->. apply components_step. Qed.

Lemma text_nil p : path_ok p -> text p = [] <-> p_len p = 0.
Proof.
  intros [Ho Hl Hi]. pose proof (sub_string_length _ _ _ Ho (proj1 Hl) Hi) as H. unfold text.
  split; [intros Ht; rewrite Ht in H; cbn in H; lia|intros ->; by apply sub_string_nil].
Qed.
(** The position of the last slash of a text, if it has one. *)
Fixpoint last_slash (i : Z) (t : list Z) (acc : Z) : Z :=
  match t with
  | [] => acc
  | c :: t => last_slash (i + 1) t (if is_slash c then i else acc)
  end.

Lemma last_slash_app i t1 t2 acc :
  last_slash i (t1 ++ t2) acc = last_slash (i + Z.of_nat (length t1)) t2 (last_slash i t1 acc).
Proof.
  revert i acc. induction t1 as [|c t1 IH]; intros i acc; cbn; [by rewrite Z.add_0_r|].
  rewrite IH. f_equal. lia.
Qed.

Lemma last_slash_none i t acc : Forall (fun c => is_slash c = false) t -> last_slash i t acc = acc.
Proof.
  intros H. revert i. induction H as [|c t Hc H IH]; intros i; cbn; [done|]. by rewrite Hc.
Qed.

(** A text without a trailing slash splits into what is in front of the last
    slash and the name behind it. *)
Lemma split_last t :
  exists d f, Forall (fun c => is_slash c = false) f /\
    (t = d ++ slash :: f \/ d = [] /\ t = f).
Proof.
  induction t as [|c t (d & f & Hf & Ht)]; [exists [], []; by auto|].
  destruct Ht as [->|[-> ->]].
  - exists (c :: d), f. split; [done|by left].
  - destruct (is_slash c) eqn:E.
    + exists [], f. split; [done|left]. unfold is_slash in E. by apply Z.eqb_eq in E as ->.
    + exists [], (c :: f). split; [by constructor|by right].
Qed.

Lemma last_slash_loop_spec p s k i acc :
  path_ok p -> 0 <= i -> i + Z.of_nat k = p_len p ->
  last_slash_loop k p i acc s =
  Ret (last_slash i (sub_string (p_str p) (p_off p + i) (p_len p - i)) acc) s.
Proof.
  intros [Ho Hl Hi]. revert i acc. induction k as [|k IH]; intros i acc Hi0 Hk; cbn [last_slash_loop].
  { by rewrite sub_string_nil by lia. }
  destruct (zlookup_lt (p_off p + i) (p_str p) ltac:(lia)) as [c Hc].
  unfold bind, path_char. rewrite (char_at_eq _ _ c) by done.
  rewrite IH by lia.
  rewrite (sub_string_cons (p_str p) (p_off p + i) (p_len p - i) c) by (done || lia). cbn [last_slash].
  rewrite int32_small by lia. unfold is_slash. by rewrite Z.sub_add_distr, Z.add_assoc.
Qed.

Lemma get_directories_spec p s :
  path_ok p ->
  get_directories p s =
    Ret (Path (p_str p) (p_off p) (Z.max 0 (last_slash 0 (text p) (-1)))) s.
Proof.
  intros Hp. unfold get_directories, bind.
  rewrite last_slash_loop_spec by (destruct Hp; done || lia).
  rewrite Z.add_0_r, Z.sub_0_r. fold (text p). unfold ret. do 2 f_equal.
  rewrite Z.gtb_ltb. case_bool; lia.
Qed.

Lemma text_char p i :
  path_ok p -> 0 <= i < p_len p -> zlookup (p_off p + i) (p_str p) = zlookup i (text p).
Proof.
  intros [Ho Hl Hi] Hr. unfold text, sub_string, zlookup.
  rewrite !(proj2 (Z.leb_le _ _)) by lia. rewrite lookup_take_lt by lia.
  rewrite lookup_drop. f_equal. lia.
Qed.

(** Scanning backwards over the characters that satisfy [f]. *)
Lemma scan_back_spec p s (f : Z -> bool) i k :
  path_ok p -> 0 <= i < p_len p -> i < Z.of_nat k ->
  exists j, scan_back k (fun i => let! c := path_char p i in ret (f c)) i s = Ret j s /\
    0 <= j <= i /\
    (forall x c, j < x <= i -> zlookup x (text p) = Some c -> f c = true) /\
    (0 < j -> exists c, zlookup j (text p) = Some c /\ f c = false).
Proof.
  intros Hp. revert i. induction k as [|k IH]; intros i Hi Hk; [lia|]. cbn [scan_back].
  rewrite Z.gtb_ltb. destruct (0 <? i) eqn:E; bool_to_prop.
  2: { exists i. split; [done|]. split; [lia|]. split; lia. }
  assert (Hsl : Z.of_nat (length (text p)) = p_len p)
    by (destruct Hp; by apply sub_string_length; lia).
  destruct (zlookup_lt i (text p) ltac:(lia)) as [c Hc].
  unfold bind at 1, path_char at 1. unfold bind at 1.
  rewrite (char_at_eq _ _ c) by (by rewrite text_char). cbn.
  destruct (f c) eqn:Ef.
  - destruct (IH (i - 1) ltac:(lia) ltac:(lia)) as (j & Hrun & Hj & Hall & Hstop).
    exists j. rewrite Hrun. split_and!; [done|lia..| |done].
    intros x c' Hx Hc'. destruct (decide (x = i)) as [->|]; [congruence|]. by apply (Hall x); [lia|].
  - exists i. split; [done|]. split; [lia|]. split; [lia|]. eauto.
Qed.
(** Where the last slash is, in terms of the split of the text. *)
Lemma split_positions d f x c :
  Forall (fun c => is_slash c = false) f ->
  zlookup x (d ++ slash :: f) = Some c -> Z.of_nat (length d) <= x ->
  (x = Z.of_nat (length d) /\ is_slash c = true) \/ (Z.of_nat (length d) < x /\ is_slash c = false).
Proof.
  intros Hf Hc Hx. unfold zlookup in Hc. rewrite (proj2 (Z.leb_le _ _)) in Hc by lia.
  rewrite lookup_app_r in Hc by lia. destruct (Z.to_nat x - length d)%nat as [|k] eqn:E.
  - left. split; [lia|]. cbn in Hc. by injection Hc as <-.
  - right. split; [lia|]. cbn in Hc. by apply (Forall_lookup_1 _ _ _ _ Hf Hc).
Qed.

Lemma get_file_start p s k :
  path_ok p -> 0 < p_len p -> p_len p <= Z.of_nat k ->
  (forall c, zlookup (p_len p - 1) (text p) = Some c -> is_slash c = false) ->
  scan_back k (fun i => let! c := path_char p i in ret (c =? slash)) (p_len p - 1) s =
  Ret (p_len p - 1) s.
Proof.
  intros Hp Hl Hk Hend.
  destruct (scan_back_spec p s is_slash (p_len p - 1) k Hp ltac:(lia) ltac:(lia))
    as (j & Hrun & Hj & Hall & _).
  unfold is_slash in Hrun. rewrite Hrun. f_equal.
  destruct (decide (j = p_len p - 1)); [done|exfalso].
  assert (Hsl : Z.of_nat (length (text p)) = p_len p)
    by (destruct Hp; by apply sub_string_length; lia).
  destruct (zlookup_lt (p_len p - 1) (text p) ltac:(lia)) as [c Hc].
  specialize (Hall _ c ltac:(split; [|reflexivity]; lia) Hc). by rewrite (Hend c Hc) in Hall.
Qed.

Lemma text_drop p n :
  path_ok p -> 0 <= n <= p_len p ->
  text (Path (p_str p) (p_off p + n) (p_len p - n)) = drop (Z.to_nat n) (text p).
Proof. intros [Ho Hl Hi] Hn. unfold text. cbn. symmetry. apply sub_string_drop; lia. Qed.

(** The backward scan stops at the last slash. *)
Lemma name_start t d f j :
  f <> [] -> Forall (fun c => is_slash c = false) f ->
  (t = d ++ slash :: f \/ d = [] /\ t = f) -> 0 <= j < Z.of_nat (length t) ->
  (forall x c, j < x <= Z.of_nat (length t) - 1 -> zlookup x t = Some c -> not_slash c = true) ->
  (0 < j -> exists c, zlookup j t = Some c /\ not_slash c = false) ->
  exists n c, 0 <= n < Z.of_nat (length t) /\ drop (Z.to_nat n) t = f /\
    zlookup j t = Some c /\ n = if is_slash c then j + 1 else j.
Proof.
  intros Hne Hf Ht Hj Hall Hstop. destruct (zlookup_lt j t ltac:(lia)) as [c Hc].
  assert (Hfl : 0 < Z.of_nat (length f)) by (destruct f; [done|cbn; lia]).
  destruct Ht as [Ht|[-> Ht]].
  - assert (Hsl : Z.of_nat (length t) = Z.of_nat (length d) + 1 + Z.of_nat (length f))
      by (rewrite Ht, length_app; cbn; lia).
    assert (Hjd : j = Z.of_nat (length d)).
    { destruct (Z.lt_trichotomy j (Z.of_nat (length d))) as [Hlt|[?|Hgt]]; [|done|].
      - destruct (zlookup_lt (Z.of_nat (length d)) t ltac:(lia)) as [c' Hc'].
        specialize (Hall (Z.of_nat (length d)) c' ltac:(lia) Hc'). rewrite Ht in Hc'.
        destruct (split_positions d f _ c' Hf Hc') as [[_ Hs]|[? _]]; [lia| |lia].
        unfold not_slash, is_slash in *. by rewrite Hs in Hall.
      - destruct (Hstop ltac:(lia)) as (c' & Hc' & Hns). rewrite Ht in Hc'.
        destruct (split_positions d f _ c' Hf Hc') as [[? _]|[_ Hs]]; [lia|lia|].
        unfold not_slash, is_slash in *. by rewrite Hs in Hns. }
    exists (j + 1), c. split; [lia|]. split_and!; [|done|].
    + rewrite Ht, drop_app_ge by lia. by replace (Z.to_nat (j + 1) - length d)%nat with 1%nat by lia.
    + rewrite Ht in Hc. by destruct (split_positions d f _ c Hf Hc) as [[_ ->]|[? _]]; [lia| |lia].
  - assert (Hcs : is_slash c = false).
    { rewrite Ht in Hc. unfold zlookup in Hc. destruct (0 <=? _); [|done].
      by apply (Forall_lookup_1 _ _ _ _ Hf Hc). }
    assert (j = 0) as ->.
    { destruct (decide (0 < j)) as [H|]; [|lia]. destruct (Hstop H) as (c' & Hc' & Hns).
      rewrite Hc in Hc'. injection Hc' as <-. unfold not_slash, is_slash in *. by rewrite Hcs in Hns. }
    exists 0, c. rewrite Hcs. split_and!; try done; lia.
Qed.

(** A path that does not end in a slash splits into the text in front of its
    last slash and the name behind it. *)
Lemma split_path_spec p s f d :
  path_ok p -> f <> [] -> Forall (fun c => is_slash c = false) f ->
  (text p = d ++ slash :: f \/ d = [] /\ text p = f) ->
  exists pd pf, get_directories p s = Ret pd s /\ get_file p s = Ret pf s /\
    path_ok pd /\ path_ok pf /\ text pd = d /\ text pf = f.
Proof.
  intros Hp Hne Hf Ht. pose proof Hp as [Ho Hl Hi].
  assert (Hsl : Z.of_nat (length (text p)) = p_len p) by (apply sub_string_length; lia).
  assert (Hfl : 0 < Z.of_nat (length f)) by (destruct f; [done|cbn; lia]).
  assert (Hpos : 0 < p_len p).
  { destruct Ht as [Ht|[_ Ht]]; rewrite Ht in Hsl; rewrite ?length_app in Hsl; cbn in Hsl; lia. }
  assert (Hls : last_slash 0 (text p) (-1) = if decide (text p = f) then -1 else Z.of_nat (length d)).
  { destruct Ht as [Ht|[-> Ht]].
    - rewrite decide_False by (rewrite Ht; intros H%(f_equal length); rewrite length_app in H; cbn in H; lia).
      rewrite Ht, last_slash_app. cbn [last_slash]. rewrite last_slash_none by done. cbn. lia.
    - rewrite decide_True, Ht by done. by apply last_slash_none. }
  assert (Hend : forall c, zlookup (p_len p - 1) (text p) = Some c -> is_slash c = false).
  { intros c Hc. destruct Ht as [Ht|[-> Ht]].
    - rewrite Ht in Hc, Hsl. rewrite length_app in Hsl. cbn in Hsl.
      destruct (split_positions d f _ c Hf Hc) as [[? _]|[_ ?]]; [lia|lia|done].
    - rewrite Ht in Hc. unfold zlookup in Hc. destruct (0 <=? _); [|done].
      by apply (Forall_lookup_1 _ _ _ _ Hf Hc). }
  destruct (scan_back_spec p s not_slash (p_len p - 1) (Datatypes.S (Z.to_nat (p_len p))) Hp
    ltac:(lia) ltac:(lia)) as (j & Hrun & Hj & Hall & Hstop).
  rewrite <-Hsl in Hj, Hall.
  destruct (name_start (text p) d f j) as (n & c & Hn & Hdrop & Hc & Hnc); [done..|lia|done|done|].
  rewrite Hsl in Hj, Hn.
  exists (Path (p_str p) (p_off p) (Z.of_nat (length d))), (Path (p_str p) (p_off p + n) (p_len p - n)).
  assert (Hdl : Z.of_nat (length d) <= p_len p).
  { destruct Ht as [Ht|[-> _]]; [|cbn; lia]. rewrite Ht in Hsl. rewrite length_app in Hsl. lia. }
  split_and!.
  - rewrite get_directories_spec by done. do 2 f_equal. rewrite Hls.
    destruct (decide _) as [E|]; [|lia]. destruct Ht as [Ht|[-> _]]; [|done].
    rewrite E in Ht. apply (f_equal length) in Ht. rewrite length_app in Ht. cbn in Ht. lia.
  - unfold get_file. rewrite wrap64_small by lia. unfold bind at 1.
    rewrite get_file_start by (done || lia). unfold bind at 1. unfold not_slash in Hrun.
    rewrite Hrun. unfold bind at 1, path_char. rewrite (char_at_eq _ _ c) by (by rewrite text_char by (done || lia)).
    unfold is_slash in Hnc. rewrite <-Hnc. by rewrite wrap64_small by lia.
  - split; cbn; lia.
  - split; cbn; lia.
  - unfold text. cbn. destruct Ht as [Ht|[-> Ht]].
    + rewrite <-(sub_string_take _ _ (p_len p)) by lia. fold (text p). rewrite Ht.
      by rewrite Nat2Z.id, take_app_length.
    + done.
  - by rewrite text_drop by (done || lia).
Qed.
End paths.
