(* ===== verification/FsStore.v ===== *)
(** The memory of the file system (src/file_system/file_system.h): nodes,
    chunks and byte buffers by address, the table of open files, and the
    operations that read, write, allocate and release them. *)
From S2P Require Import Prelude Heap Alloc System RuntimeIO Paths.

(** * Data *)

Definition FS_NAME_LENGTH : Z := 64.
Definition FS_CHUNK_SIZE : Z := 4096.
Definition FS_MAX_FILES : Z := 1024.
Definition STDIN_FILENO : Z := 0.
Definition STDOUT_FILENO : Z := 1.
Definition STDERR_FILENO : Z := 2.
Definition USE_OFFSET : Z := 1.
Definition MOVE_OFFSET : Z := 2.

Inductive file_type := FILE | DIRECTORY | DEVICE.
Definition is_file (t : file_type) : bool := match t with FILE => true | _ => false end.
Definition is_directory (t : file_type) : bool := match t with DIRECTORY => true | _ => false end.
Definition is_device (t : file_type) : bool := match t with DEVICE => true | _ => false end.

Record file_chunk := FileChunk { data : Z; capacity : Z; used : Z; next_chunk : Z }.

(** [content] is the union of the struct: the first chunk of a file, the first
    child of a directory, or the device. *)
Record dfile := DFile {
  name : list Z; next : Z; parent : Z; ftype : file_type; content : Z;
  hard_links : Z; open_descripotors : Z; mode : Z }.

Record open_file := OpenFile {
  of_file : Z; current_chunk : Z; offset : Z; open_flags : Z }.

(** [sizeof(D_File)] (64 bytes of name, three pointers, the type, the union,
    two short counters, the mode) and [sizeof(FileChunk)]. *)
Definition sizeof_dfile : Z := 104.
Definition sizeof_chunk : Z := 32.
Definition sizeof_pointer : Z := 8.

(** The static objects: they are not in the heap. *)
Definition fs_root : Z := -1.
Definition stdio_folder : Z := -2.
Definition device_folder : Z := -3.
Definition urandom_file : Z := -4.
Definition urandom_device : Z := -5.

(** The state: the runtime, the nodes and chunks by address, the bytes of
    buffers by address, the sizes of allocated buffers, arrays of pointers, the
    open files, the random number generator of the C library, the variables of
    the caller of [fs_initialize], and the number of calls of the allocator so
    far. *)
Record fs (M : Type) := Fs {
  fs_rt : runtime M;
  files : gmap Z dfile;
  chunks : gmap Z file_chunk;
  bytes : gmap Z Z;
  extents : gmap Z Z;
  pointers : gmap Z (list Z);
  open_files : list open_file;
  rng_seed : Z;
  rng_calls : Z;
  argc : Z;
  argv : Z;
  environ : Z;
  requests : nat;
}.
Arguments Fs {M}. Arguments fs_rt {M}. Arguments files {M}. Arguments chunks {M}.
Arguments bytes {M}. Arguments extents {M}. Arguments pointers {M}.
Arguments open_files {M}. Arguments rng_seed {M}. Arguments rng_calls {M}.
Arguments argc {M}. Arguments argv {M}. Arguments environ {M}. Arguments requests {M}.

(** What the code above the runtime takes from its surroundings: what the memory
    that an allocation returns happens to hold (words that the allocator left
    there, data of earlier owners), for every call of the allocator its own; the
    generator behind [random] of the C library (from the seed and the number of the
    call); and the conversion to [char], which is signed on some platforms. *)
Class Machine := {
  (** Byte [i] of the memory that call [k] returns. *)
  found : nat -> Z -> Z;
  junk_set : io_set;
  junk_buf : io_buffer;
  random_value : Z -> Z -> Z;
  to_char : Z -> Z;
}.

(** ** Memory as it is found

    The [n] bytes from [i] on as a number, the lowest byte first, and the objects
    as the compiler lays them out. *)
Definition found_number {HM : Machine} (k : nat) (i n : Z) : Z :=
  foldr (fun j v => found k (i + j) + 256 * v) 0 (seqZ 0 n).
Definition found_word {HM : Machine} (k : nat) (i : Z) : Z := found_number k i 8.

Definition found_file {HM : Machine} (k : nat) : dfile :=
  DFile (map (found k) (seqZ 0 FS_NAME_LENGTH)) (found_word k 64) (found_word k 72)
    (match found_number k 80 4 with 0 => FILE | 1 => DIRECTORY | _ => DEVICE end)
    (found_word k 88) (found_number k 96 2) (found_number k 98 2) (found_number k 100 4).
Definition found_chunk {HM : Machine} (k : nat) : file_chunk :=
  FileChunk (found_word k 0) (found_word k 8) (found_word k 16) (found_word k 24).
Definition found_pointers {HM : Machine} (k : nat) (n : Z) : list Z :=
  map (fun i => found_word k (8 * i)) (seqZ 0 n).

Section store.
Context {M : Type} {HS : System M} {HM : Machine}.
Implicit Types s : fs M.

(** ** Fields *)

Definition with_rt r s : fs M :=
  Fs r (files s) (chunks s) (bytes s) (extents s) (pointers s) (open_files s)
    (rng_seed s) (rng_calls s) (argc s) (argv s) (environ s) (requests s).
Definition with_files f s : fs M :=
  Fs (fs_rt s) f (chunks s) (bytes s) (extents s) (pointers s) (open_files s)
    (rng_seed s) (rng_calls s) (argc s) (argv s) (environ s) (requests s).
Definition with_chunks c s : fs M :=
  Fs (fs_rt s) (files s) c (bytes s) (extents s) (pointers s) (open_files s)
    (rng_seed s) (rng_calls s) (argc s) (argv s) (environ s) (requests s).
Definition with_bytes b s : fs M :=
  Fs (fs_rt s) (files s) (chunks s) b (extents s) (pointers s) (open_files s)
    (rng_seed s) (rng_calls s) (argc s) (argv s) (environ s) (requests s).
Definition with_extents e s : fs M :=
  Fs (fs_rt s) (files s) (chunks s) (bytes s) e (pointers s) (open_files s)
    (rng_seed s) (rng_calls s) (argc s) (argv s) (environ s) (requests s).
Definition with_pointers p s : fs M :=
  Fs (fs_rt s) (files s) (chunks s) (bytes s) (extents s) p (open_files s)
    (rng_seed s) (rng_calls s) (argc s) (argv s) (environ s) (requests s).
Definition with_open_files o s : fs M :=
  Fs (fs_rt s) (files s) (chunks s) (bytes s) (extents s) (pointers s) o
    (rng_seed s) (rng_calls s) (argc s) (argv s) (environ s) (requests s).
Definition with_rng seed calls s : fs M :=
  Fs (fs_rt s) (files s) (chunks s) (bytes s) (extents s) (pointers s) (open_files s)
    seed calls (argc s) (argv s) (environ s) (requests s).
Definition with_args c v e s : fs M :=
  Fs (fs_rt s) (files s) (chunks s) (bytes s) (extents s) (pointers s) (open_files s)
    (rng_seed s) (rng_calls s) c v e (requests s).
Definition count_request s : fs M :=
  Fs (fs_rt s) (files s) (chunks s) (bytes s) (extents s) (pointers s) (open_files s)
    (rng_seed s) (rng_calls s) (argc s) (argv s) (environ s) (S (requests s)).

Definition on_rt {A} (c : prog (runtime M) A) : prog (fs M) A := zoom fs_rt with_rt c.

(** * Reading and writing objects *)

Definition deref {A} (objects : fs M -> gmap Z A) (p : Z) : prog (fs M) A := fun s =>
  if p =? NULL then Fault NullDeref else
  match objects s !! p with Some a => Ret a s | None => Fault OutOfBounds end.

Definition get_file_node : Z -> prog (fs M) dfile := deref files.
Definition get_chunk : Z -> prog (fs M) file_chunk := deref chunks.

Definition update_file (p : Z) (f : dfile -> dfile) : prog (fs M) unit :=
  let! node := get_file_node p in
  modify (fun s => with_files (<[p := f node]> (files s)) s).
Definition update_chunk (p : Z) (f : file_chunk -> file_chunk) : prog (fs M) unit :=
  let! c := get_chunk p in
  modify (fun s => with_chunks (<[p := f c]> (chunks s)) s).

Definition load_byte : Z -> prog (fs M) Z := deref bytes.
Definition store_byte (a b : Z) : prog (fs M) unit :=
  let! _ := load_byte a in
  modify (fun s => with_bytes (<[a := b]> (bytes s)) s).

(** [p[i] = b]: the null pointer has no elements. *)
Definition store_at (p i b : Z) : prog (fs M) unit :=
  if p =? NULL then fail NullDeref else store_byte (p + i) b.

(** [memcpy], and the copy of a buffer into or out of memory. *)
Definition memcpy (dst src n : Z) : prog (fs M) unit :=
  let! _ := for_loop (R := unit) n (fun i =>
    let! b := load_byte (src + i) in
    let! _ := store_byte (dst + i) b in ret None) in ret tt.
Fixpoint store_bytes (a : Z) (l : list Z) : prog (fs M) unit :=
  match l with
  | [] => ret tt
  | b :: l => let! _ := store_byte a b in store_bytes (a + 1) l
  end.
Fixpoint load_bytes (a : Z) (n : nat) : prog (fs M) (list Z) :=
  match n with
  | O => ret []
  | Datatypes.S n =>
      let! b := load_byte a in let! l := load_bytes (a + 1) n in ret (b :: l)
  end.

Definition store_pointer (p i v : Z) : prog (fs M) unit :=
  let! l := deref pointers p in
  match zlookup i l with
  | Some _ => modify (fun s => with_pointers (<[p := zinsert i v l]> (pointers s)) s)
  | None => fail OutOfBounds
  end.

(** * Open files *)

Definition get_open (fd : Z) : prog (fs M) open_file := fun s =>
  match zlookup fd (open_files s) with Some o => Ret o s | None => Fault OutOfBounds end.
Definition set_open (fd : Z) (o : open_file) : prog (fs M) unit :=
  let! _ := get_open fd in
  modify (fun s => with_open_files (zinsert fd o (open_files s)) s).

(** * Allocation

    [dandelion_alloc] for an object of each kind.  A request for raw bytes gets
    whole words from the allocator.  The object holds what was in that memory
    until it is written. *)

Definition fs_alloc (size align : Z) : prog (fs M) Z :=
  let! p := on_rt (on_sys (sys_alloc size align)) in
  let! _ := modify count_request in ret p.

Definition alloc_file : prog (fs M) Z :=
  let! p := fs_alloc sizeof_dfile 8 in
  let! _ := if p =? NULL then ret tt
            else modify (fun s => with_files (<[p := found_file (requests s)]> (files s)) s) in
  ret p.
Definition alloc_chunk : prog (fs M) Z :=
  let! p := fs_alloc sizeof_chunk 8 in
  let! _ := if p =? NULL then ret tt
            else modify (fun s => with_chunks (<[p := found_chunk (requests s)]> (chunks s)) s) in
  ret p.

(** Memory from [a] on, byte [i] of call [k] first. *)
Fixpoint fill_bytes (k : nat) (i a : Z) (n : nat) (m : gmap Z Z) : gmap Z Z :=
  match n with O => m | Datatypes.S n => <[a := found k i]> (fill_bytes k (i + 1) (a + 1) n m) end.
Fixpoint clear_bytes (a : Z) (n : nat) (m : gmap Z Z) : gmap Z Z :=
  match n with O => m | Datatypes.S n => delete a (clear_bytes (a + 1) n m) end.

Definition alloc_raw (size align : Z) : prog (fs M) Z :=
  let! p := fs_alloc (wrap64 size) align in
  let n := 8 * local_size_of (wrap64 size) in
  let! _ := if p =? NULL then ret tt
            else modify (fun s => with_extents (<[p := n]> (extents s))
                   (with_bytes (fill_bytes (requests s) 0 p (Z.to_nat n) (bytes s)) s)) in
  ret p.

(** An array of pointers, requested by its size in bytes. *)
Definition alloc_pointers (size : Z) : prog (fs M) Z :=
  let! p := fs_alloc (wrap64 size) sizeof_pointer in
  let n := local_size_of (wrap64 size) in
  let! _ := if p =? NULL then ret tt
            else modify (fun s => with_pointers (<[p := found_pointers (requests s) n]> (pointers s)) s) in
  ret p.

(** The pointers that may be released. *)
Definition allocated s (p : Z) : bool := bool_decide (p ∈ (sys_live (rt_sys (fs_rt s))).*1).

Definition forget (p : Z) s : fs M :=
  with_files (delete p (files s)) (with_chunks (delete p (chunks s))
    (with_pointers (delete p (pointers s)) (with_extents (delete p (extents s))
      (with_bytes (match extents s !! p with
                   | Some n => clear_bytes p (Z.to_nat n) (bytes s)
                   | None => bytes s end) s)))).

(** [dandelion_free]: releasing anything but a live allocation is undefined. *)
Definition fs_free (p : Z) : prog (fs M) unit :=
  let! ok := gets (fun s => allocated s p) in
  if ok then
    let! _ := on_rt (on_sys (sys_free p)) in
    let! _ := modify count_request in modify (forget p)
  else fail InvalidFree.

(** The bound for walks along lists of nodes and chunks: a walk that takes
    more steps than there are objects is in a cycle. *)
Definition file_fuel s : nat := Datatypes.S (size (files s)).
Definition chunk_fuel s : nat := Datatypes.S (size (chunks s)).
End store.
