(* ===== verification/FileSystem.v ===== *)
(** The file system (src/file_system/file_system.c and devices.h): the tree of
    nodes, the content of files, the set-up from the input sets and the
    export of the output sets.  Walks along lists of nodes and chunks carry a
    bound from [file_fuel] and [chunk_fuel]; paths of the platform are read
    from memory in one go. *)
From S2P Require Import Prelude Heap Alloc System RuntimeIO Paths FsStore.

(** * Constants of fs_interface.h *)

Definition EPERM : Z := 1.
Definition ENOENT : Z := 2.
Definition EBADF : Z := 9.
Definition ENOMEM : Z := 12.
Definition EACCES : Z := 13.
Definition EEXIST : Z := 17.
Definition ENOTDIR : Z := 20.
Definition EINVAL : Z := 22.
Definition EMFILE : Z := 24.
Definition EMLINK : Z := 31.
Definition ENOTEMPTY : Z := 39.

Definition S_IXUSR : Z := 64.
Definition S_IWUSR : Z := 128.
Definition S_IRUSR : Z := 256.
Definition S_IRWXU : Z := Z.lor S_IXUSR (Z.lor S_IWUSR S_IRUSR).
Definition S_IFDIR : Z := 16384.
Definition S_IFREG : Z := 32768.

Definition O_RDONLY : Z := 0.
Definition O_WRONLY : Z := 1.
Definition O_RDWR : Z := 2.
Definition O_APPEND : Z := 8.
Definition O_CREAT : Z := 512.
Definition O_TRUNC : Z := 1024.
Definition O_EXCL : Z := 2048.
Definition O_ACCMODE : Z := Z.lor O_RDONLY (Z.lor O_WRONLY O_RDWR).

(** [flags & mask] as a condition. *)
Definition has (flags mask : Z) : bool := negb (Z.land flags mask =? 0).

(** The counters of a node are [unsigned short]. *)
Definition wrap16 (z : Z) : Z := z mod 2 ^ 16.

(** * Fields of a node and of a chunk *)

Definition set_name n f := DFile n (next f) (parent f) (ftype f) (content f) (hard_links f) (open_descripotors f) (mode f).
Definition set_next n f := DFile (name f) n (parent f) (ftype f) (content f) (hard_links f) (open_descripotors f) (mode f).
Definition set_parent p f := DFile (name f) (next f) p (ftype f) (content f) (hard_links f) (open_descripotors f) (mode f).
Definition set_ftype t f := DFile (name f) (next f) (parent f) t (content f) (hard_links f) (open_descripotors f) (mode f).
Definition set_content c f := DFile (name f) (next f) (parent f) (ftype f) c (hard_links f) (open_descripotors f) (mode f).
Definition set_hard_links h f := DFile (name f) (next f) (parent f) (ftype f) (content f) h (open_descripotors f) (mode f).
Definition set_open_descripotors o f := DFile (name f) (next f) (parent f) (ftype f) (content f) (hard_links f) o (mode f).
Definition set_mode m f := DFile (name f) (next f) (parent f) (ftype f) (content f) (hard_links f) (open_descripotors f) m.

Definition set_next_chunk n c := FileChunk (data c) (capacity c) (used c) n.
Definition set_used u c := FileChunk (data c) (capacity c) u (next_chunk c).

(** Assignment to the first bytes of a name; a name longer than the array
    would write behind it. *)
Definition put_name (l : list Z) (f : dfile) : dfile :=
  set_name (l ++ drop (length l) (name f)) f.

(** The first [n] characters of a path, as [memcpy] reads them. *)
Fixpoint path_chars {S} (p : path) (i : Z) (n : nat) : prog S (list Z) :=
  match n with
  | O => ret []
  | Datatypes.S n =>
      let! c := path_char p i in
      let! l := path_chars p (i + 1) n in ret (c :: l)
  end.

Section file_system.
Context {M : Type} {HS : System M} {HM : Machine}.
Implicit Types s : fs M.
Notation prog := (prog (fs M)).

Definition fs_exit (code : Z) : prog unit := on_rt (dandelion_exit junk_buf code).

(** * devices.h *)

Definition urandom_init (seed : Z) : prog unit :=
  modify (with_rng (wrap32 seed) 0).
Definition random : prog Z := fun s =>
  Ret (random_value (rng_seed s) (rng_calls s)) (with_rng (rng_seed s) (rng_calls s + 1) s).

(** The byte of a [long] at position [i], in memory order. *)
Definition byte_of (z i : Z) : Z := to_char (Z.shiftr z (8 * i)).

Definition urandom_read (ptr len : Z) : prog Z :=
  let long_interations := len / 8 in
  let! _ := for_loop (R := unit) long_interations (fun long_index =>
    let! r := random in
    let! _ := for_loop (R := unit) 8 (fun i =>
      let! _ := store_byte (ptr + long_index * 8 + i) (byte_of r i) in ret None) in
    ret None) in
  let long_offset := long_interations * 8 in
  let! random_num := random in
  let! _ := for_loop (R := unit) (len - long_offset) (fun char_index =>
    let! _ := store_byte (ptr + long_offset + char_index) (byte_of random_num char_index) in
    ret None) in
  ret len.
Definition urandom_write (ptr len : Z) : prog Z := ret 0.

(** * Nodes *)

Definition create_file (pname : path) (buf len fmode : Z) : prog Z :=
  let! new_file := alloc_file in
  if new_file =? NULL then ret NULL else
  if FS_NAME_LENGTH <? p_len pname then ret NULL else
  let! l := path_chars pname 0 (Z.to_nat (p_len pname)) in
  let! _ := update_file new_file (put_name l) in
  let! _ := update_file new_file (set_ftype FILE) in
  let! ok :=
    if negb (buf =? NULL) then
      let! new_content := alloc_chunk in
      if new_content =? NULL then ret false else
      let! _ := update_chunk new_content (fun _ => FileChunk buf len len NULL) in
      let! _ := update_file new_file (set_content new_content) in ret true
    else
      let! _ := update_file new_file (set_content NULL) in ret true in
  if negb ok then ret NULL else
  let! _ := update_file new_file (set_hard_links 0) in
  let! _ := update_file new_file (set_open_descripotors 0) in
  let! _ := update_file new_file (set_mode (Z.lor fmode S_IFREG)) in
  ret new_file.

(** [new_file->name[length] = '\0'], where the name has 64 characters. *)
Definition terminate_name (p i : Z) : prog unit :=
  if i <? FS_NAME_LENGTH
  then update_file p (fun f => set_name (zinsert i NUL (name f)) f)
  else fail OutOfBounds.

Definition create_directory (pname : path) (fmode : Z) : prog Z :=
  let! new_file := alloc_file in
  if FS_NAME_LENGTH <? p_len pname then ret NULL else
  let! l := path_chars pname 0 (Z.to_nat (p_len pname)) in
  let! _ := update_file new_file (put_name l) in
  let! _ := terminate_name new_file (p_len pname) in
  let! _ := update_file new_file (set_ftype DIRECTORY) in
  let! _ := update_file new_file (set_content NULL) in
  let! _ := update_file new_file (set_hard_links 0) in
  let! _ := update_file new_file
    (set_mode (Z.lor S_IFDIR (Z.lor S_IRUSR (Z.lor S_IWUSR S_IXUSR)))) in
  ret new_file.

(** [namecmp] on the names of two nodes. *)
Definition node_cmp (file current : Z) : prog Z :=
  let! f := get_file_node file in
  let! c := get_file_node current in
  namecmp (name f) FS_NAME_LENGTH (name c) FS_NAME_LENGTH.

(** [while (current->next != NULL)] of the sorted insertion. *)
Definition link_walk (file current : Z) : prog Z :=
  let! fuel := gets file_fuel in
  loop fuel (fun current =>
    let! c := get_file_node current in
    if next c =? NULL then ret (inr current) else
    let! cmp := node_cmp file (next c) in
    if cmp <? 0 then ret (inr current) else ret (inl (next c))) current.

Definition link_file_to_folder (folder file : Z) : prog Z :=
  let! d := get_file_node folder in
  if negb (is_directory (ftype d)) then ret (-1) else
  let! _ := update_file file (set_parent folder) in
  let! _ := update_file file (fun f => set_hard_links (wrap16 (hard_links f + 1)) f) in
  let! d := get_file_node folder in
  let! _ :=
    if content d =? NULL then
      let! _ := update_file folder (set_content file) in
      update_file file (set_next NULL)
    else
      let current := content d in
      let! cmp := node_cmp file current in
      if cmp <? 0 then
        let! _ := update_file file (set_next current) in
        update_file folder (set_content file)
      else
        let! current := link_walk file current in
        let! c := get_file_node current in
        let! _ := update_file file (set_next (next c)) in
        update_file current (set_next file) in
  ret 0.

Definition is_dot (p : path) : prog bool :=
  if p_len p =? 1 then let! c := path_char p 0 in ret (c =? dot) else ret false.
Definition is_dot_dot (p : path) : prog bool :=
  if p_len p =? 2 then
    let! c0 := path_char p 0 in
    if c0 =? dot then let! c1 := path_char p 1 in ret (c1 =? dot) else ret false
  else ret false.

(** The characters behind a pointer into a string. *)
Definition path_tail (p : path) : list Z := drop (Z.to_nat (p_off p)) (p_str p).

(** The search loop of [find_file_in_dir]. *)
Definition find_walk (file : path) (child : Z) : prog Z :=
  let! fuel := gets file_fuel in
  loop fuel (fun current =>
    if current =? NULL then ret (inr NULL) else
    let! c := get_file_node current in
    let! cmp_result := namecmp (name c) FS_NAME_LENGTH (path_tail file) (p_len file) in
    if cmp_result =? 0 then ret (inr current) else
    if cmp_result >? 0 then ret (inr NULL) else
    ret (inl (next c))) child.

Definition find_file_in_dir (directory : Z) (file : path) : prog Z :=
  let! b := is_dot file in
  if b : bool then ret directory else
  let! b := is_dot_dot file in
  if b : bool then let! d := get_file_node directory in ret (parent d) else
  let! d := get_file_node directory in
  find_walk file (content d).

(** A path has at most as many components as characters. *)
Definition path_fuel (p : path) : nat := Datatypes.S (Z.to_nat (p_len p)).

Definition find_file_path (file_path : path) : prog Z :=
  loop (path_fuel file_path) (fun '(current, file_path) =>
    let! adv := get_component_advance file_path in
    let '(subpath, rest) := adv in
    if p_len subpath =? 0 then ret (inr current) else
    let! c := get_file_node current in
    if negb (is_directory (ftype c)) then ret (inr NULL) else
    let! current := find_file_in_dir current subpath in
    if current =? NULL then ret (inr NULL) else ret (inl (current, rest)))
    (fs_root, file_path).

Definition find_file (str : list Z) : prog Z :=
  let! file_path := path_from_string fs_exit str in find_file_path file_path.

(** A missing directory of [create_directories]. *)
Definition make_directory (directory : Z) (current_path : path) : prog Z :=
  let! new_dir := alloc_file in
  let! _ := update_file new_dir (set_ftype DIRECTORY) in
  let! l := path_chars current_path 0 (Z.to_nat (p_len current_path)) in
  let! _ := update_file new_dir (put_name l) in
  let! _ := terminate_name new_dir (p_len current_path) in
  let! _ := update_file new_dir (set_content NULL) in
  let! error := link_file_to_folder directory new_dir in
  if error <? 0 then let! _ := fs_free new_dir in ret NULL else ret new_dir.

Definition create_directories (directory : Z) (p : path) (prevent_up : bool) : prog Z :=
  let! d := get_file_node directory in
  if negb (is_directory (ftype d)) then ret NULL else
  loop (path_fuel p) (fun '(directory, p) =>
    let! adv := get_component_advance p in
    let '(current_path, rest) := adv in
    if negb (p_len current_path >? 0) then ret (inr directory) else
    if FS_NAME_LENGTH <? p_len current_path then ret (inr NULL) else
    let! b := is_dot current_path in
    if b : bool then ret (inl (directory, rest)) else
    let! b := is_dot_dot current_path in
    if b : bool then
      if prevent_up then ret (inr NULL) else
      let! d := get_file_node directory in
      if parent d =? NULL then ret (inl (directory, rest))
      else ret (inl (parent d, rest))
    else
      let! candidate_dir := find_file_in_dir directory current_path in
      if negb (candidate_dir =? NULL) then ret (inl (candidate_dir, rest)) else
      let! new_dir := make_directory directory current_path in
      if new_dir =? NULL then ret (inr NULL) else ret (inl (new_dir, rest)))
    (directory, p).

(** * Release *)

(** [free_file_chunks]: the link is read before the chunk is released. *)
Definition free_file_chunks (first : Z) : prog unit :=
  let! fuel := gets chunk_fuel in
  loop fuel (fun chunck =>
    if chunck =? NULL then ret (inr tt) else
    let! c := get_chunk chunck in
    let! _ := fs_free (data c) in
    let! _ := fs_free chunck in
    ret (inl (next_chunk c))) first.

(** [fuel] bounds the depth of the tree; the link of a child is read after
    the child has been released. *)
Fixpoint free_data (fuel : nat) (file : Z) : prog Z :=
  match fuel with
  | O => fail FuelExhausted
  | Datatypes.S k =>
      let! f := get_file_node file in
      if negb (hard_links f =? 0) || negb (open_descripotors f =? 0) then ret 0 else
      let! _ := match ftype f with
        | DIRECTORY =>
            let! n := gets file_fuel in
            loop n (fun child =>
              if child =? NULL then ret (inr tt) else
              let! _ := free_data k child in
              let! c := get_file_node child in
              ret (inl (next c))) (content f)
        | FILE => free_file_chunks (content f)
        | DEVICE => ret tt
        end in
      let! _ := fs_free file in ret 0
  end.

(** [while (child->next != NULL && child->next != file)] *)
Definition remove_walk (file child : Z) : prog Z :=
  let! fuel := gets file_fuel in
  loop fuel (fun child =>
    let! c := get_file_node child in
    if negb (next c =? NULL) && negb (next c =? file)
    then ret (inl (next c)) else ret (inr child)) child.

Definition remove_file (file : Z) : prog Z :=
  let! f := get_file_node file in
  let folder := parent f in
  let! bad := if folder =? NULL then ret true else
              let! p := get_file_node folder in ret (negb (is_directory (ftype p))) in
  if bad : bool then ret (-1) else
  let! p := get_file_node folder in
  let child := content p in
  let! found :=
    if child =? file then
      let! _ := update_file folder (set_content (next f)) in ret true
    else
      let! child := remove_walk file child in
      let! c := get_file_node child in
      if next c =? file then
        let! _ := update_file child (set_next (next f)) in ret true
      else ret false in
  if negb found then ret (-1) else
  let! _ := update_file file (fun f => set_hard_links (wrap16 (hard_links f - 1)) f) in
  let! fuel := gets file_fuel in
  let! error := free_data fuel file in
  if negb (error =? 0) then ret error else ret 0.

(** * Opening *)

Definition open_existing_file (index file flags omode : Z) (skip_checks : bool) : prog Z :=
  let access_mode := Z.land flags O_ACCMODE in
  let! f := get_file_node file in
  if skip_checks && (negb (has (mode f) S_IRUSR) && has access_mode O_RDONLY)
  then ret (- EACCES) else
  if skip_checks && (negb (has (mode f) S_IWUSR) && has access_mode O_WRONLY)
  then ret (- EACCES) else
  let access_mode := Z.lor access_mode (Z.land flags O_APPEND) in
  let! _ :=
    if has flags O_TRUNC
       && ((has access_mode O_WRONLY && has (mode f) S_IWUSR) || skip_checks)
       && is_file (ftype f)
    then
      let! _ := free_file_chunks (content f) in
      update_file file (set_content NULL)
    else ret tt in
  let! f := get_file_node file in
  let new_chunk := if is_file (ftype f) then content f else NULL in
  let! _ := update_file file (fun f =>
    set_open_descripotors (wrap16 (open_descripotors f + 1)) f) in
  let! _ := set_open index (OpenFile file new_chunk 0 access_mode) in
  ret 0.

(** * Argument and environment strings *)

Definition space : Z := 32.
Definition single_quote : Z := 39.
Definition double_quote : Z := 34.
Definition is_quote (c : Z) : bool := (c =? single_quote) || (c =? double_quote).

Section charpparray.
(** The text: [length] bytes at [text]. *)
Context (text length : Z).

Definition text_fuel : nat := Datatypes.S (Datatypes.S (Z.to_nat length)).

(** [while (data_index < length && data[data_index] == ' ') data_index++] *)
Definition skip_spaces (data_index : Z) : prog Z :=
  scan text_fuel (fun data_index =>
    if data_index <? length then
      let! c := load_byte (text + data_index) in ret (c =? space)
    else ret false) data_index.

(** The characters up to the end of an escape: how many, and where it ends. *)
Definition skip_escape (escape_char num_characters data_index : Z) : prog (Z * Z) :=
  loop text_fuel (fun '(num_characters, data_index) =>
    if data_index <? length then
      let! c := load_byte (text + data_index) in
      if negb (c =? escape_char) then ret (inl (num_characters + 1, data_index + 1))
      else ret (inr (num_characters, data_index))
    else ret (inr (num_characters, data_index))) (num_characters, data_index).

(** Over one argument: the number of its characters, and where it ends.  The
    first pass of the code does not keep the number. *)
Definition skip_argument (data_index : Z) : prog (Z * Z) :=
  loop text_fuel (fun '(num_characters, data_index) =>
    if data_index <? length then
      let! c := load_byte (text + data_index) in
      if c =? space then ret (inr (num_characters, data_index)) else
      if is_quote c then
        let! r := skip_escape c num_characters (data_index + 1) in
        let '(num_characters, data_index) := r in
        ret (inl (num_characters, data_index + 1))
      else ret (inl (num_characters + 1, data_index + 1))
    else ret (inr (num_characters, data_index))) (0, data_index).

Definition count_arguments : prog Z :=
  loop text_fuel (fun '(arguments, data_index) =>
    if negb (data_index <? length) then ret (inr arguments) else
    let! data_index := skip_spaces data_index in
    if length <=? data_index then ret (inr arguments) else
    let! r := skip_argument data_index in
    ret (inl (arguments + 1, r.2))) (0, 0).

(** The inner loop of the copy: from [arg_index] to the escape character or
    [data_index]. *)
Definition copy_escape (escape_char target_string data_index : Z) (chars_copied arg_index : Z)
    : prog (Z * Z) :=
  loop text_fuel (fun '(chars_copied, arg_index) =>
    if arg_index <? data_index then
      let! c := load_byte (text + arg_index) in
      if negb (c =? escape_char) then
        let! _ := store_byte (target_string + chars_copied) c in
        ret (inl (chars_copied + 1, arg_index + 1))
      else ret (inr (chars_copied, arg_index))
    else ret (inr (chars_copied, arg_index))) (chars_copied, arg_index).

(** [for (; arg_index < data_index; arg_index++)] *)
Definition copy_argument (target_string arg_index data_index : Z) : prog unit :=
  loop text_fuel (fun '(chars_copied, arg_index) =>
    if arg_index <? data_index then
      let! c := load_byte (text + arg_index) in
      if is_quote c then
        let! r := copy_escape c target_string data_index chars_copied (arg_index + 1) in
        ret (inl (r.1, r.2 + 1))
      else
        let! _ := store_byte (target_string + chars_copied) c in
        ret (inl (chars_copied + 1, arg_index + 1))
    else ret (inr tt)) (0, arg_index).

(** The string of one argument: the characters from [arg_index] to
    [data_index], [num_characters] of them, as entry [current_arg]. *)
Definition make_string (pp_local current_arg arg_index data_index num_characters : Z) : prog unit :=
  let! target_string := alloc_raw (num_characters + 1) 1 in
  let! _ := store_at target_string num_characters NUL in
  let! _ := copy_argument target_string arg_index data_index in
  store_pointer pp_local current_arg target_string.

Definition fill_arguments (pp_local : Z) : prog unit :=
  loop text_fuel (fun '(current_arg, data_index) =>
    if negb (data_index <? length) then ret (inr tt) else
    let! data_index := skip_spaces data_index in
    if length <=? data_index then ret (inr tt) else
    let arg_index := data_index in
    let! r := skip_argument data_index in
    let '(num_characters, data_index) := r in
    let! _ := make_string pp_local current_arg arg_index data_index num_characters in
    ret (inl (current_arg + 1, data_index))) (0, 0).

(** The results are the values left in [*entries] and [*pp_array]. *)
Definition setup_charpparray : prog (Z * Z) :=
  if (text =? NULL) || (length =? 0) then
    let! _ := alloc_pointers sizeof_pointer in
    ret (0, NULL)
  else
    let! arguments := count_arguments in
    let! pp_local := alloc_pointers (sizeof_pointer * arguments + 1) in
    let! _ := store_pointer pp_local arguments NULL in
    let! _ := fill_arguments pp_local in
    ret (int32 arguments, pp_local).
End charpparray.

(** * Set-up *)

Definition STDIO_NAME : list Z := literal "stdio".

(** The initial values of the static nodes. *)
Definition static_name (str : list Z) : list Z := str ++ replicate (64 - length str) NUL.
Definition static_files : gmap Z dfile :=
  <[fs_root := DFile (static_name (chars "/")) NULL NULL DIRECTORY NULL 1 0 0]> (
  <[stdio_folder := DFile (static_name (chars "stdio")) NULL NULL DIRECTORY NULL 1 0 0]> (
  <[device_folder := DFile (static_name (chars "dev")) NULL NULL DIRECTORY NULL 1 0 0]> (
  <[urandom_file := DFile (static_name (chars "urandom")) NULL NULL DEVICE urandom_device 1 0 S_IRUSR]> ∅))).

(** The state at the start of [fs_initialize]: a runtime, the bytes of the
    platform's buffers, and nothing of the file system but the static objects. *)
Definition fs_start (r : runtime M) (input_bytes : gmap Z Z) : fs M :=
  Fs r static_files ∅ input_bytes ∅ ∅
    (replicate (Z.to_nat FS_MAX_FILES) (OpenFile NULL NULL 0 0)) 0 0 0 NULL NULL 0%nat.

(** A path of the platform: [len] bytes at [ident]. *)
Definition load_path (ident len : Z) : prog path :=
  let! l := load_bytes ident (Z.to_nat len) in ret (Path l 0 len).

(** [if ((error = c) != 0) return error;] *)
Definition check (c : prog Z) (k : prog Z) : prog Z :=
  let! error := c in if negb (error =? 0) then ret error else k.

(** Create an empty file of the standard streams and open it; then link it
    into the stdio folder. *)
Definition open_stream (str : list Z) (index flags fmode : Z) (k : Z -> prog Z) : prog Z :=
  let! stream_path := path_from_string fs_exit str in
  let! stream_file := create_file stream_path NULL 0 fmode in
  if stream_file =? NULL then ret (-1) else
  check (open_existing_file index stream_file flags 0 false) (k stream_file).

(** Whether a path is one of the names with a meaning. *)
Definition path_is (p : path) (str : list Z) (len : Z) : prog bool :=
  let! cmp := namecmp (path_tail p) (p_len p) str len in ret (cmp =? 0).

(** An item of the stdio set: [stdin] is opened, [argv] and [environ] are
    split into strings. *)
Definition use_stdio_item (file_path : path) (item_file : Z) (item : io_buffer)
    : prog (option Z) :=
  let! is_stdin := path_is file_path (literal "stdin") 5 in
  let! error := if is_stdin : bool
                then open_existing_file STDIN_FILENO item_file O_RDONLY 0 false
                else ret 0 in
  if negb (error =? 0) then ret (Some error) else
  let! is_argv := path_is file_path (literal "argv") 4 in
  let! _ := if is_argv : bool then
      let! r := setup_charpparray (ib_data item) (ib_data_len item) in
      modify (fun s => with_args r.1 r.2 (environ s) s)
    else ret tt in
  let! is_environ := path_is file_path (literal "environ") 7 in
  let! _ := if is_environ : bool then
      let! r := setup_charpparray (ib_data item) (ib_data_len item) in
      modify (fun s => with_args (argc s) (argv s) r.2 s)
    else ret tt in
  ret None.

(** One item of an input set; [Some] is the value returned. *)
Definition initialize_item (set_directory : Z) (is_stdio_folder : bool)
    (set_index item_index : Z) : prog (option Z) :=
  let! place := on_rt (dandelion_get_input set_index item_index) in
  match place with
  | None => fail NullDeref
  | Some (p, i) =>
      let! item := on_rt (get_buf p i) in
      if ib_ident_len item =? 0 then ret None else
      let! total_path := load_path (ib_ident item) (ib_ident_len item) in
      let! dir_path := get_directories total_path in
      let! file_path := get_file total_path in
      let! item_dir := create_directories set_directory dir_path true in
      if item_dir =? NULL then ret (Some (-1)) else
      let! item_file := create_file file_path (ib_data item) (ib_data_len item) S_IRWXU in
      if item_file =? NULL then ret (Some (-1)) else
      let! error := link_file_to_folder item_dir item_file in
      if error <? 0 then ret (Some (-1)) else
      if is_stdio_folder then use_stdio_item file_path item_file item else ret None
  end.

Definition initialize_input_set (set_index : Z) : prog (option Z) :=
  let! ident := on_rt (dandelion_input_set_ident set_index) in
  let! len := on_rt (dandelion_input_set_ident_len set_index) in
  if len =? 0 then ret None else
  let! set_path := load_path ident len in
  let! set_directory := create_directories fs_root set_path true in
  if set_directory =? NULL then ret (Some (-1)) else
  let! is_stdio_folder := path_is set_path STDIO_NAME 5 in
  let! input_items := on_rt (dandelion_input_buffer_count set_index) in
  for_loop input_items (initialize_item set_directory is_stdio_folder set_index).

Definition initialize_output_set (set_index : Z) : prog (option Z) :=
  let! ident := on_rt (dandelion_output_set_ident set_index) in
  let! len := on_rt (dandelion_output_set_ident_len set_index) in
  if len =? 0 then ret None else
  let! set_path := load_path ident len in
  let! set_directory := create_directories fs_root set_path true in
  if set_directory =? NULL then ret (Some (-1)) else ret None.

(** If no input set gave stdin: an empty file opened at index 0. *)
Definition default_stdin : prog Z :=
  let! o := get_open STDIN_FILENO in
  if of_file o =? NULL then
    open_stream (literal "stdin") STDIN_FILENO O_RDONLY S_IRUSR (fun stdin_file =>
      let! error := link_file_to_folder stdio_folder stdin_file in
      if negb (error =? 0) then ret (-1) else ret 0)
  else ret 0.

(** [*v = dandelion_alloc(sizeof(char * )); **v = NULL;] *)
Definition empty_array : prog Z :=
  let! p := alloc_pointers sizeof_pointer in
  let! _ := store_pointer p 0 NULL in ret p.

Definition default_args : prog unit :=
  let! v := gets argv in
  let! _ := if v =? NULL then
      let! p := empty_array in modify (fun s => with_args (argc s) p (environ s) s)
    else ret tt in
  let! e := gets environ in
  if e =? NULL then
    let! p := empty_array in modify (fun s => with_args (argc s) (argv s) p s)
  else ret tt.

Definition urandom_seed : Z := 0x39917A73ACA200E4.

Definition fs_initialize : prog Z :=
  check (link_file_to_folder fs_root device_folder) (
  let! _ := urandom_init urandom_seed in
  check (link_file_to_folder device_folder urandom_file) (
  check (link_file_to_folder fs_root stdio_folder) (
  open_stream (literal "stderr") STDERR_FILENO O_WRONLY S_IWUSR (fun stderr_file =>
  check (link_file_to_folder stdio_folder stderr_file) (
  open_stream (literal "stdout") STDOUT_FILENO O_WRONLY S_IWUSR (fun stdout_file =>
  check (link_file_to_folder stdio_folder stdout_file) (
  let! _ := modify (with_args 0 NULL NULL) in
  let! input_sets := on_rt dandelion_input_set_count in
  let! stop := for_loop input_sets initialize_input_set in
  match stop with Some error => ret error | None =>
  let! output_sets := on_rt dandelion_output_set_count in
  let! stop := for_loop output_sets initialize_output_set in
  match stop with Some error => ret error | None =>
  check default_stdin (
  let! _ := default_args in
  ret 0) end end))))))).

(** * Export *)

(** The content of a file in contiguous memory: its address and length, or
    [None] when memory ran out. *)
Definition content_chunks (first : Z) (f : file_chunk -> Z -> prog Z) : prog Z :=
  let! fuel := gets chunk_fuel in
  loop fuel (fun '(chunk, acc) =>
    if chunk =? NULL then ret (inr acc) else
    let! c := get_chunk chunk in
    let! acc := f c acc in
    ret (inl (next_chunk c, acc))) (first, 0).

Definition file_content (first : Z) : prog (option (Z * Z)) :=
  if first =? NULL then ret (Some (NULL, 0)) else
  let! c := get_chunk first in
  if next_chunk c =? NULL then ret (Some (data c, used c)) else
  let! total_size := content_chunks first (fun c total_size =>
    ret (wrap64 (total_size + used c))) in
  let! content_buf := alloc_raw total_size 16 in
  if content_buf =? NULL then ret None else
  let! buff_len := content_chunks first (fun c buff_len =>
    let! _ := memcpy (content_buf + buff_len) (data c) (used c) in
    ret (wrap64 (buff_len + used c))) in
  ret (Some (content_buf, buff_len)).

(** The path of a node: the path of its directory (address and length) and its
    name, in a buffer with [extra] more bytes. *)
Definition export_name (f : dfile) (previous_path : Z * Z) (extra : Z) : prog (Z * Z) :=
  let '(prev, prev_len) := previous_path in
  let! name_length := namelen (name f) FS_NAME_LENGTH in
  let! new_buffer := alloc_raw (prev_len + name_length + extra) 1 in
  if new_buffer =? NULL then ret (NULL, name_length) else
  let! _ := memcpy new_buffer prev prev_len in
  let! _ := store_bytes (new_buffer + prev_len) (take (Z.to_nat name_length) (name f)) in
  ret (new_buffer, name_length).

(** [fuel] bounds the depth of the tree. *)
Fixpoint add_output_from_file (fuel : nat) (file : Z) (previous_path : Z * Z) (set_index : Z)
    : prog Z :=
  match fuel with
  | O => fail FuelExhausted
  | Datatypes.S k =>
      let! f := get_file_node file in
      match ftype f with
      | FILE =>
          let! named := export_name f previous_path 0 in
          let '(new_buffer, name_length) := named in
          if new_buffer =? NULL then ret (-1) else
          let! content := file_content (content f) in
          match content with
          | None => let! _ := fs_exit ENOMEM in ret (-1)
          | Some (content_buf, buff_len) =>
              let! _ := on_rt (dandelion_add_output junk_buf set_index
                (IoBuffer new_buffer (wrap64 (name_length + previous_path.2))
                  content_buf buff_len 0)) in
              ret 0
          end
      | DIRECTORY =>
          let! named := export_name f previous_path 1 in
          let '(new_buffer, name_length) := named in
          if new_buffer =? NULL then let! _ := fs_exit ENOMEM in ret (-1) else
          let! _ := store_byte (new_buffer + previous_path.2 + name_length) slash in
          let new_path := (new_buffer, wrap64 (previous_path.2 + name_length + 1)) in
          let! n := gets file_fuel in
          let! error := loop n (fun child =>
            if child =? NULL then ret (inr 0) else
            let! error := add_output_from_file k child new_path set_index in
            if negb (error =? 0) then ret (inr error) else
            let! c := get_file_node child in
            ret (inl (next c))) (content f) in
          if negb (error =? 0) then ret error else
          let! _ := fs_free new_buffer in ret 0
      | DEVICE => ret (-1)
      end
  end.

(** Whether an item of a set is left out: the inputs of the stdio folder. *)
Definition skip_output (set_ident : path) (out_file : Z) : prog bool :=
  let! stdio := path_is set_ident STDIO_NAME 5 in
  if negb stdio then ret false else
  let! f := get_file_node out_file in
  let! c := namecmp (name f) FS_NAME_LENGTH (literal "environ") 7 in
  if c =? 0 then ret true else
  let! c := namecmp (name f) FS_NAME_LENGTH (literal "argv") 4 in
  if c =? 0 then ret true else
  let! c := namecmp (name f) FS_NAME_LENGTH (literal "stdin") 5 in
  ret (c =? 0).

Definition terminate_set (set_index : Z) : prog (option unit) :=
  let! ident := on_rt (dandelion_output_set_ident set_index) in
  let! len := on_rt (dandelion_output_set_ident_len set_index) in
  let! set_ident := load_path ident len in
  let! set_directory := find_file_in_dir fs_root set_ident in
  if set_directory =? NULL then ret None else
  let! d := get_file_node set_directory in
  let! fuel := gets file_fuel in
  loop fuel (fun out_file =>
    if out_file =? NULL then ret (inr None) else
    let! skip := skip_output set_ident out_file in
    let! _ := if skip : bool then ret 0
              else add_output_from_file fuel out_file (NULL, 0) set_index in
    let! f := get_file_node out_file in
    ret (inl (next f))) (content d).

Definition fs_terminate : prog Z :=
  let! output_sets := on_rt dandelion_output_set_count in
  let! _ := for_loop output_sets terminate_set in
  ret 0.
End file_system.
