(* ===== verification/FsImpl.v ===== *)
(** The calls on files and directories (src/file_system/fs_implementation.c),
    which the libraries' system calls are made of. *)
From S2P Require Import Prelude Heap Alloc System RuntimeIO Paths FsStore FileSystem.

(** * Data of fs_interface.h *)

Record dandelion_stat_data := DandelionStat {
  st_mode : Z; st_hard_links : Z; file_size : Z; blk_size : Z }.

Record dir := Dir { dir_node : Z; dir_child : Z }.

(** [d_name] is the array of 64 characters with the five bytes of padding
    behind it in the struct. *)
Record dirent := Dirent { d_off : Z; d_ino : Z; d_type : Z; d_name : list Z }.

Definition DT_REG : Z := 1.
Definition DT_DIR : Z := 2.
Definition SEEK_SET : Z := 0.
Definition SEEK_CUR : Z := 1.
Definition SEEK_END : Z := 2.

Definition set_current_chunk c o := OpenFile (of_file o) c (offset o) (open_flags o).
Definition set_offset n o := OpenFile (of_file o) (current_chunk o) n (open_flags o).
Definition set_of_file f o := OpenFile f (current_chunk o) (offset o) (open_flags o).

Section fs_implementation.
Context {M : Type} {HS : System M} {HM : Machine}.
Implicit Types s : fs M.
Notation prog := (prog (fs M)).

(** [&open_files[fd]] and assignments to its fields. *)
Definition update_open (fd : Z) (f : open_file -> open_file) : prog unit :=
  let! o := get_open fd in set_open fd (f o).

Definition free_file_data (file : Z) : prog Z :=
  let! fuel := gets file_fuel in free_data fuel file.

(** * Chunks *)

Definition chunk_size_of (size : Z) : Z :=
  wrap64 (wrap64 (size + FS_CHUNK_SIZE - 1) / FS_CHUNK_SIZE * FS_CHUNK_SIZE).

Definition allocate_file_chunk (size : Z) : prog Z :=
  let chunk_size := chunk_size_of size in
  let! new_buffer := alloc_raw chunk_size 16 in
  if new_buffer =? NULL then ret NULL else
  let! new_chunck := alloc_chunk in
  if new_chunck =? NULL then let! _ := fs_free new_buffer in ret NULL else
  let! _ := update_chunk new_chunck (fun _ => FileChunk new_buffer chunk_size 0 NULL) in
  ret new_chunck.

Definition free_file_chunk (chunk : Z) : prog unit :=
  let! c := get_chunk chunk in
  let! _ := fs_free (data c) in
  fs_free chunk.

(** * Names *)

Definition dandelion_isatty (file : Z) : Z :=
  if (file =? STDIN_FILENO) || (file =? STDOUT_FILENO) || (file =? STDERR_FILENO) then 1 else 0.

Definition dandelion_link (old new_name : list Z) : prog Z :=
  let! file := find_file old in
  if file =? NULL then ret (- ENOTDIR) else
  let! f := get_file_node file in
  if is_directory (ftype f) then ret (- EPERM) else
  if hard_links f =? wrap16 (-1) then ret (- EMLINK) else
  let! new_file := find_file new_name in
  if negb (new_file =? NULL) then ret (- EEXIST) else
  let! new_path := path_from_string fs_exit new_name in
  let! new_file_name := get_file new_path in
  let! new_file_dir := get_directories new_path in
  let! new_dir := create_directories fs_root new_file_dir false in
  if new_dir =? NULL then ret (- ENOTDIR) else
  let! _ := link_file_to_folder new_dir file in
  let! _ := update_file file (fun f => set_hard_links (wrap16 (hard_links f + 1)) f) in
  ret 0.

(** [for (child = parent->child; child != NULL; child = child->next)] *)
Definition unlink_walk (file child : Z) : prog unit :=
  let! fuel := gets file_fuel in
  loop fuel (fun child =>
    if child =? NULL then ret (inr tt) else
    let! c := get_file_node child in
    if next c =? file then
      let! f := get_file_node file in
      let! _ := update_file child (set_next (next f)) in ret (inr tt)
    else ret (inl (next c))) child.

Definition dandelion_unlink (str : list Z) : prog Z :=
  let! file := find_file str in
  if file =? NULL then ret (- ENOTDIR) else
  let! f := get_file_node file in
  let folder := parent f in
  let! p := get_file_node folder in
  let! _ := if content p =? file then update_file folder (set_content (next f))
            else unlink_walk file (content p) in
  let! _ := update_file file (fun f => set_hard_links (wrap16 (hard_links f - 1)) f) in
  let! _ := free_file_data file in
  ret 0.

(** The file created by [dandelion_open]: the node, or the error. *)
Definition open_create (str : list Z) (omode : Z) : prog (Z + Z) :=
  let! total_path := path_from_string fs_exit str in
  let! dir_path := get_directories total_path in
  let! file_name := get_file total_path in
  if FS_NAME_LENGTH <=? p_len file_name then ret (inr (- EINVAL)) else
  let! folder := create_directories fs_root dir_path false in
  if folder =? NULL then ret (inr (- ENOTDIR)) else
  let! current := create_file file_name NULL 0 0 in
  if current =? NULL then ret (inr (- ENOMEM)) else
  let! _ := update_file current (set_mode omode) in
  let! error := link_file_to_folder folder current in
  if negb (error =? 0) then ret (inr (- ENOTDIR)) else ret (inl current).

(** The lowest free descriptor. *)
Definition free_descriptor : prog (option Z) :=
  for_loop FS_MAX_FILES (fun file_descriptor =>
    let! o := get_open file_descriptor in
    if of_file o =? NULL then ret (Some file_descriptor) else ret None).

Definition dandelion_open (str : list Z) (flags omode : Z) : prog Z :=
  let! current := find_file str in
  if has flags O_EXCL && has flags O_CREAT && negb (current =? NULL) then ret (- EEXIST) else
  let! current :=
    if current =? NULL then
      if negb (has flags O_CREAT) then ret (inr (- ENOENT)) else open_create str omode
    else ret (inl current) in
  match current with
  | inr error => ret error
  | inl current =>
      let! fd := free_descriptor in
      match fd with
      | None => ret (- EMFILE)
      | Some file_descriptor =>
          let! open_error := open_existing_file file_descriptor current flags omode true in
          if open_error <? 0 then ret open_error else ret file_descriptor
      end
  end.

Definition dandelion_mkdir (str : list Z) (omode : Z) : prog Z :=
  let! dir_path := path_from_string fs_exit str in
  let! parent_dir := get_directories dir_path in
  let! dir_name := get_file dir_path in
  let! parent_file := find_file_path parent_dir in
  if parent_file =? NULL then ret (- ENOENT) else
  let! p := get_file_node parent_file in
  if negb (is_directory (ftype p)) then ret (- ENOTDIR) else
  let! existing := find_file_in_dir parent_file dir_name in
  if negb (existing =? NULL) then ret (- EEXIST) else
  let! new_dir := create_directories parent_file dir_name false in
  if new_dir =? NULL then ret (- ENOMEM) else
  let! _ := update_file new_dir (set_mode omode) in
  ret 0.

Definition dandelion_rmdir (str : list Z) : prog Z :=
  let! current_file := find_file str in
  if current_file =? NULL then ret (- ENOENT) else
  let! f := get_file_node current_file in
  if negb (is_directory (ftype f)) then ret (- ENOTDIR) else
  if negb (content f =? NULL) then ret (- ENOTEMPTY) else
  dandelion_unlink str.

Definition dandelion_close (file : Z) : prog Z :=
  let! o := get_open file in
  let to_close := of_file o in
  if to_close =? NULL then ret (- EBADF) else
  let! _ := update_file to_close (fun f =>
    set_open_descripotors (wrap16 (open_descripotors f - 1)) f) in
  let! _ := free_file_data to_close in
  let! _ := update_open file (set_of_file NULL) in
  ret 0.

(** * Position *)

(** The position of the current chunk: the sum of the chunks before it, and
    whether it was met. *)
Definition seek_current (backing_file current file_offset : Z) : prog (Z * Z) :=
  let! fuel := gets chunk_fuel in
  loop fuel (fun '(chunk, total_offset) =>
    if chunk =? NULL then ret (inr (0, total_offset)) else
    let! c := get_chunk chunk in
    if negb (chunk =? current) then
      ret (inl (next_chunk c, int32 (total_offset + used c)))
    else ret (inr (file_offset, int32 (total_offset + file_offset)))) (backing_file, 0).

(** The last chunk, and the sum of all chunks. *)
Definition seek_end (first : Z) : prog (Z * Z) :=
  let! fuel := gets chunk_fuel in
  loop fuel (fun '(current, total_offset) =>
    if current =? NULL then ret (inr (current, total_offset)) else
    let! c := get_chunk current in
    let total_offset := int32 (total_offset + used c) in
    if next_chunk c =? NULL then ret (inr (current, total_offset))
    else ret (inl (next_chunk c, total_offset))) (first, 0).

(** The chunk in which a position falls, and the position in it. *)
Definition seek_back (first needed_bytes : Z) : prog (Z * Z) :=
  let! fuel := gets chunk_fuel in
  loop fuel (fun '(current, needed_bytes) =>
    let! c := get_chunk current in
    if used c <? wrap64 needed_bytes then
      ret (inl (next_chunk c, int32 (needed_bytes - used c)))
    else ret (inr (current, needed_bytes))) (first, needed_bytes).

(** Forward over the chunks there are: the chunk, the position in it, the
    total and what is left of the offset. *)
Definition seek_forward (current chunk_offset total_offset off : Z)
    : prog (Z * Z * Z * Z) :=
  let! c := get_chunk current in
  let! fuel := gets chunk_fuel in
  let! r := loop fuel (fun '(current, chunk_offset, to_advance, total_offset, off) =>
    let! c := get_chunk current in
    if (to_advance <? wrap64 off) && negb (next_chunk c =? NULL) then
      let! n := get_chunk (next_chunk c) in
      ret (inl (next_chunk c, 0, used n, int32 (total_offset + to_advance), int64 (off - to_advance)))
    else ret (inr (current, chunk_offset, to_advance, total_offset, off)))
    (current, chunk_offset, wrap64 (used c - chunk_offset), total_offset, off) in
  let '(current, chunk_offset, to_advance, total_offset, off) := r in
  let to_advance := if wrap64 off <=? to_advance then wrap64 off else to_advance in
  ret (current, wrap64 (chunk_offset + to_advance), int32 (total_offset + to_advance),
       int64 (off - to_advance)).

Definition place_open (fd chunk position : Z) : prog unit :=
  update_open fd (fun o => set_offset position (set_current_chunk chunk o)).

(** Where the seek starts from: the chunk, the position in it, and the total. *)
Definition seek_start (o : open_file) (f : dfile) (whence : Z) : prog (option (Z * Z * Z)) :=
  if whence =? SEEK_SET then ret (Some (content f, 0, 0)) else
  if whence =? SEEK_CUR then
    let current := if current_chunk o =? NULL then content f else current_chunk o in
    let! r := seek_current (content f) current (offset o) in
    ret (Some (current, r.1, r.2))
  else if whence =? SEEK_END then
    let! r := seek_end (content f) in
    let! c := get_chunk r.1 in
    ret (Some (r.1, used c, r.2))
  else ret None.

Definition dandelion_lseek (fd off whence : Z) : prog Z :=
  let! o := get_open fd in
  let backing_file := of_file o in
  let! bad := if backing_file =? NULL then ret true else
              let! f := get_file_node backing_file in ret (negb (is_file (ftype f))) in
  if bad : bool then ret (- EBADF) else
  let! f := get_file_node backing_file in
  let! start := seek_start o f whence in
  match start with None => ret (- EINVAL) | Some (current, chunk_offset, total_offset) =>
  if off <? 0 then
    if (current =? NULL) || (total_offset + off <? 0) then ret (- EINVAL) else
    let total_offset := int32 (total_offset + off) in
    let! r := seek_back (content f) total_offset in
    let! _ := place_open fd r.1 r.2 in
    ret total_offset
  else
  let! r := if negb (current =? NULL)
            then seek_forward current chunk_offset total_offset off
            else ret (current, chunk_offset, total_offset, off) in
  let '(current, chunk_offset, total_offset, off) := r in
  if off =? 0 then
    let! _ := place_open fd current chunk_offset in ret total_offset
  else
  let! new_chunk := allocate_file_chunk off in
  if new_chunk =? NULL then ret (- ENOMEM) else
  let! _ := update_chunk new_chunk (set_used off) in
  let! _ := if current =? NULL then update_file backing_file (set_content new_chunk)
            else update_chunk current (set_next_chunk new_chunk) in
  let! _ := place_open fd new_chunk off in
  ret (total_offset + off)
  end.

(** * Reading *)

(** The call through [device->read]; urandom is the only device. *)
Definition device_read (device ptr len : Z) : prog Z :=
  if device =? urandom_device then urandom_read ptr len else fail OutOfBounds.
Definition device_write (device ptr len : Z) : prog Z :=
  if device =? urandom_device then urandom_write ptr len else fail OutOfBounds.

(** The chunk at an offset; [None] when the file ends before it. *)
Definition read_seek (first off : Z) : prog (option (Z * Z)) :=
  let! fuel := gets chunk_fuel in
  loop fuel (fun '(current, off) =>
    if off >? 0 then
      if current =? NULL then ret (inr None) else
      let! c := get_chunk current in
      if used c <? wrap64 off then ret (inl (next_chunk c, int64 (off - used c)))
      else ret (inr (Some (current, off)))
    else ret (inr (Some (current, 0)))) (first, off).

(** The copy: the number of bytes read, and the position it ends at. *)
Definition read_chunks (ptr need_to_read current chunk_offset : Z) : prog (Z * Z * Z) :=
  let! fuel := gets chunk_fuel in
  loop fuel (fun '(read_bytes, current, chunk_offset) =>
    let! c := get_chunk current in
    let readable := wrap64 (used c - chunk_offset) in
    if wrap64 need_to_read <? readable then
      let! _ := memcpy (ptr + read_bytes) (data c + chunk_offset) (wrap64 need_to_read) in
      ret (inr (int32 (read_bytes + need_to_read), current, wrap64 (chunk_offset + need_to_read)))
    else
      let! _ := memcpy (ptr + read_bytes) (data c + chunk_offset) readable in
      let read_bytes := int32 (read_bytes + readable) in
      if negb (next_chunk c =? NULL) then ret (inl (read_bytes, next_chunk c, 0))
      else ret (inr (read_bytes, current, wrap64 (chunk_offset + readable))))
    (0, current, chunk_offset).

Definition dandelion_read (fd ptr len off options : Z) : prog Z :=
  let! o := get_open fd in
  if (of_file o =? NULL) || has (open_flags o) O_WRONLY then ret (wrap64 (- EBADF)) else
  let! f := get_file_node (of_file o) in
  if is_device (ftype f) then device_read (content f) ptr len else
  if negb (is_file (ftype f)) then ret (wrap64 (- EINVAL)) else
  if len =? 0 then ret 0 else
  let! start :=
    if has options USE_OFFSET then
      if off <? 0 then ret (inl (wrap64 (- EINVAL))) else
      let! r := read_seek (content f) off in
      match r with None => ret (inl 0) | Some p => ret (inr p) end
    else if current_chunk o =? NULL then
      let! _ := update_open fd (set_offset 0) in
      if negb (content f =? NULL) then
        let! _ := update_open fd (set_current_chunk (content f)) in
        ret (inr (content f, 0))
      else ret (inl 0)
    else ret (inr (current_chunk o, offset o)) in
  match start with
  | inl result => ret result
  | inr (current, chunk_offset) =>
      let! r := read_chunks ptr (int32 len) current chunk_offset in
      let '(read_bytes, current, chunk_offset) := r in
      let! _ := if has options MOVE_OFFSET then place_open fd current chunk_offset else ret tt in
      ret (wrap64 read_bytes)
  end.

(** * Writing *)

(** Where a write with [USE_OFFSET] goes: the chunk and the position, or
    [None] when memory ran out. *)
Definition write_seek (len first off : Z) : prog (option (Z * Z)) :=
  let! fuel := gets chunk_fuel in
  loop fuel (fun '(current, off) =>
    if negb (off >? 0) then ret (inr (Some (current, 0))) else
    let! c := get_chunk current in
    if wrap64 off <? capacity c then
      let! _ := update_chunk current (set_used (if used c <? wrap64 off then wrap64 off else used c)) in
      ret (inr (Some (current, wrap64 off)))
    else
      let off := int64 (off - capacity c) in
      if next_chunk c =? NULL then
        let! new_chunk := allocate_file_chunk (wrap64 (off + len)) in
        if new_chunk =? NULL then ret (inr None) else
        let! _ := update_chunk current (set_next_chunk new_chunk) in
        let! _ := update_chunk new_chunk (set_used (wrap64 off)) in
        ret (inr (Some (new_chunk, wrap64 off)))
      else ret (inl (next_chunk c, off))) (first, off).

(** The chunk a write starts in. *)
Definition write_start (o : open_file) (f : dfile) (len off options : Z)
    : prog (option (Z * Z)) :=
  if content f =? NULL then
    let! new_chunk := allocate_file_chunk
      (if has options USE_OFFSET then wrap64 (off + len) else len) in
    let! _ := update_file (of_file o) (set_content new_chunk) in
    ret (Some (new_chunk, 0))
  else if has options USE_OFFSET then write_seek len (content f) off
  else if current_chunk o =? NULL then ret (Some (content f, 0))
  else ret (Some (current_chunk o, 0)).

(** The jump to the end of a file opened with [O_APPEND]. *)
Definition append_jump (fd : Z) : prog unit :=
  let! fuel := gets chunk_fuel in
  let! _ := loop fuel (fun _ : unit =>
    let! o := get_open fd in
    let! c := get_chunk (current_chunk o) in
    if negb (next_chunk c =? NULL) then
      let! _ := update_open fd (set_current_chunk (next_chunk c)) in ret (inl tt)
    else ret (inr tt)) tt in
  let! o := get_open fd in
  let! c := get_chunk (current_chunk o) in
  update_open fd (set_offset (used c)).

(** The chunk to write to, and how much fits: a new chunk when the current
    one is full. *)
Definition writeable_chunk (len current : Z) : prog (Z * Z) :=
  let! c := get_chunk current in
  let writeable := int32 (capacity c - used c) in
  if writeable =? 0 then
    let! new_chunk := allocate_file_chunk len in
    let! _ := update_chunk current (set_next_chunk new_chunk) in
    let! n := get_chunk new_chunk in
    ret (new_chunk, int32 (capacity n))
  else ret (current, writeable).

(** Copy [MIN(len, writeable)] bytes behind the content of the chunk. *)
Definition write_to (ptr len current writeable : Z) : prog Z :=
  let to_write := if len <? wrap64 writeable then len else wrap64 writeable in
  let! c := get_chunk current in
  let! _ := memcpy (data c + used c) ptr to_write in
  let! _ := update_chunk current (set_used (wrap64 (used c + to_write))) in
  ret to_write.

(** The copy: the chunk it ends in, and the number of bytes written.  Every
    turn of the loop writes at least one byte. *)
Definition write_chunks (ptr len current : Z) : prog (Z * Z) :=
  loop (Datatypes.S (Z.to_nat len)) (fun '(ptr, len, current, writen_bytes) =>
    if negb (len >? 0) then ret (inr (current, writen_bytes)) else
    let! r := writeable_chunk len current in
    let '(current, writeable) := r in
    let! to_write := write_to ptr len current writeable in
    ret (inl (ptr + to_write, wrap64 (len - to_write), current, wrap64 (writen_bytes + to_write))))
    (ptr, len, current, 0).

Definition dandelion_write (fd ptr len off options : Z) : prog Z :=
  let! o := get_open fd in
  if (of_file o =? NULL) || has (open_flags o) O_RDONLY then ret (wrap64 (- EBADF)) else
  let! f := get_file_node (of_file o) in
  if is_device (ftype f) then device_write (content f) ptr len else
  if negb (is_file (ftype f)) then ret (wrap64 (- EINVAL)) else
  let! start := write_start o f len off options in
  match start with
  | None => ret (wrap64 (- ENOMEM))
  | Some (current, chunk_offset) =>
      let! _ := if has (open_flags o) O_APPEND && negb (has options USE_OFFSET)
                then append_jump fd else ret tt in
      let! r := write_chunks ptr len current in
      let '(current, writen_bytes) := r in
      let! _ := if has options MOVE_OFFSET then place_open fd current chunk_offset else ret tt in
      ret writen_bytes
  end.

(** * Status and size *)

(** [None] leaves the caller's struct as it was. *)
Definition stat_node (file : Z) : prog (Z * option dandelion_stat_data) :=
  let! f := get_file_node file in
  let! total_size := if is_file (ftype f)
    then content_chunks (content f) (fun c total_size => ret (wrap64 (total_size + used c)))
    else ret 0 in
  ret (0, Some (DandelionStat (mode f) (hard_links f) total_size FS_CHUNK_SIZE)).

Definition dandelion_fstat (fd : Z) : prog (Z * option dandelion_stat_data) :=
  let! o := get_open fd in
  if of_file o =? NULL then ret (- EBADF, None) else stat_node (of_file o).

Definition dandelion_stat (str : list Z) : prog (Z * option dandelion_stat_data) :=
  let! current_file := find_file str in
  if current_file =? NULL then ret (- ENOTDIR, None) else stat_node current_file.

(** The loop that releases the chunks behind the cut. *)
Definition free_chunks_from (to_free : Z) : prog unit :=
  let! fuel := gets chunk_fuel in
  loop fuel (fun to_free =>
    if to_free =? NULL then ret (inr tt) else
    let! c := get_chunk to_free in
    let! _ := free_file_chunk to_free in
    ret (inl (next_chunk c))) to_free.

(** The walk to the length: [inl] when the file was cut there, [inr] with the
    last chunk and what is missing. *)
Definition truncate_walk (current remaining_size : Z) : prog (unit + Z * Z) :=
  let! fuel := gets chunk_fuel in
  loop fuel (fun '(current, remaining_size) =>
    let! c := get_chunk current in
    if wrap64 remaining_size <=? used c then
      let! _ := update_chunk current (set_used (wrap64 remaining_size)) in
      let! _ := free_chunks_from (next_chunk c) in
      ret (inr (inl tt))
    else
      let remaining_size := int64 (remaining_size - used c) in
      if next_chunk c =? NULL then ret (inr (inr (current, remaining_size)))
      else ret (inl (next_chunk c, remaining_size))) (current, remaining_size).

Definition truncate_node (file length : Z) : prog Z :=
  if length <? 0 then ret (- EINVAL) else
  let! f := get_file_node file in
  if negb (is_file (ftype f)) then ret (- EBADF) else
  let! r := truncate_walk (content f) length in
  match r with
  | inl _ => ret 0
  | inr (current, remaining_size) =>
      let! new_chunk := allocate_file_chunk (wrap64 remaining_size) in
      let! _ := update_chunk current (set_next_chunk new_chunk) in
      let! _ := update_chunk new_chunk (set_used (wrap64 remaining_size)) in
      ret 0
  end.

Definition dandelion_ftruncate (fd length : Z) : prog Z :=
  let! o := get_open fd in
  if of_file o =? NULL then ret (- EBADF) else
  if negb (has (open_flags o) O_WRONLY) then ret (- EBADF) else
  truncate_node (of_file o) length.

Definition dandelion_truncate (str : list Z) (length : Z) : prog Z :=
  let! current_file := find_file str in
  if current_file =? NULL then ret (- ENOENT) else truncate_node current_file length.

(** * Directories

    The caller owns the [DIR] and the [dirent]; their new values are part of
    the result, [None] when they are left as they were. *)

Definition dandelion_opendir (str : list Z) : prog (Z * option dir) :=
  let! current_dir := find_file str in
  if current_dir =? NULL then ret (- ENOENT, None) else
  let! f := get_file_node current_dir in
  if negb (is_directory (ftype f)) then ret (- ENOTDIR, None) else
  let! _ := update_file current_dir (fun f =>
    set_open_descripotors (wrap16 (open_descripotors f + 1)) f) in
  ret (0, Some (Dir current_dir 0)).

Definition dandelion_closedir (d : dir) : prog Z :=
  let! _ := update_file (dir_node d) (fun f =>
    set_open_descripotors (wrap16 (open_descripotors f - 1)) f) in
  free_file_data (dir_node d).

(** The child at a position of the directory, and the number of steps. *)
Definition readdir_walk (d : dir) (first : Z) : prog (Z * Z) :=
  let! fuel := gets file_fuel in
  loop fuel (fun '(current_child, index) =>
    if negb (current_child =? NULL) && (index <? wrap64 (dir_child d)) then
      let! c := get_file_node current_child in ret (inl (next c, index + 1))
    else ret (inr (current_child, index))) (first, 0).

Definition dandelion_readdir (d : dir) (e : dirent) : prog (Z * dir * dirent) :=
  let! f := get_file_node (dir_node d) in
  let! r := readdir_walk d (content f) in
  let '(current_child, index) := r in
  if current_child =? NULL then
    if negb (index =? wrap64 (dir_child d)) then ret (- ENOENT, d, e) else ret (-1, d, e)
  else
    let d := Dir (dir_node d) (int64 (dir_child d + 1)) in
    let! c := get_file_node current_child in
    let max_name_length := if 256 <? FS_NAME_LENGTH then 256 else FS_NAME_LENGTH in
    let n := Z.to_nat (max_name_length - 1) in
    let copied := take n (name c) ++ drop n (d_name e) in
    ret (0, d, Dirent index 0 (if is_file (ftype c) then DT_REG else DT_DIR)
                 (zinsert max_name_length NUL copied)).

Definition dandelion_telldir (d : dir) : Z := dir_child d.
Definition dandelion_seekdir (d : dir) (index : Z) : dir := Dir (dir_node d) index.
End fs_implementation.
