(* ===== verification/FsLemmas.v ===== *)
(** Lemmas about the memory of the file system: the rules for reading and
    writing objects, linked lists of nodes and of chunks, and regions of
    bytes. *)
From S2P Require Import Prelude Bytes Heap Alloc AllocSession System RuntimeIO Paths PathSpec FsStore FileSystem.

(** * Linked lists

    [chain nxt m p l]: following [nxt] from [p] in the memory [m] visits the
    addresses [l] and then [NULL]. *)
Fixpoint chain {A} (nxt : A -> Z) (m : gmap Z A) (p : Z) (l : list Z) : Prop :=
  match l with
  | [] => p = NULL
  | x :: l => p = x /\ x <> NULL /\ exists a, m !! x = Some a /\ chain nxt m (nxt a) l
  end.

Section chain.
Context {A : Type} (nxt : A -> Z).
Implicit Types m : gmap Z A.

Lemma chain_in m p l x : chain nxt m p l -> x ∈ l -> x <> NULL /\ is_Some (m !! x).
Proof.
  revert p. induction l as [|y l IH]; intros p; [by intros _ ?%elem_of_nil|].
  intros (-> & Hy & a & Ha & Hl) [-> | Hx]%elem_of_cons; [by eauto|by eapply IH].
Qed.

Lemma chain_fun m p l l' : chain nxt m p l -> chain nxt m p l' -> l = l'.
Proof.
  revert p l'. induction l as [|x l IH]; intros p [|y l']; cbn; [done| | |].
  - intros -> (? & ? & _). congruence.
  - intros (-> & ? & _) ?. congruence.
  - intros (-> & _ & a & Ha & Hl) (-> & _ & b & Hb & Hl'). simplify_eq. f_equal. by eapply IH.
Qed.

Lemma chain_split m p l1 x l2 :
  chain nxt m p (l1 ++ x :: l2) -> chain nxt m x (x :: l2).
Proof.
  revert p. induction l1 as [|y l1 IH]; intros p.
  - intros (-> & Hx & a & Ha & Hl). split_and!; eauto.
  - intros (-> & Hy & a & Ha & Hl). by eapply IH.
Qed.

Lemma chain_nodup m p l : chain nxt m p l -> NoDup l.
Proof.
  revert p. induction l as [|x l IH]; intros p Hc; [constructor|].
  constructor; [|destruct Hc as (_ & _ & a & _ & Hl); by eapply IH].
  intros (l1 & l2 & ->)%list_elem_of_split.
  pose proof (chain_split _ _ [] _ _ Hc) as Hx.
  assert (Hx' : chain nxt m x (x :: l2)) by (apply (chain_split m p (x :: l1)); done).
  pose proof (chain_fun _ _ _ _ Hx Hx') as E. apply (f_equal length) in E.
  revert E. cbn. rewrite length_app. cbn. lia.
Qed.

Lemma chain_size m p l : chain nxt m p l -> (length l <= size m)%nat.
Proof.
  intros Hc. rewrite <-size_dom. rewrite <-(size_list_to_set (C := gset Z)) by by eapply chain_nodup.
  apply subseteq_size. intros x Hx%elem_of_list_to_set.
  apply elem_of_dom. by eapply chain_in.
Qed.

(** A change of the memory that keeps the links of the list. *)
Lemma chain_agree m m' p l :
  (forall x a, x ∈ l -> m !! x = Some a -> exists a', m' !! x = Some a' /\ nxt a' = nxt a) ->
  chain nxt m p l -> chain nxt m' p l.
Proof.
  revert p. induction l as [|x l IH]; intros p Hm; [done|].
  intros (-> & Hx & a & Ha & Hl). destruct (Hm x a ltac:(constructor) Ha) as (a' & Ha' & E).
  split_and!; [done..|]. exists a'. rewrite E. split; [done|]. apply IH; [|done].
  intros y b Hy. apply Hm. by constructor.
Qed.

Lemma chain_insert_ne m p l x a : x ∉ l -> chain nxt m p l -> chain nxt (<[x := a]> m) p l.
Proof.
  intros Hx. apply chain_agree. intros y b Hy Hb. exists b. split; [|done].
  rewrite lookup_insert_ne; [done|by intros ->].
Qed.

Lemma chain_insert_same m p l x a b :
  m !! x = Some b -> nxt a = nxt b -> chain nxt m p l -> chain nxt (<[x := a]> m) p l.
Proof.
  intros Hb E. apply chain_agree. intros y c Hy Hc. destruct (decide (x = y)) as [->|].
  - rewrite lookup_insert_eq. exists a. simplify_eq. eauto.
  - rewrite lookup_insert_ne by done. eauto.
Qed.

(** A new element behind an element of the list. *)
Lemma chain_insert_after m p l1 y l2 z ay :
  chain nxt m p (l1 ++ y :: l2) -> m !! y = Some ay -> z ∉ l1 ++ y :: l2 -> z <> NULL ->
  forall ay' az', nxt az' = nxt ay -> nxt ay' = z ->
  chain nxt (<[y := ay']> (<[z := az']> m)) p (l1 ++ y :: z :: l2).
Proof.
  intros Hc Hy Hz Hz0 ay' az' Eaz Eay.
  pose proof (chain_nodup _ _ _ Hc) as Hnd. revert p Hc Hnd Hz.
  induction l1 as [|x l1 IH]; intros p; cbn [app].
  - intros (-> & Hy0 & a & Ha & Hl) [Hny _]%NoDup_cons Hz.
    assert (a = ay) as -> by congruence. assert (z <> y) by (intros ->; apply Hz; constructor).
    split_and!; [done..|]. exists ay'. rewrite lookup_insert_eq. split_and!; [done..|].
    split_and!; [done..|]. exists az'. rewrite lookup_insert_ne by congruence. rewrite lookup_insert_eq. split; [done|].
    rewrite Eaz. apply chain_insert_ne; [done|]. apply chain_insert_ne; [|done]. set_solver.
  - intros (-> & Hx0 & a & Ha & Hl) [Hnx Hnd]%NoDup_cons Hz.
    split_and!; [done..|]. exists a. rewrite !lookup_insert_ne by set_solver.
    split; [done|]. apply IH; [done|done|set_solver].
Qed.

(** An element taken out behind another. *)
Lemma chain_remove_after m p l1 y z l2 ay az :
  chain nxt m p (l1 ++ y :: z :: l2) -> m !! y = Some ay -> m !! z = Some az ->
  forall ay', nxt ay' = nxt az -> chain nxt (<[y := ay']> m) p (l1 ++ y :: l2).
Proof.
  intros Hc Hy Hz ay' E. pose proof (chain_nodup _ _ _ Hc) as Hnd. revert p Hc Hnd.
  induction l1 as [|x l1 IH]; intros p; cbn [app].
  - intros (-> & Hy0 & a & Ha & _ & Hz0 & b & Hb & Hl) [Hny [Hnz _]%NoDup_cons]%NoDup_cons.
    assert (b = az) as -> by congruence. split_and!; [done..|]. exists ay'. rewrite lookup_insert_eq, E. split; [done|].
    apply chain_insert_ne; [set_solver|done].
  - intros (-> & Hx0 & a & Ha & Hl) [Hnx Hnd]%NoDup_cons.
    split_and!; [done..|]. exists a. rewrite lookup_insert_ne by set_solver.
    split; [done|]. by apply IH.
Qed.
End chain.

