(* ===== verification/FsTree.v ===== *)
(** Directories: the children of a directory as a list, and what linking,
    finding and removing a node do to it. *)
From Stdlib Require Import Sorting.Sorted.
From S2P Require Import Prelude Bytes Heap Alloc AllocSession System RuntimeIO Paths PathSpec FsStore FileSystem FsImpl FsLemmas.

(** * Names *)

(** The name of a node: the characters in front of the terminator, or all of
    them. *)
Definition node_name (f : dfile) : list Z := cstr FS_NAME_LENGTH (name f).
Definition named (f : dfile) : Prop := length (name f) = Z.to_nat FS_NAME_LENGTH.
Definition name_at (m : gmap Z dfile) (x : Z) : list Z :=
  match m !! x with Some f => node_name f | None => [] end.

Lemma name_at_eq m x f : m !! x = Some f -> name_at m x = node_name f.
Proof. unfold name_at. by intros ->. Qed.

Lemma cmp_int_lt c : cmp_int c <? 0 = true <-> c = Lt.
Proof. by destruct c. Qed.
Lemma cmp_int_eq c : cmp_int c =? 0 = true <-> c = Eq.
Proof. by destruct c. Qed.

(** Every node has a name of full size. *)
Definition all_named (m : gmap Z dfile) : Prop := forall x f, m !! x = Some f -> named f.

Section tree.
Context {M : Type} {HS : System M} {HM : Machine}.
Implicit Types s : fs M.

(** * Rules for nodes *)

Lemma wp_get_file p f (Q : dfile -> fs M -> Prop) s :
  files s !! p = Some f -> p <> NULL -> Q f s -> wp (get_file_node p) Q s.
Proof.
  intros Hf Hp HQ. unfold wp, get_file_node, deref. rewrite (proj2 (Z.eqb_neq _ _)) by done.
  by rewrite Hf.
Qed.

Lemma wp_update_file p f g (Q : unit -> fs M -> Prop) s :
  files s !! p = Some f -> p <> NULL -> Q tt (with_files (<[p := g f]> (files s)) s) ->
  wp (update_file p g) Q s.
Proof. intros Hf Hp HQ. apply wp_bind. by eapply wp_get_file. Qed.

Lemma wp_node_cmp x y f g (Q : Z -> fs M -> Prop) s :
  files s !! x = Some f -> files s !! y = Some g -> x <> NULL -> y <> NULL ->
  named f -> named g -> Q (cmp_int (lex (node_name f) (node_name g))) s ->
  wp (node_cmp x y) Q s.
Proof.
  intros Hf Hg Hx Hy Nf Ng HQ. apply wp_bind. eapply wp_get_file; [done..|].
  apply wp_bind. eapply wp_get_file; [done..|]. unfold wp.
  rewrite namecmp_spec; [done|unfold named in *; rewrite ?Nf, ?Ng; done..].
Qed.

(** * Sorted insertion *)

Fixpoint insert_child (m : gmap Z dfile) (file : Z) (l : list Z) : list Z :=
  match l with
  | [] => [file]
  | x :: l' =>
      if decide (name_lt (name_at m file) (name_at m x)) then file :: l
      else x :: insert_child m file l'
  end.

Lemma insert_child_split m file l : exists l1 l2, l = l1 ++ l2 /\ insert_child m file l = l1 ++ file :: l2.
Proof.
  induction l as [|x l (l1 & l2 & -> & E)]; [by exists [], []|]. cbn.
  destruct (decide _); [by exists [], (x :: l1 ++ l2)|]. exists (x :: l1), l2. by rewrite E.
Qed.

Lemma insert_child_perm m file l : insert_child m file l ≡ₚ file :: l.
Proof.
  destruct (insert_child_split m file l) as (l1 & l2 & -> & ->). by rewrite Permutation_middle.
Qed.

(** Children in the order of their names; equal names are allowed. *)
Definition name_le (m : gmap Z dfile) (x y : Z) : Prop := ~ name_lt (name_at m y) (name_at m x).
Definition sorted_names (m : gmap Z dfile) (l : list Z) : Prop := StronglySorted (name_le m) l.

Lemma name_le_lex m x y : name_le m x y <-> lex (name_at m x) (name_at m y) <> Gt.
Proof.
  unfold name_le, name_lt. rewrite (lex_antisym (name_at m x) (name_at m y)).
  by destruct (lex (name_at m x) (name_at m y)).
Qed.

Lemma name_le_trans m x y z : name_le m x y -> name_le m y z -> name_le m x z.
Proof.
  rewrite !name_le_lex. intros H1 H2.
  destruct (lex (name_at m x) (name_at m y)) eqn:Exy; [by apply lex_eq in Exy; rewrite Exy| |done].
  destruct (lex (name_at m y) (name_at m z)) eqn:Eyz; [by apply lex_eq in Eyz; rewrite <-Eyz, Exy| |done].
  by rewrite (lex_trans _ _ _ Exy Eyz).
Qed.

Lemma insert_child_sorted m file l : sorted_names m l -> sorted_names m (insert_child m file l).
Proof.
  unfold sorted_names. induction 1 as [|x l Hl IH Hx]; cbn; [by repeat constructor|].
  destruct (decide (name_lt _ _)) as [Hlt|Hge].
  - assert (Hle : name_le m file x).
    { unfold name_le, name_lt in *. rewrite lex_antisym, Hlt. done. }
    constructor; [by constructor|]. constructor; [done|].
    eapply Forall_impl; [exact Hx|]. intros y Hy. by eapply name_le_trans.
  - constructor; [done|]. rewrite insert_child_perm. by constructor.
Qed.

Lemma link_walk_spec file x l ff s :
  chain next (files s) x (x :: l) -> all_named (files s) ->
  files s !! file = Some ff -> file <> NULL ->
  wp (link_walk file x) (fun y s' => s' = s /\ exists l1 l2, x :: l = l1 ++ y :: l2 /\
    x :: insert_child (files s) file l = l1 ++ y :: file :: l2) s.
Proof.
  intros Hc Hn Hff Hfile. apply wp_bind, wp_gets.
  assert (Hfuel : (length (x :: l) < file_fuel s)%nat).
  { unfold file_fuel. apply chain_size in Hc. lia. }
  revert x Hc Hfuel. generalize (file_fuel s). induction l as [|y l IH]; intros n x Hc Hfuel;
    (destruct n as [|n]; [lia|]); apply wp_loop_step, wp_bind;
    destruct Hc as (_ & Hx & a & Ha & Hl); (eapply wp_get_file; [done..|]).
  - cbn in Hl. rewrite Hl. apply wp_ret. split; [done|]. by exists [], [].
  - pose proof Hl as (Hy & Hy0 & b & Hb & _). rewrite Hy.
    rewrite (proj2 (Z.eqb_neq _ _)) by done. rewrite Hy in Hl. apply wp_bind.
    eapply wp_node_cmp; [done|done|done|done|by eapply Hn..|].
    cbn [insert_child]. rewrite (name_at_eq _ _ _ Hff), (name_at_eq _ _ _ Hb). unfold name_lt.
    case_bool.
    + apply wp_ret. split; [done|]. exists [], (y :: l). split; [done|].
      rewrite decide_True by by apply cmp_int_lt, Z.ltb_lt. done.
    + apply wp_ret. eapply wp_mono; [apply IH; [done|cbn in *; lia]|].
      intros z s' (-> & l1 & l2 & E1 & E2). split; [done|]. exists (x :: l1), l2. cbn.
      rewrite decide_False, <-E1, <-E2; [done|]. intros E%cmp_int_lt%Z.ltb_lt. lia.
Qed.

Lemma insert_child_ext m m' file l :
  (forall x, name_at m' x = name_at m x) -> insert_child m' file l = insert_child m file l.
Proof. intros E. induction l as [|x l IH]; cbn; [done|]. rewrite !E, IH. done. Qed.

(** What linking does to the memory of nodes. *)
Record linked (m m' : gmap Z dfile) (folder file : Z) (l : list Z) : Prop := {
  lk_chain : exists d, m' !! folder = Some d /\ chain next m' (content d) (insert_child m file l);
  lk_file f : m !! file = Some f -> exists n, m' !! file =
    Some (set_next n (set_hard_links (wrap16 (hard_links f + 1)) (set_parent folder f)));
  lk_folder d : m !! folder = Some d -> exists c, m' !! folder = Some (set_content c d);
  lk_kept x : x <> folder -> x <> file -> x ∉ l -> m' !! x = m !! x;
  lk_child x g : x ∈ l -> m !! x = Some g -> exists n, m' !! x = Some (set_next n g);
}.

Ltac lookups := repeat (rewrite lookup_insert_eq || rewrite lookup_insert_ne by (congruence || set_solver)).

(** A directory with its children. *)
Record children (m : gmap Z dfile) (folder : Z) (d : dfile) (l : list Z) : Prop := {
  ch_folder : m !! folder = Some d;
  ch_valid : folder <> NULL;
  ch_type : ftype d = DIRECTORY;
  ch_list : chain next m (content d) l;
  ch_self : folder ∉ l;
}.

Lemma linked_front m folder file l d f n :
  children m folder d l -> m !! file = Some f -> file <> NULL -> file <> folder -> file ∉ l ->
  insert_child m file l = file :: l ->
  n = content d ->
  linked m (<[folder := set_content file d]> (<[file := set_next n
    (set_hard_links (wrap16 (hard_links f + 1)) (set_parent folder f))]> m)) folder file l.
Proof.
  intros [Hd Hd0 Ht Hl Hs] Hf Hf0 Hne Hni E ->. split.
  - eexists. rewrite lookup_insert_eq. split; [done|]. rewrite E. split_and!; [done..|].
    eexists. lookups. split; [done|]. by do 2 (apply chain_insert_ne; [done|]).
  - intros f' [= <-]%(eq_trans (eq_sym Hf)). eexists. by lookups.
  - intros d' [= <-]%(eq_trans (eq_sym Hd)). eexists. by lookups.
  - intros. by lookups.
  - intros x g Hx Hg. exists (next g). lookups. by destruct g.
Qed.

Lemma linked_after m folder file d f l1 y l2 gy :
  children m folder d (l1 ++ y :: l2) -> m !! file = Some f -> file <> NULL -> file <> folder ->
  file ∉ l1 ++ y :: l2 -> insert_child m file (l1 ++ y :: l2) = l1 ++ y :: file :: l2 ->
  m !! y = Some gy ->
  linked m (<[y := set_next file gy]> (<[file := set_next (next gy)
    (set_hard_links (wrap16 (hard_links f + 1)) (set_parent folder f))]> m))
    folder file (l1 ++ y :: l2).
Proof.
  intros [Hd Hd0 Ht Hl Hs] Hf Hf0 Hne Hni E Hy.
  assert (y <> folder /\ y <> file) as [Hyd Hyf] by set_solver. split.
  - exists d. lookups. split; [done|]. rewrite E. by eapply chain_insert_after.
  - intros f' [= <-]%(eq_trans (eq_sym Hf)). eexists. by lookups.
  - intros d' [= <-]%(eq_trans (eq_sym Hd)). exists (content d). lookups. by destruct d.
  - intros. by lookups.
  - intros x g Hx Hg. destruct (decide (x = y)) as [->|].
    + exists file. lookups. congruence.
    + exists (next g). lookups. by destruct g.
Qed.

Lemma with_files_twice m m' s : with_files m (with_files m' s) = with_files m s.
Proof. done. Qed.

Ltac step_update := eapply wp_bind, wp_update_file; [by lookups|done|]; cbn beta.

(** The node before it is put into the list. *)
Definition adopted (folder : Z) (f : dfile) : dfile :=
  set_hard_links (wrap16 (hard_links f + 1)) (set_parent folder f).

Lemma link_spec folder file d f l s :
  children (files s) folder d l -> all_named (files s) ->
  files s !! file = Some f -> file <> NULL -> file <> folder -> file ∉ l ->
  wp (link_file_to_folder folder file) (fun r s' => r = 0 /\
    exists m', s' = with_files m' s /\ linked (files s) m' folder file l) s.
Proof.
  intros Hch Hn Hf Hf0 Hne Hni. pose proof Hch as [Hd Hd0 Ht Hl Hs].
  unfold link_file_to_folder. apply wp_bind. eapply wp_get_file; [done..|]. rewrite Ht. cbn [is_directory negb].
  apply wp_bind. eapply wp_update_file; [done..|].
  apply wp_bind. eapply wp_update_file; [cbn; apply lookup_insert_eq|done|].
  rewrite with_files_twice. cbn [files with_files]. rewrite insert_insert_eq.
  set (f1 := set_hard_links _ _). set (m1 := <[file := f1]> (files s)).
  assert (Hf1 : m1 !! file = Some f1) by apply lookup_insert_eq.
  assert (Hn1 : all_named m1).
  { intros x g. unfold m1. rewrite lookup_insert_Some. intros [[<- <-]|[_ Hg]]; [|by eapply Hn].
    by apply (Hn file f Hf). }
  assert (Hnames : forall x, name_at m1 x = name_at (files s) x).
  { intros x. unfold name_at, m1. destruct (decide (file = x)) as [<-|]; lookups; [by rewrite Hf|done]. }
  assert (Hd1 : m1 !! folder = Some d) by (unfold m1; by lookups).
  assert (Hl1 : chain next m1 (content d) l) by by apply chain_insert_ne.
  apply wp_bind. eapply wp_get_file; [done..|]. apply wp_bind.
  eapply wp_mono with (P := fun _ s' => exists m', s' = with_files m' s /\ linked (files s) m' folder file l).
  2: { intros _ s' Hm. by apply wp_ret. }
  case_bool.
  - (* the first child *)
    assert (l = []) as ->. { destruct l as [|x l]; [done|]. destruct Hl as (E & Hx & _). congruence. }
    apply wp_bind. eapply wp_update_file; [done..|]. eapply wp_update_file; [cbn; by lookups|done|].
    eexists. split; [done|]. cbn [files with_files]. rewrite insert_insert_ne by done.
    unfold m1. rewrite insert_insert_eq. exact (linked_front _ _ _ _ _ _ _ Hch Hf Hf0 Hne Hni eq_refl (eq_sym Hb)).
  - destruct l as [|x l]; [done|]. pose proof Hl1 as (-> & Hx & g & Hg & Hlg).
    apply wp_bind. eapply wp_node_cmp; [done..|by eapply Hn1|by eapply Hn1|]. case_bool.
    + (* in front *)
      apply wp_bind. eapply wp_update_file; [done..|]. eapply wp_update_file; [cbn; by lookups|done|].
      eexists. split; [done|]. cbn [files with_files]. unfold m1. rewrite insert_insert_eq.
      apply (linked_front _ _ _ _ _ _ _ Hch Hf Hf0 Hne Hni); [|by destruct Hl]. cbn [insert_child]. rewrite decide_True; [done|].
      rewrite <-!Hnames, (name_at_eq _ _ _ Hf1), (name_at_eq _ _ _ Hg).
      by apply cmp_int_lt, Z.ltb_lt.
    + (* behind the last child that is not greater *)
      apply wp_bind. eapply wp_mono.
      { eapply link_walk_spec; [split_and!; by eauto|done|done|done]. }
      intros y s' (-> & l1 & l2 & E & E'). cbn [files with_files] in E'.
      rewrite (insert_child_ext (files s)) in E' by done.
      destruct (chain_in _ _ _ _ y Hl1) as [Hy0 [gy Hgy]]; [rewrite E; set_solver|].
      assert (y <> file) as Hyf by (intros ->; apply Hni; rewrite E; set_solver).
      apply wp_bind. eapply wp_get_file; [done..|]. apply wp_bind.
      eapply wp_update_file; [done..|]. eapply wp_update_file; [cbn; by lookups|done|].
      eexists. split; [done|]. cbn [files with_files]. unfold m1 in *. rewrite insert_insert_eq.
      rewrite E in Hch, Hni |- *. rewrite lookup_insert_ne in Hgy by done.
      apply (linked_after _ _ _ _ _ _ _ _ _ Hch Hf Hf0 Hne Hni); [|done]. rewrite <-E. cbn [insert_child]. rewrite decide_False; [done|].
      rewrite <-!Hnames, (name_at_eq _ _ _ Hf1), (name_at_eq _ _ _ Hg).
      intros ?%cmp_int_lt%Z.ltb_lt. lia.
Qed.

(** * Search *)

(** The name a path stands for, when it is compared with names. *)
Definition path_name (q : path) : list Z := take_while (fun c => negb (c =? NUL)) (text q).

Lemma path_name_cstr q : cstr (p_len q) (path_tail q) = path_name q.
Proof. done. Qed.

Lemma path_tail_length q : path_ok q -> 0 <= p_len q <= Z.of_nat (length (path_tail q)).
Proof. intros [Ho Hl Hi]. unfold path_tail. rewrite length_drop. lia. Qed.

Fixpoint find_child (m : gmap Z dfile) (t : list Z) (l : list Z) : Z :=
  match l with
  | [] => NULL
  | x :: l =>
      match lex (name_at m x) t with Eq => x | Gt => NULL | Lt => find_child m t l end
  end.

Lemma find_walk_spec q p l s :
  path_ok q -> chain next (files s) p l -> all_named (files s) ->
  find_walk q p s = Ret (find_child (files s) (path_name q) l) s.
Proof.
  intros Hq Hc Hn.
  assert (Hw : wp (find_walk q p) (fun r s' => s' = s /\ r = find_child (files s) (path_name q) l) s).
  2: { apply wp_run in Hw as (r & s' & E & -> & ->). done. }
  apply wp_bind, wp_gets.
  assert (Hfuel : (length l < file_fuel s)%nat) by (unfold file_fuel; apply chain_size in Hc; lia).
  revert p Hc Hfuel. generalize (file_fuel s). induction l as [|x l IH]; intros n p Hc Hfuel;
    (destruct n as [|n]; [lia|]); apply wp_loop_step.
  - cbn in Hc. subst p. by apply wp_ret.
  - destruct Hc as (-> & Hx & f & Hf & Hl). rewrite (proj2 (Z.eqb_neq _ _)) by done.
    apply wp_bind. eapply wp_get_file; [done..|]. apply wp_bind. unfold wp at 1.
    pose proof (Hn _ _ Hf) as Nf. unfold named in Nf.
    rewrite namecmp_spec by (by apply path_tail_length || rewrite Nf; done).
    rewrite path_name_cstr. cbn [find_child]. rewrite (name_at_eq _ _ _ Hf). unfold node_name.
    destruct (lex _ _); cbn -[loop]; [by apply wp_ret| |by apply wp_ret].
    apply wp_ret, IH; [done|cbn in *; lia].
Qed.

(** A path that is neither ["."] nor [".."]. *)
Definition plain (q : path) : Prop := text q <> [dot] /\ text q <> [dot; dot].

Lemma is_dot_spec q s : path_ok q -> is_dot q s = Ret (bool_decide (text q = [dot])) s.
Proof.
  intros Hq. unfold is_dot. pose proof (sub_string_length _ _ _ (po_off q Hq) (proj1 (po_len q Hq)) (po_in q Hq)) as Hlen.
  destruct (p_len q =? 1) eqn:E; bool_to_prop.
  - destruct (zlookup_lt 0 (text q)) as [c Hc]; [unfold text; lia|].
    unfold bind, path_char. rewrite (char_at_eq _ _ c) by (rewrite text_char by (done || lia); done).
    unfold ret. f_equal. destruct (text q) as [|d [|? ?]] eqn:Et; unfold text in Et; rewrite Et in Hlen; cbn in Hlen; try lia.
    cbn in Hc. injection Hc as ->. destruct (c =? dot) eqn:Ec; bool_to_prop; symmetry.
    + apply bool_decide_eq_true. congruence.
    + apply bool_decide_eq_false. congruence.
  - unfold ret. f_equal. symmetry. apply bool_decide_eq_false. intros Et. unfold text in Et. rewrite Et in Hlen. cbn in Hlen. lia.
Qed.

Lemma is_dot_dot_spec q s : path_ok q -> is_dot_dot q s = Ret (bool_decide (text q = [dot; dot])) s.
Proof.
  intros Hq. unfold is_dot_dot. pose proof (sub_string_length _ _ _ (po_off q Hq) (proj1 (po_len q Hq)) (po_in q Hq)) as Hlen.
  destruct (p_len q =? 2) eqn:E; bool_to_prop.
  - destruct (zlookup_lt 0 (text q)) as [c Hc]; [unfold text; lia|].
    destruct (zlookup_lt 1 (text q)) as [c' Hc']; [unfold text; lia|].
    unfold bind, path_char. rewrite (char_at_eq _ _ c) by (rewrite text_char by (done || lia); done).
    assert (Et : text q = [c; c']).
    { destruct (text q) as [|d [|d' [|? ?]]] eqn:Et; unfold text in Et; rewrite Et in Hlen; cbn in Hlen; try lia.
      change (Some d = Some c) in Hc. change (Some d' = Some c') in Hc'. congruence. }
    destruct (c =? dot) eqn:Ec; bool_to_prop.
    + rewrite (char_at_eq _ _ c') by (rewrite text_char by (done || lia); done).
      unfold ret. f_equal. destruct (c' =? dot) eqn:Ec'; bool_to_prop; symmetry.
      * apply bool_decide_eq_true. congruence.
      * apply bool_decide_eq_false. congruence.
    + unfold ret. f_equal. symmetry. apply bool_decide_eq_false. congruence.
  - unfold ret. f_equal. symmetry. apply bool_decide_eq_false. intros Et. unfold text in Et. rewrite Et in Hlen. cbn in Hlen. lia.
Qed.

Lemma find_in_dir_spec folder d l q s :
  path_ok q -> plain q -> children (files s) folder d l -> all_named (files s) ->
  find_file_in_dir folder q s = Ret (find_child (files s) (path_name q) l) s.
Proof.
  intros Hq [Hp1 Hp2] [Hd Hd0 Ht Hl Hs] Hn. unfold find_file_in_dir, bind.
  rewrite is_dot_spec, bool_decide_eq_false_2 by done.
  rewrite is_dot_dot_spec, bool_decide_eq_false_2 by done.
  unfold get_file_node, deref. rewrite (proj2 (Z.eqb_neq _ _)) by done. rewrite Hd.
  by apply find_walk_spec.
Qed.

(** What the search returns in a sorted directory. *)
Lemma find_child_sound m t l : find_child m t l <> NULL ->
  find_child m t l ∈ l /\ name_at m (find_child m t l) = t.
Proof.
  induction l as [|x l IH]; cbn; [done|]. destruct (lex (name_at m x) t) eqn:E; [|intros H|done].
  - apply lex_eq in E. intros _. split; [constructor|done].
  - destruct (IH H). split; [by constructor|done].
Qed.

Lemma find_child_none m t l :
  sorted_names m l -> (NULL ∉ l) -> find_child m t l = NULL -> forall x, x ∈ l -> name_at m x <> t.
Proof.
  induction 1 as [|y l Hl IH Hy]; intros Hnull; [intros _ x []%elem_of_nil|]. cbn.
  destruct (lex (name_at m y) t) eqn:E; [set_solver| |].
  - intros Hf x [->|Hx]%elem_of_cons; [intros <-; by rewrite lex_refl in E|].
    apply IH; [set_solver|done|done].
  - intros _ x [->|Hx]%elem_of_cons <-; [by rewrite lex_refl in E|].
    rewrite Forall_forall in Hy. by apply (proj1 (name_le_lex _ _ _) (Hy x Hx)).
Qed.

(** After an insertion the search finds the new node under its name, unless a
    node of that name was there, and every other name where it was. *)
Lemma find_child_insert m file t l :
  (NULL ∉ l) -> sorted_names m l ->
  find_child m t (insert_child m file l) =
  if decide (name_at m file = t)
  then (if decide (find_child m t l = NULL) then file else find_child m t l)
  else find_child m t l.
Proof.
  intros Hnull Hs. induction Hs as [|x l Hs IH Hx]; cbn [insert_child].
  - cbn. destruct (decide (name_at m file = t)) as [E|E]; [by rewrite E, lex_refl|].
    destruct (lex _ _) eqn:El; [|done|done]. by apply lex_eq in El.
  - destruct (decide (name_lt (name_at m file) (name_at m x))) as [Hlt|Hge].
    + cbn [find_child]. unfold name_lt in Hlt. destruct (decide (name_at m file = t)) as [<-|E].
      * by rewrite lex_refl, lex_antisym, Hlt.
      * destruct (lex (name_at m file) t) eqn:El; [by apply lex_eq in El|done|].
        assert (El' : lex t (name_at m file) = Lt) by by rewrite lex_antisym, El.
        by rewrite (lex_antisym t), (lex_trans _ _ _ El' Hlt).
    + cbn [find_child]. destruct (lex (name_at m x) t) eqn:El.
      * destruct (decide (x = NULL)); [set_solver|]. by destruct (decide _).
      * rewrite IH by set_solver. done.
      * destruct (decide (name_at m file = t)) as [<-|E]; [|done].
        exfalso. apply Hge. unfold name_lt. by rewrite lex_antisym, El.
Qed.

(** The names of the nodes after linking. *)
Lemma linked_names m m' folder file d f l :
  linked m m' folder file l -> m !! folder = Some d -> m !! file = Some f ->
  (forall x, x ∈ l -> is_Some (m !! x)) -> forall x, name_at m' x = name_at m x.
Proof.
  intros [_ Hf Hd Hk Hc] Ed Ef Hin x. unfold name_at.
  destruct (decide (x = file)) as [->|]; [destruct (Hf _ Ef) as [n ->]; by rewrite Ef|].
  destruct (decide (x = folder)) as [->|]; [destruct (Hd _ Ed) as [c ->]; by rewrite Ed|].
  destruct (decide (x ∈ l)) as [Hx|]; [|by rewrite Hk].
  destruct (Hin _ Hx) as [g Hg]. destruct (Hc _ _ Hx Hg) as [k ->]. by rewrite Hg.
Qed.

Lemma linked_all_named m m' folder file d f l :
  linked m m' folder file l -> m !! folder = Some d -> m !! file = Some f ->
  (forall x, x ∈ l -> is_Some (m !! x)) -> all_named m -> all_named m'.
Proof.
  intros [_ Hf Hd Hk Hc] Ed Ef Hin Hn x g Hg.
  destruct (decide (x = file)) as [->|].
  { destruct (Hf _ Ef) as [n E]. rewrite Hg in E. apply (inj Some) in E as ->. exact (Hn _ _ Ef). }
  destruct (decide (x = folder)) as [->|].
  { destruct (Hd _ Ed) as [c E]. rewrite Hg in E. apply (inj Some) in E as ->. exact (Hn _ _ Ed). }
  destruct (decide (x ∈ l)) as [Hx|Hx].
  - destruct (Hin _ Hx) as [h Hh]. destruct (Hc _ _ Hx Hh) as [k E]. rewrite Hg in E.
    apply (inj Some) in E as ->. exact (Hn _ _ Hh).
  - rewrite Hk in Hg by done. by apply (Hn x).
Qed.

(** Linking keeps the shape of the directory. *)
Lemma linked_children m m' folder file d f l :
  children m folder d l -> linked m m' folder file l -> m !! file = Some f ->
  file <> folder ->
  exists d', children m' folder d' (insert_child m file l).
Proof.
  intros [Hd Hd0 Ht Hl Hs] Hlk Hf Hne. destruct (lk_chain _ _ _ _ _ Hlk) as (d' & Hd' & Hl').
  exists d'. split; [done|done| |done|].
  - destruct (lk_folder _ _ _ _ _ Hlk _ Hd) as [c E]. rewrite Hd' in E. apply (inj Some) in E as ->. done.
  - rewrite insert_child_perm. set_solver.
Qed.

Lemma sorted_names_ext m m' l :
  (forall x, name_at m' x = name_at m x) -> sorted_names m l -> sorted_names m' l.
Proof.
  intros E. unfold sorted_names. apply StronglySorted_ind; [constructor|]. intros x k Hk IH Hx.
  constructor; [done|]. eapply Forall_impl; [exact Hx|]. intros y. by rewrite !name_le_lex, !E.
Qed.

Lemma find_child_ext m m' t l :
  (forall x, name_at m' x = name_at m x) -> find_child m' t l = find_child m t l.
Proof. intros E. induction l as [|x l IH]; cbn; [done|]. by rewrite E, IH. Qed.
End tree.
