(* ===== verification/FsResolve.v ===== *)
(** Path lookup: [find_file_path] follows the components of a path through the
    tree of directories. *)
From Stdlib Require Import Sorting.Sorted.
From S2P Require Import Prelude Bytes Heap Alloc AllocSession System RuntimeIO Paths PathSpec FsStore FileSystem FsImpl FsLemmas FsTree.

(** * The tree as a client sees it

    [kids x] are the children of the directory [x].  The nodes that a path can
    lead to: the root, children, and parents. *)
Inductive reached (m : gmap Z dfile) (kids : Z -> list Z) : Z -> Prop :=
| reached_root : reached m kids fs_root
| reached_child x y : reached m kids x -> y ∈ kids x -> reached m kids y
| reached_parent x d : reached m kids x -> m !! x = Some d -> parent d <> NULL -> reached m kids (parent d).

Record tree_ok (m : gmap Z dfile) (kids : Z -> list Z) : Prop := {
  tk_root : exists d, m !! fs_root = Some d;
  tk_named : all_named m;
  tk_kids x d : m !! x = Some d -> ftype d = DIRECTORY -> chain next m (content d) (kids x);
  tk_self x : x ∉ kids x;
  tk_null : m !! NULL = None;
  tk_parent x d : reached m kids x -> m !! x = Some d -> parent d = NULL \/ is_Some (m !! parent d);
}.

(** One component: ["."], [".."] or the child of that name. *)
Definition enter (m : gmap Z dfile) (kids : Z -> list Z) (cur : Z) (c : list Z) : Z :=
  if decide (c = [dot]) then cur else
  if decide (c = [dot; dot]) then match m !! cur with Some d => parent d | None => NULL end else
  find_child m (take_while (fun c => negb (c =? NUL)) c) (kids cur).

Fixpoint resolve (m : gmap Z dfile) (kids : Z -> list Z) (cur : Z) (cs : list (list Z)) : Z :=
  match cs with
  | [] => cur
  | c :: cs =>
      match m !! cur with
      | Some d =>
          if is_directory (ftype d) then
            let next := enter m kids cur c in
            if next =? NULL then NULL else resolve m kids next cs
          else NULL
      | None => NULL
      end
  end.

Section resolve.
Context {M : Type} {HS : System M} {HM : Machine}.
Implicit Types s : fs M.

Lemma enter_node m kids cur c d :
  tree_ok m kids -> reached m kids cur -> m !! cur = Some d -> ftype d = DIRECTORY ->
  enter m kids cur c = NULL \/ is_Some (m !! enter m kids cur c) /\ reached m kids (enter m kids cur c).
Proof.
  intros Ht Hr Hd Hdir. unfold enter. destruct (decide (c = [dot])); [right; by rewrite Hd|].
  destruct (decide (c = [dot; dot])).
  { rewrite Hd. destruct (decide (parent d = NULL)) as [|Hp]; [by left|right].
    destruct (tk_parent _ _ Ht cur d Hr Hd) as [|?]; [done|]. split; [done|by eapply reached_parent]. }
  destruct (decide (find_child m (take_while (fun c => negb (c =? NUL)) c) (kids cur) = NULL)) as [E|E]; [by left|right].
  apply find_child_sound in E as [Hin _]. split; [|by eapply reached_child].
  eapply chain_in; [|exact Hin]. by apply (tk_kids _ _ Ht).
Qed.

Lemma find_in_dir_enter s kids cur d q :
  tree_ok (files s) kids -> files s !! cur = Some d -> ftype d = DIRECTORY -> path_ok q ->
  find_file_in_dir cur q s = Ret (enter (files s) kids cur (text q)) s.
Proof.
  intros Ht Hd Hdir Hq. assert (Hc0 : cur <> NULL).
  { intros ->. by rewrite (tk_null _ _ Ht) in Hd. }
  unfold enter. destruct (decide (text q = [dot])) as [E|E].
  { unfold find_file_in_dir, bind. by rewrite is_dot_spec, bool_decide_eq_true_2. }
  destruct (decide (text q = [dot; dot])) as [E2|E2].
  - unfold find_file_in_dir, bind. rewrite is_dot_spec, bool_decide_eq_false_2 by done.
    rewrite is_dot_dot_spec, bool_decide_eq_true_2 by done.
    unfold get_file_node, deref. rewrite (proj2 (Z.eqb_neq _ _)) by done. by rewrite Hd.
  - apply (find_in_dir_spec cur d); [done|done| |apply (tk_named _ _ Ht)].
    split; [done|done|done|by apply (tk_kids _ _ Ht)|apply (tk_self _ _ Ht)].
Qed.

Lemma text_length q : path_ok q -> Z.of_nat (length (text q)) = p_len q.
Proof. intros [Ho Hl Hi]. by apply sub_string_length; lia. Qed.

(** The characters of a path, as they are copied into a node. *)
Lemma path_chars_spec q i n s :
  path_ok q -> 0 <= i -> i + Z.of_nat n <= p_len q ->
  path_chars q i n s = Ret (sub_string (p_str q) (p_off q + i) (Z.of_nat n)) s.
Proof.
  intros [Ho Hl Hi]. revert i. induction n as [|n IH]; intros i Hi0 Hn; cbn [path_chars].
  - by rewrite sub_string_nil by lia.
  - destruct (zlookup_lt (p_off q + i) (p_str q) ltac:(lia)) as [c Hc].
    unfold bind, path_char. rewrite (char_at_eq _ _ c) by done. rewrite IH by lia.
    rewrite (sub_string_cons _ (p_off q + i) _ c) by (done || lia). unfold ret. f_equal. f_equal.
    f_equal; lia.
Qed.

Lemma advance_shorter p q p' :
  path_ok p -> path_ok q -> path_ok p' -> text q <> [] ->
  text q = take_while not_slash (drop_while is_slash (text p)) ->
  text p' = drop_while not_slash (drop_while is_slash (text p)) -> p_len p' < p_len p.
Proof.
  intros Hp Hq Hp' Hne Eq Ep.
  rewrite <-(text_length p), <-(text_length p') by done.
  pose proof (f_equal length (take_drop_while is_slash (text p))) as H1.
  pose proof (f_equal length (take_drop_while not_slash (drop_while is_slash (text p)))) as H2.
  rewrite <-Eq, <-Ep in H2. rewrite length_app in H1, H2.
  destruct (text q); [done|]. cbn in H2. lia.
Qed.

Lemma find_file_path_spec s kids p :
  tree_ok (files s) kids -> path_ok p ->
  find_file_path p s = Ret (resolve (files s) kids fs_root (components (text p))) s.
Proof.
  intros Ht Hp. unfold find_file_path, path_fuel.
  match goal with |- loop _ ?b _ _ = _ => set (body := b) end.
  assert (Hfuel : p_len p < Z.of_nat (Datatypes.S (Z.to_nat (p_len p)))) by (destruct Hp; lia).
  assert (Hcur : is_Some (files s !! fs_root) /\ reached (files s) kids fs_root) by (split; [destruct (tk_root _ _ Ht); eauto|constructor]).
  revert p Hp Hfuel Hcur. generalize fs_root.
  enough (Hgen : forall n cur p, path_ok p -> p_len p < Z.of_nat n -> is_Some (files s !! cur) /\ reached (files s) kids cur ->
    loop n body (cur, p) s = Ret (resolve (files s) kids cur (components (text p))) s) by (intros; by apply Hgen).
  induction n as [|n IH]; intros cur p Hp Hf [[d Hd] Hr]; [destruct Hp; lia|].
  cbn [loop]. unfold bind at 1, body at 1, bind at 1.
  destruct (component_advance_spec p s Hp) as (q & p' & Hrun & Hq & Hp' & _ & _ & _ & Eq & Ep).
  rewrite Hrun. rewrite (advance_components p q p' Eq Ep).
  destruct (p_len q =? 0) eqn:El; bool_to_prop.
  { apply text_nil in El; [|done]. by rewrite El. }
  assert (Hne : text q <> []) by (intros E; by apply El, text_nil).
  pose proof (advance_shorter p q p' Hp Hq Hp' Hne Eq Ep) as Hlt.
  assert (Hc0 : cur <> NULL) by (intros ->; by rewrite (tk_null _ _ Ht) in Hd).
  unfold bind at 1, get_file_node, deref. rewrite (proj2 (Z.eqb_neq _ _)) by done. rewrite Hd.
  destruct (text q) as [|c w] eqn:Et; [done|]. cbn [resolve]. rewrite Hd.
  destruct (is_directory (ftype d)) eqn:Edir; [|done]. cbn [negb].
  assert (Hdir : ftype d = DIRECTORY) by (by destruct (ftype d)).
  unfold bind at 1. rewrite (find_in_dir_enter s kids cur d q), Et by done.
  destruct (enter_node (files s) kids cur (c :: w) d Ht Hr Hd Hdir) as [E|[E Hr']].
  - by rewrite E.
  - assert (Hnn : enter (files s) kids cur (c :: w) <> NULL).
    { intros H0. rewrite H0, (tk_null _ _ Ht) in E. by destruct E. }
    rewrite (proj2 (Z.eqb_neq _ _)) by done. apply IH; [done|lia|done].
Qed.

(** A C string with fewer than [FS_PATH_LENGTH] characters. *)
Record c_string (str t : list Z) : Prop := {
  cs_text : exists r, str = t ++ NUL :: r;
  cs_nul : Forall (fun c => c <> NUL) t;
  cs_len : Z.of_nat (length t) < FS_PATH_LENGTH;
}.

Lemma take_while_id f l : Forall (fun c => f c = true) l -> take_while f l = l.
Proof. induction 1 as [|c l Hc Hl IH]; cbn; [done|]. by rewrite Hc, IH. Qed.

Lemma path_from_string_spec (exit : Z -> prog (fs M) unit) str t s :
  c_string str t ->
  path_from_string exit str s = Ret (Path str 0 (Z.of_nat (length t))) s /\
  path_ok (Path str 0 (Z.of_nat (length t))) /\ text (Path str 0 (Z.of_nat (length t))) = t.
Proof.
  intros [[r ->] Hn Hl]. unfold FS_PATH_LENGTH in Hl.
  assert (Hsub : sub_string (t ++ NUL :: r) 0 (Z.of_nat (length t)) = t).
  { unfold sub_string. change (Z.to_nat 0) with 0%nat. rewrite drop_0. by rewrite Nat2Z.id, take_app_length. }
  split_and!.
  - unfold path_from_string, bind at 1.
    rewrite (scan_spec (t ++ NUL :: r) (fun c => negb (c =? NUL)) 0 (Z.of_nat (length t))).
    + rewrite Hsub, take_while_id.
      2: { eapply Forall_impl; [exact Hn|]. intros c Hc. cbn. by apply negb_true_iff, Z.eqb_neq. }
      rewrite (proj2 (Z.leb_gt _ _)) by (unfold FS_PATH_LENGTH; lia). done.
    + lia.
    + lia.
    + rewrite length_app. lia.
    + intros i c Hi Hc. unfold bind. rewrite (char_at_eq _ _ c) by done.
      rewrite (proj2 (Z.ltb_lt _ _)) by (unfold FS_PATH_LENGTH; lia). by rewrite andb_true_r.
    + unfold bind. rewrite (char_at_eq _ _ NUL); [done|].
      unfold zlookup. rewrite (proj2 (Z.leb_le _ _)) by lia. rewrite Nat2Z.id.
      by rewrite lookup_app_r, Nat.sub_diag by lia.
    + unfold FS_PATH_LENGTH. lia.
  - split; cbn; [lia|lia|]. rewrite length_app. lia.
  - exact Hsub.
Qed.

Lemma find_file_spec s kids str t :
  tree_ok (files s) kids -> c_string str t ->
  find_file str s = Ret (resolve (files s) kids fs_root (components t)) s.
Proof.
  intros Ht Hs. destruct (path_from_string_spec fs_exit str t s Hs) as (Hrun & Hp & Et).
  unfold find_file, bind. rewrite Hrun. rewrite (find_file_path_spec s kids) by done. by rewrite Et.
Qed.
End resolve.
