(* ===== verification/FsData.v ===== *)
(** Files: the bytes held by a list of chunks, and what reading, writing,
    seeking and asking for the size do with them. *)
From S2P Require Import Prelude Bytes Heap Alloc AllocSession System RuntimeIO Paths PathSpec FsStore FileSystem FsImpl FsLemmas FsTree.

Section bytes.
Context {M : Type} {HS : System M} {HM : Machine}.
Implicit Types s : fs M.

Lemma with_bytes_twice b b' s : with_bytes b (with_bytes b' s) = with_bytes b s.
Proof. done. Qed.
Lemma with_bytes_id s : with_bytes (bytes s) s = s.
Proof. by destruct s. Qed.
Lemma with_chunks_id s : with_chunks (chunks s) s = s.
Proof. by destruct s. Qed.

Lemma wp_load_byte a b (Q : Z -> fs M -> Prop) s :
  bytes s !! a = Some b -> a <> NULL -> Q b s -> wp (load_byte a) Q s.
Proof.
  intros Hb Ha HQ. unfold wp, load_byte, deref. rewrite (proj2 (Z.eqb_neq _ _)) by done.
  by rewrite Hb.
Qed.

Lemma wp_store_byte a b (Q : unit -> fs M -> Prop) s :
  is_Some (bytes s !! a) -> a <> NULL -> Q tt (with_bytes (<[a := b]> (bytes s)) s) ->
  wp (store_byte a b) Q s.
Proof. intros [c Hc] Ha HQ. apply wp_bind. by eapply wp_load_byte. Qed.

(** [memcpy] between ranges that do not overlap. *)
Lemma wp_memcpy dst src t (Q : unit -> fs M -> Prop) s :
  let n := Z.of_nat (length t) in
  region (bytes s) src t -> writable (bytes s) dst n -> 0 < src -> 0 < dst ->
  disjoint_range dst n src n ->
  Q tt (with_bytes (write_bytes dst t (bytes s)) s) -> wp (memcpy dst src n) Q s.
Proof.
  intros n Hr Hw Hs Hd Hdis HQ. apply wp_bind.
  apply (wp_for (fun i s' => s' = with_bytes (write_bytes dst (take (Z.to_nat i) t) (bytes s)) s)).
  - lia.
  - change (s = with_bytes (bytes s) s). by destruct s.
  - intros i s' Hi ->. destruct (zlookup_lt i t ltac:(lia)) as [b Hb]. apply wp_bind.
    eapply (wp_load_byte _ b); [|unfold NULL; lia|].
    { cbn. rewrite write_bytes_out; [by apply Hr|]. rewrite length_take. unfold disjoint_range in Hdis. lia. }
    apply wp_bind. apply wp_store_byte; [|unfold NULL; lia|].
    { exact (writable_write _ _ _ _ _ Hw i Hi). }
    apply wp_ret. rewrite with_bytes_twice. cbn [bytes with_bytes].
    unfold zlookup in Hb. rewrite (proj2 (Z.leb_le _ _)) in Hb by lia.
    replace (Z.to_nat (i + 1)) with (Datatypes.S (Z.to_nat i)) by lia.
    rewrite (take_S_r _ _ _ Hb), write_bytes_snoc, length_take.
    by replace (dst + Z.of_nat (Z.to_nat i `min` length t)%nat) with (dst + i) by lia.
  - intros s' ->. apply wp_ret. unfold n. by rewrite Nat2Z.id, firstn_all.
Qed.

Lemma wp_get_chunk p c (Q : file_chunk -> fs M -> Prop) s :
  chunks s !! p = Some c -> p <> NULL -> Q c s -> wp (get_chunk p) Q s.
Proof.
  intros Hc Hp HQ. unfold wp, get_chunk, deref. rewrite (proj2 (Z.eqb_neq _ _)) by done.
  by rewrite Hc.
Qed.

Lemma wp_update_chunk p c g (Q : unit -> fs M -> Prop) s :
  chunks s !! p = Some c -> p <> NULL -> Q tt (with_chunks (<[p := g c]> (chunks s)) s) ->
  wp (update_chunk p g) Q s.
Proof. intros Hc Hp HQ. apply wp_bind. by eapply wp_get_chunk. Qed.

Lemma wp_get_open fd o (Q : open_file -> fs M -> Prop) s :
  zlookup fd (open_files s) = Some o -> Q o s -> wp (get_open fd) Q s.
Proof. intros Ho HQ. unfold wp, get_open. by rewrite Ho. Qed.

Lemma wp_set_open fd o o' (Q : unit -> fs M -> Prop) s :
  zlookup fd (open_files s) = Some o ->
  Q tt (with_open_files (zinsert fd o' (open_files s)) s) -> wp (set_open fd o') Q s.
Proof. intros Ho HQ. apply wp_bind. by eapply wp_get_open. Qed.

Lemma wp_update_open fd o g (Q : unit -> fs M -> Prop) s :
  zlookup fd (open_files s) = Some o ->
  Q tt (with_open_files (zinsert fd (g o) (open_files s)) s) -> wp (update_open fd g) Q s.
Proof. intros Ho HQ. apply wp_bind. eapply wp_get_open; [done|]. by eapply wp_set_open. Qed.

(** * The content of a file *)

(** A list of chunks with the bytes each of them holds. *)
Definition holds_text (cs : gmap Z file_chunk) (m : gmap Z Z) (xt : Z * list Z) : Prop :=
  exists c, cs !! xt.1 = Some c /\ used c = Z.of_nat (length xt.2) /\
    used c <= capacity c < 2 ^ 31 /\ 0 < data c /\ region m (data c) xt.2.
Definition stored (cs : gmap Z file_chunk) (m : gmap Z Z) (p : Z) (l : list (Z * list Z)) : Prop :=
  chain next_chunk cs p l.*1 /\ Forall (holds_text cs m) l.

(** The bytes of the file. *)
Definition contents (l : list (Z * list Z)) : list Z := concat l.*2.

Lemma stored_cons cs m p x t l :
  stored cs m p ((x, t) :: l) ->
  p = x /\ x <> NULL /\ exists c, cs !! x = Some c /\ used c = Z.of_nat (length t) /\
    used c <= capacity c < 2 ^ 31 /\ 0 < data c /\ region m (data c) t /\
    stored cs m (next_chunk c) l.
Proof.
  intros [(-> & Hx & c & Hc & Hl) Hf]. apply Forall_cons in Hf as [(c' & Hc' & Hu & Hcap & Hd & Hr) Hf].
  cbv [fst snd] in Hc, Hc', Hu, Hr, Hx. assert (c' = c) as -> by congruence. split_and!; [done..|].
  exists c. split_and!; done || lia.
Qed.

(** The sum over the chunks of a file. *)
Lemma content_chunks_spec first l f s (step : file_chunk -> Z -> Z) :
  chain next_chunk (chunks s) first l ->
  (forall x c acc, x ∈ l -> chunks s !! x = Some c -> f c acc s = Ret (step c acc) s) ->
  content_chunks first f s =
  Ret (foldl (fun acc x => match chunks s !! x with Some c => step c acc | None => acc end) 0 l) s.
Proof.
  intros Hc Hf.
  assert (Hw : wp (content_chunks first f) (fun r s' => s' = s /\ r =
    foldl (fun acc x => match chunks s !! x with Some c => step c acc | None => acc end) 0 l) s).
  2: { apply wp_run in Hw as (r & s' & E & -> & ->). done. }
  apply wp_bind, wp_gets.
  assert (Hfuel : (length l < chunk_fuel s)%nat) by (unfold chunk_fuel; apply chain_size in Hc; lia).
  revert first Hc Hfuel. generalize (chunk_fuel s), 0.
  induction l as [|x l IH]; intros n acc first Hc Hfuel; (destruct n as [|n]; [lia|]); apply wp_loop_step.
  - cbn in Hc. subst first. by apply wp_ret.
  - destruct Hc as (-> & Hx & c & Hcx & Hl). rewrite (proj2 (Z.eqb_neq _ _)) by done.
    apply wp_bind. eapply wp_get_chunk; [done..|]. apply wp_bind. unfold wp at 1.
    rewrite (Hf x c acc) by (constructor || done). apply wp_ret. cbn [foldl]. rewrite Hcx.
    apply IH; [|done|cbn in *; lia]. intros y c' acc' Hy. apply Hf. by constructor.
Qed.

Lemma total_used cs m p l acc :
  stored cs m p l -> 0 <= acc -> acc + Z.of_nat (length (contents l)) < 2 ^ 64 ->
  foldl (fun acc x => match cs !! x with Some c => wrap64 (acc + used c) | None => acc end) acc l.*1 =
  acc + Z.of_nat (length (contents l)).
Proof.
  revert p acc. induction l as [|[x t] l IH]; intros p acc; [cbn; lia|].
  intros (-> & Hx & c & Hc & Hu & Hcap & Hd & Hr & Hl)%stored_cons Hacc Hmax.
  cbn [fmap list_fmap foldl fst]. rewrite Hc, Hu. unfold contents in *. cbn [fmap list_fmap concat snd] in *.
  rewrite length_app in *. rewrite wrap64_small by lia. erewrite IH; [lia|done|lia|lia].
Qed.

(** * Reading

    What [dandelion_read] copies, from position [k] of the first chunk: it
    takes as much as was asked for from the first chunk that holds more than
    that, and all of the chunks before. *)
Fixpoint read_out (len : Z) (k : Z) (l : list (Z * list Z)) : list Z :=
  match l with
  | [] => []
  | (_, t) :: l' =>
      let u := drop (Z.to_nat k) t in
      if len <? Z.of_nat (length u) then take (Z.to_nat len) u else u ++ read_out len 0 l'
  end.

(** The position it ends at. *)
Fixpoint read_end (len : Z) (k : Z) (l : list (Z * list Z)) : Z * Z :=
  match l with
  | [] => (NULL, 0)
  | (x, t) :: l' =>
      if len <? Z.of_nat (length t) - k then (x, k + len)
      else match l' with [] => (x, Z.of_nat (length t)) | _ => read_end len 0 l' end
  end.

(** The data of the chunks does not overlap the range. *)
Definition apart_from (cs : gmap Z file_chunk) (a n : Z) (l : list (Z * list Z)) : Prop :=
  Forall (fun xt => forall c, cs !! xt.1 = Some c ->
    disjoint_range a n (data c) (Z.of_nat (length xt.2))) l.

(** The copy of a part of a chunk behind what has been copied. *)
Lemma wp_read_piece ptr acc c t k n (Q : unit -> fs M -> Prop) s total :
  region (bytes s) (data c) t -> 0 < data c -> 0 <= k -> 0 <= n -> k + n <= Z.of_nat (length t) ->
  0 < ptr -> writable (bytes s) ptr total -> Z.of_nat (length acc) + n <= total ->
  disjoint_range ptr total (data c) (Z.of_nat (length t)) ->
  Q tt (with_bytes (write_bytes ptr (acc ++ take (Z.to_nat n) (drop (Z.to_nat k) t)) (bytes s)) s) ->
  wp (memcpy (ptr + Z.of_nat (length acc)) (data c + k) n) Q
    (with_bytes (write_bytes ptr acc (bytes s)) s).
Proof.
  intros Hr Hd Hk Hn Hkn Hp Hw Htot Hdis HQ.
  set (u := take (Z.to_nat n) (drop (Z.to_nat k) t)).
  assert (Hu : Z.of_nat (length u) = n) by (unfold u; rewrite length_take, length_drop; lia).
  rewrite <-Hu. apply wp_memcpy; [| |lia|lia| |].
  - cbn. apply region_write_other; [|unfold disjoint_range in Hdis; lia].
    apply take_region, drop_region; [lia|done].
  - apply (writable_write _ _ _ _ (bytes s)). intros i Hi. rewrite <-Z.add_assoc. apply Hw. lia.
  - unfold disjoint_range in *. lia.
  - rewrite with_bytes_twice. cbn [bytes with_bytes]. by rewrite <-write_bytes_app.
Qed.

Lemma read_chunks_spec ptr len x t k l s :
  stored (chunks s) (bytes s) x ((x, t) :: l) ->
  0 <= k <= Z.of_nat (length t) -> 0 <= len < 2 ^ 31 -> 0 < ptr ->
  let out := read_out len k ((x, t) :: l) in
  Z.of_nat (length out) < 2 ^ 31 -> writable (bytes s) ptr (Z.of_nat (length out)) ->
  apart_from (chunks s) ptr (Z.of_nat (length out)) ((x, t) :: l) ->
  wp (read_chunks ptr len x k) (fun r s' =>
    r = (Z.of_nat (length out), (read_end len k ((x, t) :: l)).1, (read_end len k ((x, t) :: l)).2) /\
    s' = with_bytes (write_bytes ptr out (bytes s)) s) s.
Proof.
  intros Hst Hk Hlen Hptr out Hmax Hw Hap. apply wp_bind, wp_gets.
  assert (Hfuel : (length ((x, t) :: l) < chunk_fuel s)%nat).
  { unfold chunk_fuel. destruct Hst as [Hc _]. apply chain_size in Hc. rewrite length_fmap in Hc. lia. }
  match goal with |- wp (loop _ ?b _) _ _ => set (body := b) end.
  enough (Hgen : forall l x t k acc n, stored (chunks s) (bytes s) x ((x, t) :: l) ->
    0 <= k <= Z.of_nat (length t) -> (length ((x, t) :: l) < n)%nat ->
    acc ++ read_out len k ((x, t) :: l) = out ->
    apart_from (chunks s) ptr (Z.of_nat (length out)) ((x, t) :: l) ->
    wp (loop n body (Z.of_nat (length acc), x, k)) (fun r s' =>
      r = (Z.of_nat (length out), (read_end len k ((x, t) :: l)).1, (read_end len k ((x, t) :: l)).2) /\
      s' = with_bytes (write_bytes ptr out (bytes s)) s) (with_bytes (write_bytes ptr acc (bytes s)) s)).
  { specialize (Hgen l x t k [] (chunk_fuel s)). cbn [write_bytes] in Hgen. rewrite with_bytes_id in Hgen.
    by apply Hgen. }
  clearbody out. clear Hst Hk Hap Hfuel x t k l.
  intros l. induction l as [|[y u] l IH]; intros x t k acc n Hst Hk Hn Hacc Hap;
    (destruct n as [|n]; [cbn in Hn; lia|]); apply wp_loop_step; unfold body at 1;
    pose proof Hst as (_ & Hx & c & Hc & Hu & Hcap & Hd & Hr & Hl)%stored_cons;
    pose proof (Forall_inv Hap c Hc) as Hdis; cbv [snd] in Hdis;
    (apply wp_bind; eapply wp_get_chunk; [done..|]); cbv zeta; rewrite Hu;
    rewrite (wrap64_small (_ - k)), (wrap64_small len) by lia; cbn [read_out read_end] in *;
    rewrite length_drop in *; rewrite Nat2Z.inj_sub, Z2Nat.id in * by lia;
    pose proof (f_equal length Hacc) as Hlo; rewrite length_app in Hlo;
    destruct (len <? Z.of_nat (length t) - k) eqn:Elt; bool_to_prop;
    rewrite ?length_app, ?length_take, length_drop in Hlo.
  1, 3: apply wp_bind, (wp_read_piece ptr acc c t k len _ _ (Z.of_nat (length out)));
    try (done || lia); apply wp_ret; rewrite Hacc, int32_small, wrap64_small by lia;
    split; [|done]; cbn [fst snd]; f_equal; f_equal; lia.
  - apply wp_bind, (wp_read_piece ptr acc c t k _ _ _ (Z.of_nat (length out))); try (done || lia).
    rewrite (proj1 Hl). apply wp_ret. cbn [length] in Hlo.
    rewrite take_ge by (rewrite length_drop; lia). rewrite app_nil_r in Hacc. rewrite Hacc.
    rewrite int32_small, wrap64_small by lia. split; [|done]. cbn [fst snd]. f_equal; [f_equal|]; lia.
  - apply wp_bind, (wp_read_piece ptr acc c t k _ _ _ (Z.of_nat (length out))); try (done || lia).
    pose proof Hl as (E & Hy & _)%stored_cons. rewrite E, (proj2 (Z.eqb_neq _ _)) by done.
    apply wp_ret. rewrite take_ge by (rewrite length_drop; lia). rewrite int32_small by lia.
    replace (_ + (_ - k)) with (Z.of_nat (length (acc ++ drop (Z.to_nat k) t))) by (rewrite length_app, length_drop; lia).
    rewrite E in Hl. apply IH; [done|lia|cbn in *; lia|by rewrite <-app_assoc|by apply Forall_inv_tail in Hap].
Qed.
End bytes.
