(* ===== verification/FsWrite.v ===== *)
(** Writing: allocation of chunks, and the bytes a file holds after
    [dandelion_write]. *)
From S2P Require Import Prelude Bytes Heap Alloc AllocCorrect AllocSession AllocTheorems System RuntimeIO Paths PathSpec FsStore FileSystem FsImpl FsLemmas FsTree FsData.

Section write.
Context {M : Type} {HS : System M} {HM : Machine}.
Implicit Types s : fs M.

(** The live allocations of the state. *)
Definition live s : list (Z * Z) := sys_live (rt_sys (fs_rt s)).
Definition sound s : Prop := sys_sound (rt_sys (fs_rt s)).
Definition area s : Z * Z := sys_area (rt_sys (fs_rt s)).
(** The state after a call of the allocator. *)
Definition put_sys (m : M) s : fs M := count_request (with_rt (set_sys m (fs_rt s)) s).

(** * Allocation *)

Lemma found_pointers_length c z : 0 <= z -> Z.of_nat (length (found_pointers c z)) = z.
Proof. intros Hn. unfold found_pointers. rewrite length_map, length_seqZ. lia. Qed.

Lemma fill_bytes_spec k i a n m x :
  fill_bytes k i a n m !! x = if decide (a <= x < a + Z.of_nat n) then Some (found k (i + (x - a))) else m !! x.
Proof.
  revert i a. induction n as [|n IH]; intros i a; cbn [fill_bytes]; [by rewrite decide_False by lia|].
  destruct (decide (x = a)) as [->|].
  - rewrite lookup_insert_eq, decide_True by lia. by rewrite Z.sub_diag, Z.add_0_r.
  - rewrite lookup_insert_ne, IH by done. repeat case_decide; try (done || lia). do 2 f_equal. lia.
Qed.

Lemma clear_bytes_spec a n m x :
  clear_bytes a n m !! x = if decide (a <= x < a + Z.of_nat n) then None else m !! x.
Proof.
  revert a. induction n as [|n IH]; intros a; cbn [clear_bytes]; [by rewrite decide_False by lia|].
  destruct (decide (x = a)) as [->|]; [by rewrite lookup_delete_eq, decide_True by lia|].
  rewrite lookup_delete_ne, IH by done. repeat case_decide; done || lia.
Qed.

(** A new allocation of [n] words at [p]. *)
Record grown s s' (p n : Z) : Prop := {
  gr_sound : sound s';
  gr_live : live s' = (p, n) :: live s;
  gr_pos : 0 < p;
  gr_fresh : p ∉ (live s).*1;
  gr_apart x v : (x, v) ∈ live s -> apart p n x v;
  gr_area : area s' = area s;
  gr_inside : (area s).1 <= p /\ p + 8 * n <= (area s).2;
}.

(** A request that was refused leaves everything as it was. *)
Definition refused s s' : Prop := exists m, s' = put_sys m s /\ sys_sound m /\ sys_live m = live s.

Lemma wp_fs_alloc size align (Q : Z -> fs M -> Prop) s :
  sound s -> 0 <= size < 2 ^ 64 -> 0 <= align <= 16 ->
  (forall s', refused s s' -> Q NULL s') ->
  (forall p n m, size <= 8 * n -> grown s (put_sys m s) p n -> Q p (put_sys m s)) ->
  wp (fs_alloc size align) Q s.
Proof.
  intros Hs Hsz Ha Hnull Hok. apply wp_bind, wp_zoom, wp_zoom.
  eapply wp_mono; [by apply wp_and; [apply sys_alloc_law|apply sys_alloc_area]|].
  intros p m [(Hm & _ & Hp) Har]. apply wp_bind, wp_modify, wp_ret. destruct (p =? NULL) eqn:E; bool_to_prop.
  - subst p. apply Hnull. by exists m.
  - destruct Hp as (n & Hpos & Hn & Hlive & Hfresh & Hap). apply (Hok p n m Hn).
    split; [done|done|lia|done|done|done|]. unfold area. rewrite <-Har.
    apply (sys_area_law m p n Hm). rewrite Hlive. constructor.
Qed.

Lemma local_size_small size : 0 < size < 2 ^ 63 ->
  0 < local_size_of size /\ size <= 8 * local_size_of size < size + 8.
Proof.
  intros Hs. unfold local_size_of. rewrite wrap64_small by lia.
  pose proof (Z.div_mod (size + 8 - 1) 8 ltac:(lia)).
  pose proof (Z.mod_pos_bound (size + 8 - 1) 8 ltac:(lia)). lia.
Qed.

(** The memory after a request for bytes. *)
Definition with_buffer (p size : Z) s : fs M :=
  with_extents (<[p := 8 * local_size_of size]> (extents s))
    (with_bytes (fill_bytes (requests s) 0 p (Z.to_nat (8 * local_size_of size)) (bytes s)) s).

Lemma wp_alloc_raw size align (Q : Z -> fs M -> Prop) s :
  sound s -> 0 < size < 2 ^ 63 -> 0 <= align <= 16 ->
  (forall s', refused s s' -> Q NULL s') ->
  (forall p n m, 8 * local_size_of size <= 8 * n -> grown s (put_sys m s) p n ->
     Q p (with_buffer p size (put_sys m s))) ->
  wp (alloc_raw size align) Q s.
Proof.
  intros Hs Hsz Ha Hnull Hok. unfold alloc_raw. rewrite wrap64_small by lia.
  apply wp_bind, wp_fs_alloc; [done|lia|done| |].
  - intros s' Hr. apply wp_bind, wp_ret, wp_ret. by apply Hnull.
  - intros p n m Hn Hg. pose proof (gr_pos _ _ _ _ Hg). pose proof (local_size_small size Hsz).
    apply wp_bind. rewrite (proj2 (Z.eqb_neq _ _)) by (unfold NULL; lia). apply wp_modify, wp_ret.
    apply (Hok p n m); [lia|done].
Qed.

Lemma wp_alloc_chunk (Q : Z -> fs M -> Prop) s :
  sound s ->
  (forall s', refused s s' -> Q NULL s') ->
  (forall p n m, grown s (put_sys m s) p n ->
     Q p (with_chunks (<[p := found_chunk (S (requests s))]> (chunks s)) (put_sys m s))) ->
  wp alloc_chunk Q s.
Proof.
  intros Hs Hnull Hok. apply wp_bind, wp_fs_alloc; [done|unfold sizeof_chunk; lia|lia| |].
  - intros s' Hr. apply wp_bind, wp_ret, wp_ret. by apply Hnull.
  - intros p n m Hn Hg. pose proof (gr_pos _ _ _ _ Hg).
    apply wp_bind. rewrite (proj2 (Z.eqb_neq _ _)) by (unfold NULL; lia). apply wp_modify, wp_ret.
    by apply (Hok p n m).
Qed.

(** Releasing a live allocation. *)
Lemma wp_fs_free p n L1 L2 (Q : unit -> fs M -> Prop) s :
  sound s -> live s = L1 ++ (p, n) :: L2 ->
  (forall m, sys_sound m -> sys_live m = L1 ++ L2 -> Q tt (forget p (put_sys m s))) ->
  wp (fs_free p) Q s.
Proof.
  intros Hs Hl HQ. apply wp_bind, wp_gets. unfold allocated. fold (live s). rewrite Hl.
  rewrite bool_decide_eq_true_2 by (rewrite fmap_app; set_solver).
  apply wp_bind, wp_zoom, wp_zoom. eapply wp_mono; [by eapply sys_free_law|].
  intros _ m [Hm Hlm]. apply wp_bind, wp_modify, wp_modify. by apply HQ.
Qed.

Lemma chunk_size_spec size : 0 < size < 2 ^ 62 ->
  size <= chunk_size_of size < size + FS_CHUNK_SIZE /\ (FS_CHUNK_SIZE | chunk_size_of size).
Proof.
  intros Hs. unfold chunk_size_of. rewrite (wrap64_small (size + _ - 1)) by (unfold FS_CHUNK_SIZE; lia).
  destruct (round_up_spec size FS_CHUNK_SIZE ltac:(unfold FS_CHUNK_SIZE; lia)) as [Hb Hd].
  unfold round_up in *. rewrite wrap64_small by (unfold FS_CHUNK_SIZE in *; lia). done.
Qed.

(** A new chunk: an empty one of at least [size] bytes, in memory that no live
    allocation overlaps. *)
Record new_chunk_at s s' (x size : Z) : Prop := {
  nc_sound : sound s';
  nc_pos : 0 < x;
  nc_fresh : x ∉ (live s).*1;
  nc_files : files s' = files s;
  nc_open : open_files s' = open_files s;
  nc_area : area s' = area s;
  nc_chunk : exists d n v, chunks s' = <[x := FileChunk d (chunk_size_of size) 0 NULL]> (chunks s) /\
    0 < d /\ live s' = (x, v) :: (d, n) :: live s /\ chunk_size_of size <= 8 * n /\
    ((area s).1 <= d /\ d + 8 * n <= (area s).2) /\
    (forall y w, (y, w) ∈ live s -> apart d n y w) /\
    (forall a, d <= a < d + chunk_size_of size -> is_Some (bytes s' !! a)) /\
    (forall a, a < d \/ d + 8 * n <= a -> bytes s' !! a = bytes s !! a);
}.

(** The buffer at [d], then the chunk at [x]. *)
Definition with_new_chunk (d x size : Z) (m m' : M) s : fs M :=
  let s1 := put_sys m' (with_buffer d (chunk_size_of size) (put_sys m s)) in
  with_chunks (<[x := FileChunk d (chunk_size_of size) 0 NULL]> (<[x := found_chunk (requests s1)]> (chunks s))) s1.

Lemma new_chunk_grown s d n m x v m' size :
  0 < size < 2 ^ 62 -> 8 * local_size_of (chunk_size_of size) <= 8 * n ->
  grown s (put_sys m s) d n ->
  (let s1 := with_buffer d (chunk_size_of size) (put_sys m s) in grown s1 (put_sys m' s1) x v) ->
  new_chunk_at s (with_new_chunk d x size m m' s) x size.
Proof.
  intros Hsz Hn Hg Hg'. cbv zeta in Hg'. set (s1 := with_buffer d _ _) in *.
  destruct (chunk_size_spec size Hsz) as [Hcs _]. unfold FS_CHUNK_SIZE in Hcs.
  pose proof (local_size_small (chunk_size_of size) ltac:(lia)) as Hls. pose proof (gr_pos _ _ _ _ Hg) as Hd.
  pose proof (gr_live _ _ _ _ Hg) as Hl1. pose proof (gr_live _ _ _ _ Hg') as Hl2.
  change (live s1) with (live (put_sys m s)) in Hl2. rewrite Hl1 in Hl2.
  pose proof (gr_fresh _ _ _ _ Hg') as Hf. change (live s1) with (live (put_sys m s)) in Hf. rewrite Hl1 in Hf.
  split; [exact (gr_sound _ _ _ _ Hg')|exact (gr_pos _ _ _ _ Hg')| |done|done| |].
  { intros Hin. apply Hf. cbn. by constructor. }
  { exact (eq_trans (gr_area _ _ _ _ Hg') (gr_area _ _ _ _ Hg)). }
  exists d, n, v. split_and!; [|done|done|lia|apply (gr_inside _ _ _ _ Hg)|apply (gr_inside _ _ _ _ Hg)|exact (gr_apart _ _ _ _ Hg)| |].
  - cbn. by rewrite insert_insert_eq.
  - intros a Ha. change (bytes _) with (fill_bytes (S (requests s)) 0 d (Z.to_nat (8 * local_size_of (chunk_size_of size))) (bytes s)).
    rewrite fill_bytes_spec, decide_True by lia. by eexists.
  - intros a Ha. transitivity (fill_bytes (S (requests s)) 0 d (Z.to_nat (8 * local_size_of (chunk_size_of size))) (bytes s) !! a); [done|].
    by rewrite fill_bytes_spec, decide_False by lia.
Qed.

Lemma allocate_file_chunk_spec size s :
  sound s -> 0 < size < 2 ^ 62 ->
  wp (allocate_file_chunk size) (fun x s' =>
    (x = NULL /\ forall z, z ∈ (live s).*1 -> chunks s' !! z = chunks s !! z) \/
    new_chunk_at s s' x size) s.
Proof.
  intros Hs Hsz. destruct (chunk_size_spec size Hsz) as [Hcs _]. unfold FS_CHUNK_SIZE in Hcs.
  apply wp_bind, wp_alloc_raw; [done|lia|lia| |].
  { intros s' (m & -> & _). apply wp_ret. by left. }
  intros d n m Hn Hg. set (s1 := with_buffer d _ _). pose proof (gr_pos _ _ _ _ Hg).
  rewrite (proj2 (Z.eqb_neq _ _)) by (unfold NULL; lia).
  apply wp_bind, wp_alloc_chunk; [apply (gr_sound _ _ _ _ Hg)| |].
  - intros s' (m' & -> & Hm' & Hl'). cbn [Z.eqb NULL]. apply wp_bind.
    eapply (wp_fs_free d n [] (live s)); [done|exact (eq_trans Hl' (gr_live _ _ _ _ Hg))|].
    intros. apply wp_ret. left. split; [done|]. intros z Hz.
    apply lookup_delete_ne. intros ->. by apply (gr_fresh _ _ _ _ Hg).
  - intros x v m' Hg'. pose proof (gr_pos _ _ _ _ Hg') as Hx.
    rewrite (proj2 (Z.eqb_neq _ _)) by (unfold NULL; lia). apply wp_bind.
    eapply wp_update_chunk; [apply lookup_insert_eq|unfold NULL; lia|]. apply wp_ret. right.
    by apply (new_chunk_grown s d n m x v m').
Qed.

(** * Files in live memory *)

(** The chunks of a file: what they hold, that they and their buffers are live
    allocations, and that the buffers do not overlap. *)
Record file_ok s (p : Z) (l : list (Z * list Z)) : Prop := {
  fo_stored : stored (chunks s) (bytes s) p l;
  fo_owned x c : x ∈ l.*1 -> chunks s !! x = Some c ->
    x ∈ (live s).*1 /\ (exists v, (data c, v) ∈ live s /\ capacity c <= 8 * v) /\
    writable (bytes s) (data c) (capacity c);
  fo_separate x y cx cy : x ∈ l.*1 -> y ∈ l.*1 -> x <> y ->
    chunks s !! x = Some cx -> chunks s !! y = Some cy ->
    disjoint_range (data cx) (capacity cx) (data cy) (capacity cy);
}.

(** The caller's buffer: in a live allocation or outside the heap, and apart
    from the file. *)
Record source_ok s (ptr : Z) (buf : list Z) (l : list (Z * list Z)) : Prop := {
  so_region : region (bytes s) ptr buf;
  so_pos : 0 < ptr;
  so_live : (exists b v, (b, v) ∈ live s /\ b <= ptr /\ ptr + Z.of_nat (length buf) <= b + 8 * v) \/
    disjoint_range ptr (Z.of_nat (length buf)) (area s).1 ((area s).2 - (area s).1);
  so_apart x c : x ∈ l.*1 -> chunks s !! x = Some c ->
    disjoint_range ptr (Z.of_nat (length buf)) (data c) (capacity c);
}.

(** What a write leaves alone. *)
Record kept s s' : Prop := {
  kp_files : files s' = files s;
  kp_open : open_files s' = open_files s;
  kp_sound : sound s';
  kp_live : live s ⊆ live s';
}.

Lemma kept_trans s1 s2 s3 : kept s1 s2 -> kept s2 s3 -> kept s1 s3.
Proof. intros [] []. split; congruence || set_solver. Qed.

(** One more element of the list of chunks. *)
Lemma stored_in cs m p l x t :
  stored cs m p l -> (x, t) ∈ l -> x <> NULL /\ holds_text cs m (x, t).
Proof.
  intros [Hc Hf] Hx. split; [|by eapply Forall_forall in Hf].
  eapply chain_in; [done|]. apply list_elem_of_fmap. by exists (x, t).
Qed.

(** Two chunks of a file at one address are one chunk. *)
Lemma stored_split_ne cs m p l1 x t l2 y u :
  stored cs m p (l1 ++ (x, t) :: l2) -> (y, u) ∈ l1 ++ l2 -> y <> x.
Proof.
  intros [Hc _] Hy ->. apply chain_nodup in Hc. rewrite fmap_app in Hc. cbn in Hc.
  rewrite <-Permutation_middle in Hc. apply NoDup_cons in Hc as [Hn _]. apply Hn.
  rewrite <-fmap_app. apply list_elem_of_fmap. by exists (x, u).
Qed.

Lemma fmap_replace (l1 l2 : list (Z * list Z)) x t t' :
  (l1 ++ (x, t') :: l2).*1 = (l1 ++ (x, t) :: l2).*1.
Proof. by rewrite !fmap_app. Qed.

(** The state after bytes were written behind the content of a chunk. *)
Definition appended s (x : Z) (c : file_chunk) (u : list Z) : fs M :=
  with_chunks (<[x := set_used (used c + Z.of_nat (length u)) c]> (chunks s))
    (with_bytes (write_bytes (data c + used c) u (bytes s)) s).

Lemma file_ok_appended s p l1 x t l2 c u :
  file_ok s p (l1 ++ (x, t) :: l2) -> chunks s !! x = Some c ->
  used c + Z.of_nat (length u) <= capacity c ->
  file_ok (appended s x c u) p (l1 ++ (x, t ++ u) :: l2).
Proof.
  intros [Hst Hown Hsep] Hc Hcap. pose proof Hst as [Hch Hf].
  destruct (stored_in _ _ _ _ x t Hst ltac:(set_solver)) as (Hx & c' & Hc' & Hu & Hcc & Hd & Hr).
  cbv [fst snd] in *. assert (c' = c) as -> by congruence.
  assert (Hxin : x ∈ (l1 ++ (x, t) :: l2).*1) by (rewrite fmap_app; set_solver).
  assert (Hlook : forall y cy, chunks (appended s x c u) !! y = Some cy ->
    exists cy', chunks s !! y = Some cy' /\ data cy = data cy' /\ capacity cy = capacity cy').
  { intros y cy. cbn. rewrite lookup_insert_Some. intros [[<- <-]|[_ ?]]; eauto. }
  split; [split| |].
  - rewrite (fmap_replace _ _ _ t). by eapply chain_insert_same.
  - assert (Hother : Forall (holds_text (chunks (appended s x c u)) (bytes (appended s x c u))) (l1 ++ l2)).
    { apply Forall_forall. intros [y v] Hy. pose proof (stored_split_ne _ _ _ _ _ _ _ _ _ Hst Hy) as Hne.
      destruct (stored_in _ _ _ _ y v Hst ltac:(set_solver)) as (_ & cy & Hcy & Huy & Hccy & Hdy & Hry).
      cbv [fst snd] in *. exists cy. cbn. rewrite lookup_insert_ne by done. split_and!; try (done || lia).
      apply region_write_other; [done|].
      assert (Hyin : y ∈ (l1 ++ (x, t) :: l2).*1).
      { apply list_elem_of_fmap. exists (y, v). set_solver. }
      pose proof (Hsep _ _ _ _ Hxin Hyin ltac:(done) Hc Hcy) as [?|?]; lia. }
    apply Forall_app in Hother as [H1 H2]. apply Forall_app. split; [done|]. constructor; [|done].
    exists (set_used (used c + Z.of_nat (length u)) c). cbn. rewrite lookup_insert_eq, length_app.
    split_and!; try (done || lia). apply region_app. split.
    + apply region_write_other; [done|]. lia.
    + rewrite <-Hu. apply region_write.
  - intros y cy Hy Hcy. destruct (Hlook _ _ Hcy) as (cy' & Hcy' & -> & ->).
    rewrite (fmap_replace _ _ _ t) in Hy. destruct (Hown _ _ Hy Hcy') as (? & ? & ?).
    split_and!; [done..|]. by apply (writable_write _ _ _ _ (bytes s)).
  - intros y z cy cz Hy Hz Hne Hcy Hcz. rewrite (fmap_replace _ _ _ t) in Hy, Hz.
    destruct (Hlook _ _ Hcy) as (cy' & Hcy' & -> & ->), (Hlook _ _ Hcz) as (cz' & Hcz' & -> & ->).
    by apply (Hsep y z).
Qed.

Lemma source_ok_appended s ptr u rest p l1 x t l2 c :
  source_ok s ptr (u ++ rest) (l1 ++ (x, t) :: l2) -> chunks s !! x = Some c ->
  stored (chunks s) (bytes s) p (l1 ++ (x, t) :: l2) ->
  used c + Z.of_nat (length u) <= capacity c ->
  source_ok (appended s x c u) (ptr + Z.of_nat (length u)) rest (l1 ++ (x, t ++ u) :: l2).
Proof.
  intros [Hr Hp Hlive Hap] Hc Hst Hcap.
  destruct (stored_in _ _ _ _ x t Hst ltac:(set_solver)) as (Hx & c' & Hc' & Hu & Hcc & Hd & Hrc).
  cbv [fst snd] in *. assert (c' = c) as -> by congruence.
  rewrite length_app in *. rewrite Nat2Z.inj_add in *.
  assert (Hxin : x ∈ (l1 ++ (x, t) :: l2).*1) by (rewrite fmap_app; set_solver).
  pose proof (Hap _ _ Hxin Hc) as Hdis. unfold disjoint_range in *. split.
  - apply region_app in Hr as [_ Hr]. apply region_write_other; [done|]. lia.
  - lia.
  - change (area (appended s x c u)) with (area s). destruct Hlive as [(b & v & Hb & Hlo & Hhi)|Hout]; [left|right; unfold disjoint_range, fst, snd; lia].
    exists b, v. split_and!; [done|lia|lia].
  - intros y cy. rewrite (fmap_replace _ _ _ t). cbn. rewrite lookup_insert_Some.
    unfold disjoint_range. intros Hy [[<- <-]|[_ Hcy]]; [cbn; lia|]. pose proof (Hap _ _ Hy Hcy). lia.
Qed.

Lemma kept_appended s x c u : sound s -> kept s (appended s x c u).
Proof. by split. Qed.

(** The state after a new chunk was put behind the last one. *)
Definition extended s1 (x y : Z) (c : file_chunk) : fs M :=
  with_chunks (<[x := set_next_chunk y c]> (chunks s1)) s1.

Lemma fmap_fst_cons (x : Z) (t : list Z) l : ((x, t) :: l).*1 = x :: l.*1.
Proof. done. Qed.

(** A file to whose last chunk [x] the new chunk [y] is linked; [d] is the
    buffer of [y], in an allocation of [n] words. *)
Section extension.
Context (s s1 : fs M) (p x y d n cap : Z) (c : file_chunk) (l : list (Z * list Z)) (t : list Z).
Let L := l ++ [(x, t)].
Let new := FileChunk d cap 0 NULL.
Hypotheses (Hok : file_ok s p L) (Hc : chunks s !! x = Some c) (Hy : 0 < y) (HyL : (y ∉ L.*1))
  (Hcs : chunks s1 = <[y := new]> (chunks s)) (Hd : 0 < d) (Hcap : 0 <= cap <= 8 * n) (Hsz : cap < 2 ^ 31)
  (Hap : forall b v, (b, v) ∈ live s -> apart d n b v)
  (Hb : forall a, a < d \/ d + 8 * n <= a -> bytes s1 !! a = bytes s !! a).

Lemma extended_ne z : z ∈ L.*1 -> z <> y.
Proof. by intros Hz ->. Qed.

Lemma extended_last : x ∈ L.*1.
Proof. unfold L. rewrite fmap_app. apply elem_of_app. right. apply list_elem_of_here. Qed.

Lemma extended_new : chunks (extended s1 x y c) !! y = Some new.
Proof.
  cbn. rewrite lookup_insert_ne by (apply extended_ne, extended_last). by rewrite Hcs, lookup_insert_eq.
Qed.

Lemma extended_old z cz : z ∈ L.*1 -> chunks (extended s1 x y c) !! z = Some cz ->
  exists cz', chunks s !! z = Some cz' /\ data cz = data cz' /\ capacity cz = capacity cz' /\ used cz = used cz'.
Proof.
  intros Hz%extended_ne. cbn. rewrite Hcs, lookup_insert_Some. intros [[<- <-]|[_ Hl]]; [by eauto|].
  rewrite lookup_insert_ne in Hl by done. eauto.
Qed.

Lemma extended_apart z cz : z ∈ L.*1 -> chunks s !! z = Some cz ->
  disjoint_range (data cz) (capacity cz) d (8 * n).
Proof.
  intros Hz Hcz. destruct (fo_owned _ _ _ Hok _ _ Hz Hcz) as (_ & (w & Hw' & Hcw) & _).
  pose proof (Hap _ _ Hw'). unfold apart, disjoint_range in *. lia.
Qed.

Lemma extended_stored :
  stored (chunks (extended s1 x y c)) (bytes s1) p (L ++ [(y, [])]).
Proof.
  destruct Hok as [Hst Hown _]. pose proof Hst as [Hch Hf].
  assert (Hnext : next_chunk c = NULL).
  { pose proof Hch as Hch'. unfold L in Hch'. rewrite fmap_app, fmap_fst_cons in Hch'.
    apply chain_split in Hch' as (_ & _ & c' & Hc' & E). congruence. }
  split.
  - rewrite fmap_app. cbn. rewrite Hcs. unfold L. rewrite fmap_app, <-app_assoc. cbn.
    unfold L in Hch, HyL. rewrite fmap_app in Hch, HyL.
    apply (chain_insert_after _ _ _ _ _ [] _ c); try done. unfold NULL. lia.
  - apply Forall_app. split.
    + apply Forall_forall. intros [z u] Hz. destruct (stored_in _ _ _ _ z u Hst Hz) as (Hz0 & cz & Hcz & Hu & Hcc & Hdz & Hr).
      cbv [fst snd] in *. assert (Hzin : z ∈ L.*1) by (apply list_elem_of_fmap; by exists (z, u)).
      assert (Hr1 : region (bytes s1) (data cz) u).
      { intros i b Hi. rewrite Hb; [by apply Hr|]. pose proof (extended_apart _ _ Hzin Hcz).
        apply zlookup_range in Hi. unfold disjoint_range in *. lia. }
      destruct (decide (z = x)) as [->|Hne].
      * assert (cz = c) as -> by congruence. exists (set_next_chunk y c). cbn. rewrite lookup_insert_eq.
        split_and!; done || lia.
      * exists cz. cbn. rewrite lookup_insert_ne by congruence.
        rewrite Hcs, lookup_insert_ne by (by apply not_eq_sym, extended_ne). split_and!; done || lia.
    + constructor; [|constructor]. exists new. split; [exact extended_new|]. cbn. split_and!; try (done || lia).
      intros i b Hi. apply zlookup_range in Hi. cbn in Hi. lia.
Qed.

Lemma extended_separate z1 z2 c1 c2 : z1 ∈ (L ++ [(y, [])]).*1 -> z2 ∈ (L ++ [(y, [])]).*1 -> z1 <> z2 ->
  chunks (extended s1 x y c) !! z1 = Some c1 -> chunks (extended s1 x y c) !! z2 = Some c2 ->
  disjoint_range (data c1) (capacity c1) (data c2) (capacity c2).
Proof.
  assert (Hold : forall z cz, z ∈ L.*1 -> chunks (extended s1 x y c) !! z = Some cz ->
    disjoint_range (data cz) (capacity cz) d cap).
  { intros z cz Hz Hcz. destruct (extended_old z cz Hz Hcz) as (cz' & Hcz' & -> & -> & _).
    pose proof (extended_apart _ _ Hz Hcz'). unfold disjoint_range in *. lia. }
  rewrite fmap_app. change ([(y, @nil Z)].*1) with [y]. intros [Hz1|Hz1]%elem_of_app [Hz2|Hz2]%elem_of_app Hne Hc1 Hc2;
    try (apply list_elem_of_singleton in Hz1; subst z1; rewrite extended_new in Hc1; apply (inj Some) in Hc1 as <-);
    try (apply list_elem_of_singleton in Hz2; subst z2; rewrite extended_new in Hc2; apply (inj Some) in Hc2 as <-).
  - destruct (extended_old z1 c1 Hz1 Hc1) as (c1' & Hc1' & -> & -> & _).
    destruct (extended_old z2 c2 Hz2 Hc2) as (c2' & Hc2' & -> & -> & _).
    by apply (fo_separate _ _ _ Hok z1 z2).
  - exact (Hold _ _ Hz1 Hc1).
  - pose proof (Hold _ _ Hz2 Hc2). cbn. unfold disjoint_range in *. lia.
  - done.
Qed.
End extension.

Lemma file_ok_extended s s1 p l x t c y size :
  file_ok s p (l ++ [(x, t)]) -> chunks s !! x = Some c -> new_chunk_at s s1 y size ->
  0 <= chunk_size_of size < 2 ^ 31 ->
  file_ok (extended s1 x y c) p ((l ++ [(x, t)]) ++ [(y, [])]).
Proof.
  intros Hok Hc [Hs1 Hy Hfresh Hfi Hop _ (d & n & v & Hcs & Hd & Hlive & Hcap & _ & Hap & Hw & Hb)] Hsz.
  pose proof Hok as [Hst Hown _].
  assert (HyL : (y ∉ (l ++ [(x, t)]).*1)).
  { intros Hin. destruct (chain_in _ _ _ _ _ (proj1 Hst) Hin) as [_ [cy Hcy]]. by destruct (Hown _ _ Hin Hcy). }
  split.
  - apply (extended_stored s s1 p x y d n (chunk_size_of size) c l t); done || lia.
  - intros z cz. rewrite fmap_app. change (live (extended s1 x y c)) with (live s1). rewrite Hlive.
    intros [Hz|Hz]%elem_of_app Hcz.
    + destruct (extended_old s s1 x y d (chunk_size_of size) c l t Hc HyL Hcs z cz Hz Hcz) as (cz' & Hcz' & -> & -> & _).
      destruct (Hown _ _ Hz Hcz') as (H1 & (w & H2 & H3) & H4).
      split_and!; [cbn; set_solver|exists w; split; [set_solver|done]|].
      intros i Hi. change (bytes (extended s1 x y c)) with (bytes s1). rewrite Hb; [by apply H4|].
      pose proof (extended_apart s p x d n l t Hok Hap _ _ Hz Hcz'). unfold disjoint_range in *. lia.
    + cbn in Hz. apply list_elem_of_singleton in Hz as ->.
      rewrite (extended_new s s1 x y d (chunk_size_of size) c l t HyL Hcs) in Hcz. apply (inj Some) in Hcz as <-.
      split_and!; [cbn; set_solver|exists n; split; [set_solver|done]|]. intros i Hi. apply Hw. cbn in Hi |- *. lia.
  - intros z1 z2 c1 c2. apply (extended_separate s s1 p x y d n (chunk_size_of size) c l t); done || lia.
Qed.

Lemma source_ok_extended s s1 ptr buf L x y c size :
  source_ok s ptr buf L -> chunks s !! x = Some c -> x ∈ L.*1 -> (y ∉ L.*1) ->
  new_chunk_at s s1 y size -> 0 <= chunk_size_of size ->
  source_ok (extended s1 x y c) ptr buf (L ++ [(y, [])]).
Proof.
  intros [Hr Hp Hl Hap] Hc Hx HyL
    [_ Hy _ _ _ Har (d & n & w & Hcs & Hd & Hlive & Hcap & Hin & Hapart & _ & Hbytes)] Hsz.
  assert (Hxy : x <> y) by (intros ->; done).
  assert (Hdis : disjoint_range ptr (Z.of_nat (length buf)) d (8 * n)).
  { destruct Hl as [(b & v & Hb & Hlo & Hhi)|Hout]; [pose proof (Hapart _ _ Hb) as Hdb|]; unfold apart, disjoint_range in *; lia. }
  split; [|done| |].
  - intros i e Hi. change (bytes (extended s1 x y c)) with (bytes s1). rewrite Hbytes; [by apply Hr|].
    apply zlookup_range in Hi. unfold disjoint_range in Hdis. lia.
  - change (live (extended s1 x y c)) with (live s1). change (area (extended s1 x y c)) with (area s1). rewrite Har.
    destruct Hl as [(b & v & Hb & Hlo & Hhi)|Hout]; [left|by right]. exists b, v. rewrite Hlive. split_and!; [set_solver|done|done].
  - intros z cz. cbn. rewrite Hcs. intros Hz Hcz. destruct (decide (z = y)) as [->|Hne].
    + rewrite lookup_insert_ne, lookup_insert_eq in Hcz by done. apply (inj Some) in Hcz as <-.
      cbn. unfold disjoint_range in *. lia.
    + rewrite fmap_app in Hz. assert (z ∈ L.*1) as Hz' by set_solver.
      destruct (decide (x = z)) as [<-|].
      * rewrite lookup_insert_eq in Hcz. apply (inj Some) in Hcz as <-. exact (Hap x c Hx Hc).
      * rewrite !lookup_insert_ne in Hcz by done. by apply (Hap z).
Qed.

Lemma kept_extended s s1 x y c size : new_chunk_at s s1 y size -> kept s (extended s1 x y c).
Proof.
  intros [Hs _ _ Hf Ho _ (d & n & w & _ & _ & Hl & _)]. split; [done|done|done|].
  change (live (extended s1 x y c)) with (live s1). rewrite Hl. set_solver.
Qed.

Lemma new_chunk_not_in s s1 p L y size :
  file_ok s p L -> new_chunk_at s s1 y size -> y ∉ L.*1.
Proof.
  intros [[Hch _] Hown _] Hn Hin. destruct (chain_in _ _ _ _ _ Hch Hin) as [_ [cy Hcy]].
  by destruct (Hown _ _ Hin Hcy), (nc_fresh _ _ _ _ Hn).
Qed.

Lemma contents_snoc l x t : contents (l ++ [(x, t)]) = contents l ++ t.
Proof. unfold contents. rewrite fmap_app, concat_app. cbn. by rewrite app_nil_r. Qed.

Lemma source_take s ptr buf L k :
  source_ok s ptr buf L -> source_ok s ptr (take k buf) L.
Proof.
  intros [Hr Hp Hl Hap].
  assert ((length (take k buf) <= length buf)%nat) by (rewrite length_take; lia). split.
  - by apply take_region.
  - done.
  - destruct Hl as [(b & v & Hb & Hlo & Hhi)|Hout]; [left|right; unfold disjoint_range in *; lia].
    exists b, v. split_and!; [done|done|lia].
  - intros x c Hx Hc. pose proof (Hap x c Hx Hc). unfold disjoint_range in *. lia.
Qed.

(** One piece of a write: as much as fits behind the content of the chunk. *)
Lemma write_to_spec s ptr buf p l x t c (Q : Z -> fs M -> Prop) :
  file_ok s p (l ++ [(x, t)]) -> source_ok s ptr buf (l ++ [(x, t)]) ->
  chunks s !! x = Some c -> used c < capacity c ->
  let k := Z.min (Z.of_nat (length buf)) (capacity c - used c) in
  Q k (appended s x c (take (Z.to_nat k) buf)) ->
  wp (write_to ptr (Z.of_nat (length buf)) x (capacity c - used c)) Q s.
Proof.
  intros Hok Hsrc Hc Hcap k HQ. pose proof (fo_stored _ _ _ Hok) as Hst.
  destruct (stored_in _ _ _ _ x t Hst ltac:(set_solver)) as (Hx & c' & Hc' & Hu & Hcc & Hd & Hr).
  cbv [fst snd] in *. assert (c' = c) as -> by congruence.
  assert (Hxin : x ∈ (l ++ [(x, t)]).*1) by (rewrite fmap_app; set_solver).
  destruct (fo_owned _ _ _ Hok _ _ Hxin Hc) as (_ & _ & Hw).
  pose proof (so_apart _ _ _ _ Hsrc _ _ Hxin Hc) as Hdis.
  pose proof (so_pos _ _ _ _ Hsrc). unfold disjoint_range in Hdis.
  unfold write_to. rewrite wrap64_small by lia.
  replace (if _ <? _ then _ else _) with k by (unfold k; case_bool; lia).
  assert (Hk : Z.of_nat (length (take (Z.to_nat k) buf)) = k) by (rewrite length_take; lia).
  apply wp_bind. eapply wp_get_chunk; [done..|]. rewrite <-Hk at 1.
  apply wp_bind, wp_memcpy; [|intros i Hi; rewrite <-Z.add_assoc; apply Hw; lia|lia|lia|unfold disjoint_range; lia|].
  { by apply take_region, (so_region _ _ _ _ Hsrc). }
  apply wp_bind. eapply wp_update_chunk; [done|done|]. apply wp_ret.
  rewrite wrap64_small by lia. unfold appended in HQ. by rewrite Hk in HQ.
Qed.

(** What follows the choice of the chunk in [dandelion_write]. *)
Definition write_from (fd : Z) (o : open_file) (ptr len options current chunk_offset : Z) : prog (fs M) Z :=
  let! _ := if has (open_flags o) O_APPEND && negb (has options USE_OFFSET)
            then append_jump fd else ret tt in
  let! r := write_chunks ptr len current in
  let '(current, writen_bytes) := r in
  let! _ := if has options MOVE_OFFSET then place_open fd current chunk_offset else ret tt in
  ret writen_bytes.

(** The descriptor after an operation that moved it. *)
Definition moved (options fd : Z) (o : open_file) (x j : Z) s : fs M :=
  if has options MOVE_OFFSET
  then with_open_files (zinsert fd (OpenFile (of_file o) x j (open_flags o)) (open_files s)) s else s.

(** The first and the last chunk of a list that is not empty. *)
Lemma chain_ends (cs : gmap Z file_chunk) p l (x : Z) (t : list Z) :
  chain next_chunk cs p (l ++ [(x, t)]).*1 -> x <> NULL /\ p <> NULL /\ (l = [] -> p = x).
Proof.
  rewrite fmap_app. intros Hch. split_and!.
  - eapply chain_in; [exact Hch|set_solver].
  - destruct l as [|[z v] l]; by destruct Hch as (-> & ? & _).
  - intros ->. by destruct Hch as (-> & _).
Qed.

(** ** The loop

    [E] is what may happen when there is no memory for a chunk.  [Inv n] is a
    property of the state and the list of chunks with [n] bytes to write. *)
Section loop.
Context (E : fault -> Prop) (Inv : Z -> fs M -> list (Z * list Z) -> Prop).
Hypotheses
  (Inv_fewer : forall n k s l, Inv n s l -> 0 <= k <= n -> Inv k s l)
  (Inv_appended : forall n s p l x t c u, Inv n s (l ++ [(x, t)]) -> file_ok s p (l ++ [(x, t)]) ->
     chunks s !! x = Some c -> used c + Z.of_nat (length u) <= capacity c ->
     Inv n (appended s x c u) (l ++ [(x, t ++ u)]))
  (Inv_extended : forall n s p l x t c, Inv n s (l ++ [(x, t)]) -> file_ok s p (l ++ [(x, t)]) -> sound s ->
     chunks s !! x = Some c -> 0 < n < 2 ^ 62 ->
     wp (allocate_file_chunk n) (fun y s1 =>
       (y = NULL /\ E NullDeref /\ forall z, z ∈ (live s).*1 -> chunks s1 !! z = chunks s !! z) \/
       (new_chunk_at s s1 y n /\ Inv 0 (extended s1 x y c) ((l ++ [(x, t)]) ++ [(y, [])]))) s).

(** The chunk to write to has room; the file holds what it held. *)
Lemma writeable_chunk_spec s ptr buf p l x t :
  file_ok s p (l ++ [(x, t)]) -> source_ok s ptr buf (l ++ [(x, t)]) -> sound s ->
  0 < Z.of_nat (length buf) < 2 ^ 31 - 4096 -> Inv (Z.of_nat (length buf)) s (l ++ [(x, t)]) ->
  wpx E (writeable_chunk (Z.of_nat (length buf)) x) (fun r s' => exists l' y u c,
    r = (y, capacity c - used c) /\ chunks s' !! y = Some c /\ used c < capacity c /\
    kept s s' /\ file_ok s' p (l' ++ [(y, u)]) /\ source_ok s' ptr buf (l' ++ [(y, u)]) /\
    contents (l' ++ [(y, u)]) = contents (l ++ [(x, t)]) /\
    Inv (Z.of_nat (length buf) - Z.min (Z.of_nat (length buf)) (capacity c - used c)) s' (l' ++ [(y, u)])) s.
Proof.
  intros Hok Hsrc Hs Hlen HI. pose proof (fo_stored _ _ _ Hok) as Hst.
  destruct (stored_in _ _ _ _ x t Hst ltac:(set_solver)) as (Hx & c & Hc & Hu & Hcc & Hd & Hr).
  cbv [fst snd] in *. assert (Hxin : x ∈ (l ++ [(x, t)]).*1) by (rewrite fmap_app; set_solver).
  apply wpx_wp_bind. eapply wp_get_chunk; [done..|]. cbv zeta. rewrite int32_small by lia.
  case_bool.
  2: { apply wpx_ret. exists l, x, t, c. split_and!; try (done || lia). eapply Inv_fewer; [done|lia]. }
  set (size := Z.of_nat (length buf)) in *. destruct (chunk_size_spec size ltac:(lia)) as [Hcs _].
  unfold FS_CHUNK_SIZE in Hcs.
  apply wpx_wp_bind. eapply wp_mono; [by eapply Inv_extended; [..|lia]|].
  intros y s1 [(-> & HE & Hkeep)|[Hnew HI1]].
  - (* no memory: the new chunk is used without a check *)
    destruct (fo_owned _ _ _ Hok _ _ Hxin Hc) as (Hxl & _).
    apply wpx_wp_bind. eapply wp_update_chunk; [by rewrite Hkeep|done|]. exact HE.
  - pose proof (new_chunk_not_in _ _ _ _ _ _ Hok Hnew) as HyL.
    destruct (nc_chunk _ _ _ _ Hnew) as (d & n & v & Hcs' & _). pose proof (nc_pos _ _ _ _ Hnew) as Hy.
    assert (Hxy : x <> y) by (intros ->; done).
    assert (Hc1 : chunks s1 !! x = Some c) by by rewrite Hcs', lookup_insert_ne.
    assert (Hc2 : chunks (extended s1 x y c) !! y = Some (FileChunk d (chunk_size_of size) 0 NULL)).
    { cbn. by rewrite lookup_insert_ne, Hcs', lookup_insert_eq. }
    apply wpx_wp_bind. eapply wp_update_chunk; [done..|].
    apply wpx_wp_bind. eapply wp_get_chunk; [exact Hc2|unfold NULL; lia|]. apply wpx_ret.
    cbn [capacity]. rewrite int32_small by lia.
    exists (l ++ [(x, t)]), y, [], (FileChunk d (chunk_size_of size) 0 NULL). cbn [capacity used].
    split_and!; [by rewrite Z.sub_0_r|done|lia|by eapply kept_extended| | |by rewrite contents_snoc, app_nil_r|].
    + eapply file_ok_extended; [done|done|done|lia].
    + eapply source_ok_extended; [done..|lia].
    + by rewrite Z.min_l, Z.sub_diag by lia.
Qed.

(** The loop: the whole buffer goes behind the content of the file. *)
Lemma write_loop_spec s ptr buf p l x t :
  file_ok s p (l ++ [(x, t)]) -> source_ok s ptr buf (l ++ [(x, t)]) -> sound s ->
  Z.of_nat (length buf) < 2 ^ 31 - 4096 -> Inv (Z.of_nat (length buf)) s (l ++ [(x, t)]) ->
  wpx E (write_chunks ptr (Z.of_nat (length buf)) x) (fun r s' => exists l' y u,
    r = (y, Z.of_nat (length buf)) /\ kept s s' /\ file_ok s' p (l' ++ [(y, u)]) /\
    contents (l' ++ [(y, u)]) = contents (l ++ [(x, t)]) ++ buf /\ Inv 0 s' (l' ++ [(y, u)])) s.
Proof.
  intros Hok Hsrc Hs Hlen HI. unfold write_chunks.
  match goal with |- wpx _ (loop _ ?b _) _ _ => set (body := b) end.
  enough (Hgen : forall n s ptr rest l x t w, (length rest < n)%nat ->
    file_ok s p (l ++ [(x, t)]) -> source_ok s ptr rest (l ++ [(x, t)]) -> sound s ->
    0 <= w -> w + Z.of_nat (length rest) < 2 ^ 31 - 4096 -> Inv (Z.of_nat (length rest)) s (l ++ [(x, t)]) ->
    wpx E (loop n body (ptr, Z.of_nat (length rest), x, w)) (fun r s' => exists l' y u,
      r = (y, w + Z.of_nat (length rest)) /\ kept s s' /\ file_ok s' p (l' ++ [(y, u)]) /\
      contents (l' ++ [(y, u)]) = contents (l ++ [(x, t)]) ++ rest /\ Inv 0 s' (l' ++ [(y, u)])) s).
  { apply (Hgen _ s ptr buf l x t 0); try (done || lia). }
  clear s ptr buf l x t Hok Hsrc Hs Hlen HI.
  induction n as [|n IH]; intros s ptr rest l x t w Hn Hok Hsrc Hs Hw Hmax HI; [lia|].
  apply wpx_loop_step. unfold body at 1. destruct rest as [|b rest].
  { cbn [length]. apply wpx_ret. exists l, x, t. split_and!; [f_equal; lia|by split|done| |done].
    by rewrite app_nil_r. }
  set (buf := b :: rest) in *. assert (0 < Z.of_nat (length buf)) by (unfold buf; cbn; lia).
  rewrite (proj2 (Z.gtb_lt _ 0)) by done. cbn [negb].
  apply wpx_bind. eapply wpx_mono; [eapply writeable_chunk_spec; [done|done|done|lia|done]|].
  intros ? s1 (l1 & y & u & c & -> & Hc & Hcap & Hk & Hok1 & Hsrc1 & E1 & HI1).
  apply wpx_wp_bind. eapply write_to_spec; [done|done|done|done|]. cbv zeta.
  set (k := Z.min _ _) in *. set (v := take (Z.to_nat k) buf).
  assert (Hv : Z.of_nat (length v) = k) by (unfold v; rewrite length_take; lia).
  assert (Hbuf : buf = v ++ drop (Z.to_nat k) buf) by (unfold v; by rewrite take_drop).
  assert (Hdrop : Z.of_nat (length (drop (Z.to_nat k) buf)) = Z.of_nat (length buf) - k) by (rewrite length_drop; lia).
  apply wpx_ret. rewrite !wrap64_small by lia. rewrite <-Hdrop in HI1 |- *.
  eapply wpx_mono.
  - apply (IH (appended s1 y c v) _ (drop (Z.to_nat k) buf) l1 y (u ++ v)); [lia| | | |lia|lia|].
    + by apply file_ok_appended; [|..|lia].
    + replace (ptr + k) with (ptr + Z.of_nat (length v)) by lia.
      eapply source_ok_appended; [by rewrite <-Hbuf|done|apply (fo_stored _ _ _ Hok1)|lia].
    + by apply (kp_sound _ _ Hk).
    + eapply Inv_appended; [done|exact Hok1|done|lia].
  - intros r s2 (l2 & z & u2 & -> & Hk2 & Hok2 & E2 & HI2). exists l2, z, u2. split_and!; [| |done| |done].
    + f_equal. lia.
    + eapply kept_trans; [done|]. eapply kept_trans; [|done]. apply kept_appended, (kp_sound _ _ Hk).
    + rewrite E2, contents_snoc, <-E1, contents_snoc, <-!app_assoc. by rewrite <-Hbuf.
Qed.
(** The rest of a write, from the chunk [x] on. *)
Lemma write_rest_spec s fd o ptr buf options p l x t :
  zlookup fd (open_files s) = Some o -> has (open_flags o) O_APPEND = false ->
  file_ok s p (l ++ [(x, t)]) -> source_ok s ptr buf (l ++ [(x, t)]) -> sound s ->
  Z.of_nat (length buf) < 2 ^ 31 - 4096 -> Inv (Z.of_nat (length buf)) s (l ++ [(x, t)]) ->
  wpx E (write_from fd o ptr (Z.of_nat (length buf)) options x 0) (fun r s' => r = Z.of_nat (length buf) /\
    exists s1 l' y u, s' = moved options fd o y 0 s1 /\ kept s s1 /\ file_ok s1 p (l' ++ [(y, u)]) /\
      contents (l' ++ [(y, u)]) = contents (l ++ [(x, t)]) ++ buf /\ Inv 0 s1 (l' ++ [(y, u)])) s.
Proof.
  intros Ho Happ Hok Hsrc Hs Hlen HI. unfold write_from. rewrite Happ. cbn [andb]. apply wpx_wp_bind, wp_ret.
  apply wpx_bind. eapply wpx_mono; [by eapply write_loop_spec|].
  intros r s1 (l' & y & u & -> & Hk & Hok' & Ec & HI'). apply wpx_wp_bind. unfold moved.
  destruct (has options MOVE_OFFSET).
  - eapply wp_update_open; [rewrite (kp_open _ _ Hk); exact Ho|]. apply wpx_ret. split; [done|]. by exists s1, l', y, u.
  - apply wp_ret, wpx_ret. split; [done|]. by exists s1, l', y, u.
Qed.
End loop.

(** A write to a file that has chunks is one at the current chunk, or at the
    first one. *)
Lemma write_at_chunk E fd ptr len off options o f x (Q : Z -> fs M -> Prop) s :
  zlookup fd (open_files s) = Some o -> of_file o <> NULL -> files s !! of_file o = Some f -> ftype f = FILE ->
  content f <> NULL -> has options USE_OFFSET = false ->
  (if current_chunk o =? NULL then content f else current_chunk o) = x ->
  wpx E (write_from fd o ptr len options x 0) Q s -> wpx E (dandelion_write fd ptr len off options) Q s.
Proof.
  intros Ho Hof Hf Ht Hnn Huse Hx HQ. unfold dandelion_write.
  apply wpx_wp_bind. eapply wp_get_open; [done|]. rewrite (proj2 (Z.eqb_neq _ _)) by done.
  replace (has (open_flags o) O_RDONLY) with false by (unfold has, O_RDONLY; by rewrite Z.land_0_r).
  cbn [orb]. apply wpx_wp_bind. eapply wp_get_file; [done..|]. rewrite Ht. cbn [is_device is_file negb].
  assert (write_start o f len off options = ret (Some (x, 0))) as ->.
  { unfold write_start. rewrite (proj2 (Z.eqb_neq (content f) NULL)), Huse, <-Hx by done. by destruct (current_chunk o =? NULL). }
  by apply wpx_wp_bind, wp_ret.
Qed.

(** A write to a file without chunks makes the first one. *)
Lemma write_at_start E fd ptr len off options o f (Q : Z -> fs M -> Prop) s :
  zlookup fd (open_files s) = Some o -> of_file o <> NULL -> files s !! of_file o = Some f -> ftype f = FILE ->
  content f = NULL -> has options USE_OFFSET = false ->
  wp (allocate_file_chunk len) (fun y s1 => files s1 !! of_file o = Some f /\
    wpx E (write_from fd o ptr len options y 0) Q (with_files (<[of_file o := set_content y f]> (files s1)) s1)) s ->
  wpx E (dandelion_write fd ptr len off options) Q s.
Proof.
  intros Ho Hof Hf Ht Hnn Huse HQ. unfold dandelion_write.
  apply wpx_wp_bind. eapply wp_get_open; [done|]. rewrite (proj2 (Z.eqb_neq _ _)) by done.
  replace (has (open_flags o) O_RDONLY) with false by (unfold has, O_RDONLY; by rewrite Z.land_0_r).
  cbn [orb]. apply wpx_wp_bind. eapply wp_get_file; [done..|]. rewrite Ht. cbn [is_device is_file negb].
  assert (write_start o f len off options = (let! y := allocate_file_chunk len in
    let! _ := update_file (of_file o) (set_content y) in ret (Some (y, 0)))) as ->.
  { unfold write_start. by rewrite Hnn, Z.eqb_refl, Huse. }
  apply wpx_wp_bind, wp_bind. eapply wp_mono; [exact HQ|].
  intros y s1 [Hf1 Hw]. apply wp_bind. eapply wp_update_file; [done..|]. by apply wp_ret.
Qed.

(** A write at the current chunk, when it is the last one. *)
Lemma dandelion_write_spec s fd ptr buf off o f l x t options :
  zlookup fd (open_files s) = Some o -> of_file o <> NULL ->
  files s !! of_file o = Some f -> ftype f = FILE ->
  file_ok s (content f) (l ++ [(x, t)]) -> source_ok s ptr buf (l ++ [(x, t)]) -> sound s ->
  current_chunk o = x \/ (current_chunk o = NULL /\ l = []) ->
  has (open_flags o) O_APPEND = false -> has options USE_OFFSET = false ->
  Z.of_nat (length buf) < 2 ^ 31 - 4096 ->
  wpf (dandelion_write fd ptr (Z.of_nat (length buf)) off options) (fun r s' =>
    r = Z.of_nat (length buf) /\ files s' = files s /\ sound s' /\ exists l' y u,
      file_ok s' (content f) (l' ++ [(y, u)]) /\
      contents (l' ++ [(y, u)]) = contents (l ++ [(x, t)]) ++ buf /\
      open_files s' = if has options MOVE_OFFSET
        then zinsert fd (OpenFile (of_file o) y 0 (open_flags o)) (open_files s)
        else open_files s) NullDeref s.
Proof.
  intros Ho Hof Hf Ht Hok Hsrc Hs Hcur Happ Huse Hlen. apply wpf_of_wpx.
  pose proof (proj1 (fo_stored _ _ _ Hok)) as Hch. destruct (chain_ends _ _ _ _ _ Hch) as (Hx & Hnn & Hone).
  eapply (write_at_chunk _ _ _ _ _ _ _ f x); [done..| |].
  { destruct Hcur as [->|[-> ->]]; [by rewrite (proj2 (Z.eqb_neq _ _))|]. rewrite Z.eqb_refl. by apply Hone. }
  eapply wpx_mono.
  { apply (write_rest_spec _ (fun _ _ _ => True)); try done. intros n s1 p1 l1 x1 t1 c1 _ _ Hs1 _ Hn.
    eapply wp_mono; [by apply allocate_file_chunk_spec|]. intros y s2 [[-> H]|H]; [by left|by right]. }
  intros r s' (-> & s1 & l' & y & u & -> & [Hfi Hop Hs' _] & Hok' & Ec & _). unfold moved.
  destruct (has options MOVE_OFFSET); (split_and!; [done|done|done|]; exists l', y, u; split_and!).
  all: first [done|by destruct Hok'|cbn; by rewrite Hop].
Qed.
End write.
