(* ===== verification/FsSeek.v ===== *)
(** Seeking and the size of a file. *)
From S2P Require Import Prelude Bytes Heap Alloc AllocSession System RuntimeIO Paths PathSpec FsStore FileSystem FsImpl FsLemmas FsTree FsData.

(** [pos] bytes into the file is [j] bytes into the chunk [y]. *)
Definition at_position (l : list (Z * list Z)) (pos y j : Z) : Prop :=
  exists l1 u l2, l = l1 ++ (y, u) :: l2 /\ 0 <= j <= Z.of_nat (length u) /\
    pos = Z.of_nat (length (contents l1)) + j.

Lemma contents_cons x t l : contents ((x, t) :: l) = t ++ contents l.
Proof. done. Qed.

Lemma at_position_cons l pos y j x t :
  at_position l pos y j -> at_position ((x, t) :: l) (Z.of_nat (length t) + pos) y j.
Proof.
  intros (l1 & u & l2 & -> & Hj & ->). exists ((x, t) :: l1), u, l2. split; [done|]. split; [done|].
  rewrite contents_cons, length_app. lia.
Qed.

Lemma at_position_head x t l j :
  0 <= j <= Z.of_nat (length t) -> at_position ((x, t) :: l) j x j.
Proof. intros Hj. by exists [], t, l. Qed.

(** The bytes from a position on are the rest of its chunk and the chunks
    behind it. *)
Lemma at_position_contents l pos y j :
  at_position l pos y j -> exists u l2, (y, u) ∈ l /\
    drop (Z.to_nat pos) (contents l) = drop (Z.to_nat j) u ++ contents l2.
Proof.
  intros (l1 & u & l2 & -> & Hj & ->). exists u, l2. split; [set_solver|].
  unfold contents. rewrite fmap_app, concat_app. cbn.
  rewrite Z2Nat.inj_add, Nat2Z.id by lia.
  rewrite drop_app_add, drop_app_le by lia. done.
Qed.

Section seek.
Context {M : Type} {HS : System M} {HM : Machine}.
Implicit Types s : fs M.

Lemma stored_nil cs m p : stored cs m p [] -> p = NULL.
Proof. by intros [? _]. Qed.

Lemma stored_fuel s p l : stored (chunks s) (bytes s) p l -> (length l < chunk_fuel s)%nat.
Proof. intros [Hc _]. apply chain_size in Hc. rewrite length_fmap in Hc. unfold chunk_fuel. lia. Qed.

Lemma seek_back_spec s p l pos :
  stored (chunks s) (bytes s) p l -> l <> [] ->
  0 <= pos <= Z.of_nat (length (contents l)) -> Z.of_nat (length (contents l)) < 2 ^ 31 ->
  wp (seek_back p pos) (fun r s' => s' = s /\ at_position l pos r.1 r.2) s.
Proof.
  intros Hst Hl Hpos Hmax. apply wp_bind, wp_gets. pose proof (stored_fuel _ _ _ Hst) as Hf.
  revert p pos Hst Hl Hpos Hmax Hf. generalize (chunk_fuel s).
  induction l as [|[x t] l IH]; intros n p pos Hst Hl Hpos Hmax Hf; [done|].
  destruct n as [|n]; [lia|]. apply wp_loop_step, wp_bind.
  pose proof Hst as (-> & Hx & c & Hc & Hu & Hcap & Hd & Hr & Hl')%stored_cons.
  rewrite contents_cons, length_app in Hpos, Hmax. eapply wp_get_chunk; [done..|].
  rewrite Hu, wrap64_small by lia. case_bool.
  - rewrite int32_small by lia. apply wp_ret. eapply wp_mono.
    + apply IH; [done| |lia|lia|cbn in *; lia]. intros ->. cbn in *. lia.
    + intros [y j] s' [-> Hat]. split; [done|].
      replace pos with (Z.of_nat (length t) + (pos - Z.of_nat (length t))) by lia. by apply at_position_cons.
  - apply wp_ret. split; [done|]. apply (at_position_head x t l pos). lia.
Qed.

Lemma seek_forward_spec s x t l k total off :
  stored (chunks s) (bytes s) x ((x, t) :: l) ->
  0 <= k <= Z.of_nat (length t) -> 0 <= off -> 0 <= total -> total + off < 2 ^ 31 ->
  k + off <= Z.of_nat (length (contents ((x, t) :: l))) < 2 ^ 31 ->
  wp (seek_forward x k total off) (fun r s' => s' = s /\ exists y j,
    r = (y, j, total + off, 0) /\ at_position ((x, t) :: l) (k + off) y j) s.
Proof.
  intros Hst Hk Hoff Htot Hsum Hmax. unfold seek_forward.
  pose proof Hst as (_ & Hx & c & Hc & Hu & Hcap & Hd & Hr & Hl')%stored_cons.
  apply wp_bind. eapply wp_get_chunk; [done..|]. apply wp_bind, wp_gets.
  pose proof (stored_fuel _ _ _ Hst) as Hf. rewrite Hu, wrap64_small by lia.
  match goal with |- wp (bind (loop _ ?b _) _) _ _ => set (body := b) end.
  enough (Hgen : forall l n x t k total off, (length ((x, t) :: l) < n)%nat ->
    stored (chunks s) (bytes s) x ((x, t) :: l) ->
    0 <= k <= Z.of_nat (length t) -> 0 <= off -> 0 <= total -> total + off < 2 ^ 31 ->
    k + off <= Z.of_nat (length (contents ((x, t) :: l))) < 2 ^ 31 ->
    wp (loop n body (x, k, Z.of_nat (length t) - k, total, off)) (fun r s' => s' = s /\
      exists y j d total' off' u, r = (y, j, d, total', off') /\ 0 <= j /\ 0 <= off' <= d /\ 0 <= total' /\
        d = Z.of_nat (length u) - j /\ total' + off' = total + off /\
        (y, u) ∈ (x, t) :: l /\ at_position ((x, t) :: l) (k + off) y (j + off')) s).
  { apply wp_bind. eapply wp_mono; [by apply Hgen|].
    intros ? s' (-> & y & j & d & total' & off' & u & -> & Hj & Hoff' & Htot' & Hd' & E & Hin & Hat).
    assert (Z.of_nat (length u) < 2 ^ 31).
    { destruct (proj1 (Forall_forall _ _) (proj2 Hst) _ Hin) as (c' & _ & Hu' & Hc' & _). cbn in Hu'. lia. }
    rewrite !(wrap64_small off') by lia. rewrite (proj2 (Z.leb_le _ _)) by lia.
    rewrite wrap64_small, int32_small, int64_small by lia. apply wp_ret. split; [done|].
    exists y, (j + off'). split; [|done]. by rewrite E, Z.sub_diag. }
  clear dependent x t l. clear dependent c. clear k total off Hoff Htot Hsum.
  induction l as [|[z u] l IH]; intros n x t k total off Hf Hst Hk Hoff Htot Hsum Hmax;
    (destruct n as [|n]; [lia|]); apply wp_loop_step, wp_bind;
    pose proof Hst as (_ & Hx & c & Hc & Hu & Hcap & Hd & Hr & Hl)%stored_cons;
    (eapply wp_get_chunk; [done..|]); rewrite contents_cons, length_app in Hmax; rewrite wrap64_small by lia.
  - rewrite (stored_nil _ _ _ Hl). cbn [Z.eqb NULL negb]. rewrite andb_false_r. apply wp_ret. split; [done|].
    cbn [contents] in Hmax. cbn in Hmax.
    exists x, k, (Z.of_nat (length t) - k), total, off, t. split_and!; try (done || lia); [constructor|].
    apply at_position_head. lia.
  - pose proof Hl as (E & Hz & c' & Hc' & Hu' & _)%stored_cons. rewrite E in *.
    rewrite (proj2 (Z.eqb_neq z NULL)) by done. cbn [negb]. rewrite andb_true_r. case_bool.
    + apply wp_bind. eapply wp_get_chunk; [done..|]. apply wp_ret.
      rewrite Hu', int32_small, int64_small by lia. eapply wp_mono.
      * replace (Z.of_nat (length u)) with (Z.of_nat (length u) - 0) by lia.
        apply (IH n z u 0); [cbn in *; lia|done|lia|lia|lia|lia|lia].
      * intros r s' (-> & y & j & d & total' & off' & v & -> & Hj & Hoff' & Htot' & Hd' & Es & Hin & Hat).
        split; [done|]. exists y, j, d, total', off', v. split_and!; try (done || lia); [by constructor|].
        replace (k + off) with (Z.of_nat (length t) + (0 + (off - (Z.of_nat (length t) - k)))) by lia.
        by apply at_position_cons.
    + apply wp_ret. split; [done|].
      exists x, k, (Z.of_nat (length t) - k), total, off, t. split_and!; try (done || lia); [constructor|].
      apply at_position_head. lia.
Qed.

Lemma seek_end_spec s p l x t :
  stored (chunks s) (bytes s) p (l ++ [(x, t)]) ->
  Z.of_nat (length (contents (l ++ [(x, t)]))) < 2 ^ 31 ->
  wp (seek_end p) (fun r s' => s' = s /\ r = (x, Z.of_nat (length (contents (l ++ [(x, t)]))))) s.
Proof.
  intros Hst Hmax. apply wp_bind, wp_gets. pose proof (stored_fuel _ _ _ Hst) as Hf.
  match goal with |- wp (loop _ ?b _) _ _ => set (body := b) end.
  enough (Hgen : forall l n p acc, (length (l ++ [(x, t)]) < n)%nat ->
    stored (chunks s) (bytes s) p (l ++ [(x, t)]) -> 0 <= acc ->
    acc + Z.of_nat (length (contents (l ++ [(x, t)]))) < 2 ^ 31 ->
    wp (loop n body (p, acc)) (fun r s' => s' = s /\
      r = (x, acc + Z.of_nat (length (contents (l ++ [(x, t)]))))) s) by by apply (Hgen l _ p 0).
  clear Hst Hmax Hf p l. induction l as [|[z u] l IH]; intros n p acc Hf Hst Hacc Hmax;
    (destruct n as [|n]; [cbn in Hf; lia|]); apply wp_loop_step; unfold body at 1; cbn [app] in *;
    pose proof Hst as (-> & Hx & c & Hc & Hu & Hcap & Hd & Hr & Hl)%stored_cons;
    rewrite (proj2 (Z.eqb_neq _ _)) by done; apply wp_bind; (eapply wp_get_chunk; [done..|]);
    cbv zeta; rewrite contents_cons, length_app in Hmax |- *; rewrite Hu, int32_small by lia.
  - rewrite (stored_nil _ _ _ Hl). apply wp_ret. split; [done|]. f_equal. cbn. lia.
  - assert (Hnn : next_chunk c <> NULL).
    { destruct l as [|[y v] l]; cbn [app] in Hl; pose proof Hl as (-> & ? & _)%stored_cons; done. }
    rewrite (proj2 (Z.eqb_neq _ _)) by done. apply wp_ret.
    eapply wp_mono; [apply IH; [cbn in *; lia|done|lia|lia]|].
    intros r s' [-> ->]. split; [done|]. f_equal. lia.
Qed.

Lemma wp_place_open s fd o y j (Q : unit -> fs M -> Prop) :
  zlookup fd (open_files s) = Some o ->
  Q tt (with_open_files (zinsert fd (OpenFile (of_file o) y j (open_flags o)) (open_files s)) s) ->
  wp (place_open fd y j) Q s.
Proof. intros Ho HQ. by eapply wp_update_open. Qed.

Lemma dandelion_lseek_spec s fd o f l pos off whence :
  zlookup fd (open_files s) = Some o -> of_file o <> NULL ->
  files s !! of_file o = Some f -> ftype f = FILE ->
  stored (chunks s) (bytes s) (content f) l -> l <> [] ->
  let size := Z.of_nat (length (contents l)) in
  0 <= pos <= size -> size < 2 ^ 31 ->
  (whence = SEEK_SET /\ off = pos) \/ (whence = SEEK_END /\ off = pos - size) ->
  wp (dandelion_lseek fd off whence) (fun r s' => r = pos /\ exists y j, at_position l pos y j /\
    s' = with_open_files (zinsert fd (OpenFile (of_file o) y j (open_flags o)) (open_files s)) s) s.
Proof.
  intros Ho Hof Hf Ht Hst Hl size Hpos Hmax Hwh. unfold dandelion_lseek.
  apply wp_bind. eapply wp_get_open; [done|]. cbv zeta. rewrite (proj2 (Z.eqb_neq _ _)) by done.
  apply wp_bind, wp_bind. eapply wp_get_file; [done..|]. rewrite Ht. apply wp_ret. cbn [is_file negb].
  apply wp_bind. eapply wp_get_file; [done..|]. apply wp_bind.
  destruct l as [|[x t] l] using rev_ind; [done|]. clear IHl Hl.
  destruct Hwh as [[-> ->]|[-> ->]]; unfold seek_start.
  - (* from the start *)
    apply wp_ret. rewrite (proj2 (Z.ltb_ge _ _)) by lia.
    assert (exists z u k, l ++ [(x, t)] = (z, u) :: k) as (z & u & k & E).
    { destruct l as [|[z u] l]; [by exists x, t, []|by exists z, u, (l ++ [(x, t)])]. }
    unfold size in *. rewrite E in *. pose proof Hst as (Ez & Hz & _)%stored_cons.
    rewrite (proj2 (Z.eqb_neq (content f) NULL)) by congruence. apply wp_bind. rewrite Ez in *.
    eapply wp_mono; [apply (seek_forward_spec s z u k 0 0 pos); try (done || lia)|].
    intros r s' (-> & y & j & -> & Hat). rewrite Z.eqb_refl. apply wp_bind. eapply wp_place_open; [done|].
    apply wp_ret. split; [lia|]. exists y, j. split; [|done]. by rewrite Z.add_0_l in Hat.
  - (* from the end *)
    cbn [SEEK_END SEEK_SET SEEK_CUR Z.eqb Pos.eqb]. apply wp_bind.
    eapply wp_mono; [by apply seek_end_spec|]. intros r s' [-> ->]. cbv [fst snd].
    destruct (proj1 (Forall_forall _ _) (proj2 Hst) (x, t) ltac:(set_solver)) as (c & Hc & Hu & Hcap & Hd & Hr).
    cbv [fst snd] in Hc, Hu, Hr.
    assert (Hx : x <> NULL) by (eapply chain_in; [apply Hst|rewrite fmap_app; set_solver]).
    apply wp_bind. eapply wp_get_chunk; [done..|]. apply wp_ret. fold size.
    assert (Hsz : size = Z.of_nat (length (contents l)) + Z.of_nat (length t)).
    { unfold size, contents. rewrite fmap_app, concat_app, length_app. cbn. rewrite app_nil_r. lia. }
    case_bool.
    + rewrite (proj2 (Z.eqb_neq x NULL)), (proj2 (Z.ltb_ge (size + _) 0)) by (done || lia). cbn [orb].
      rewrite int32_small by lia. apply wp_bind.
      eapply wp_mono; [apply (seek_back_spec s _ _ (size + (pos - size)) Hst); [by destruct l|fold size; lia|done]|].
      intros [y j] s' [-> Hat]. apply wp_bind. eapply wp_place_open; [done|]. apply wp_ret.
      split; [lia|]. exists y, j. split; [|done]. by replace (size + (pos - size)) with pos in Hat by lia.
    + assert (pos = size) as -> by lia. rewrite Z.sub_diag in *.
      rewrite (proj2 (Z.eqb_neq x NULL)) by done. apply wp_bind.
      assert (Hlast : stored (chunks s) (bytes s) x [(x, t)]).
      { destruct Hst as [Hch Hfa]. split.
        - rewrite fmap_app in Hch. by apply chain_split in Hch.
        - apply Forall_app in Hfa as [_ ?]. done. }
      rewrite Hu. eapply wp_mono.
      * apply (seek_forward_spec s x t [] (Z.of_nat (length t)) size 0 Hlast); try lia.
        unfold contents. cbn. rewrite app_nil_r. lia.
      * intros r s' (-> & y & j & -> & l1 & v & l2 & E & Hj & Ep). rewrite Z.eqb_refl.
        apply wp_bind. eapply wp_place_open; [done|]. apply wp_ret. split; [lia|]. exists y, j.
        split; [|done]. destruct l1 as [|? l1]; [|by destruct l1]. injection E as <- <- <-.
        exists l, t, []. split; [done|]. split; [done|]. cbn in Ep. lia.
Qed.
End seek.
