(* ===== verification/FsRemove.v ===== *)
(** Removing: taking a node out of its directory, and releasing a file with
    its chunks and their buffers. *)
From S2P Require Import Prelude Bytes Heap Alloc AllocCorrect AllocSession AllocTheorems System RuntimeIO Paths PathSpec FsStore FileSystem FsImpl FsLemmas FsTree FsData FsWrite FsSeek.

Section remove.
Context {M : Type} {HS : System M} {HM : Machine}.
Implicit Types s : fs M.

(** * Out of the directory *)

(** The tree after a child was taken out of the list of its directory. *)
Record unlinked (m m' : gmap Z dfile) (folder file : Z) (l1 l2 : list Z) : Prop := {
  un_list : exists d, m' !! folder = Some d /\ ftype d = DIRECTORY /\ chain next m' (content d) (l1 ++ l2);
  un_file : m' !! file = m !! file;
  un_kept x : x <> folder -> x ∉ l1 -> m' !! x = m !! x;
}.

Lemma unlink_walk_spec file p l1 y l2 gy gf s :
  chain next (files s) p (l1 ++ y :: file :: l2) -> files s !! y = Some gy -> files s !! file = Some gf ->
  file <> NULL ->
  wp (unlink_walk file p) (fun _ s' =>
    s' = with_files (<[y := set_next (next gf) gy]> (files s)) s) s.
Proof.
  intros Hc Hy Hf Hf0. apply wp_bind, wp_gets.
  match goal with |- wp (loop _ ?b _) _ _ => set (body := b) end.
  assert (Hk : (length (l1 ++ y :: file :: l2) < file_fuel s)%nat).
  { unfold file_fuel. apply chain_size in Hc. lia. }
  revert p Hc Hk. generalize (file_fuel s) as k.
  induction l1 as [|x l1 IH]; intros k p Hc Hk; (destruct k as [|k]; [lia|]); apply wp_loop_step; unfold body at 1.
  - destruct Hc as (-> & Hy0 & a & Ha & Hn & _). assert (a = gy) as -> by congruence.
    rewrite (proj2 (Z.eqb_neq _ _)) by done. apply wp_bind. eapply wp_get_file; [done..|].
    rewrite Hn, Z.eqb_refl. apply wp_bind. eapply wp_get_file; [done..|].
    apply wp_bind. eapply wp_update_file; [done..|]. by apply wp_ret.
  - pose proof (chain_nodup _ _ _ _ Hc) as Hnd. destruct Hc as (-> & Hx0 & a & Ha & Hl).
    rewrite (proj2 (Z.eqb_neq _ _)) by done. apply wp_bind. eapply wp_get_file; [done..|].
    rewrite (proj2 (Z.eqb_neq (next a) file)).
    + apply wp_ret. apply IH; [done|cbn in *; lia].
    + assert (next a ∈ l1 ++ [y]) as Hin.
      { destruct l1 as [|z l1]; destruct Hl as (-> & _); set_solver. }
      intros E. rewrite E in Hin. replace ((x :: l1) ++ y :: file :: l2) with ((x :: l1 ++ [y]) ++ file :: l2) in Hnd
        by (cbn; by rewrite <-app_assoc).
      apply NoDup_app in Hnd as (_ & Hnd & _). apply (Hnd file); [set_solver|constructor].
Qed.

(** The statements of [dandelion_unlink] between the search and the counter. *)
Lemma unlink_child_spec folder file d f l1 l2 s (Q : unit -> fs M -> Prop) :
  children (files s) folder d (l1 ++ file :: l2) -> files s !! file = Some f ->
  (forall m', unlinked (files s) m' folder file l1 l2 -> Q tt (with_files m' s)) ->
  wp (if content d =? file then update_file folder (set_content (next f))
      else unlink_walk file (content d)) Q s.
Proof.
  intros [Hd Hd0 Ht Hl Hs] Hf HQ.
  pose proof (chain_in _ _ _ _ file Hl ltac:(set_solver)) as [Hf0 _].
  pose proof (chain_nodup _ _ _ _ Hl) as Hnd. destruct l1 as [|x l1] using rev_ind.
  - pose proof Hl as (E & _ & a & Ha & Hrest). assert (a = f) as -> by congruence.
    rewrite E, Z.eqb_refl. eapply wp_update_file; [done..|]. apply HQ. cbn in Hs. split.
    + exists (set_content (next f) d). rewrite lookup_insert_eq. split_and!; [done..|].
      apply chain_insert_ne; [set_solver|done].
    + rewrite lookup_insert_ne; [done|]. intros ->. apply Hs. constructor.
    + intros z Hz _. by rewrite lookup_insert_ne.
  - clear IHl1. rewrite <-app_assoc in Hl, Hs, Hnd. cbn [app] in Hl, Hs, Hnd.
    destruct (chain_in _ _ _ _ x Hl ltac:(set_solver)) as [Hx0 [g Hg]].
    assert (x <> file) as Hxf.
    { apply NoDup_app in Hnd as (_ & _ & [Hx _]%NoDup_cons). set_solver. }
    rewrite (proj2 (Z.eqb_neq (content d) file)).
    2: { intros E. destruct l1 as [|y l1]; destruct Hl as (E' & _); [congruence|].
         rewrite E in E'. subst y. apply NoDup_cons in Hnd as [Hni _]. set_solver. }
    eapply wp_mono; [by eapply unlink_walk_spec|]. intros [] s' ->. apply HQ. split.
    + exists d. rewrite lookup_insert_ne by set_solver. split_and!; [done..|]. rewrite <-app_assoc.
      by eapply chain_remove_after.
    + by rewrite lookup_insert_ne.
    + intros z _ Hz. rewrite lookup_insert_ne; [done|]. set_solver.
Qed.

(** * Release *)

(** The allocations of a list of chunks, in the order in which they are
    released. *)
Definition chunk_memory (cs : gmap Z file_chunk) (xs : list Z) : list Z :=
  flat_map (fun x => match cs !! x with Some c => [data c; x] | None => [x] end) xs.

(** The allocations [ps] have been given back, and the objects in them are
    gone; everything else is as it was. *)
Record given_back s s' (ps : list Z) : Prop := {
  gb_sound : sound s';
  gb_live : exists freed, live s ≡ₚ freed ++ live s' /\ freed.*1 ≡ₚ ps;
  gb_files q : files s' !! q = if decide (q ∈ ps) then None else files s !! q;
  gb_chunks q : chunks s' !! q = if decide (q ∈ ps) then None else chunks s !! q;
  gb_open : open_files s' = open_files s;
  gb_none : ps = [] -> s' = s;
}.

Lemma given_back_nil s : sound s -> given_back s s [].
Proof.
  intros Hs. split; [done|by exists []| | |done|done]; intros q; rewrite decide_False; set_solver.
Qed.

Lemma given_back_app s s1 s2 ps1 ps2 :
  given_back s s1 ps1 -> given_back s1 s2 ps2 -> given_back s s2 (ps1 ++ ps2).
Proof.
  intros [_ (f1 & Hl1 & Hp1) Hf1 Hc1 Ho1 Hn1] [Hs2 (f2 & Hl2 & Hp2) Hf2 Hc2 Ho2 Hn2]. split; [done| | | |congruence|].
  - exists (f1 ++ f2). split; [by rewrite Hl1, Hl2, app_assoc|]. by rewrite fmap_app, Hp1, Hp2.
  - intros q. rewrite Hf2, Hf1. repeat case_decide; set_solver.
  - intros q. rewrite Hc2, Hc1. repeat case_decide; set_solver.
  - intros [E1 E2]%app_eq_nil. rewrite Hn2 by done. by apply Hn1.
Qed.

Lemma wp_give_back p (Q : unit -> fs M -> Prop) s :
  sound s -> p ∈ (live s).*1 -> (forall s', given_back s s' [p] -> Q tt s') -> wp (fs_free p) Q s.
Proof.
  intros Hs Hp HQ. apply list_elem_of_fmap in Hp as ([q n] & -> & Hin). cbn [fst].
  apply list_elem_of_split in Hin as (L1 & L2 & HL).
  eapply wp_fs_free; [done|exact HL|]. intros m Hm Hl. apply HQ. split; [done| | | |done|done].
  - exists [(q, n)]. split; [|done]. change (live (forget q (put_sys m s))) with (sys_live m).
    rewrite HL, Hl. cbn. by rewrite Permutation_middle.
  - intros z. cbn. case_decide as Hz; [apply list_elem_of_singleton in Hz as ->; apply lookup_delete_eq|].
    apply lookup_delete_ne. set_solver.
  - intros z. cbn. case_decide as Hz; [apply list_elem_of_singleton in Hz as ->; apply lookup_delete_eq|].
    apply lookup_delete_ne. set_solver.
Qed.

Lemma given_back_live s s' ps q :
  given_back s s' ps -> q ∈ (live s).*1 -> q ∉ ps -> q ∈ (live s').*1.
Proof.
  intros [_ (fr & Hl & Hp) _ _ _ _] Hq Hni. rewrite Hl, fmap_app in Hq.
  apply elem_of_app in Hq as [Hq|Hq]; [|done]. rewrite Hp in Hq. done.
Qed.

(** The chunks [xs] from [p] on are separate live allocations. *)
Record chunks_owned s (p : Z) (xs : list Z) : Prop := {
  co_chain : chain next_chunk (chunks s) p xs;
  co_live q : q ∈ chunk_memory (chunks s) xs -> q ∈ (live s).*1;
  co_nodup : NoDup (chunk_memory (chunks s) xs);
}.

Lemma chunk_memory_cons cs x xs c :
  cs !! x = Some c -> chunk_memory cs (x :: xs) = data c :: x :: chunk_memory cs xs.
Proof. unfold chunk_memory. cbn. by intros ->. Qed.

Lemma chunk_memory_app cs l1 l2 : chunk_memory cs (l1 ++ l2) = chunk_memory cs l1 ++ chunk_memory cs l2.
Proof. apply flat_map_app. Qed.

Lemma chunk_memory_in cs xs x : x ∈ xs -> x ∈ chunk_memory cs xs.
Proof.
  induction xs as [|y xs IH]; [done|]. unfold chunk_memory. cbn. destruct (cs !! y); set_solver.
Qed.

Lemma chunk_memory_agree cs cs' xs :
  (forall x, x ∈ xs -> cs' !! x = cs !! x) -> chunk_memory cs' xs = chunk_memory cs xs.
Proof.
  induction xs as [|x xs IH]; intros H; [done|]. unfold chunk_memory in *. cbn.
  rewrite (H x) by constructor. rewrite IH; [done|]. intros y Hy. apply H. by constructor.
Qed.

Lemma chunks_owned_tail s s' p x c xs :
  chunks_owned s p (x :: xs) -> chunks s !! x = Some c -> given_back s s' [data c; x] ->
  chunks_owned s' (next_chunk c) xs.
Proof.
  intros [Hch Hlive Hnd] Hc Hg. rewrite (chunk_memory_cons _ _ _ _ Hc) in *.
  apply NoDup_cons in Hnd as [Hd [Hx Hnd]%NoDup_cons].
  destruct Hch as (_ & _ & a & Ha & Hl). assert (a = c) as -> by congruence.
  assert (Hcs : forall y, y ∈ xs -> chunks s' !! y = chunks s !! y).
  { intros y Hy. rewrite (gb_chunks _ _ _ Hg), decide_False; [done|].
    apply (chunk_memory_in (chunks s)) in Hy. set_solver. }
  assert (Hcm : chunk_memory (chunks s') xs = chunk_memory (chunks s) xs) by by apply chunk_memory_agree.
  split; [|intros q Hq; rewrite Hcm in Hq|by rewrite Hcm].
  - eapply chain_agree; [|exact Hl]. intros y b Hy Hb. exists b. by rewrite Hcs.
  - eapply given_back_live; [done|apply Hlive; set_solver|set_solver].
Qed.

Lemma free_file_chunks_spec xs p s (Q : unit -> fs M -> Prop) :
  sound s -> chunks_owned s p xs ->
  (forall s', given_back s s' (chunk_memory (chunks s) xs) -> Q tt s') ->
  wp (free_file_chunks p) Q s.
Proof.
  intros Hs Ho HQ. apply wp_bind, wp_gets.
  match goal with |- wp (loop _ ?b _) _ _ => set (body := b) end.
  assert (Hk : (length xs < chunk_fuel s)%nat).
  { unfold chunk_fuel. pose proof (chain_size _ _ _ _ (co_chain _ _ _ Ho)). lia. }
  revert Hk. generalize (chunk_fuel s) as k. intros k Hk. revert k p s Hs Ho HQ Hk.
  induction xs as [|x xs IH]; intros k p s Hs Ho HQ Hk; (destruct k as [|k]; [cbn in Hk; lia|]);
    apply wp_loop_step; unfold body at 1; pose proof (co_chain _ _ _ Ho) as Hch.
  - rewrite Hch, Z.eqb_refl. apply wp_ret, HQ. by apply given_back_nil.
  - destruct Hch as (-> & Hx0 & c & Hc & Hl). pose proof (chunk_memory_cons _ _ xs _ Hc) as Hcm.
    rewrite (proj2 (Z.eqb_neq _ _)) by done. apply wp_bind. eapply wp_get_chunk; [done..|].
    pose proof (co_nodup _ _ _ Ho) as Hnd. rewrite Hcm in Hnd. apply NoDup_cons in Hnd as [Hd _].
    apply wp_bind, wp_give_back; [done|apply (co_live _ _ _ Ho); rewrite Hcm; constructor|].
    intros s1 H1. apply wp_bind, wp_give_back; [apply H1| |].
    { eapply given_back_live; [done|apply (co_live _ _ _ Ho); rewrite Hcm; set_solver|set_solver]. }
    intros s2 H2. apply wp_ret. assert (H12 : given_back s s2 [data c; x]) by exact (given_back_app _ _ _ [_] [_] H1 H2).
    pose proof (chunks_owned_tail _ _ _ _ _ _ Ho Hc H12) as Ho2.
    apply (IH k); [apply H2|done| |cbn in Hk; lia].
    intros s' H3. apply HQ. rewrite Hcm. apply (given_back_app _ _ _ [data c; x] _ H12).
    rewrite (chunk_memory_agree (chunks s) (chunks s2)) in H3; [done|].
    intros y Hy. rewrite (gb_chunks _ _ _ H12), decide_False; [done|].
    pose proof (co_nodup _ _ _ Ho) as Hnd. rewrite Hcm in Hnd.
    apply NoDup_cons in Hnd as [Hd' [Hx' _]%NoDup_cons]. apply (chunk_memory_in (chunks s)) in Hy. set_solver.
Qed.
(** A regular file with the memory it holds. *)
Record file_owned s (file : Z) (f : dfile) (xs : list Z) : Prop := {
  fw_node : files s !! file = Some f;
  fw_valid : file <> NULL;
  fw_type : ftype f = FILE;
  fw_chunks : chunks_owned s (content f) xs;
  fw_live : file ∈ (live s).*1;
  fw_apart : file ∉ chunk_memory (chunks s) xs;
}.

(** [free_data] keeps a file that is linked or open. *)
Lemma free_data_kept s file f (Q : Z -> fs M -> Prop) :
  files s !! file = Some f -> file <> NULL -> hard_links f <> 0 \/ open_descripotors f <> 0 ->
  Q 0 s -> wp (free_file_data file) Q s.
Proof.
  intros Hf Hf0 Hh HQ. apply wp_bind, wp_gets. unfold file_fuel. cbn [free_data]. apply wp_bind.
  eapply wp_get_file; [done..|]. destruct Hh as [Hh|Hh]; rewrite (proj2 (Z.eqb_neq _ _) Hh), ?orb_true_r; by apply wp_ret.
Qed.

Lemma free_data_released s file f xs (Q : Z -> fs M -> Prop) :
  sound s -> file_owned s file f xs -> hard_links f = 0 -> open_descripotors f = 0 ->
  (forall s', given_back s s' (chunk_memory (chunks s) xs ++ [file]) -> Q 0 s') ->
  wp (free_file_data file) Q s.
Proof.
  intros Hs [Hf Hf0 Ht Hch Hlv Hap] Hh Ho HQ. apply wp_bind, wp_gets. unfold file_fuel. cbn [free_data].
  apply wp_bind. eapply wp_get_file; [done..|]. rewrite Hh, Ho, Ht. cbn [Z.eqb negb orb].
  apply wp_bind. eapply free_file_chunks_spec; [done..|]. intros s1 H1.
  apply wp_bind, wp_give_back; [apply H1|by eapply given_back_live|].
  intros s2 H2. apply wp_ret, HQ. by eapply given_back_app.
Qed.

(** A change of counters or links of nodes does not concern the memory. *)
Lemma file_owned_update s file f g xs m' :
  file_owned s file f xs -> m' !! file = Some g -> ftype g = FILE -> content g = content f ->
  file_owned (with_files m' s) file g xs.
Proof.
  intros [Hf Hf0 Ht [Hc Hl Hn] Hlv Hap] Hg Htg Hcg. split; try done. rewrite Hcg. by split.
Qed.
(** ** Truncation *)

(** The two loops that release chunks are the same. *)
Lemma free_chunks_from_eq p s : free_chunks_from p s = free_file_chunks p s.
Proof.
  unfold free_chunks_from, free_file_chunks, bind at 1 4, gets. apply loop_agree. intros a s'.
  destruct (a =? NULL); [done|]. unfold bind, free_file_chunk. destruct (get_chunk a s') as [c s1|f] eqn:E; [|done].
  assert (s1 = s') as ->.
  { revert E. unfold get_chunk, deref. destruct (a =? NULL); [done|]. destruct (chunks s' !! a); [|done]. congruence. }
  unfold bind. rewrite E. destruct (fs_free (data c) s') as [? s2|]; [|done]. by destruct (fs_free a s2).
Qed.

(** The chunks behind [x] stay owned when the counter of [x] changes. *)
Lemma chunks_owned_behind s p l1 x c l2 k :
  chunks_owned s p (l1 ++ x :: l2) -> chunks s !! x = Some c ->
  chunks_owned (with_chunks (<[x := set_used k c]> (chunks s)) s) (next_chunk c) l2 /\
  chunk_memory (<[x := set_used k c]> (chunks s)) l2 = chunk_memory (chunks s) l2.
Proof.
  intros [Hch Hlv Hnd] Hc. pose proof (chain_nodup _ _ _ _ Hch) as Hndx.
  assert (x ∉ l2) as Hx by (apply NoDup_app in Hndx as (_ & _ & [Hx _]%NoDup_cons); done).
  assert (Hcm : chunk_memory (<[x := set_used k c]> (chunks s)) l2 = chunk_memory (chunks s) l2).
  { apply chunk_memory_agree. intros y Hy. rewrite lookup_insert_ne; [done|]. by intros ->. }
  split; [|done]. apply chain_split in Hch as (_ & _ & a & Ha & Hl). assert (a = c) as -> by congruence.
  rewrite chunk_memory_app, (chunk_memory_cons _ _ _ _ Hc) in Hnd.
  assert (Hlv' : forall q, q ∈ chunk_memory (chunks s) l2 -> q ∈ (live s).*1).
  { intros q Hq. apply Hlv. rewrite chunk_memory_app, (chunk_memory_cons _ _ _ _ Hc). set_solver. }
  split.
  - by apply chain_insert_ne.
  - cbn [chunks with_chunks]. by rewrite Hcm.
  - cbn [chunks with_chunks]. rewrite Hcm. apply NoDup_app in Hnd as (_ & _ & Hnd).
    by apply NoDup_cons in Hnd as [_ [_ Hnd]%NoDup_cons].
Qed.

Lemma truncate_walk_spec l1 x t l2 c p length s (Q : unit + Z * Z -> fs M -> Prop) :
  sound s -> stored (chunks s) (bytes s) p (l1 ++ (x, t) :: l2) -> chunks s !! x = Some c ->
  chunks_owned (with_chunks (<[x := set_used (length - Z.of_nat (List.length (contents l1))) c]> (chunks s)) s)
    (next_chunk c) l2.*1 ->
  l1 = [] \/ Z.of_nat (List.length (contents l1)) < length ->
  0 <= length - Z.of_nat (List.length (contents l1)) <= Z.of_nat (List.length t) -> length < 2 ^ 63 ->
  (forall s', given_back
     (with_chunks (<[x := set_used (length - Z.of_nat (List.length (contents l1))) c]> (chunks s)) s) s'
     (chunk_memory (<[x := set_used (length - Z.of_nat (List.length (contents l1))) c]> (chunks s)) l2.*1) ->
     Q (inl tt) s') ->
  wp (truncate_walk p length) Q s.
Proof.
  intros Hs Hst Hc Ho Hl1 Hcut Hmax HQ. apply wp_bind, wp_gets.
  match goal with |- wp (loop _ ?b _) _ _ => set (body := b) end.
  assert (Hk : (List.length (l1 ++ (x, t) :: l2) < chunk_fuel s)%nat).
  { unfold chunk_fuel. destruct Hst as [Hch _]. apply chain_size in Hch. rewrite length_fmap in Hch. lia. }
  set (k := length - Z.of_nat (List.length (contents l1))) in *.
  assert (Hlen : length = Z.of_nat (List.length (contents l1)) + k) by (unfold k; lia).
  clearbody k. subst length. revert p Hst Hk Hl1. generalize (chunk_fuel s) as n.
  induction l1 as [|[z v] l1 IH]; intros n p Hst Hk Hl1; (destruct n as [|n]; [cbn in Hk; lia|]);
    apply wp_loop_step; unfold body at 1.
  - pose proof Hst as (-> & Hx & c' & Hc' & Hu & _)%stored_cons. assert (c' = c) as -> by congruence.
    unfold contents. cbn [fmap list_fmap concat List.length]. rewrite Z.add_0_l.
    apply wp_bind. eapply wp_get_chunk; [done..|]. rewrite wrap64_small by lia.
    rewrite (proj2 (Z.leb_le _ _)) by lia. apply wp_bind. eapply wp_update_chunk; [done..|].
    apply wp_bind. unfold wp at 1. rewrite free_chunks_from_eq.
    eapply free_file_chunks_spec; [exact Hs|exact Ho|]. intros s' Hg. apply wp_ret. by apply HQ.
  - pose proof Hst as (-> & Hz & c' & Hc' & Hu & Hcap & _ & _ & Hrest)%stored_cons.
    rewrite contents_cons in *. rewrite length_app, Nat2Z.inj_add in *.
    destruct Hl1 as [Hl1|Hl1]; [done|].
    apply wp_bind. eapply wp_get_chunk; [done..|]. rewrite wrap64_small by lia.
    rewrite (proj2 (Z.leb_gt _ _)) by lia.
    assert (Hn : next_chunk c' <> NULL).
    { destruct l1 as [|[z' v'] l1]; pose proof Hrest as (-> & ? & _)%stored_cons; done. }
    rewrite (proj2 (Z.eqb_neq _ _)) by done. apply wp_ret.
    rewrite int64_small by lia. replace (_ + k - used c') with (Z.of_nat (List.length (contents l1)) + k) by lia.
    apply IH; [|done|cbn in *; lia|lia]. lia.
Qed.

(** Following the links from [p] visits [l] and arrives at [q]. *)
Fixpoint leads (cs : gmap Z file_chunk) (p : Z) (l : list Z) (q : Z) : Prop :=
  match l with
  | [] => p = q
  | x :: l => p = x /\ x <> NULL /\ exists c, cs !! x = Some c /\ leads cs (next_chunk c) l q
  end.

Lemma chain_leads cs p l1 x l2 : chain next_chunk cs p (l1 ++ x :: l2) -> leads cs p l1 x.
Proof.
  revert p. induction l1 as [|y l1 IH]; intros p; cbn; [by intros (-> & _)|].
  intros (-> & Hy & c & Hc & Hl). split_and!; [done..|]. exists c. split; [done|by apply IH].
Qed.

Lemma leads_agree cs cs' p l q :
  (forall x c, x ∈ l -> cs !! x = Some c -> exists c', cs' !! x = Some c' /\ next_chunk c' = next_chunk c) ->
  leads cs p l q -> leads cs' p l q.
Proof.
  revert p. induction l as [|x l IH]; intros p Hm; [done|]. cbn. intros (-> & Hx & c & Hc & Hl).
  destruct (Hm x c) as (c' & Hc' & E); [constructor|done|]. split_and!; [done..|]. exists c'. split; [done|].
  rewrite E. apply IH; [|done]. intros y b Hy. apply Hm. by constructor.
Qed.

(** A walk along the chunks that arrives at an address where no chunk is stops
    there. *)
Lemma content_chunks_dangling p l q s f (step : file_chunk -> Z -> Z) :
  leads (chunks s) p l q -> NoDup l -> q <> NULL -> chunks s !! q = None ->
  (forall c acc, f c acc s = Ret (step c acc) s) ->
  content_chunks p f s = Fault OutOfBounds.
Proof.
  intros Hl Hnd Hq Hn Hf. unfold content_chunks, bind at 1, gets.
  assert (Hk : (List.length l < chunk_fuel s)%nat).
  { unfold chunk_fuel. rewrite <-size_dom. rewrite <-(size_list_to_set (C := gset Z)) by done.
    apply Nat.lt_succ_r, subseteq_size. intros x Hx%elem_of_list_to_set. apply elem_of_dom.
    clear -Hl Hx. revert p Hl. induction l as [|y l IH]; intros p; [set_solver|].
    intros (-> & _ & c & Hc & Hl).
    apply elem_of_cons in Hx as [->|Hx]; [by eexists|by eapply IH]. }
  clear Hnd. revert p Hl Hk. generalize (chunk_fuel s), 0. induction l as [|x l IH]; intros n acc p Hl Hk;
    (destruct n as [|n]; [lia|]); cbn [loop].
  - cbn in Hl. subst p. unfold bind at 1. rewrite (proj2 (Z.eqb_neq _ _)) by done.
    unfold bind at 1, get_chunk, deref. rewrite (proj2 (Z.eqb_neq _ _)) by done. by rewrite Hn.
  - destruct Hl as (-> & Hx & c & Hc & Hl). unfold bind at 1. rewrite (proj2 (Z.eqb_neq _ _)) by done.
    unfold bind at 1, get_chunk, deref. rewrite (proj2 (Z.eqb_neq _ _)) by done. rewrite Hc.
    unfold bind at 1. rewrite Hf. apply IH; [done|cbn in Hk; lia].
Qed.

Lemma stored_cut cs m p l1 x t c k :
  stored cs m p (l1 ++ [(x, t)]) -> cs !! x = Some c -> 0 <= k <= Z.of_nat (List.length t) ->
  stored (<[x := set_used k c]> cs) m p (l1 ++ [(x, take (Z.to_nat k) t)]).
Proof.
  intros Hst Hc Hk. destruct (stored_in _ _ _ _ x t Hst) as (_ & c' & Hc' & Hu & Hcap & Hd & Hr); [set_solver|].
  cbv [fst snd] in *. assert (c' = c) as -> by congruence. split.
  - destruct Hst as [Hch _]. rewrite fmap_app in *. by eapply chain_insert_same.
  - apply Forall_app. split; [|constructor; [|constructor]].
    + apply Forall_forall. intros [z v] Hz.
      destruct (stored_in _ _ _ _ z v Hst) as (_ & c' & Hcz & H); [set_solver|]. exists c'.
      cbv [fst snd] in *. rewrite lookup_insert_ne; [done|]. intros ->.
      by apply (stored_split_ne _ _ _ l1 z t [] z v Hst); [set_solver|].
    + exists (set_used k c). cbn. rewrite lookup_insert_eq, length_take. split_and!; try done; try lia.
      by apply take_region.
Qed.

(** The chunks up to the cut are not among those behind it. *)
Lemma front_not_behind s p l1 x l2 :
  chunks_owned s p (l1 ++ x :: l2) ->
  forall z, z ∈ l1 ++ [x] -> z ∉ chunk_memory (chunks s) l2.
Proof.
  intros [_ _ Hnd] z Hz Hin. replace (l1 ++ x :: l2) with ((l1 ++ [x]) ++ l2) in Hnd by by rewrite <-app_assoc.
  rewrite chunk_memory_app in Hnd. apply NoDup_app in Hnd as (_ & Hnd & _).
  apply (Hnd z); [by apply chunk_memory_in|done].
Qed.

(** A file that is open for writing only, with its memory, that is cut to a
    length: [k] bytes of the chunk [x] are left. *)
Record truncates s (fd length : Z) (o : open_file) (f : dfile) (l1 : list (Z * list Z)) (x : Z)
    (t : list Z) (l2 : list (Z * list Z)) (c : file_chunk) (k : Z) : Prop := {
  tr_open : zlookup fd (open_files s) = Some o;
  tr_flags : has (open_flags o) O_WRONLY = true;
  tr_owned : file_owned s (of_file o) f (l1 ++ (x, t) :: l2).*1;
  tr_stored : stored (chunks s) (bytes s) (content f) (l1 ++ (x, t) :: l2);
  tr_chunk : chunks s !! x = Some c;
  tr_length : length = Z.of_nat (List.length (contents l1)) + k;
  tr_range : 0 <= k <= Z.of_nat (List.length t) /\ length < 2 ^ 63;
  tr_first : l1 = [] \/ 0 < k;
}.

Lemma ftruncate_spec s fd length o f l1 x t l2 c k :
  sound s -> truncates s fd length o f l1 x t l2 c k ->
  wp (dandelion_ftruncate fd length) (fun r s' => r = 0 /\
    given_back (with_chunks (<[x := set_used k c]> (chunks s)) s) s' (chunk_memory (chunks s) l2.*1)) s.
Proof.
  intros Hs [Ho Hfl [Hf Hf0 Ht Hch Hlv Hap] Hst Hc Hlen [Hk Hmax] Hl1].
  apply wp_bind. eapply wp_get_open; [done|]. rewrite (proj2 (Z.eqb_neq _ _)) by done. rewrite Hfl. cbn [negb].
  unfold truncate_node. rewrite (proj2 (Z.ltb_ge _ _)) by lia. apply wp_bind. eapply wp_get_file; [done..|].
  rewrite Ht. cbn [is_file negb]. apply wp_bind. rewrite fmap_app in Hch. cbn [fmap list_fmap fst] in Hch.
  destruct (chunks_owned_behind _ _ _ _ _ _ k Hch Hc) as [Hb Hcm].
  assert (length - Z.of_nat (List.length (contents l1)) = k) as Ek by lia.
  eapply (truncate_walk_spec l1 x t l2 c); rewrite ?Ek; [done|done|done|exact Hb| |done|done|].
  { destruct Hl1; [by left|right; lia]. }
  intros s' Hg. apply wp_ret. split; [done|]. by rewrite <-Hcm.
Qed.
End remove.
