(* ===== verification/FsExport.v ===== *)
(** The export of files: the abstract trees of directories, the output items of
    a tree, how nodes and chunks represent a tree, and what the export of one
    node ([add_output_from_file] of src/file_system/file_system.c) does. *)
From S2P Require Import Prelude Bytes Heap Alloc AllocSession AllocTheorems System RuntimeIO RuntimeTree RuntimeOutput Paths PathSpec FsStore FileSystem FsLemmas FsTree FsData FsWrite FsSeek.

(** * Trees *)

Inductive tree :=
| TFile (label text : list Z)
| TDir (label : list Z) (kids : list tree).

(** Induction with the hypothesis for all children of a directory. *)
Lemma tree_induction (P : tree -> Prop) :
  (forall label text, P (TFile label text)) ->
  (forall label kids, Forall P kids -> P (TDir label kids)) ->
  forall t, P t.
Proof.
  intros Hf Hd. fix IH 1. intros [label text|label kids]; [apply Hf|apply Hd].
  induction kids as [|t kids IHk]; constructor; [apply IH|exact IHk].
Qed.

Definition label_of (t : tree) : list Z := match t with TFile l _ => l | TDir l _ => l end.

(** The items: every file by its path from the set's directory, in the order
    of the directories. *)
Fixpoint exports (prefix : list Z) (t : tree) : list (list Z * list Z) :=
  match t with
  | TFile label text => [(prefix ++ label, text)]
  | TDir label kids => concat (map (exports (prefix ++ label ++ [slash])) kids)
  end.

Fixpoint files_in (t : tree) : Z :=
  match t with TFile _ _ => 1 | TDir _ kids => foldr (fun t n => files_in t + n) 0 kids end.
Fixpoint nodes_in (t : tree) : nat :=
  match t with TFile _ _ => 1 | TDir _ kids => Datatypes.S (foldr (fun t n => (nodes_in t + n)%nat) 0%nat kids) end.
Fixpoint depth (t : tree) : nat :=
  match t with TFile _ _ => 1 | TDir _ kids => Datatypes.S (foldr (fun t n => Nat.max (depth t) n) 0%nat kids) end.

Definition sum_files (ts : list tree) : Z := foldr (fun t n => files_in t + n) 0 ts.
Definition sum_nodes (ts : list tree) : nat := foldr (fun t n => (nodes_in t + n)%nat) 0%nat ts.
Definition max_depth (ts : list tree) : nat := foldr (fun t n => Nat.max (depth t) n) 0%nat ts.

Lemma files_in_exports t : forall prefix, Z.of_nat (length (exports prefix t)) = files_in t.
Proof.
  induction t as [label text|label kids IH] using tree_induction; intros prefix; [done|].
  cbn [exports files_in]. generalize (prefix ++ label ++ [slash]). intros q.
  induction IH as [|t kids IHt _ IHk]; [done|]. cbn [map concat foldr].
  rewrite length_app, Nat2Z.inj_add, IHt, IHk. done.
Qed.

Lemma files_in_nonneg t : 0 <= files_in t.
Proof. rewrite <-(files_in_exports t []). lia. Qed.

Lemma sum_files_nonneg ts : 0 <= sum_files ts.
Proof. induction ts as [|t ts IH]; cbn; [lia|]. pose proof (files_in_nonneg t). unfold sum_files in IH. lia. Qed.

Section export.
Context {M : Type} {HS : System M} {HM : Machine}.
Implicit Types s : fs M.

(** * Memory that nobody takes away

    [safe s R a]: the byte at [a] lies in a live allocation that is not one of
    the temporary ones [R], or outside the area of the allocator (the data of
    the platform). *)
Definition first_live s : Prop := sys_first (rt_sys (fs_rt s)) ∈ (live s).*1.
Definition held s (x : Z) : Prop := x < 0 \/ x ∈ (live s).*1.
Definition safe s (R : list Z) (a : Z) : Prop :=
  (exists p n, (p, n) ∈ live s /\ (p ∉ R) /\ p <= a < p + 8 * n) \/
  ~ ((area s).1 <= a < (area s).2).
Definition safe_range s R (a n : Z) : Prop := forall i, 0 <= i < n -> safe s R (a + i).

(** The state grew: allocations, nodes, chunks and bytes that were there are
    still there, and at most [c] bytes of the rest of the heap are gone. *)
Record extends (c : Z) s s' : Prop := {
  ex_grows : sys_grows (rt_sys (fs_rt s)) (rt_sys (fs_rt s')) c;
  ex_files x : held s x -> files s' !! x = files s !! x;
  ex_fewer : files s' ⊆ files s;
  ex_chunks x : held s x -> chunks s' !! x = chunks s !! x;
  ex_extents x : held s x -> extents s' !! x = extents s !! x;
  ex_bytes a : safe s [] a -> bytes s' !! a = bytes s !! a;
}.

Lemma ex_live c s s' : extends c s s' -> live s ⊆ live s'.
Proof. intros H. apply (sg_live _ _ _ (ex_grows _ _ _ H)). Qed.
Lemma ex_area c s s' : extends c s s' -> area s' = area s.
Proof. intros H. apply (sg_area _ _ _ (ex_grows _ _ _ H)). Qed.

Lemma live_extends c s s' x : extends c s s' -> x ∈ (live s).*1 -> x ∈ (live s').*1.
Proof.
  intros H%ex_live ([y n] & -> & Hx)%list_elem_of_fmap. apply list_elem_of_fmap. exists (y, n). auto.
Qed.

Lemma held_extends c s s' x : extends c s s' -> held s x -> held s' x.
Proof. intros H [Hx|Hx]; [by left|right]. by eapply live_extends. Qed.

Lemma safe_extends c s s' R a : extends c s s' -> safe s R a -> safe s' R a.
Proof.
  intros H [(p & n & Hp & HR & Ha)|Ha].
  - left. exists p, n. split; [by apply (ex_live _ _ _ H)|done].
  - right. by rewrite (ex_area _ _ _ H).
Qed.

Lemma safe_weaken s R a : safe s R a -> safe s [] a.
Proof. intros [(p & n & Hp & _ & Ha)|Ha]; [left; exists p, n|by right]. split_and!; set_solver || lia. Qed.

Lemma extends_refl s : sound s -> extends 0 s s.
Proof. intros Hs. split; try done. by apply sys_grows_refl. Qed.

Lemma extends_trans c d s1 s2 s3 : extends c s1 s2 -> extends d s2 s3 -> extends (c + d) s1 s3.
Proof.
  intros H1 H2. split.
  - eapply sys_grows_trans; [apply H1|apply H2].
  - intros x Hx. rewrite (ex_files _ _ _ H2), (ex_files _ _ _ H1); [done|done|by eapply held_extends].
  - etrans; [apply H2|apply H1].
  - intros x Hx. rewrite (ex_chunks _ _ _ H2), (ex_chunks _ _ _ H1); [done|done|by eapply held_extends].
  - intros x Hx. rewrite (ex_extents _ _ _ H2), (ex_extents _ _ _ H1); [done|done|by eapply held_extends].
  - intros a Ha. rewrite (ex_bytes _ _ _ H2), (ex_bytes _ _ _ H1); [done|done|by eapply safe_extends].
Qed.

Lemma extends_mono c d s s' : extends c s s' -> c <= d -> extends d s s'.
Proof. intros [] Hcd. split; try done. by eapply sys_grows_mono. Qed.

Lemma region_extends c s s' R a l :
  extends c s s' -> safe_range s R a (Z.of_nat (length l)) -> region (bytes s) a l -> region (bytes s') a l.
Proof.
  intros H Hs Hr i b Hi. rewrite (ex_bytes _ _ _ H); [by apply Hr|].
  eapply safe_weaken, Hs. by eapply zlookup_range.
Qed.

(** * Nodes that represent a tree *)

Record node_ok s (x : Z) (f : dfile) : Prop := {
  no_node : files s !! x = Some f;
  no_valid : x <> NULL;
  no_held : held s x;
  no_named : named f;
  no_label : node_name f <> [];
}.

(** A chunk whose bytes nobody takes away; of an empty one, the place its data
    points to. *)
Definition chunk_safe s R (xt : Z * list Z) : Prop :=
  held s xt.1 /\ forall c, chunks s !! xt.1 = Some c ->
    safe_range s R (data c) (Z.max 1 (Z.of_nat (length xt.2))).

(** A file of several chunks has at least one byte: otherwise its export asks
    for no memory and takes the refusal for a lack of memory. *)
Inductive node_rep s R : Z -> tree -> Prop :=
| rep_file x f l :
    node_ok s x f -> ftype f = FILE -> stored (chunks s) (bytes s) (content f) l ->
    Forall (chunk_safe s R) l -> (length l <= 1)%nat \/ contents l <> [] ->
    Z.of_nat (length (contents l)) < 2 ^ 62 ->
    node_rep s R x (TFile (node_name f) (contents l))
| rep_dir x f xs kids :
    node_ok s x f -> ftype f = DIRECTORY -> chain next (files s) (content f) xs ->
    Forall2 (node_rep s R) xs kids -> node_rep s R x (TDir (node_name f) kids).

(** The representation does not depend on more than what stays. *)
Lemma chain_held {A} (nxt : A -> Z) (m m' : gmap Z A) s p l :
  (forall x, held s x -> m' !! x = m !! x) -> Forall (held s) l -> chain nxt m p l -> chain nxt m' p l.
Proof.
  intros Hm Hl. revert p. induction Hl as [|x l Hx Hl IH]; intros p; [done|].
  intros (-> & Hx0 & a & Ha & Hc). split_and!; [done..|]. exists a. rewrite Hm by done. by split; [|apply IH].
Qed.

Lemma stored_frame s s' R (p : Z) l :
  (forall x, held s x -> chunks s' !! x = chunks s !! x) ->
  (forall a, safe s [] a -> bytes s' !! a = bytes s !! a) ->
  Forall (chunk_safe s R) l -> stored (chunks s) (bytes s) p l -> stored (chunks s') (bytes s') p l.
Proof.
  intros Hc Hb Hs [Hch Hf]. split.
  - eapply chain_held; [exact Hc| |exact Hch]. apply Forall_fmap.
    eapply Forall_impl; [exact Hs|]. by intros [x t] [? _].
  - apply Forall_forall. intros [x t] Hin. rewrite Forall_forall in Hs, Hf.
    destruct (Hf _ Hin) as (c & Hxc & Hu & Hcap & Hd & Hr). destruct (Hs _ Hin) as [Hx Hsafe].
    exists c. cbn [fst snd] in *. rewrite Hc by done. split_and!; [done|done|lia|lia|done|]. intros i b Hi. rewrite Hb; [by apply Hr|].
    eapply safe_weaken, (Hsafe c); [done|]. apply zlookup_range in Hi. lia.
Qed.

Lemma node_ok_frame s s' x f :
  (forall x, held s x -> held s' x /\ files s' !! x = files s !! x) -> node_ok s x f -> node_ok s' x f.
Proof. intros H [Hf H0 Hh Hn Hl]. destruct (H x Hh) as [Hh' E]. split; [by rewrite E|done..]. Qed.

(** Changing the memory and the set of temporary allocations. *)
Lemma node_rep_frame s s' R R' x t :
  (forall x, held s x -> held s' x /\ files s' !! x = files s !! x) ->
  (forall x, held s x -> chunks s' !! x = chunks s !! x) ->
  (forall a, safe s [] a -> bytes s' !! a = bytes s !! a) ->
  (forall a, safe s R a -> safe s' R' a) ->
  node_rep s R x t -> node_rep s' R' x t.
Proof.
  intros Hn Hc Hb Hs. revert x.
  induction t as [label text|label kids IH] using tree_induction; intros x Hx; inversion Hx; subst.
  - econstructor; [by eapply node_ok_frame|done|by eapply stored_frame| |done|done].
    eapply Forall_impl; [eassumption|]. intros [y u] [Hy Hu]. split; [by apply Hn|]. cbn [fst snd] in *.
    intros c Hyc i Hi. apply Hs. rewrite Hc in Hyc by done. by apply (Hu c).
  - assert (Forall (held s) xs /\ Forall2 (node_rep s' R') xs kids) as [Hxs Hreps].
    { match goal with H : Forall2 (node_rep s R) _ _ |- _ => rename H into Hkids end. revert IH. clear -Hkids.
      induction Hkids as [|y t xs kids Hy _ IHl]; intros IH; [by split; constructor|].
      apply Forall_cons in IH as [IHt IH]. destruct (IHl IH) as [H1 H2].
      split; constructor; [|done|by apply IHt|done].
      inversion Hy as [? ? ? Hok|? ? ? ? Hok]; subst; by destruct Hok. }
    econstructor; [by eapply node_ok_frame|done| |done].
    eapply chain_held; [|exact Hxs|eassumption]. intros y Hy. by apply Hn.
Qed.

Lemma node_rep_extends c s s' R x t : extends c s s' -> node_rep s R x t -> node_rep s' R x t.
Proof.
  intros H. apply node_rep_frame.
  - intros y Hy. split; [by eapply held_extends|by apply H].
  - apply H.
  - apply H.
  - intros a. by eapply safe_extends.
Qed.

(** ** Fuel

    A node represents trees of one size, so no node is its own descendant, and
    the depth of a tree is at most the number of nodes. *)
Lemma node_rep_size s R t : forall x t',
  node_rep s R x t -> node_rep s R x t' -> nodes_in t = nodes_in t'.
Proof.
  induction t as [label text|label kids IH] using tree_induction; intros x t' H1 H2;
    inversion H1 as [? f l Hf Ht|? f xs ? Hf Ht Hc Hk]; inversion H2 as [? f' l' Hf' Ht'|? f' xs' kids' Hf' Ht' Hc' Hk']; subst;
    pose proof (no_node _ _ _ Hf) as E; rewrite (no_node _ _ _ Hf') in E; injection E as ->; try congruence; [done|].
  pose proof (chain_fun _ _ _ _ _ Hc Hc') as <-. cbn [nodes_in]. f_equal.
  clear -IH Hk Hk'. revert kids' Hk'. revert IH. induction Hk as [|y t xs kids Hy _ IHk]; intros IH kids' Hk'.
  - by inversion Hk'.
  - inversion Hk' as [|? t' ? kids2 Hy' Hk2]; subst. apply Forall_cons in IH as [IHt IH]. cbn [foldr].
    by rewrite (IHt y t' Hy Hy'), (IHk IH kids2 Hk2).
Qed.

Lemma deepest (ts : list tree) : ts = [] \/ exists t, t ∈ ts /\ depth t = max_depth ts.
Proof.
  induction ts as [|t ts [->|(u & Hu & E)]]; [by left|right..].
  - exists t. split; [constructor|]. cbn. lia.
  - cbn. destruct (decide (depth t <= max_depth ts)%nat).
    + exists u. split; [by right|]. unfold max_depth in *. lia.
    + exists t. split; [constructor|]. unfold max_depth in *. lia.
Qed.

Lemma sum_nodes_in t ts : t ∈ ts -> (nodes_in t <= sum_nodes ts)%nat.
Proof. induction 1; cbn; unfold sum_nodes in *; lia. Qed.

Lemma node_rep_path s R t : forall x, node_rep s R x t ->
  exists l, NoDup l /\ length l = depth t /\
    forall y, y ∈ l -> exists t', node_rep s R y t' /\ (nodes_in t' <= nodes_in t)%nat.
Proof.
  induction t as [label text|label kids IH] using tree_induction; intros x Hx.
  { exists [x]. split_and!; [by apply NoDup_singleton|done|]. intros y ->%list_elem_of_singleton. by exists (TFile label text). }
  inversion Hx as [|? f xs ? Hf Ht Hc Hk]; subst.
  destruct (deepest kids) as [->|(t & Hin & Hdepth)].
  { exists [x]. split_and!; [by apply NoDup_singleton|done|]. intros y ->%list_elem_of_singleton. by eexists. }
  rewrite Forall_forall in IH. apply list_elem_of_lookup_1 in Hin as Hi. destruct Hi as [i Hi].
  destruct (Forall2_lookup_r _ _ _ _ _ Hk Hi) as (y & _ & Hy).
  destruct (IH t Hin y Hy) as (l & Hnd & Hlen & Hl).
  pose proof (sum_nodes_in t kids Hin) as Hsum. unfold sum_nodes in Hsum.
  exists (x :: l). split_and!.
  - constructor; [|done]. intros Hxl. destruct (Hl x Hxl) as (t' & Ht' & Hlt).
    pose proof (node_rep_size s R _ x t' Hx Ht') as E. cbn [nodes_in] in E. lia.
  - cbn [length depth]. unfold max_depth in Hdepth. by rewrite Hlen, <-Hdepth.
  - intros z [->|Hz]%elem_of_cons; [by eexists|]. destruct (Hl z Hz) as (t' & Ht' & Hlt).
    exists t'. split; [done|]. cbn [nodes_in]. lia.
Qed.

Lemma node_rep_depth s R x t : node_rep s R x t -> (depth t <= size (files s))%nat.
Proof.
  intros Hx. destruct (node_rep_path s R t x Hx) as (l & Hnd & <- & Hl).
  rewrite <-(size_list_to_set (C := gset Z)) by done. rewrite <-(size_dom (D := gset Z)). apply subseteq_size.
  intros y Hy%elem_of_list_to_set. destruct (Hl y Hy) as (t' & Ht' & _). apply elem_of_dom.
  inversion Ht' as [? ? ? Hok|? ? ? ? Hok]; subst; by rewrite (no_node _ _ _ Hok).
Qed.

(** ** The state during an export

    The tree of sets, apart from the temporary allocations [R]. *)
Record ready s (R : list Z) (views : list view) : Prop := {
  rd_sound : sound s;
  rd_first : first_live s;
  rd_out : out_avoiding (fs_rt s) R views;
  rd_temp : Forall (fun p => p ∈ (live s).*1) R;
  rd_len : Z.of_nat (length views) = output_sets_len (fs_rt s);
}.

(** Only the allocator's part of the runtime changed. *)
Definition only_sys s s' : Prop := fs_rt s' = set_sys (rt_sys (fs_rt s')) (fs_rt s).

Lemma set_view_owned (r r' : runtime M) set v :
  buf_arrays r' = buf_arrays r -> (buffers_cap set <> 0 -> owned r (buffers set) -> owned r' (buffers set)) ->
  set_view r set v -> set_view r' set v.
Proof.
  intros Hb Ho [? ? (arr & Ha & Hc & Hv) ? ? Hown]. split; try done; [|by auto].
  exists arr. split_and!; [|done|done]. unfold arr_of in *. by rewrite Hb.
Qed.

Lemma out_avoiding_sys (r : runtime M) m R R' t :
  (forall x, owned r x -> (x ∉ R) -> x ∈ (sys_live m).*1 /\ (x ∉ R')) ->
  out_avoiding r R t -> out_avoiding (set_sys m r) R' t.
Proof.
  intros H (sets & [Hp Hv] & Hd & Hav & HR). unfold avoids in Hav. rewrite Forall_forall in Hav.
  assert (Hall : forall set, set ∈ sets -> buffers_cap set <> 0 ->
    owned r (buffers set) -> buffers set ∈ (sys_live m).*1 /\ (buffers set ∉ R')).
  { intros set Hset Hc Ho. apply H; [done|]. by apply Hav. }
  exists sets. split_and!; [split| |..].
  - destruct (decide (t = [])) as [->|Hne]; [left; by apply Forall2_nil_inv_r in Hv|].
    destruct Hp as [[? _]|(?&?&?)]; [done|right]. split_and!; [done| |done]. apply H; [done|by apply HR].
  - apply Forall2_same_length_lookup_2; [by eapply Forall2_length|].
    intros i set v Hset Hv'. apply (set_view_owned r); [done| |by eapply Forall2_lookup_lr].
    intros Hc Ho. unfold owned. cbn. apply Hall; [by eapply list_elem_of_lookup_2|done|done].
  - done.
  - apply Forall_forall. intros set Hset Hc. apply list_elem_of_lookup_1 in Hset as Hi. destruct Hi as [i Hi].
    destruct (Forall2_lookup_l _ _ _ _ _ Hv Hi) as (v & _ & Hview).
    apply Hall; [done|done|]. by apply (sv_owned _ _ _ Hview).
  - intros Ht. destruct Hp as [[-> _]|(Hp & Ho & _)]; [done|]. apply H; [done|]. by apply HR.
Qed.

Lemma first_extends c s s' : extends c s s' -> first_live s -> first_live s'.
Proof.
  intros H Hf. unfold first_live. rewrite (sg_first _ _ _ (ex_grows _ _ _ H)). by eapply live_extends.
Qed.

Lemma ready_extends c s s' R views :
  ready s R views -> extends c s s' -> only_sys s s' -> ready s' R views.
Proof.
  intros [Hs Hf Ho Ht Hl] He Hos. split.
  - apply (ex_grows _ _ _ He).
  - by eapply first_extends.
  - rewrite Hos. eapply out_avoiding_sys; [|exact Ho]. intros x Hx HR. split; [by eapply live_extends|done].
  - eapply Forall_impl; [exact Ht|]. intros x. by eapply live_extends.
  - by rewrite Hos.
Qed.

(** ** Buffers *)

(** A new buffer of [size] bytes at [p]. *)
Record new_buffer s s' (p size : Z) : Prop := {
  nb_pos : 0 < p;
  nb_fresh : p ∉ (live s).*1;
  nb_live : exists n, live s' = (p, n) :: live s /\ size <= 8 * n;
  nb_extends : extends (sys_cost size) s s';
  nb_only : only_sys s s';
  nb_extent : extents s' !! p = Some (8 * local_size_of size);
  nb_writable : writable (bytes s') p size;
  nb_apart a : safe s [] a -> a < p \/ p + 8 * local_size_of size <= a;
  nb_files : files s' = files s;
  nb_chunks : chunks s' = chunks s;
}.

Lemma grown_outside s s' p n a : grown s s' p n -> safe s [] a -> a < p \/ p + 8 * n <= a.
Proof.
  intros Hg [(q & k & Hq & _ & Ha)|Ha].
  - pose proof (gr_apart _ _ _ _ Hg _ _ Hq). unfold apart in *. lia.
  - pose proof (gr_inside _ _ _ _ Hg). lia.
Qed.

(** Allocations when there is room. *)
Lemma wp_fs_alloc_grown size align (Q : Z -> fs M -> Prop) s :
  sound s -> first_live s -> 0 < size < 2 ^ 63 -> 0 <= align <= 16 ->
  sys_cost size <= sys_room (rt_sys (fs_rt s)) ->
  (forall p n m, size <= 8 * n -> grown s (put_sys m s) p n -> sys_grows (rt_sys (fs_rt s)) m (sys_cost size) ->
     Q p (put_sys m s)) ->
  wp (fs_alloc size align) Q s.
Proof.
  intros Hs Hf Hsz Ha Hroom HQ.
  assert (Hl : live s <> []).
  { intros E. unfold first_live in Hf. rewrite E in Hf. by apply elem_of_nil in Hf. }
  apply wp_bind, wp_zoom, wp_zoom.
  eapply wp_mono; [apply wp_and; [apply wp_and; [apply (sys_alloc_law _ size align Hs)|
    apply (sys_alloc_area _ size align Hs)]|apply (sys_room_law _ size align Hs Hl Hsz Ha (or_intror Hf) Hroom)]; lia|].
  intros p m [[(Hm & _ & Hp) Har] (Hp0 & Hr & Hfirst)].
  rewrite (proj2 (Z.eqb_neq _ _)) in * by done. destruct Hp as (n & Hpos & Hn & Hlive & Hfresh & Hap).
  apply wp_bind, wp_modify, wp_ret, (HQ p n m Hn).
  - split; [done|done|lia|done|done|done|]. unfold area. rewrite <-Har.
    apply (sys_area_law m p n Hm). rewrite Hlive. constructor.
  - split; try done. rewrite Hlive. by right.
Qed.

Lemma wp_alloc_raw_grown size align (Q : Z -> fs M -> Prop) s :
  sound s -> first_live s -> 0 < size < 2 ^ 63 -> 0 <= align <= 16 ->
  sys_cost size <= sys_room (rt_sys (fs_rt s)) ->
  (forall p n m, 8 * local_size_of size <= 8 * n -> grown s (put_sys m s) p n ->
     sys_grows (rt_sys (fs_rt s)) m (sys_cost size) -> Q p (with_buffer p size (put_sys m s))) ->
  wp (alloc_raw size align) Q s.
Proof.
  intros Hs Hf Hsz Ha Hroom HQ. pose proof (local_size_small size Hsz) as Hls.
  unfold alloc_raw. rewrite wrap64_small by lia. apply wp_bind, wp_fs_alloc_grown; [done..|].
  intros p n m Hn Hg Hgr. pose proof (gr_pos _ _ _ _ Hg).
  apply wp_bind. rewrite (proj2 (Z.eqb_neq _ _)) by (unfold NULL; lia). apply wp_modify, wp_ret.
  apply (HQ p n m); [lia|done|done].
Qed.

(** The bytes of other allocations and of the platform stay. *)
Lemma with_buffer_safe s m p n size a :
  8 * local_size_of size <= 8 * n -> grown s (put_sys m s) p n -> safe s [] a ->
  bytes (with_buffer p size (put_sys m s)) !! a = bytes s !! a.
Proof.
  intros Hn Hg Ha. pose proof (grown_outside _ _ _ _ _ Hg Ha). cbn.
  rewrite fill_bytes_spec, decide_False; [done|]. lia.
Qed.

Lemma wp_alloc_room size align (Q : Z -> fs M -> Prop) s :
  sound s -> first_live s -> 0 < size < 2 ^ 63 -> 0 <= align <= 16 ->
  sys_cost size <= sys_room (rt_sys (fs_rt s)) ->
  (forall p s', new_buffer s s' p size -> Q p s') ->
  wp (alloc_raw size align) Q s.
Proof.
  intros Hs Hf Hsz Ha Hroom HQ. pose proof (local_size_small size Hsz) as Hls.
  apply wp_alloc_raw_grown; [done..|]. intros p n m Hn Hg Hgr. pose proof (gr_pos _ _ _ _ Hg) as Hp.
  apply HQ. split; try done; try exact (gr_fresh _ _ _ _ Hg).
  - exists n. split; [exact (gr_live _ _ _ _ Hg)|lia].
  - split; [exact Hgr|done|done|done| |].
    + intros x Hx. apply lookup_insert_ne. intros <-. destruct Hx; [lia|by apply (gr_fresh _ _ _ _ Hg)].
    + intros a Ha'. by eapply with_buffer_safe.
  - apply lookup_insert_eq.
  - intros i Hi. cbn. rewrite fill_bytes_spec, decide_True by lia. by eexists.
  - intros a Ha'. pose proof (grown_outside _ _ _ _ _ Hg Ha'). lia.
Qed.

(** Writing where nobody reads. *)
Lemma extends_bytes c s s' b :
  extends c s s' -> (forall a, safe s [] a -> b !! a = bytes s' !! a) -> extends c s (with_bytes b s').
Proof.
  intros [] Hb. split; try done. intros a Ha. cbn. rewrite Hb by done. auto.
Qed.

Lemma new_buffer_write s s' p size a l :
  new_buffer s s' p size -> p <= a -> a + Z.of_nat (length l) <= p + 8 * local_size_of size ->
  new_buffer s (with_bytes (write_bytes a l (bytes s')) s') p size.
Proof.
  intros [] Ha Hl. split; try done.
  - apply extends_bytes; [done|]. intros x Hx. apply write_bytes_out.
    pose proof (nb_apart0 _ Hx). lia.
  - by apply writable_write.
Qed.

(** The new buffer is apart from the temporary allocations. *)
Lemma new_buffer_safe s s' R p size :
  new_buffer s s' p size -> Forall (fun q => q ∈ (live s).*1) R -> safe_range s' R p size.
Proof.
  intros Hn HR i Hi. left. destruct (nb_live _ _ _ _ Hn) as (n & Hl & Hsz). exists p, n.
  rewrite Hl. split_and!; [constructor| |lia|lia].
  intros Hp. rewrite Forall_forall in HR. by apply (nb_fresh _ _ _ _ Hn), HR.
Qed.

(** ** Names *)

Lemma wp_store_bytes a l (Q : unit -> fs M -> Prop) s :
  writable (bytes s) a (Z.of_nat (length l)) -> 0 < a ->
  Q tt (with_bytes (write_bytes a l (bytes s)) s) -> wp (store_bytes a l) Q s.
Proof.
  revert a s. induction l as [|b l IH]; intros a s Hw Ha HQ; cbn [store_bytes].
  { cbn in HQ. rewrite with_bytes_id in HQ. by apply wp_ret. }
  apply wp_bind, wp_store_byte; [|unfold NULL; lia|].
  { rewrite <-(Z.add_0_r a). apply Hw. cbn. lia. }
  apply IH; [|lia|by rewrite with_bytes_twice].
  intros i Hi. cbn [bytes with_bytes]. rewrite lookup_insert_ne by lia.
  replace (a + 1 + i) with (a + (i + 1)) by lia. apply Hw. cbn. lia.
Qed.

(** Copying no bytes reads no memory. *)
Lemma wp_memcpy_safe dst src t (Q : unit -> fs M -> Prop) s :
  let n := Z.of_nat (length t) in
  region (bytes s) src t -> writable (bytes s) dst n -> (t = [] \/ 0 < src) -> 0 < dst ->
  disjoint_range dst n src n ->
  Q tt (with_bytes (write_bytes dst t (bytes s)) s) -> wp (memcpy dst src n) Q s.
Proof.
  intros n Hr Hw [->|Hs] Hd Hdis HQ; [|by apply wp_memcpy].
  apply wp_bind, wp_ret, wp_ret. cbn in HQ. by rewrite with_bytes_id in HQ.
Qed.

(** A new buffer shares no byte with safe ones. *)
Lemma safe_disjoint s s' p size a n :
  new_buffer s s' p size -> safe_range s [] a n -> 0 < size < 2 ^ 63 -> disjoint_range p size a n \/ n <= 0.
Proof.
  intros Hn Hs Hsz. pose proof (local_size_small size Hsz). unfold disjoint_range.
  destruct (decide (0 < n)); [left|right; lia].
  destruct (decide (a + n <= p)); [by right|left]. apply Z.nlt_ge. intros Hlt.
  pose proof (nb_apart _ _ _ _ Hn (a + (Z.max p a - a)) ltac:(apply Hs; lia)). lia.
Qed.

Lemma node_name_whole f : named f -> node_name f = take_while (fun c => negb (c =? NUL)) (name f).
Proof.
  intros Hn. unfold node_name, cstr, sub_string. change (Z.to_nat 0) with 0%nat.
  by rewrite drop_0, take_ge by (unfold named in Hn; lia).
Qed.

Lemma label_take f : named f -> take (length (node_name f)) (name f) = node_name f.
Proof. intros Hn. rewrite node_name_whole by done. by rewrite <-take_while_take. Qed.

Lemma label_length f : named f -> node_name f <> [] -> 0 < Z.of_nat (length (node_name f)) <= 64.
Proof.
  intros Hn Hl. split; [destruct (node_name f); [done|cbn; lia]|]. rewrite node_name_whole by done.
  etrans; [apply inj_le, take_while_length|]. unfold named in Hn. rewrite Hn. done.
Qed.

(** What [export_name] returns: a new buffer that starts with the path. *)
Lemma export_name_spec s f prev prefix extra (Q : Z * Z -> fs M -> Prop) :
  sound s -> first_live s -> named f -> node_name f <> [] -> 0 <= extra <= 1 ->
  region (bytes s) prev prefix -> safe_range s [] prev (Z.of_nat (length prefix)) ->
  prefix = [] \/ 0 < prev -> Z.of_nat (length prefix) < 2 ^ 62 ->
  let label := node_name f in
  let size := Z.of_nat (length (prefix ++ label)) + extra in
  sys_cost size <= sys_room (rt_sys (fs_rt s)) ->
  (forall p s', new_buffer s s' p size -> region (bytes s') p (prefix ++ label) ->
     Q (p, Z.of_nat (length label)) s') ->
  wp (export_name f (prev, Z.of_nat (length prefix)) extra) Q s.
Proof.
  intros Hs Hf Hn Hl He Hr Hsafe Hprev Hlen label size Hroom HQ. unfold export_name. apply wp_bind.
  unfold wp at 1. rewrite namelen_spec by (unfold named in Hn; rewrite Hn; done).
  change (cstr FS_NAME_LENGTH (name f)) with label.
  pose proof (label_length f Hn Hl : 0 < Z.of_nat (length label) <= 64) as Hlab.
  replace (Z.of_nat (length prefix) + Z.of_nat (length label) + extra) with size by (unfold size; rewrite length_app; lia).
  assert (Hsz : 0 < size < 2 ^ 63) by (unfold size; rewrite length_app; lia).
  pose proof (local_size_small size Hsz) as Hls. unfold size in Hls at 2. rewrite length_app in Hls.
  apply wp_bind, wp_alloc_room; [done|done|done|lia|done|]. intros p s1 Hb. pose proof (nb_pos _ _ _ _ Hb).
  rewrite (proj2 (Z.eqb_neq _ _)) by (unfold NULL; lia). apply wp_bind.
  assert (Hw : forall a n, p <= a -> a + n <= p + size -> writable (bytes s1) a n).
  { intros a n Ha Hn' i Hi. replace (a + i) with (p + (a + i - p)) by lia.
    apply (nb_writable _ _ _ _ Hb). lia. }
  assert (Hr1 : region (bytes s1) prev prefix).
  { eapply region_extends; [apply (nb_extends _ _ _ _ Hb)|done|done]. }
  apply wp_memcpy_safe; [done|apply Hw; [lia|unfold size; rewrite length_app; lia]|done|done| |].
  { destruct (safe_disjoint _ _ _ _ _ _ Hb Hsafe Hsz) as [Hd|Hd]; unfold disjoint_range in *;
      unfold size in *; rewrite length_app in *; lia. }
  apply wp_bind. rewrite Nat2Z.id, (label_take f Hn : take (length label) (name f) = label). apply wp_store_bytes; [|lia|].
  { apply writable_write, Hw; [lia|]. unfold size. rewrite length_app. lia. }
  apply wp_ret, HQ.
  - apply (new_buffer_write _ (with_bytes (write_bytes p prefix (bytes s1)) s1)); [|lia|lia].
    apply new_buffer_write; [done|lia|lia].
  - cbn [bytes with_bytes]. rewrite <-write_bytes_app. apply region_write.
Qed.

(** ** Contents *)

Lemma file_content_copy s s1 first l buf total :
  stored (chunks s) (bytes s) first l -> chunks s1 = chunks s ->
  (forall x t c, (x, t) ∈ l -> chunks s !! x = Some c ->
    region (bytes s1) (data c) t /\ disjoint_range buf total (data c) (Z.of_nat (length t))) ->
  writable (bytes s1) buf total -> 0 < buf -> Z.of_nat (length (contents l)) = total -> total < 2 ^ 64 ->
  wp (content_chunks first (fun c buff_len =>
    let! _ := memcpy (buf + buff_len) (data c) (used c) in ret (wrap64 (buff_len + used c))))
    (fun r s' => r = total /\ s' = with_bytes (write_bytes buf (contents l) (bytes s1)) s1) s1.
Proof.
  intros Hst Hcs Hreg Hw Hbuf Htot Hmax. apply wp_bind, wp_gets.
  assert (Hf : (length l < chunk_fuel s1)%nat).
  { unfold chunk_fuel. rewrite Hcs. destruct Hst as [Hc _]. apply chain_size in Hc. rewrite length_fmap in Hc. lia. }
  match goal with |- wp (loop _ ?b _) _ _ => set (body := b) end.
  enough (Hgen : forall l first acc n, (length l < n)%nat -> stored (chunks s) (bytes s) first l ->
    (forall x t c, (x, t) ∈ l -> chunks s !! x = Some c ->
      region (bytes s1) (data c) t /\ disjoint_range buf total (data c) (Z.of_nat (length t))) ->
    Z.of_nat (length (acc ++ contents l)) = total ->
    wp (loop n body (first, Z.of_nat (length acc))) (fun r s' => r = total /\
      s' = with_bytes (write_bytes buf (acc ++ contents l) (bytes s1)) s1)
      (with_bytes (write_bytes buf acc (bytes s1)) s1)).
  { specialize (Hgen l first [] _ Hf Hst Hreg Htot). cbn [write_bytes app] in Hgen.
    by rewrite with_bytes_id in Hgen. }
  clear first l Hst Hreg Htot Hf.
  induction l as [|[x t] l IH]; intros first acc n Hn Hst Hreg Htot;
    (destruct n as [|n]; [lia|]); apply wp_loop_step; unfold body at 1.
  - rewrite (stored_nil _ _ _ Hst), Z.eqb_refl. apply wp_ret. rewrite app_nil_r.
    unfold contents in Htot. cbn in Htot. rewrite app_nil_r in Htot. done.
  - pose proof Hst as (-> & Hx & c & Hc & Hu & Hcap & Hd & Hr & Hl)%stored_cons.
    destruct (Hreg x t c ltac:(constructor) Hc) as [Hr1 Hdis].
    rewrite contents_cons in *. rewrite !length_app, !Nat2Z.inj_add in Htot.
    rewrite (proj2 (Z.eqb_neq _ _)) by done. apply wp_bind.
    eapply wp_get_chunk; [by rewrite <-Hcs in Hc|done|]. apply wp_bind, wp_bind. rewrite Hu.
    apply wp_memcpy; [| |lia|lia| |].
    + apply region_write_other; [done|]. unfold disjoint_range in Hdis. lia.
    + apply writable_write. intros i Hi. rewrite <-Z.add_assoc. apply Hw. lia.
    + unfold disjoint_range in *. lia.
    + apply wp_ret, wp_ret. rewrite with_bytes_twice. cbn [bytes with_bytes].
      rewrite <-write_bytes_app, wrap64_small by lia.
      replace (Z.of_nat (length acc) + Z.of_nat (length t)) with (Z.of_nat (length (acc ++ t))) by (rewrite length_app; lia).
      rewrite app_assoc. apply IH; [cbn in *; lia|done| |rewrite !length_app; lia].
      intros y u c' Hy. apply Hreg. by constructor.
Qed.

(** The content of a file in one piece, without a lack of memory. *)
Lemma file_content_room s R first l (Q : option (Z * Z) -> fs M -> Prop) :
  sound s -> first_live s -> Forall (fun q => q ∈ (live s).*1) R ->
  stored (chunks s) (bytes s) first l -> Forall (chunk_safe s R) l ->
  (length l <= 1)%nat \/ contents l <> [] ->
  let total := Z.of_nat (length (contents l)) in
  total < 2 ^ 62 -> sys_cost total <= sys_room (rt_sys (fs_rt s)) ->
  (forall a s', extends (sys_cost total) s s' -> only_sys s s' -> region (bytes s') a (contents l) ->
     safe_range s' R a total -> Q (Some (a, total)) s') ->
  wp (file_content first) Q s.
Proof.
  intros Hs Hfl HR Hst Hsafe Hone total Hmax Hroom HQ. unfold file_content.
  pose proof (sys_cost_mono 0 total ltac:(lia) ltac:(lia)) as Hc0.
  assert (Hsame : forall a, region (bytes s) a (contents l) -> safe_range s R a total -> Q (Some (a, total)) s).
  { intros a Hr Hsr. apply HQ; try done; [|by destruct s as [[]]].
    eapply extends_mono; [by apply extends_refl|lia]. }
  destruct l as [|[x t] l].
  { rewrite (stored_nil _ _ _ Hst). apply wp_ret, Hsame; [apply region_nil|]. intros i Hi. unfold total, contents in Hi. cbn in Hi. lia. }
  pose proof Hst as (-> & Hx & c & Hc & Hu & Hcap & Hd & Hr & Hl)%stored_cons.
  rewrite (proj2 (Z.eqb_neq _ _)) by done. apply wp_bind. eapply wp_get_chunk; [done..|].
  destruct l as [|[y u] l].
  { rewrite (stored_nil _ _ _ Hl). apply wp_ret. unfold total in *. rewrite contents_cons, app_nil_r in *.
    rewrite Hu. apply Hsame; [done|]. apply Forall_inv in Hsafe as [_ Hsafe]. intros i Hi. apply (Hsafe c Hc). cbn. lia. }
  pose proof Hl as (E & Hy & _)%stored_cons. rewrite E, (proj2 (Z.eqb_neq _ _)) by done.
  set (L := (x, t) :: (y, u) :: l) in *. destruct Hone as [Hone|Hone]; [cbn in Hone; lia|].
  assert (Htot : 0 < total) by (unfold total; destruct (contents L); [done|cbn; lia]).
  apply wp_bind. unfold wp at 1.
  rewrite (content_chunks_spec _ L.*1 _ s (fun c acc => wrap64 (acc + used c))); [|apply Hst|done].
  erewrite total_used; [|exact Hst|lia|fold total; lia]. rewrite Z.add_0_l. fold total.
  apply wp_bind, wp_alloc_room; [done|done|lia|lia|done|]. intros p s1 Hb. pose proof (nb_pos _ _ _ _ Hb).
  rewrite (proj2 (Z.eqb_neq _ _)) by (unfold NULL; lia). apply wp_bind.
  eapply wp_mono; [apply (file_content_copy s s1 x L p total Hst (nb_chunks _ _ _ _ Hb)); [|by apply (nb_writable _ _ _ _ Hb)|lia|done|lia]|].
  - intros z v cz Hz Hcz. rewrite Forall_forall in Hsafe. destruct (Hsafe _ Hz) as [_ Hsz].
    specialize (Hsz cz Hcz). cbn [snd] in Hsz.
    destruct (stored_in _ _ _ _ z v Hst Hz) as (_ & c' & Hc' & _ & _ & _ & Hr').
    cbv [fst snd] in Hc', Hr'. assert (c' = cz) as -> by congruence. split.
    + eapply (region_extends _ _ _ R); [apply (nb_extends _ _ _ _ Hb)| |done]. intros i Hi. apply Hsz. lia.
    + destruct (safe_disjoint _ _ _ _ (data cz) (Z.max 1 (Z.of_nat (length v))) Hb) as [Hdis|Hdis];
        [intros i Hi; eapply safe_weaken; by apply Hsz|lia| |lia]. unfold disjoint_range in *. lia.
  - intros r s' [-> ->]. apply wp_ret. pose proof (local_size_small total ltac:(lia)).
    pose proof (new_buffer_write _ _ _ _ p (contents L) Hb ltac:(lia) ltac:(fold total; lia)) as Hb'.
    apply HQ; [apply (nb_extends _ _ _ _ Hb')|apply (nb_only _ _ _ _ Hb')|apply region_write|].
    by eapply new_buffer_safe.
Qed.
End export.
