(* ===== verification/FsExportNode.v ===== *)
(** The export of a tree of nodes as output items ([add_output_from_file] of
    src/file_system/file_system.c): one node, the children of a directory, and
    the memory it takes. *)
From S2P Require Import Prelude Bytes Heap Alloc AllocSession AllocTheorems System RuntimeIO RuntimeTree RuntimeInit RuntimeOutput Paths PathSpec FsStore FileSystem FsLemmas FsTree FsData FsWrite FsSeek FsExport.

(** * Items *)

(** A buffer that shows a name and a content. *)
Record item_at (m : gmap Z Z) (b : io_buffer) (it : list Z * list Z) : Prop := {
  it_name : region m (ib_ident b) it.1;
  it_name_len : ib_ident_len b = Z.of_nat (length it.1);
  it_data : region m (ib_data b) it.2;
  it_data_len : ib_data_len b = Z.of_nat (length it.2);
  it_key : ib_key b = 0;
}.

Section export.
Context {M : Type} {HS : System M} {HM : Machine}.
Implicit Types s : fs M.

(** ... whose bytes nobody takes away. *)
Record item_kept s R (b : io_buffer) (it : list Z * list Z) : Prop := {
  ik_at : item_at (bytes s) b it;
  ik_name : safe_range s R (ib_ident b) (ib_ident_len b);
  ik_data : safe_range s R (ib_data b) (ib_data_len b);
}.

Lemma item_frame s s' R R' b it :
  (forall a, safe s R a -> safe s' R' a /\ bytes s' !! a = bytes s !! a) ->
  item_kept s R b it -> item_kept s' R' b it.
Proof.
  intros H [[Hn Hnl Hd Hdl Hk] Hsn Hsd]. split; [split; try done|..].
  - intros i c Hi. rewrite (proj2 (H _ (Hsn i ltac:(rewrite Hnl; by eapply zlookup_range)))). by apply Hn.
  - intros i c Hi. rewrite (proj2 (H _ (Hsd i ltac:(rewrite Hdl; by eapply zlookup_range)))). by apply Hd.
  - intros i Hi. by apply H, Hsn.
  - intros i Hi. by apply H, Hsd.
Qed.

Lemma item_extends c s s' R b it : extends c s s' -> item_kept s R b it -> item_kept s' R b it.
Proof.
  intros H. apply item_frame. intros a Ha. split; [by eapply safe_extends|].
  apply (ex_bytes _ _ _ H). by eapply safe_weaken.
Qed.

(** * Memory for an export

    [n] is the number of buffers of the set at the end, [len] the length of the
    path of the directory: a path for every node, a copy of every content, and
    a bigger array for every item. *)
Fixpoint export_cost (n len : Z) (t : tree) : Z :=
  match t with
  | TFile label text =>
      sys_cost (len + Z.of_nat (length label)) + sys_cost (Z.of_nat (length text)) + growth_cost n
  | TDir label kids =>
      let len' := len + Z.of_nat (length label) + 1 in
      sys_cost len' + foldr (fun t c => export_cost n len' t + c) 0 kids
  end.
Definition sum_cost (n len : Z) (ts : list tree) : Z := foldr (fun t c => export_cost n len t + c) 0 ts.

(** * What an export leaves *)

(** Set [i] has the buffers [bufs] more, which show the items. *)
Record exported (c : Z) s s' R views i (v : view) bufs items : Prop := {
  xp_extends : extends c s s';
  xp_ready : ready s' R (zinsert i (v.1, v.2 ++ bufs) views);
  xp_items : Forall2 (item_kept s' R) bufs items;
  xp_same : same_platform (fs_rt s) (fs_rt s');
  xp_out : rt_output_sets (fs_rt s') = rt_output_sets (fs_rt s);
}.

Lemma same_platform_trans (r1 r2 r3 : runtime M) :
  same_platform r1 r2 -> same_platform r2 r3 -> same_platform r1 r3.
Proof. intros (?&?&?&?&?) (?&?&?&?&?). split_and!; congruence. Qed.

Lemma exported_none s R views i v :
  ready s R views -> zlookup i views = Some v -> exported 0 s s R views i v [] [].
Proof.
  intros Hr Hi. split; [by apply extends_refl, Hr| |done|by split_and!|done].
  rewrite app_nil_r. destruct v as [w bufs]. by rewrite zinsert_id.
Qed.

Lemma exported_trans c d s1 s2 s3 R views i v b1 b2 l1 l2 :
  exported c s1 s2 R views i v b1 l1 ->
  exported d s2 s3 R (zinsert i (v.1, v.2 ++ b1) views) i (v.1, v.2 ++ b1) b2 l2 ->
  exported (c + d) s1 s3 R views i v (b1 ++ b2) (l1 ++ l2).
Proof.
  intros [E1 R1 I1 P1 O1] [E2 R2 I2 P2 O2]. split.
  - by eapply extends_trans.
  - rewrite zinsert_insert in R2. cbn [fst snd] in R2. by rewrite app_assoc.
  - apply Forall2_app; [|done]. eapply Forall2_impl; [exact I1|]. intros b it. by eapply item_extends.
  - by eapply same_platform_trans.
  - congruence.
Qed.

Lemma exported_mono c d s s' R views i v bufs items :
  exported c s s' R views i v bufs items -> c <= d -> exported d s s' R views i v bufs items.
Proof. intros [] Hcd. split; try done. by eapply extends_mono. Qed.

Lemma growth_cost_mono n k : 0 <= n <= k -> k < 2 ^ 56 -> 0 <= growth_cost n <= growth_cost k.
Proof. intros Hn Hk. apply sys_cost_mono; lia. Qed.

Lemma sys_cost_nonneg k : 0 <= k < 2 ^ 63 -> 0 <= sys_cost k.
Proof. intros Hk. by apply (sys_cost_mono k k); lia. Qed.

(** The length of every path in the tree. *)
Fixpoint paths_fit (len : Z) (t : tree) : Prop :=
  match t with
  | TFile label text => len + Z.of_nat (length label) < 2 ^ 62 /\ Z.of_nat (length text) < 2 ^ 62
  | TDir label kids =>
      let len' := len + Z.of_nat (length label) + 1 in
      len' < 2 ^ 62 /\ foldr (fun t P => paths_fit len' t /\ P) True kids
  end.
Definition all_fit (len : Z) (ts : list tree) : Prop := foldr (fun t P => paths_fit len t /\ P) True ts.

Lemma export_cost_nonneg n t : 0 <= n < 2 ^ 56 -> forall len, 0 <= len -> paths_fit len t -> 0 <= export_cost n len t.
Proof.
  intros Hn. induction t as [label text|label kids IH] using tree_induction; intros len Hlen; cbn [paths_fit export_cost].
  - intros [H1 H2]. pose proof (sys_cost_nonneg (len + Z.of_nat (length label)) ltac:(lia)).
    pose proof (sys_cost_nonneg (Z.of_nat (length text)) ltac:(lia)).
    pose proof (growth_cost_mono n n ltac:(lia) ltac:(lia)). lia.
  - set (len' := len + Z.of_nat (length label) + 1). intros [H1 H2].
    pose proof (sys_cost_nonneg len' ltac:(lia)).
    enough (0 <= foldr (fun t c => export_cost n len' t + c) 0 kids) by lia.
    revert H2. induction IH as [|t kids IHt _ IHk]; cbn [foldr]; [lia|]. intros [Ht Hk].
    specialize (IHt len' ltac:(lia) Ht). specialize (IHk Hk). lia.
Qed.

Lemma sum_cost_nonneg n len ts : 0 <= n < 2 ^ 56 -> 0 <= len -> all_fit len ts -> 0 <= sum_cost n len ts.
Proof.
  intros Hn Hlen. unfold all_fit, sum_cost. induction ts as [|t ts IH]; cbn [foldr]; [lia|].
  intros [Ht Hts]. pose proof (export_cost_nonneg n t Hn len Hlen Ht). specialize (IH Hts). lia.
Qed.

(** One more item. *)
Lemma add_output_step s R views i v b n (Q : unit -> fs M -> Prop) :
  ready s R views -> zlookup i views = Some v ->
  Z.of_nat (length v.2) <= n < 2 ^ 56 -> growth_cost n <= sys_room (rt_sys (fs_rt s)) ->
  (forall s', extends (growth_cost n) s s' -> ready s' R (zinsert i (v.1, v.2 ++ [b]) views) ->
     bytes s' = bytes s -> same_platform (fs_rt s) (fs_rt s') ->
     rt_output_sets (fs_rt s') = rt_output_sets (fs_rt s) -> Q tt s') ->
  wp (on_rt (dandelion_add_output junk_buf i b)) Q s.
Proof.
  intros Hr Hi Hn Hroom HQ. pose proof Hr as [Hs Hf Ho Ht Hl]. pose proof (zlookup_range _ _ _ Hi).
  pose proof (growth_cost_mono (Z.of_nat (length v.2)) n ltac:(lia) ltac:(lia)) as Hg.
  apply wp_zoom. eapply wp_mono; [apply (add_output_room junk_buf (fs_rt s) R views i v b Hs Ho Ht Hl Hi); lia|].
  intros [] r (Ho' & Hgr & Hout & Hsame). assert (He : extends (growth_cost n) s (with_rt r s)).
  { split; try done. eapply sys_grows_mono; [exact Hgr|lia]. }
  apply HQ; try done. split.
  - apply (ex_grows _ _ _ He).
  - by eapply first_extends.
  - done.
  - eapply Forall_impl; [exact Ht|]. intros x. by eapply live_extends.
  - rewrite zinsert_length. destruct Hsame as (_ & _ & E & _). unfold with_rt. cbn [fs_rt]. by rewrite E.
Qed.

(** * Releasing the path of a directory *)

Lemma outside_buffer s p n size a :
  sound s -> (p, n) ∈ live s -> 0 < size < 2 ^ 63 -> size <= 8 * n -> safe s [p] a ->
  a < p \/ p + 8 * local_size_of size <= a.
Proof.
  intros Hs Hp Hsz Hn. pose proof (local_size_small size Hsz). intros [(q & k & Hq & Hne & Ha)|Ha].
  - pose proof (sys_apart_law _ _ _ _ _ Hs Hp Hq ltac:(set_solver)) as Hap. unfold apart in Hap. lia.
  - pose proof (sys_area_law _ _ _ Hs Hp). unfold area in Ha. lia.
Qed.

Lemma release_spec c s0 s R views p n size (Q : unit -> fs M -> Prop) :
  extends c s0 s -> (p ∉ (live s0).*1) -> Forall (fun q => q ∈ (live s0).*1) R -> first_live s0 ->
  ready s (p :: R) views -> (p, n) ∈ live s -> 0 < p -> 0 < size < 2 ^ 63 -> size <= 8 * n ->
  extents s !! p = Some (8 * local_size_of size) ->
  (forall s', extends c s0 s' -> ready s' R views ->
     (forall a, safe s (p :: R) a -> safe s' R a /\ bytes s' !! a = bytes s !! a) ->
     same_platform (fs_rt s) (fs_rt s') -> rt_output_sets (fs_rt s') = rt_output_sets (fs_rt s) -> Q tt s') ->
  wp (fs_free p) Q s.
Proof.
  intros He Hfresh HR Hf0 [Hs Hf Ho Ht Hl] Hp Hpos Hsz Hn Hext HQ.
  pose proof (local_size_small size Hsz) as Hls.
  apply list_elem_of_split in Hp as Hsplit. destruct Hsplit as (L1 & L2 & HL).
  apply wp_bind, wp_gets. unfold allocated. fold (live s).
  rewrite bool_decide_eq_true_2 by (apply list_elem_of_fmap; by exists (p, n)).
  apply wp_bind, wp_zoom, wp_zoom.
  eapply wp_mono; [apply wp_and; [apply wp_and; [by eapply sys_free_law|by eapply sys_free_area]|by eapply sys_free_room]|].
  intros [] m [[[Hm Hlm] Har] [Hroom Hfirst]]. apply wp_bind, wp_modify, wp_modify. change (count_request _) with (put_sys m s).
  assert (Hin : forall q k, (q, k) ∈ live s -> q <> p -> (q, k) ∈ sys_live m).
  { intros q k Hq Hne. rewrite Hlm. rewrite HL in Hq. set_solver. }
  assert (Hin1 : forall q, q ∈ (live s).*1 -> q <> p -> q ∈ (sys_live m).*1).
  { intros q ([x k] & -> & Hq)%list_elem_of_fmap Hne. apply list_elem_of_fmap. exists (x, k). auto. }
  assert (Hbytes : forall a, safe s [p] a -> bytes (forget p (put_sys m s)) !! a = bytes s !! a).
  { intros a Ha. cbn. rewrite Hext, clear_bytes_spec, decide_False; [done|].
    pose proof (outside_buffer s p n size a Hs Hp Hsz Hn Ha). lia. }
  assert (Hnp : forall x, held s0 x -> x <> p) by (intros x [Hx|Hx] ->; [lia|done]).
  pose proof He as [[Hm0 Hlive Harea Hfr Hrm] Hfiles Hfewer Hchunks Hexts Hb].
  assert (He' : extends c s0 (forget p (put_sys m s))).
  { split; cbn.
    - split; [done| |congruence|congruence|lia].
      intros [q k] Hq. apply Hin; [by apply Hlive|]. intros ->. apply Hfresh, list_elem_of_fmap. by exists (p, k).
    - intros x Hx. rewrite lookup_delete_ne by (intros <-; by apply (Hnp p)). by apply Hfiles.
    - etrans; [apply delete_subseteq|done].
    - intros x Hx. rewrite lookup_delete_ne by (intros <-; by apply (Hnp p)). by apply Hchunks.
    - intros x Hx. rewrite lookup_delete_ne by (intros <-; by apply (Hnp p)). by apply Hexts.
    - intros a Ha. etrans; [apply Hbytes|by apply Hb].
      destruct Ha as [(q & k & Hq & _ & Ha)|Ha].
      + left. exists q, k. split_and!; [by apply Hlive| |lia|lia].
        intros ->%list_elem_of_singleton. apply Hfresh, list_elem_of_fmap. by exists (p, k).
      + right. by rewrite (ex_area _ _ _ He). }
  apply HQ; [done| | |done|done].
  - split; [done|by eapply first_extends| | |done].
    + eapply out_avoiding_sys; [|exact Ho]. intros x Hx Hxr. split; [|set_solver].
      apply Hin1; [done|set_solver].
    + eapply Forall_impl; [exact HR|]. intros x Hx. by apply (live_extends _ _ _ _ He').
  - intros a Ha. split.
    + destruct Ha as [(q & k & Hq & Hqr & Ha)|Ha].
      * left. exists q, k. split_and!; [apply Hin; set_solver|set_solver|lia|lia].
      * right. unfold area. cbn. by rewrite Har.
    + apply Hbytes. destruct Ha as [(q & k & Hq & Hqr & Ha)|Ha]; [left; exists q, k|by right].
      split_and!; [done|set_solver|lia|lia].
Qed.

(** * One node *)

(** The place of a path: nothing, or bytes that stay. *)
Record path_at s (prev : Z) (prefix : list Z) : Prop := {
  pa_region : region (bytes s) prev prefix;
  pa_safe : safe_range s [] prev (Z.of_nat (length prefix));
  pa_pos : prefix = [] \/ 0 < prev;
}.

Lemma path_extends c s s' prev prefix : extends c s s' -> path_at s prev prefix -> path_at s' prev prefix.
Proof.
  intros H [Hr Hs Hp]. split; [by eapply region_extends| |done]. intros i Hi. eapply safe_extends; [exact H|by apply Hs].
Qed.

Definition can_export s R views i v n len ts : Prop :=
  ready s R views /\ zlookup i views = Some v /\ 0 <= n < 2 ^ 56 /\
  Z.of_nat (length v.2) + sum_files ts <= n /\ 0 <= len /\ all_fit len ts /\
  sum_cost n len ts <= sys_room (rt_sys (fs_rt s)).

(** What the export of a node has to do, with enough memory. *)
Definition exports_node (n : Z) (t : tree) : Prop := forall s R views i v prev prefix x fuel,
  can_export s R views i v n (Z.of_nat (length prefix)) [t] -> node_rep s R x t -> (depth t <= fuel)%nat ->
  path_at s prev prefix ->
  wp (add_output_from_file fuel x (prev, Z.of_nat (length prefix)) i) (fun r s' => r = 0 /\
    exists bufs, exported (export_cost n (Z.of_nat (length prefix)) t) s s' R views i v bufs (exports prefix t)) s.

Lemma export_file n label text : exports_node n (TFile label text).
Proof.
  intros s R views i v prev prefix x fuel (Hr & Hi & Hn & Hcount & Hlen & [[Hfit1 Hfit2] _] & Hroom) Hrep Hfuel [Hreg Hsafe Hpos].
  destruct fuel as [|k]; [cbn in Hfuel; lia|]. cbn [add_output_from_file sum_cost foldr export_cost sum_files files_in] in *.
  inversion Hrep as [? f l [Hf Hx Hh Hnamed Hlabel] Hty Hst Hcs Hone Hbig|]; subst.
  apply wp_bind. eapply wp_get_file; [done..|]. rewrite Hty.
  set (len := Z.of_nat (length prefix)) in *. set (nl := Z.of_nat (length (node_name f))) in *.
  set (total := Z.of_nat (length (contents l))) in *.
  pose proof (sys_cost_nonneg (len + nl) ltac:(lia)). pose proof (sys_cost_nonneg total ltac:(lia)).
  pose proof (growth_cost_mono n n ltac:(lia) ltac:(lia)).
  assert (Hsize : Z.of_nat (length (prefix ++ node_name f)) + 0 = len + nl) by (rewrite length_app; lia).
  apply wp_bind, export_name_spec; [apply Hr|apply Hr|done|done|lia|done|done|done|lia|rewrite Hsize; lia|].
  rewrite Hsize. intros p s1 Hb Hname. pose proof (nb_pos _ _ _ _ Hb) as Hp0.
  pose proof (nb_extends _ _ _ _ Hb) as He1. pose proof (ready_extends _ _ _ _ _ Hr He1 (nb_only _ _ _ _ Hb)) as Hr1.
  rewrite (proj2 (Z.eqb_neq _ _)) by (unfold NULL; lia). apply wp_bind.
  pose proof (sg_room _ _ _ (ex_grows _ _ _ He1)) as Hroom1.
  eapply (file_content_room s1 R _ l); [apply Hr1|apply Hr1|apply Hr1| | |done|fold total; lia|fold total; lia|].
  { eapply stored_frame; [apply He1|apply He1|done|done]. }
  { eapply Forall_impl; [exact Hcs|]. intros [y u] [Hy Hu]. split; [by eapply held_extends|]. cbn [fst snd] in *.
    intros c Hc j Hj. rewrite (ex_chunks _ _ _ He1) in Hc by done. eapply safe_extends; [exact He1|by apply (Hu c)]. }
  intros a s2 He2 Hos2 Hdata Hsd. fold total. pose proof (ready_extends _ _ _ _ _ Hr1 He2 Hos2) as Hr2.
  pose proof (sg_room _ _ _ (ex_grows _ _ _ He2)) as Hroom2. fold total in Hroom2.
  apply wp_bind, (add_output_step s2 R views i v _ n); [done|done|lia|lia|].
  intros s3 He3 Hr3 Hb3 Hsame3 Hout3. apply wp_ret. split; [done|].
  pose proof (extends_trans _ _ _ _ _ He2 He3) as He23. fold total in He2, He23.
  cbn [snd] in Hr3. fold nl in Hr3. rewrite (wrap64_small (nl + len)) in Hr3 by lia.
  eexists [_]. split; [|exact Hr3|..].
  - eapply extends_mono; [by eapply extends_trans|lia].
  - constructor; [|constructor]. split; cbn.
    + assert (Hname' : safe_range s1 R p (len + nl)) by (eapply new_buffer_safe; [exact Hb|apply Hr]).
      split; cbn; [|rewrite length_app; lia| |done|done].
      * eapply (region_extends _ s1); [exact He23| |done]. rewrite length_app, Nat2Z.inj_add. exact Hname'.
      * by rewrite Hb3.
    + intros j Hj. eapply (safe_extends _ s1); [exact He23|]. eapply new_buffer_safe; [exact Hb|apply Hr|lia].
    + intros j Hj. eapply safe_extends; [exact He3|by apply Hsd].
  - eapply same_platform_trans; [|exact Hsame3]. rewrite Hos2, (nb_only _ _ _ _ Hb). by split_and!.
  - rewrite Hout3, Hos2, (nb_only _ _ _ _ Hb). done.
Qed.

(** Some children, then the others. *)
Lemma can_export_head s R views i v n len t ts :
  can_export s R views i v n len (t :: ts) -> can_export s R views i v n len [t].
Proof.
  intros (Hr & Hi & Hn & Hcount & Hlen & [Hfit Hfits] & Hroom). cbn [sum_files sum_cost foldr] in *.
  pose proof (sum_files_nonneg ts) as Hf. pose proof (sum_cost_nonneg n len ts Hn Hlen Hfits) as Hc.
  unfold can_export, sum_files, sum_cost in *. cbn [foldr]. split_and!; try done; lia.
Qed.

Lemma can_export_tail s s' R views i v n len t ts bufs items :
  can_export s R views i v n len (t :: ts) ->
  exported (export_cost n len t) s s' R views i v bufs items -> Z.of_nat (length items) = files_in t ->
  can_export s' R (zinsert i (v.1, v.2 ++ bufs) views) i (v.1, v.2 ++ bufs) n len ts.
Proof.
  intros (Hr & Hi & Hn & Hcount & Hlen & [Hfit Hfits] & Hroom) [He Hr' Hit _ _] Hlb.
  pose proof (sg_room _ _ _ (ex_grows _ _ _ He)). pose proof (zlookup_range _ _ _ Hi).
  apply Forall2_length in Hit. cbn [sum_files sum_cost foldr] in *.
  unfold can_export, sum_files, sum_cost in *. cbn [snd]. rewrite length_app. split_and!; try done; try lia.
  by apply zlookup_insert_eq.
Qed.

Definition export_step (k : nat) (new_path : Z * Z) (set_index child : Z) : prog (fs M) (Z + Z) :=
  if child =? NULL then ret (inr 0) else
  let! error := add_output_from_file k child new_path set_index in
  if negb (error =? 0) then ret (inr error) else
  let! c := get_file_node child in ret (inl (next c)).

Lemma export_children n kids : Forall (exports_node n) kids ->
  forall s R views i v p prefix xs y k fuel,
  can_export s R views i v n (Z.of_nat (length prefix)) kids -> Forall2 (node_rep s R) xs kids ->
  chain next (files s) y xs -> (length xs < fuel)%nat -> (max_depth kids <= k)%nat -> path_at s p prefix ->
  wp (loop fuel (export_step k (p, Z.of_nat (length prefix)) i) y) (fun r s' => r = 0 /\
    exists bufs, exported (sum_cost n (Z.of_nat (length prefix)) kids) s s' R views i v bufs
      (concat (map (exports prefix) kids))) s.
Proof.
  induction 1 as [|t kids Ht Hkids IH]; intros s R views i v p prefix xs y k fuel Hcan Hreps Hc Hfuel Hdepth Hpath;
    (destruct fuel as [|fuel]; [lia|]); apply wp_loop_step; unfold export_step at 1.
  - apply Forall2_nil_inv_r in Hreps as ->. cbn in Hc. subst y. apply wp_ret. split; [done|].
    exists []. destruct Hcan as (Hr & Hi & _). by apply exported_none.
  - inversion Hreps as [|x ? xs' ? Hx Hxs]; subst. destruct Hc as (-> & Hx0 & f & Hf & Hc).
    rewrite (proj2 (Z.eqb_neq _ _)) by done. apply wp_bind. unfold max_depth in Hdepth. cbn in Hdepth.
    eapply wp_mono; [apply (Ht s R views i v p prefix x k);
      [by eapply can_export_head|done|lia|done]|].
    intros r s1 (-> & bufs & Hexp). pose proof (xp_extends _ _ _ _ _ _ _ _ _ Hexp) as He.
    assert (Hok : forall z t', node_rep s R z t' -> held s z)
      by (intros z t' Hz; by inversion Hz as [? ? ? []|? ? ? ? []]).
    apply wp_bind. eapply wp_get_file; [by rewrite (ex_files _ _ _ He) by by eapply Hok|done|]. apply wp_ret.
    eapply wp_mono.
    { apply (IH s1 R (zinsert i (v.1, v.2 ++ bufs) views) i (v.1, v.2 ++ bufs) p prefix xs' (next f) k fuel).
      - eapply can_export_tail; [exact Hcan|exact Hexp|apply files_in_exports].
      - eapply Forall2_impl; [exact Hxs|]. intros z t' Hz. by eapply node_rep_extends.
      - eapply chain_held; [apply He| |exact Hc]. clear -Hxs Hok.
        induction Hxs as [|z t' xs kids Hz _ IH]; constructor; [by eapply Hok|done].
      - cbn in Hfuel. lia.
      - unfold max_depth. lia.
      - by eapply path_extends. }
    intros r s2 (-> & bufs2 & Hexp2). split; [done|]. exists (bufs ++ bufs2).
    by eapply exported_trans.
Qed.

(** ** The path of a directory

    It takes a buffer of its own, which the walk below must not hand out. *)
Lemma ready_buffer s s' R views p n : ready s R views -> new_buffer s s' p n -> ready s' (p :: R) views.
Proof.
  intros Hr Hb. pose proof (nb_extends _ _ _ _ Hb) as He. destruct (nb_live _ _ _ _ Hb) as (w & Hlive & _).
  destruct (ready_extends _ _ _ _ _ Hr He (nb_only _ _ _ _ Hb)) as [H1 H2 _ H4 H5]. split; [done|done| | |done].
  - rewrite (nb_only _ _ _ _ Hb). eapply out_avoiding_sys; [|apply Hr]. intros z Hz HzR.
    split; [by eapply live_extends|]. intros [->|]%elem_of_cons; [by apply (nb_fresh _ _ _ _ Hb)|done].
  - constructor; [|done]. rewrite Hlive. left.
Qed.

Lemma node_rep_buffer s s' R p n x t : new_buffer s s' p n -> node_rep s R x t -> node_rep s' (p :: R) x t.
Proof.
  intros Hb. pose proof (nb_extends _ _ _ _ Hb) as He. apply node_rep_frame.
  - intros u Hu. split; [by eapply held_extends|by apply He].
  - apply He.
  - apply He.
  - intros a [(q & m & Hq & HqR & Ha)|Ha]; [left; exists q, m|right; by rewrite (ex_area _ _ _ He)].
    split_and!; [by apply (ex_live _ _ _ He)| |lia|lia]. intros [->|]%elem_of_cons; [|done].
    apply (nb_fresh _ _ _ _ Hb), list_elem_of_fmap. by exists (p, m).
Qed.

(** The slash behind the name. *)
Lemma slash_behind s s1 p prefix nm : let n := Z.of_nat (length prefix) + Z.of_nat (length nm) in
  n + 1 < 2 ^ 63 -> new_buffer s s1 p (n + 1) -> region (bytes s1) p (prefix ++ nm) ->
  let s2 := with_bytes (<[p + n := slash]> (bytes s1)) s1 in
  new_buffer s s2 p (n + 1) /\ region (bytes s2) p (prefix ++ nm ++ [slash]).
Proof.
  intros n Hmax Hb Hname s2. assert (Hlen : Z.of_nat (length (prefix ++ nm)) = n) by (rewrite length_app; unfold n; lia).
  assert (Hn : 0 <= n) by (unfold n; lia). assert (Hone : Z.of_nat (length [slash]) = 1) by done.
  split; [apply (new_buffer_write _ _ _ _ (p + n) [slash] Hb); pose proof (local_size_small (n + 1) ltac:(lia)); lia|].
  rewrite app_assoc. apply region_app. split.
  - apply (region_write_other (p + n) [slash]); [done|]. lia.
  - apply region_cons. split; [|apply region_nil]. rewrite Hlen. apply lookup_insert_eq.
Qed.

Lemma export_directory n label kids : Forall (exports_node n) kids -> exports_node n (TDir label kids).
Proof.
  intros Hkids s R views i v prev prefix x fuel (Hr & Hi & Hn & Hcount & Hlen & [[Hfit1 Hfit2] _] & Hroom) Hrep Hfuel [Hreg Hsafe Hpos].
  destruct fuel as [|k]; [cbn in Hfuel; lia|]. cbn [add_output_from_file sum_cost foldr export_cost sum_files files_in depth] in *.
  inversion Hrep as [|? f xs ? [Hf Hx Hh Hnamed Hlabel] Hty Hc Hreps]; subst.
  apply wp_bind. eapply wp_get_file; [done..|]. rewrite Hty.
  set (len := Z.of_nat (length prefix)) in *. set (nl := Z.of_nat (length (node_name f))) in *.
  set (dir := prefix ++ node_name f ++ [slash]).
  assert (Hdir : Z.of_nat (length dir) = len + nl + 1) by (unfold dir; rewrite !length_app; cbn; lia).
  assert (Hsize : Z.of_nat (length (prefix ++ node_name f)) + 1 = len + nl + 1) by (rewrite length_app; lia).
  change (foldr (fun t P => paths_fit (len + nl + 1) t /\ P) True kids) with (all_fit (len + nl + 1) kids) in Hfit2.
  change (foldr (fun t c => export_cost n (len + nl + 1) t + c) 0 kids) with (sum_cost n (len + nl + 1) kids) in *.
  pose proof (sys_cost_nonneg (len + nl + 1) ltac:(lia)).
  pose proof (sum_cost_nonneg n (len + nl + 1) kids Hn ltac:(lia) Hfit2).
  assert (Hsz : 0 < len + nl + 1 < 2 ^ 63) by lia. pose proof (local_size_small _ Hsz) as Hls.
  apply wp_bind, export_name_spec; [apply Hr|apply Hr|done|done|lia|done|done|done|lia|rewrite Hsize; lia|].
  rewrite Hsize. intros p s1 Hb Hname. pose proof (nb_pos _ _ _ _ Hb) as Hp0.
  rewrite (proj2 (Z.eqb_neq _ _)) by (unfold NULL; lia). apply wp_bind, wp_store_byte; [|unfold NULL; cbn; lia|].
  { cbn [snd]. fold nl. replace (p + len + nl) with (p + (len + nl)) by lia. apply (nb_writable _ _ _ _ Hb). lia. }
  cbn [snd]. fold nl. replace (p + len + nl) with (p + (len + nl)) by lia.
  destruct (slash_behind s s1 p prefix (node_name f) ltac:(fold len nl; lia) Hb Hname) as [Hb2 Hname2]. fold len nl dir in Hb2, Hname2.
  set (s2 := with_bytes _ s1) in *.
  clearbody s2. pose proof (nb_extends _ _ _ _ Hb2) as He2.
  destruct (nb_live _ _ _ _ Hb2) as (w & Hlive & Hw).
  pose proof (sg_room _ _ _ (ex_grows _ _ _ He2)) as Hroom2.
  pose proof (ready_buffer _ _ _ _ _ _ Hr Hb2) as Hr2.
  rewrite (wrap64_small (len + nl + 1)), <-Hdir by lia. rewrite <-Hdir in *.
  apply wp_bind, wp_gets, wp_bind. eapply wp_mono.
  { apply (export_children n kids Hkids s2 (p :: R) views i v p dir xs (content f) k (file_fuel s2)).
    - unfold can_export, sum_files. split_and!; try done; lia.
    - eapply Forall2_impl; [exact Hreps|]. intros z t. by eapply node_rep_buffer.
    - by rewrite (nb_files _ _ _ _ Hb2).
    - unfold file_fuel. rewrite (nb_files _ _ _ _ Hb2). apply chain_size in Hc. lia.
    - unfold max_depth. lia.
    - split; [done| |by right]. intros j Hj. left. exists p, w. rewrite Hlive. split_and!; [left|set_solver|lia|lia]. }
  intros r s3 (-> & bufs & [He3 Hr3 Hit3 Hsame3 Hout3]). cbn [Z.eqb negb]. apply wp_bind.
  pose proof (extends_trans _ _ _ _ _ He2 He3) as He23.
  apply (release_spec (sys_cost (Z.of_nat (length dir)) + sum_cost n (Z.of_nat (length dir)) kids) s s3 R
    (zinsert i (v.1, v.2 ++ bufs) views) p w (Z.of_nat (length dir))); try done.
  - apply (nb_fresh _ _ _ _ Hb2).
  - apply Hr.
  - apply Hr.
  - apply (ex_live _ _ _ He3). rewrite Hlive. left.
  - rewrite (ex_extents _ _ _ He3); [apply (nb_extent _ _ _ _ Hb2)|]. right. rewrite Hlive. left.
  - intros s4 He4 Hr4 Hsafe4 Hsame4 Hout4. apply wp_ret. split; [done|]. exists bufs. split; [done|done|..].
    + eapply Forall2_impl; [exact Hit3|]. intros b it. by apply item_frame.
    + eapply same_platform_trans; [|exact Hsame4]. eapply same_platform_trans; [|exact Hsame3].
      rewrite (nb_only _ _ _ _ Hb2). by split_and!.
    + by rewrite Hout4, Hout3, (nb_only _ _ _ _ Hb2).
Qed.

Lemma export_node n t : exports_node n t.
Proof. induction t using tree_induction; [apply export_file|by apply export_directory]. Qed.
End export.
