(* ===== verification/FsTerminate.v ===== *)
(** The end of a program ([fs_terminate] of src/file_system/file_system.c): for
    every output set the directory of its name is exported. *)
From S2P Require Import Prelude Bytes Heap Alloc AllocSession AllocTheorems System RuntimeIO RuntimeTree RuntimeInit RuntimeOutput Paths PathSpec FsStore FileSystem FsLemmas FsTree FsData FsWrite FsSeek FsExport FsExportNode.

(** The name of a set as it is compared with names of nodes, and the items of
    the [stdio] set that are not exported. *)
Definition upto_nul (l : list Z) : list Z := take_while (fun c => negb (c =? NUL)) l.
Definition ignored (set label : list Z) : Prop :=
  set = chars "stdio" /\ (label = chars "environ" \/ label = chars "argv" \/ label = chars "stdin").
#[export] Instance ignored_dec set label : Decision (ignored set label).
Proof. unfold ignored. solve_decision. Defined.

(** The trees of a set that are exported, and the items they give. *)
Definition chosen (set : list Z) (ts : list tree) : list tree := filter (fun t => ~ ignored set (label_of t)) ts.
Definition items_of (ts : list tree) : list (list Z * list Z) := concat (map (exports []) ts).

(** A view with more buffers. *)
Definition add_bufs (v : view) (bufs : list io_buffer) : view := (v.1, v.2 ++ bufs).

Section terminate.
Context {M : Type} {HS : System M} {HM : Machine}.
Implicit Types s : fs M.

(** * Names of sets *)

Lemma load_bytes_spec a l s :
  region (bytes s) a l -> l = [] \/ 0 < a -> load_bytes a (length l) s = Ret l s.
Proof.
  revert a. induction l as [|b l IH]; intros a Hr Ha; [done|]. apply region_cons in Hr as [Hb Hr].
  destruct Ha as [|Ha]; [done|]. cbn [length load_bytes]. unfold bind at 1, load_byte, deref.
  rewrite (proj2 (Z.eqb_neq _ _)), Hb by (unfold NULL; lia). unfold bind.
  rewrite IH; [done|done|right; lia].
Qed.

Definition set_path (text : list Z) : path := Path text 0 (Z.of_nat (length text)).

Lemma set_path_ok text : Z.of_nat (length text) < 2 ^ 31 -> path_ok (set_path text).
Proof. intros H. split; cbn; lia. Qed.

Lemma set_path_text str : text (set_path str) = str.
Proof. unfold text, set_path, sub_string. cbn. by rewrite drop_0, Nat2Z.id, firstn_all. Qed.

Lemma load_path_spec a str s :
  path_at s a str -> load_path a (Z.of_nat (length str)) s = Ret (set_path str) s.
Proof.
  intros [Hr _ Hp]. unfold load_path, bind. by rewrite Nat2Z.id, load_bytes_spec.
Qed.

Lemma path_name_set str : path_name (set_path str) = upto_nul str.
Proof. unfold path_name. by rewrite set_path_text. Qed.

Lemma cstr_compare (l : list Z) n (k : list Z) m s :
  0 <= n <= Z.of_nat (length l) -> 0 <= m <= Z.of_nat (length k) ->
  exists c, namecmp l n k m s = Ret c s /\ (c =? 0) = bool_decide (cstr n l = cstr m k).
Proof.
  intros Hn Hm. rewrite namecmp_spec by done. eexists. split; [done|].
  destruct (lex _ _) eqn:E; cbn; symmetry; [apply bool_decide_eq_true_2; by apply lex_eq|..];
    apply bool_decide_eq_false_2; intros E2%lex_eq; congruence.
Qed.

Lemma skip_output_spec str x f s :
  Z.of_nat (length str) < 2 ^ 31 -> files s !! x = Some f -> x <> NULL -> named f ->
  skip_output (set_path str) x s = Ret (bool_decide (ignored (upto_nul str) (node_name f))) s.
Proof.
  intros Hs Hf Hx Hn. pose proof (set_path_ok str Hs) as Hok. unfold named in Hn.
  assert (Hcmp : forall k m, 0 <= m <= Z.of_nat (length k) -> exists c,
    namecmp (name f) FS_NAME_LENGTH k m s = Ret c s /\ (c =? 0) = bool_decide (node_name f = cstr m k)).
  { intros k m Hm. apply cstr_compare; [rewrite Hn; done|done]. }
  unfold skip_output, path_is, bind.
  destruct (cstr_compare (path_tail (set_path str)) (p_len (set_path str)) STDIO_NAME 5 s) as (c & -> & ->);
    [by apply path_tail_length|cbn; lia|].
  change (cstr (p_len (set_path str)) (path_tail (set_path str))) with (path_name (set_path str)).
  rewrite path_name_set. change (cstr 5 STDIO_NAME) with (chars "stdio"). unfold ret.
  destruct (bool_decide (upto_nul str = chars "stdio")) eqn:E1; cbn [negb].
  2: { apply bool_decide_eq_false in E1. f_equal. symmetry. apply bool_decide_eq_false_2. by intros [? _]. }
  apply bool_decide_eq_true in E1. unfold get_file_node, deref. rewrite (proj2 (Z.eqb_neq _ _)), Hf by done.
  destruct (Hcmp (literal "environ") 7) as (c1 & -> & ->); [cbn; lia|]. change (cstr 7 (literal "environ")) with (chars "environ").
  case_bool_decide; [f_equal; symmetry; apply bool_decide_eq_true_2; split; auto|].
  destruct (Hcmp (literal "argv") 4) as (c2 & -> & ->); [cbn; lia|]. change (cstr 4 (literal "argv")) with (chars "argv").
  case_bool_decide; [f_equal; symmetry; apply bool_decide_eq_true_2; split; auto|].
  destruct (Hcmp (literal "stdin") 5) as (c3 & -> & ->); [cbn; lia|]. change (cstr 5 (literal "stdin")) with (chars "stdin").
  f_equal. apply bool_decide_ext. unfold ignored. naive_solver.
Qed.

(** * One set *)

(** The trees that a set exports: none when the root has no node of its name,
    the chosen children of the directory otherwise. *)
Inductive set_rep s (xs : list Z) (set : list Z) : list tree -> Prop :=
| set_none : find_child (files s) set xs = NULL -> set_rep s xs set []
| set_dir x d ys ts :
    find_child (files s) set xs = x -> x <> NULL -> files s !! x = Some d -> ftype d = DIRECTORY ->
    chain next (files s) (content d) ys -> Forall2 (node_rep s []) ys ts ->
    set_rep s xs set (chosen set ts).

(** The root with its children. *)
Record root_at s (xs : list Z) (d : dfile) : Prop := {
  ra_children : children (files s) fs_root d xs;
  ra_held : Forall (held s) xs;
  ra_named : all_named (files s);
}.

(** The name of a set is neither ["."] nor [".."]. *)
Record set_ok s (xs : list Z) (v : view) (str : list Z) (ts : list tree) : Prop := {
  so_name : path_at s v.1.1 str;
  so_len : v.1.2 = Z.of_nat (length str);
  so_small : Z.of_nat (length str) < 2 ^ 31;
  so_plain : str <> [dot] /\ str <> [dot; dot];
  so_rep : set_rep s xs (upto_nul str) ts;
}.

Lemma node_rep_held s R x t : node_rep s R x t -> held s x.
Proof. intros Hx. by inversion Hx as [? ? ? []|? ? ? ? []]. Qed.

Lemma reps_held s R xs ts : Forall2 (node_rep s R) xs ts -> Forall (held s) xs.
Proof. induction 1 as [|x t xs ts Hx _ IH]; constructor; [by eapply node_rep_held|done]. Qed.

Lemma root_extends c s s' xs d : extends c s s' -> root_at s xs d -> root_at s' xs d.
Proof.
  intros H [[Hd H0 Ht Hl Hself] Hh Hn]. split; [split; try done| |].
  - rewrite (ex_files _ _ _ H); [done|left; done].
  - eapply chain_held; [apply H|done|done].
  - eapply Forall_impl; [exact Hh|]. intros x. by eapply held_extends.
  - intros x f Hf. apply (Hn x). by eapply lookup_weaken; [|apply (ex_fewer _ _ _ H)].
Qed.

Lemma find_child_held s s' t l :
  (forall x, held s x -> files s' !! x = files s !! x) -> Forall (held s) l ->
  find_child (files s') t l = find_child (files s) t l.
Proof.
  intros H. induction 1 as [|x l Hx _ IH]; cbn; [done|]. unfold name_at. by rewrite H, IH by done.
Qed.

Lemma set_ok_extends c s s' xs d v str ts :
  extends c s s' -> root_at s xs d -> set_ok s xs v str ts -> set_ok s' xs v str ts.
Proof.
  intros H [[Hd H0 Ht Hl Hself] Hh Hn] [Hp Hlen Hsm Hpl Hrep]. split; try done; [by eapply path_extends|].
  pose proof (find_child_held s s' (upto_nul str) xs (ex_files _ _ _ H) Hh) as E.
  destruct Hrep as [Hnone|x e ys ts <- Hx He Hty Hc Hreps]; [apply set_none; congruence|].
  assert (Hheld : held s (find_child (files s) (upto_nul str) xs)).
  { rewrite Forall_forall in Hh. by apply Hh, find_child_sound. }
  apply (set_dir s' xs _ (find_child (files s) (upto_nul str) xs) e ys); try done.
  - by rewrite (ex_files _ _ _ H).
  - eapply chain_held; [apply H|by eapply reps_held|done].
  - eapply Forall2_impl; [exact Hreps|]. intros z t. by eapply node_rep_extends.
Qed.

(** The walk over the children of the directory of a set. *)
Definition terminate_step (fuel : nat) (set_ident : path) (set_index out_file : Z) : prog (fs M) (Z + option unit) :=
  if out_file =? NULL then ret (inr None) else
  let! skip := skip_output set_ident out_file in
  let! _ := if skip : bool then ret 0
            else add_output_from_file fuel out_file (NULL, 0) set_index in
  let! f := get_file_node out_file in
  ret (inl (next f)).

Lemma label_node s R x t : node_rep s R x t -> exists f, files s !! x = Some f /\ x <> NULL /\ named f /\ label_of t = node_name f.
Proof. intros Hx. inversion Hx as [? f ? []|? f ? ? []]; subst; by exists f. Qed.

Lemma terminate_children n str k kids : Z.of_nat (length str) < 2 ^ 31 ->
  forall s views i v xs y fuel,
  can_export s [] views i v n 0 (chosen (upto_nul str) kids) -> Forall2 (node_rep s []) xs kids ->
  chain next (files s) y xs -> (length xs < fuel)%nat -> Forall (fun t => (depth t <= k)%nat) kids ->
  wp (loop fuel (terminate_step k (set_path str) i) y) (fun r s' => r = None /\
    exists bufs, exported (sum_cost n 0 (chosen (upto_nul str) kids)) s s' [] views i v bufs
      (items_of (chosen (upto_nul str) kids))) s.
Proof.
  intros Hstr. induction kids as [|t kids IH]; intros s views i v xs y fuel Hcan Hreps Hc Hfuel Hdepth;
    (destruct fuel as [|fuel]; [lia|]); apply wp_loop_step; unfold terminate_step at 1.
  - apply Forall2_nil_inv_r in Hreps as ->. cbn in Hc. subst y. apply wp_ret. split; [done|].
    exists []. destruct Hcan as (Hr & Hi & _). by apply exported_none.
  - inversion Hreps as [|x ? xs' ? Hx Hxs]; subst. destruct Hc as (-> & Hx0 & f & Hf & Hc).
    rewrite (proj2 (Z.eqb_neq _ _)) by done. apply Forall_cons in Hdepth as [Hdt Hdepth].
    destruct (label_node _ _ _ _ Hx) as (g & Hg & _ & Hnamed & Hlab). assert (g = f) as -> by congruence.
    apply wp_bind. unfold wp at 1. rewrite (skip_output_spec str x f s Hstr Hf Hx0 Hnamed), <-Hlab. apply wp_bind.
    unfold chosen in *. rewrite filter_cons in Hcan |- *. case_bool_decide as Hig.
    + rewrite decide_False in Hcan |- * by tauto. apply wp_ret, wp_bind. eapply wp_get_file; [done..|]. apply wp_ret.
      eapply IH; [done|done|done|cbn in Hfuel; lia|done].
    + rewrite decide_True in Hcan |- * by done.
      eapply wp_mono; [apply (export_node n t s [] views i v NULL [] x k);
        [by eapply can_export_head|done|done|]|].
      { split; [apply region_nil| |by left]. intros j Hj. cbn in Hj. lia. }
      intros r s1 (-> & bufs & Hexp). pose proof (xp_extends _ _ _ _ _ _ _ _ _ Hexp) as He.
      apply wp_bind. eapply wp_get_file; [by rewrite (ex_files _ _ _ He) by by eapply node_rep_held|done|]. apply wp_ret.
      eapply wp_mono.
      { apply (IH s1 (zinsert i (v.1, v.2 ++ bufs) views) i (v.1, v.2 ++ bufs) xs' (next f) fuel).
        - eapply can_export_tail; [exact Hcan|exact Hexp|apply files_in_exports].
        - eapply Forall2_impl; [exact Hxs|]. intros z t' Hz. by eapply node_rep_extends.
        - eapply chain_held; [apply He|by eapply reps_held|exact Hc].
        - cbn in Hfuel. lia.
        - done. }
      intros r s2 (-> & bufs2 & Hexp2). split; [done|]. exists (bufs ++ bufs2).
      by eapply exported_trans.
Qed.

(** The name of a set, as the runtime has it. *)
Lemma wp_output_name {A} s views i v (k : path -> prog (fs M) A) (Q : A -> fs M -> Prop) str :
  ready s [] views -> zlookup i views = Some v -> path_at s v.1.1 str -> v.1.2 = Z.of_nat (length str) ->
  wp (k (set_path str)) Q s ->
  wp (let! ident := on_rt (dandelion_output_set_ident i) in
      let! len := on_rt (dandelion_output_set_ident_len i) in
      let! name := load_path ident len in k name) Q s.
Proof.
  intros [_ _ (sets & Hsets & _) _ Hlen] Hi Hp Hstr HQ. pose proof (zlookup_range _ _ _ Hi) as Hrange.
  assert (Hid : dandelion_output_set_ident i (fs_rt s) = Ret v.1.1 (fs_rt s) /\
                dandelion_output_set_ident_len i (fs_rt s) = Ret v.1.2 (fs_rt s)).
  { destruct (sets_at_lookup _ _ _ _ _ _ Hsets Hi) as (Hp0 & _ & Harr & set & Hset & [E1 E2 _ _ _ _]).
    unfold dandelion_output_set_ident, dandelion_output_set_ident_len, get_set, array_get, bind, gets.
    rewrite (proj2 (Z.leb_gt _ _)), (proj2 (Z.eqb_neq _ _)), Harr, Hset by (done || lia).
    unfold ret. by rewrite E1, E2. }
  destruct Hid as [E1 E2]. assert (Ers : with_rt (fs_rt s) s = s) by by destruct s.
  apply wp_bind, wp_zoom. unfold wp at 1. rewrite E1, Ers. apply wp_bind, wp_zoom. unfold wp at 1.
  rewrite E2, Ers, Hstr. apply wp_bind. unfold wp at 1. by rewrite load_path_spec.
Qed.

(** Sets that export nothing at all, and sets with a directory. *)
Lemma terminate_set_spec n s xs d views i v str ts :
  root_at s xs d -> set_ok s xs v str ts -> can_export s [] views i v n 0 ts ->
  wp (terminate_set i) (fun r s' => r = None /\
    exists bufs, exported (sum_cost n 0 ts) s s' [] views i v bufs (items_of ts)) s.
Proof.
  intros [Hroot Hheld Hnamed] [Hp Hlen Hsm Hpl Hrep] Hcan. pose proof Hcan as (Hr & Hi & _).
  eapply wp_output_name; [done..|]. apply wp_bind. unfold wp at 1.
  rewrite (find_in_dir_spec fs_root d xs);
    [|by apply set_path_ok|unfold plain; by rewrite set_path_text|done|done].
  rewrite path_name_set.
  destruct Hrep as [Hnone|x e ys kids Hx Hx0 He Hty Hc Hreps].
  { rewrite Hnone, Z.eqb_refl. apply wp_ret. split; [done|]. exists []. by apply exported_none. }
  rewrite Hx, (proj2 (Z.eqb_neq _ _)) by done. apply wp_bind. eapply wp_get_file; [done..|].
  apply wp_bind, wp_gets. eapply wp_mono; [apply (terminate_children n str (file_fuel s) kids Hsm s views i v ys)|done];
    [done|done|done|..].
  - apply chain_size in Hc. unfold file_fuel. lia.
  - clear -Hreps. induction Hreps as [|y t ys kids Hy _ IH]; constructor; [|done].
    apply node_rep_depth in Hy. unfold file_fuel. lia.
Qed.

(** * All sets *)

Definition total_cost (n : Z) (trees : list (list tree)) : Z := foldr (fun ts c => sum_cost n 0 ts + c) 0 trees.

(** Every set stays below [n] buffers, and its paths below the bound. *)
Definition set_fits (n : Z) (v : view) (ts : list tree) : Prop :=
  Z.of_nat (length v.2) + sum_files ts <= n /\ all_fit 0 ts.

(** The sets [views] after [done], with what they show. *)
Record all_exported (c : Z) s s' (before views : list view) bufss items : Prop := {
  ax_extends : extends c s s';
  ax_ready : ready s' [] (before ++ zip_with add_bufs views bufss);
  ax_items : Forall2 (Forall2 (item_kept s' [])) bufss items;
  ax_same : same_platform (fs_rt s) (fs_rt s');
  ax_out : rt_output_sets (fs_rt s') = rt_output_sets (fs_rt s);
}.

Lemma zinsert_middle {A} (l : list A) a b r : zinsert (Z.of_nat (length l)) b (l ++ a :: r) = (l ++ [b]) ++ r.
Proof. unfold zinsert. by rewrite Nat2Z.id, insert_app_r_alt, Nat.sub_diag, <-app_assoc by lia. Qed.

Lemma zlookup_middle {A} (l : list A) a r : zlookup (Z.of_nat (length l)) (l ++ a :: r) = Some a.
Proof. by rewrite zlookup_nat, list_lookup_middle. Qed.

Lemma total_cost_nonneg n views trees :
  0 <= n < 2 ^ 56 -> Forall2 (set_fits n) views trees -> 0 <= total_cost n trees.
Proof.
  intros Hn. induction 1 as [|v ts views trees [_ Hv] _ IH]; cbn; [lia|].
  pose proof (sum_cost_nonneg n 0 ts Hn ltac:(lia) Hv). unfold total_cost in IH. lia.
Qed.

Lemma terminate_sets n xs d : 0 <= n < 2 ^ 56 -> forall views strs trees before s,
  root_at s xs d -> ready s [] (before ++ views) -> Forall3 (set_ok s xs) views strs trees ->
  Forall2 (set_fits n) views trees -> total_cost n trees <= sys_room (rt_sys (fs_rt s)) ->
  wp (for_from (length views) (Z.of_nat (length before)) terminate_set) (fun r s' => r = None /\
    exists bufss, all_exported (total_cost n trees) s s' before views bufss (map items_of trees)) s.
Proof.
  intros Hn. induction views as [|v views IH]; intros strs trees before s Hroot Hr Hok Hfit Hroom.
  - inversion Hfit; subst. apply wp_ret. split; [done|]. exists []. split; [|done|constructor|by split_and!|done].
    apply extends_refl, Hr.
  - inversion Hok as [|? str ts ? strs' trees' Hv Hvs]; subst. inversion Hfit as [|? ? ? ? [Hcount Hall] Hfits]; subst.
    cbn [total_cost foldr] in Hroom. change (foldr _ 0 trees') with (total_cost n trees') in Hroom.
    pose proof (total_cost_nonneg n views trees' Hn Hfits) as Hc.
    pose proof (sum_cost_nonneg n 0 ts Hn ltac:(lia) Hall) as Hc0.
    cbn [length for_from]. apply wp_bind.
    eapply wp_mono; [apply (terminate_set_spec n s xs d (before ++ v :: views) (Z.of_nat (length before)) v str ts Hroot Hv)|].
    { unfold can_export. split_and!; try done; [apply zlookup_middle|lia..]. }
    intros r s1 (-> & bufs & [He Hr1 Hit Hsame Hout]). rewrite zinsert_middle in Hr1. fold (add_bufs v bufs) in Hr1.
    pose proof (sg_room _ _ _ (ex_grows _ _ _ He)) as Hroom1.
    replace (Z.of_nat (length before) + 1) with (Z.of_nat (length (before ++ [add_bufs v bufs])))
      by (rewrite length_app; cbn; lia).
    eapply wp_mono.
    { apply (IH strs' trees' _ s1); [by eapply root_extends|done| |done|lia].
      eapply Forall3_impl; [exact Hvs|]. intros w str' ts'. by apply (set_ok_extends _ s s1 xs d w str' ts' He Hroot). }
    intros r s2 (-> & bufss & [He2 Hr2 Hit2 Hsame2 Hout2]). split; [done|]. exists (bufs :: bufss). split.
    + by eapply extends_trans.
    + rewrite <-app_assoc in Hr2. exact Hr2.
    + constructor; [|done]. eapply Forall2_impl; [exact Hit|]. intros b it. by eapply item_extends.
    + by eapply same_platform_trans.
    + congruence.
Qed.

Lemma fs_terminate_spec n s xs d views strs trees :
  0 <= n < 2 ^ 56 -> root_at s xs d -> ready s [] views -> Forall3 (set_ok s xs) views strs trees ->
  Forall2 (set_fits n) views trees -> total_cost n trees <= sys_room (rt_sys (fs_rt s)) ->
  wp fs_terminate (fun r s' => r = 0 /\
    exists bufss, all_exported (total_cost n trees) s s' [] views bufss (map items_of trees)) s.
Proof.
  intros Hn Hroot Hr Hok Hfit Hroom. unfold fs_terminate.
  apply wp_bind, wp_zoom, wp_gets. replace (with_rt (fs_rt s) s) with s by by destruct s.
  apply wp_bind. rewrite <-(rd_len _ _ _ Hr). unfold for_loop. rewrite Nat2Z.id.
  eapply wp_mono; [by apply (terminate_sets n xs d Hn views strs trees [] s)|].
  intros r s' [_ Hex]. by apply wp_ret.
Qed.
End terminate.
