(* ===== verification/FsNames.v ===== *)
(** The file system as a map from paths to nodes: what a search finds after a
    node was linked into a directory, and that every node has one path. *)
From Stdlib Require Import Sorting.Sorted.
From S2P Require Import Prelude Bytes Heap Alloc AllocSession System RuntimeIO Paths PathSpec FsStore FileSystem FsImpl FsLemmas FsTree FsResolve.

(** * Trees with parents *)

(** On top of [tree_ok]: children are sorted and point to their directory, and
    the root is in no directory. *)
Record names_ok (m : gmap Z dfile) (kids : Z -> list Z) : Prop := {
  nk_tree : tree_ok m kids;
  nk_root : exists d, m !! fs_root = Some d /\ ftype d = DIRECTORY /\ parent d = NULL;
  nk_sorted x : sorted_names m (kids x);
  nk_parent x y : y ∈ kids x -> exists f, m !! y = Some f /\ parent f = x;
  nk_dir x : kids x <> [] -> exists d, m !! x = Some d /\ ftype d = DIRECTORY;
}.

(** Parents that are the directory of their children lead nowhere else. *)
Inductive attached (kids : Z -> list Z) : Z -> Prop :=
| attached_root : attached kids fs_root
| attached_child x y : attached kids x -> y ∈ kids x -> attached kids y.

Lemma names_parent m kids x d :
  (exists r, m !! fs_root = Some r /\ ftype r = DIRECTORY /\ parent r = NULL) ->
  (forall x y, y ∈ kids x -> exists f, m !! y = Some f /\ parent f = x) ->
  (forall x, kids x <> [] -> exists d, m !! x = Some d /\ ftype d = DIRECTORY) ->
  reached m kids x -> m !! x = Some d -> parent d = NULL \/ is_Some (m !! parent d).
Proof.
  intros (r & Hr & _ & Hrp) Hparent Hdir Hx Hd. enough (Ha : attached kids x).
  { destruct Ha as [|y x Hy Hin]; [left; congruence|right]. destruct (Hparent _ _ Hin) as (f & Hf & Ep).
    destruct (Hdir y) as (e & He & _); [by intros E; rewrite E in Hin; apply elem_of_nil in Hin|].
    exists e. congruence. }
  clear d Hd. induction Hx as [|x y _ IH Hin|x d _ IH Hd Hn]; [constructor|by econstructor|].
  destruct IH as [|y x Hy Hin]; [congruence|]. destruct (Hparent _ _ Hin) as (f & Hf & Ep). by assert (parent d = y) as -> by congruence.
Qed.

(** The parents need no proof of their own. *)
Lemma names_intro m kids :
  all_named m -> (forall x d, m !! x = Some d -> ftype d = DIRECTORY -> chain next m (content d) (kids x)) ->
  (forall x, x ∉ kids x) -> m !! NULL = None ->
  (exists d, m !! fs_root = Some d /\ ftype d = DIRECTORY /\ parent d = NULL) -> (forall x, sorted_names m (kids x)) ->
  (forall x y, y ∈ kids x -> exists f, m !! y = Some f /\ parent f = x) ->
  (forall x, kids x <> [] -> exists d, m !! x = Some d /\ ftype d = DIRECTORY) -> names_ok m kids.
Proof.
  intros Hn Hk Hs H0 Hroot Hsort Hparent Hdir. split; [split| | | |]; try done.
  - destruct Hroot as (d & ? & _). by exists d.
  - intros x d. by apply names_parent.
Qed.

(** A component that is a name: not ["."], not [".."], not empty, without zero
    bytes and slashes. *)
Definition simple (c : list Z) : Prop :=
  c <> [dot] /\ c <> [dot; dot] /\ Forall (fun b => b <> NUL) c /\ c <> [] /\ Forall (fun b => b <> slash) c.
#[export] Instance simple_dec c : Decision (simple c).
Proof. unfold simple. solve_decision. Defined.

Lemma take_while_nonzero c : Forall (fun b => b <> NUL) c -> take_while (fun b => negb (b =? NUL)) c = c.
Proof. intros H. apply take_while_id. eapply Forall_impl; [exact H|]. intros b Hb. cbn. by apply negb_true_iff, Z.eqb_neq. Qed.

Section names.
Context (m : gmap Z dfile) (kids : Z -> list Z).
Context (Hok : names_ok m kids).

Definition node_at (cs : list (list Z)) : Z := resolve m kids fs_root cs.

Lemma null_absent : m !! NULL = None.
Proof using Hok. apply (tk_null _ _ (nk_tree _ _ Hok)). Qed.

Lemma resolve_null cs : resolve m kids NULL cs = NULL.
Proof using Hok. destruct cs; [done|]. cbn. by rewrite null_absent. Qed.

Lemma resolve_app x p q : resolve m kids x (p ++ q) = resolve m kids (resolve m kids x p) q.
Proof using Hok.
  revert x. induction p as [|c p IH]; intros x; [done|]. cbn. destruct (m !! x) as [d|]; [|by rewrite resolve_null].
  destruct (is_directory (ftype d)); [|by rewrite resolve_null].
  destruct (_ =? NULL); [by rewrite resolve_null|apply IH].
Qed.

Lemma node_at_snoc p c :
  node_at (p ++ [c]) = match m !! node_at p with
    | Some d => if is_directory (ftype d) then enter m kids (node_at p) c else NULL
    | None => NULL end.
Proof using Hok.
  unfold node_at. rewrite resolve_app. cbn. destruct (m !! _) as [d|]; [|done].
  destruct (is_directory (ftype d)); [|done]. by destruct (_ =? NULL) eqn:E; bool_to_prop.
Qed.

Lemma enter_simple x c : simple c -> enter m kids x c = find_child m c (kids x).
Proof. intros (H1 & H2 & H3 & _). unfold enter. by rewrite !decide_False, take_while_nonzero by done. Qed.

Lemma find_child_in x c : find_child m c (kids x) <> NULL ->
  find_child m c (kids x) ∈ kids x /\ name_at m (find_child m c (kids x)) = c.
Proof. apply find_child_sound. Qed.

(** A node that a path finds is the child of that name of the node that the
    directories of the path find. *)
Lemma node_at_child p c : simple c -> node_at (p ++ [c]) <> NULL ->
  node_at (p ++ [c]) ∈ kids (node_at p) /\ name_at m (node_at (p ++ [c])) = c.
Proof using Hok.
  rewrite node_at_snoc. intros Hc. destruct (m !! node_at p) as [d|]; [|done].
  destruct (is_directory (ftype d)); [|done]. rewrite enter_simple by done. apply find_child_in.
Qed.

Lemma root_child x : fs_root ∉ kids x.
Proof using Hok.
  intros Hx. destruct (nk_parent _ _ Hok _ _ Hx) as (f & Hf & Ep).
  destruct (nk_root _ _ Hok) as (d & Hd & _ & Ed). assert (x = NULL) as -> by congruence.
  destruct (nk_dir _ _ Hok NULL) as (e & He & _); [by destruct (kids NULL); [apply elem_of_nil in Hx|]|].
  by rewrite null_absent in He.
Qed.

(** Every node has one path. *)
Lemma node_at_inj p q : Forall simple p -> Forall simple q -> node_at p <> NULL -> node_at p = node_at q -> p = q.
Proof using Hok.
  revert q. induction p as [|c p IH] using rev_ind; intros q Hp Hq Hnn E.
  - destruct q as [|c q _] using rev_ind; [done|]. exfalso.
    apply Forall_app in Hq as [_ Hc%Forall_inv]. rewrite E in Hnn.
    destruct (node_at_child q c Hc Hnn) as [Hin _]. rewrite <-E in Hin. by apply root_child in Hin.
  - apply Forall_app in Hp as [Hp Hc%Forall_inv]. destruct (node_at_child p c Hc Hnn) as [Hin En].
    destruct q as [|c' q _] using rev_ind.
    { rewrite E in Hin. by apply root_child in Hin. }
    apply Forall_app in Hq as [Hq Hc'%Forall_inv]. rewrite E in Hnn.
    destruct (node_at_child q c' Hc' Hnn) as [Hin' En']. rewrite E in Hin, En.
    destruct (nk_parent _ _ Hok _ _ Hin) as (f & Hf & Ep), (nk_parent _ _ Hok _ _ Hin') as (f' & Hf' & Ef).
    assert (f' = f) as -> by congruence. f_equal; [|congruence].
    apply IH; [done|done| |congruence]. intros H0. rewrite H0 in Hin.
    destruct (nk_dir _ _ Hok NULL) as (e & He & _); [by destruct (kids NULL); [apply elem_of_nil in Hin|]|].
    by rewrite null_absent in He.
Qed.

Lemma node_at_reached p : node_at p <> NULL -> is_Some (m !! node_at p) /\ reached m kids (node_at p).
Proof using Hok.
  induction p as [|c p IH] using rev_ind.
  - intros _. destruct (nk_root _ _ Hok) as (d & Hd & _). split; [by exists d|constructor].
  - rewrite node_at_snoc. destruct (m !! node_at p) as [d|] eqn:Hd; [|done].
    destruct (is_directory (ftype d)) eqn:Ht; [|done]. intros Hn.
    assert (ftype d = DIRECTORY) by by destruct (ftype d). destruct IH as [_ Hr].
    { intros E. by rewrite E, null_absent in Hd. }
    by destruct (enter_node m kids (node_at p) c d (nk_tree _ _ Hok) Hr Hd) as [?|?].
Qed.
Lemma node_at_found p : node_at p <> NULL -> is_Some (m !! node_at p).
Proof using Hok. intros Hn. apply (node_at_reached p Hn). Qed.
End names.

(** * Linking *)

(** The children after a node was linked. *)
Definition link_kids (m : gmap Z dfile) (kids : Z -> list Z) (folder file : Z) (x : Z) : list Z :=
  if x =? folder then insert_child m file (kids folder) else kids x.

(** All children have names, and those of one directory different ones. *)
Record tidy (m : gmap Z dfile) (kids : Z -> list Z) : Prop := {
  td_clean x y : y ∈ kids x -> simple (name_at m y);
  td_distinct x : NoDup (map (name_at m) (kids x));
}.

Lemma tidy_frame m m' kids :
  (forall x y, y ∈ kids x -> name_at m' y = name_at m y) -> tidy m kids -> tidy m' kids.
Proof.
  intros Hm [Hc Hd]. split; [intros x y Hy; rewrite (Hm x) by done; by eapply Hc|]. intros x.
  assert (E : map (name_at m') (kids x) = map (name_at m) (kids x)); [|by rewrite E].
  apply map_ext_in. intros y Hy. apply (Hm x). by apply list_elem_of_In.
Qed.

(** A node that is in no directory yet: a file, or a directory without children. *)
Record loose (m : gmap Z dfile) (kids : Z -> list Z) (file : Z) (f : dfile) : Prop := {
  lo_node : m !! file = Some f;
  lo_valid : file <> NULL;
  lo_root : file <> fs_root;
  lo_out x : file ∉ kids x;
  lo_kids : kids file = [];
}.

Section link.
Context (m m' : gmap Z dfile) (kids : Z -> list Z) (folder file : Z) (d f : dfile).
Context (Hok : names_ok m kids) (Hd : m !! folder = Some d) (Ht : ftype d = DIRECTORY).
Context (Hf : loose m kids file f).
Context (Hlk : linked m m' folder file (kids folder)).
Let kids' := link_kids m kids folder file.

Lemma folder_valid : folder <> NULL.
Proof using Hok Hd. intros E. rewrite E, (null_absent m kids Hok) in Hd. done. Qed.

Lemma loose_out x : file ∉ kids x.
Proof using Hf. apply (lo_out _ _ _ _ Hf). Qed.

Lemma link_children : children m folder d (kids folder).
Proof using Hok Hd Ht.
  split; [done|apply folder_valid|done|by apply (tk_kids _ _ (nk_tree _ _ Hok))|apply (tk_self _ _ (nk_tree _ _ Hok))].
Qed.

Lemma kids_present x y : y ∈ kids x -> is_Some (m !! y).
Proof using Hok. intros Hy. destruct (nk_parent _ _ Hok _ _ Hy) as (g & Hg & _). by exists g. Qed.

Lemma link_names x : name_at m' x = name_at m x.
Proof using Hok Hd Hf Hlk. eapply linked_names; [exact Hlk|exact Hd|apply Hf|apply kids_present]. Qed.

(** What linking keeps of a node. *)
Definition same_node (a b : dfile) : Prop :=
  name b = name a /\ ftype b = ftype a /\ mode b = mode a /\ open_descripotors b = open_descripotors a.

Lemma linked_node (x : Z) g : m !! x = Some g -> exists g', m' !! x = Some g' /\ same_node g g' /\
  (x <> folder -> content g' = content g) /\ (x <> file -> parent g' = parent g) /\
  (x = file -> parent g' = folder).
Proof using Hok Hd Hf Hlk.
  intros Hg. destruct Hlk as [_ Hlf Hld Hk Hc].
  pose proof (lo_node _ _ _ _ Hf) as Hff. pose proof (lo_root _ _ _ _ Hf) as Hr.
  destruct (decide (x = file)) as [->|Hxf].
  { destruct (Hlf _ Hg) as [n E]. eexists. split; [exact E|]. by split_and!. }
  destruct (decide (x = folder)) as [->|Hxd].
  { destruct (Hld _ Hg) as [n E]. eexists. split; [exact E|]. by split_and!. }
  destruct (decide (x ∈ kids folder)) as [Hx|Hx].
  - destruct (Hc _ _ Hx Hg) as [n E]. eexists. split; [exact E|]. by split_and!.
  - exists g. rewrite Hk by done. by split_and!.
Qed.

Lemma linked_present (x : Z) : is_Some (m' !! x) -> folder <> file -> is_Some (m !! x).
Proof using Hok Hd Hf Hlk.
  intros Hx Hne. destruct (decide (x = file)) as [->|Hxf]; [by rewrite (lo_node _ _ _ _ Hf)|].
  destruct (decide (x = folder)) as [->|Hxd]; [by rewrite Hd|].
  destruct (decide (x ∈ kids folder)) as [Hin|Hin]; [by eapply kids_present|].
  by rewrite (lk_kept _ _ _ _ _ Hlk) in Hx.
Qed.

Context (Hne : folder <> file).

(** No other node is linked or changes its type. *)
Lemma linked_links (x : Z) g' : m' !! x = Some g' -> x <> file ->
  exists g, m !! x = Some g /\ ftype g' = ftype g /\ hard_links g' = hard_links g.
Proof using Hok Hd Hf Hlk Hne.
  intros Hg' Hxf. destruct (linked_present x ltac:(by eexists) Hne) as [g Hg]. exists g. split; [done|].
  destruct Hlk as [_ _ Hld Hk Hc]. destruct (decide (x = folder)) as [->|Hxd].
  { destruct (Hld _ Hg) as [n E]. rewrite E in Hg'. by injection Hg' as <-. }
  destruct (decide (x ∈ kids folder)) as [Hx|Hx].
  - destruct (Hc _ _ Hx Hg) as [n E]. rewrite E in Hg'. by injection Hg' as <-.
  - rewrite Hk in Hg' by done. split; congruence.
Qed.

Lemma link_kids_in x y : y ∈ kids' x -> (x = folder /\ y = file) \/ y ∈ kids x.
Proof.
  unfold kids', link_kids. case_bool; [|by right]. rewrite Hb, insert_child_perm.
  intros [->|Hy]%elem_of_cons; [by left|by right].
Qed.

Lemma kids_unique x x' y : y ∈ kids x -> y ∈ kids x' -> x = x'.
Proof using Hok.
  intros H1 H2. destruct (nk_parent _ _ Hok _ _ H1) as (g & Hg & <-), (nk_parent _ _ Hok _ _ H2) as (g' & Hg' & Ep).
  congruence.
Qed.

(** The list of another directory is not touched. *)
Lemma link_other_chain x g p : x <> folder -> chain next m p (kids x) -> m !! x = Some g -> chain next m' p (kids x).
Proof using Hok Hd Hf Hlk.
  intros Hx Hc _. eapply chain_agree; [|exact Hc]. intros y a Hy Ha.
  assert (y ∉ kids folder) as Hyf by (intros Hyf; by apply Hx, (kids_unique _ _ y)).
  assert (y <> file) as Hyn by (intros ->; by apply (loose_out x)).
  destruct (decide (y = folder)) as [->|Hyd].
  - destruct (lk_folder _ _ _ _ _ Hlk _ Ha) as [c E]. by eexists.
  - exists a. by rewrite (lk_kept _ _ _ _ _ Hlk).
Qed.

Lemma link_root : exists r, m' !! fs_root = Some r /\ ftype r = DIRECTORY /\ parent r = NULL.
Proof using Hok Hd Hf Hlk Hne.
  destruct (nk_root _ _ Hok) as (r & Hr & Hrt & Hrp). destruct (linked_node _ _ Hr) as (r' & Hr' & (_ & Et & _) & _ & Ep & _).
  exists r'. split_and!; [done|congruence|]. rewrite Ep; [done|]. intros <-. by apply (lo_root _ _ _ _ Hf).
Qed.
Lemma link_parent x y : y ∈ kids' x -> exists g, m' !! y = Some g /\ parent g = x.
Proof using Hok Hd Hf Hlk Hne.
  intros [[-> ->]|Hy]%link_kids_in.
  - destruct (linked_node _ _ (lo_node _ _ _ _ Hf)) as (g & Hg & _ & _ & _ & Ep). exists g. auto.
  - destruct (nk_parent _ _ Hok _ _ Hy) as (g & Hg & Ep). destruct (linked_node _ _ Hg) as (g' & Hg' & _ & _ & Eq & _).
    exists g'. split; [done|]. rewrite Eq; [done|]. intros ->. by apply (loose_out x).
Qed.
Lemma link_dir x : kids' x <> [] -> exists e, m' !! x = Some e /\ ftype e = DIRECTORY.
Proof using Hok Hd Ht Hf Hlk Hne.
  intros Hx. assert (exists e, m !! x = Some e /\ ftype e = DIRECTORY) as (e & He & Het).
  { destruct (decide (x = folder)) as [->|Hxd]; [by exists d|]. apply (nk_dir _ _ Hok).
    revert Hx. unfold kids', link_kids. by rewrite (proj2 (Z.eqb_neq _ _)). }
  destruct (linked_node _ _ He) as (e' & He' & (_ & Et & _) & _). exists e'. split; [done|congruence].
Qed.

Lemma link_tree : tree_ok m' kids'.
Proof using Hok Hd Ht Hf Hlk Hne.
  pose proof (nk_tree _ _ Hok) as [Hr Hn Hk Hs H0 _]. split.
  - destruct Hr as [r Hr]. destruct (linked_node _ _ Hr) as (r' & Hr' & _). by exists r'.
  - eapply linked_all_named; [exact Hlk|exact Hd|apply Hf|apply kids_present; exact Hok|done].
  - intros x g' Hg' Hdir. unfold kids', link_kids. case_bool.
    + subst x. destruct (lk_chain _ _ _ _ _ Hlk) as (e & He & Hc). congruence.
    + destruct (linked_present x) as [g Hg]; [by exists g'|done|].
      destruct (linked_node _ _ Hg) as (h & Hh & (_ & Et & _) & Ec & _). assert (h = g') as -> by congruence.
      rewrite Ec by done. eapply link_other_chain; [done|by apply Hk; [|congruence]|done].
  - intros x [[-> ->]|Hx]%link_kids_in; [done|by apply (Hs x)].
  - destruct (m' !! NULL) eqn:E; [|done]. destruct (linked_present NULL) as [g Hg]; [by eexists|done|]. congruence.
  - intros x g. apply names_parent; [apply link_root|apply link_parent|apply link_dir].
Qed.

Lemma link_tidy : tidy m kids -> simple (node_name f) -> find_child m (node_name f) (kids folder) = NULL -> tidy m' kids'.
Proof using Hok Hd Hf Hlk.
  intros [Hc Hdis] Hs Hnone. apply (tidy_frame m); [intros x y _; apply link_names|]. split.
  - intros x y [[_ ->]|Hy]%link_kids_in; [|by eapply Hc]. by rewrite (name_at_eq _ _ _ (lo_node _ _ _ _ Hf)).
  - intros x. unfold kids', link_kids. case_bool; [|done]. rewrite insert_child_perm. cbn [map]. constructor; [|done].
    rewrite (name_at_eq _ _ _ (lo_node _ _ _ _ Hf)). intros (y & E & Hy)%list_elem_of_In%in_map_iff.
    apply list_elem_of_In in Hy. revert E. apply (find_child_none m (node_name f) (kids folder)); [apply Hok| |done|done].
    intros Hn. destruct (kids_present _ _ Hn) as [g Hg]. by rewrite (null_absent m kids Hok) in Hg.
Qed.

Lemma link_names_ok : names_ok m' kids'.
Proof using Hok Hd Ht Hf Hlk Hne.
  split; [apply link_tree|apply link_root| |apply link_parent|apply link_dir].
  - intros x. eapply sorted_names_ext; [apply link_names|]. unfold kids', link_kids.
    case_bool; [apply insert_child_sorted|]; apply (nk_sorted _ _ Hok).
Qed.

(** After linking, the path of the new node finds it, unless there was a node
    of that path before; every other path finds what it found. *)
Lemma link_node_at p cs :
  node_at m kids p = folder -> Forall simple p -> simple (node_name f) -> Forall simple cs ->
  node_at m' kids' cs =
  if decide (cs = p ++ [node_name f] /\ node_at m kids cs = NULL) then file else node_at m kids cs.
Proof using Hok Hd Ht Hf Hlk Hne.
  intros Hp Hps Hnm Hcs. pose proof link_names_ok as Hok'.
  assert (Hnull : node_at m kids p <> NULL) by (rewrite Hp; apply folder_valid).
  induction cs as [|c cs IH] using rev_ind.
  { rewrite decide_False; [done|]. intros [E _]. by destruct p. }
  apply Forall_app in Hcs as [Hcs Hc%Forall_inv]. specialize (IH Hcs).
  rewrite !node_at_snoc by done. rewrite IH. clear IH.
  destruct (decide (cs = p ++ [node_name f] /\ node_at m kids cs = NULL)) as [[-> E]|Hnot].
  - (* below the new node *)
    rewrite E, (null_absent m kids Hok). rewrite decide_False.
    2: { intros [H%(f_equal length) _]. rewrite !length_app in H. cbn in H. lia. }
    destruct (linked_node _ _ (lo_node _ _ _ _ Hf)) as (g & -> & _). destruct (is_directory (ftype g)); [|done].
    rewrite enter_simple by done. unfold kids', link_kids. rewrite (proj2 (Z.eqb_neq _ _)) by done.
    by rewrite (lo_kids _ _ _ _ Hf).
  - destruct (m !! node_at m kids cs) as [g|] eqn:Hg.
    2: { destruct (m' !! node_at m kids cs) eqn:E; [|].
         - destruct (linked_present (node_at m kids cs)) as [? ?]; [by eexists|done|congruence].
         - rewrite decide_False; [done|]. intros [[-> _]%app_inj_tail _]. rewrite Hp, Hd in Hg. done. }
    destruct (linked_node _ _ Hg) as (g' & -> & (_ & -> & _) & _).
    destruct (is_directory (ftype g)) eqn:Eg.
    2: { rewrite decide_False; [done|]. intros [[-> _]%app_inj_tail _]. rewrite Hp, Hd in Hg.
         injection Hg as <-. by rewrite Ht in Eg. }
    rewrite !enter_simple by done. rewrite (find_child_ext m) by apply link_names.
    unfold kids' at 1, link_kids. destruct (_ =? folder) eqn:Ef; bool_to_prop.
    + rewrite find_child_insert, (name_at_eq m file f (lo_node _ _ _ _ Hf)); [| |apply (nk_sorted _ _ Hok)].
      2: { intros Hin. destruct (kids_present _ _ Hin) as [? Hx]. by rewrite (null_absent m kids Hok) in Hx. }
      assert (cs = p) as ->.
      { symmetry. apply (node_at_inj m kids Hok); [done|done|done|congruence]. }
      rewrite Hp. destruct (decide (node_name f = c)) as [->|Hcn].
      * destruct (decide (find_child m c (kids folder) = NULL)); [by rewrite decide_True|].
        by rewrite decide_False by naive_solver.
      * rewrite decide_False; [done|]. by intros [[_ ?]%app_inj_tail _].
    + rewrite decide_False; [done|]. intros [[-> _]%app_inj_tail _]. done.
Qed.
End link.

(** * New nodes and other fields *)

Section change.
Context (m : gmap Z dfile) (kids : Z -> list Z).
Context (Hok : names_ok m kids).

(** Two memories in which paths find the same. *)
Lemma resolve_agree m' x cs :
  (forall y d, m !! y = Some d -> exists d', m' !! y = Some d' /\ ftype d' = ftype d /\ parent d' = parent d /\
     name_at m' y = name_at m y) ->
  (is_Some (m !! x) /\ reached m kids x \/ m' !! x = None) -> resolve m' kids x cs = resolve m kids x cs.
Proof using Hok.
  intros Hm. revert x. induction cs as [|c cs IH]; intros x Hx; [done|]. cbn.
  destruct (m !! x) as [d|] eqn:Hd.
  2: { destruct Hx as [[[? ?] _]|Hx]; [congruence|by rewrite Hx]. }
  destruct (Hm x d Hd) as (d' & Hd' & E' & Ep & _). assert (Hr : reached m kids x) by (by destruct Hx as [[_ ?]|?]; [|congruence]).
  rewrite Hd', E'. destruct (is_directory (ftype d)) eqn:Et; [|done].
  assert (Hdir : ftype d = DIRECTORY) by by destruct (ftype d).
  assert (E : enter m' kids x c = enter m kids x c).
  { unfold enter. destruct (decide (c = [dot])); [done|]. destruct (decide (c = [dot; dot])).
    - rewrite Hd. destruct (Hm x d Hd) as (d2 & -> & _ & Eq & _). congruence.
    - assert (Hin : forall y, y ∈ kids x -> name_at m' y = name_at m y).
      { intros y Hy. destruct (nk_parent _ _ Hok _ _ Hy) as (g & Hg & _). by destruct (Hm y g Hg) as (? & _ & _ & _ & ?). }
      induction (kids x) as [|y l IHl]; cbn; [done|]. rewrite Hin by constructor.
      rewrite IHl; [done|]. intros z Hz. apply Hin. by constructor. }
  rewrite E. destruct (_ =? NULL) eqn:En; [done|]. bool_to_prop. apply IH. left.
  by destruct (enter_node m kids x c d (nk_tree _ _ Hok) Hr Hd Hdir) as [?|?].
Qed.

(** A node at a new address. *)
Lemma fresh_names p f :
  m !! p = None -> p <> NULL -> named f -> (ftype f = DIRECTORY -> content f = NULL) ->
  names_ok (<[p := f]> m) kids /\ loose (<[p := f]> m) kids p f /\
  forall cs, node_at (<[p := f]> m) kids cs = node_at m kids cs.
Proof using Hok.
  intros Hp Hp0 Hn Hdir. pose proof Hok as [[Hr Hnm Hk Hs H0 _] Hroot Hsort Hparent Hkd].
  assert (Hkp : kids p = []).
  { destruct (kids p) eqn:E; [done|]. destruct (Hkd p) as (? & ? & _); [by rewrite E|congruence]. }
  assert (Hni : forall x, p ∉ kids x) by (intros x Hx; destruct (Hparent _ _ Hx) as (? & ? & _); congruence).
  assert (Hrp : p <> fs_root) by (intros ->; destruct Hroot as (? & ? & _); congruence).
  assert (Hnames : forall x y, y ∈ kids x -> name_at (<[p:=f]> m) y = name_at m y).
  { intros x y Hy. unfold name_at. rewrite lookup_insert_ne; [done|]. intros <-. by apply (Hni x). }
  split_and!.
  - apply names_intro.
    + intros x g. rewrite lookup_insert_Some. intros [[<- <-]|[_ Hg]]; [done|by apply (Hnm x)].
    + intros x g. rewrite lookup_insert_Some. intros [[<- <-]|[_ Hg]] Ht.
      * by rewrite Hkp, Hdir.
      * apply chain_insert_ne; [apply Hni|by apply Hk].
    + done.
    + by rewrite lookup_insert_ne.
    + destruct Hroot as (r & ? & ?). exists r. by rewrite lookup_insert_ne.
    + intros x. specialize (Hsort x). revert Hsort. unfold sorted_names. generalize (Hnames x).
      induction (kids x) as [|y l IH]; intros Hl; [constructor|]. intros [Hsl Hy]%StronglySorted_inv. constructor.
      * apply IH; [|done]. intros z Hz. apply Hl. by constructor.
      * apply Forall_forall. intros z Hz. rewrite Forall_forall in Hy. specialize (Hy z Hz).
        unfold name_le in *. rewrite !Hl by (constructor; done). done.
    + intros x y Hy. destruct (Hparent _ _ Hy) as (g & Hg & Ep). exists g. rewrite lookup_insert_ne; [done|].
      intros <-. congruence.
    + intros x Hx. destruct (Hkd x Hx) as (g & Hg & Ht). exists g. rewrite lookup_insert_ne; [done|]. intros <-. congruence.
  - split; [apply lookup_insert_eq|done|done|done|done].
  - intros cs. apply resolve_agree; [|left; destruct Hr as [r Hr]; split; [by exists r|constructor]].
    intros y d Hy. exists d. unfold name_at. rewrite lookup_insert_ne; [done|]. intros <-. congruence.
Qed.

(** The fields that make up the tree; the content of a file is not one. *)
Definition same_shape (a b : dfile) : Prop :=
  name b = name a /\ ftype b = ftype a /\ parent b = parent a /\ next b = next a /\
  (ftype a = DIRECTORY -> content b = content a).

Lemma update_names x f f' : m !! x = Some f -> same_shape f f' ->
  names_ok (<[x := f']> m) kids /\ forall cs, node_at (<[x := f']> m) kids cs = node_at m kids cs.
Proof using Hok.
  intros Hx (E1 & E2 & E3 & E4 & E5). pose proof Hok as [[Hr Hnm Hk Hs H0 _] Hroot Hsort Hparent Hkd].
  assert (Hm : forall y g, m !! y = Some g -> exists g', <[x := f']> m !! y = Some g' /\ same_shape g g').
  { intros y g Hg. destruct (decide (x = y)) as [<-|]; [|exists g; rewrite lookup_insert_ne by done; by split_and!].
    exists f'. rewrite lookup_insert_eq. split; [done|]. assert (g = f) as -> by congruence. by split_and!. }
  assert (Hn : forall y, name_at (<[x := f']> m) y = name_at m y).
  { intros y. unfold name_at. destruct (decide (x = y)) as [<-|]; [|by rewrite lookup_insert_ne].
    rewrite lookup_insert_eq, Hx. unfold node_name. by rewrite E1. }
  split.
  - apply names_intro.
    + intros y g. rewrite lookup_insert_Some. intros [[<- <-]|[_ Hg]]; [|by apply (Hnm y)].
      unfold named. rewrite E1. exact (Hnm x f Hx).
    + intros y g. rewrite lookup_insert_Some. intros Hy Ht. apply chain_insert_same with f; [done|done|].
      destruct Hy as [[<- <-]|[_ Hg]]; [rewrite E5 by congruence; apply Hk; [done|congruence]|by apply Hk].
    + done.
    + rewrite lookup_insert_ne; [done|]. intros ->. congruence.
    + destruct Hroot as (r & Hr0 & Hrt & Hrp). destruct (Hm _ _ Hr0) as (r' & ? & _ & ? & ? & _).
      exists r'. split_and!; [done|congruence|congruence].
    + intros y. by eapply sorted_names_ext.
    + intros y z Hz. destruct (Hparent _ _ Hz) as (g & Hg & Ep). destruct (Hm _ _ Hg) as (g' & ? & _ & _ & ? & _).
      exists g'. split; [done|congruence].
    + intros y Hy. destruct (Hkd y Hy) as (g & Hg & Ht). destruct (Hm _ _ Hg) as (g' & ? & _ & ? & _).
      exists g'. split; [done|congruence].
  - intros cs. apply resolve_agree; [|left; destruct Hr as [r Hr]; split; [by exists r|constructor]].
    intros y d Hy. destruct (Hm _ _ Hy) as (d' & ? & _ & ? & ? & _). exists d'. by rewrite Hn.
Qed.
End change.
