(* ===== verification/FsSpace.v ===== *)
(** The file system as a finite map from paths to entries, and what creating
    and linking nodes does to it, with memory to spare. *)
From S2P Require Import Prelude Bytes Heap Alloc AllocSession AllocTheorems System RuntimeIO RuntimeTree RuntimeOutput Paths PathSpec FsStore FileSystem FsImpl FsLemmas FsTree FsResolve FsData FsWrite FsExport FsNames.

(** * The abstract file system *)

(** A directory, a file made of a buffer, a file that was written, a device. *)
Inductive entry := EDir | EFile (data len : Z) | EText (t : list Z) | EDevice.
Notation dirmap := (gmap (list (list Z)) entry).

(** A new entry, where there is none. *)
Definition put (path : list (list Z)) (e : entry) (ns : dirmap) : option dirmap :=
  match ns !! path with None => Some (<[path := e]> ns) | Some _ => None end.

(** The directories [ds] under [base], the missing ones created; [None] when
    there is something else in the way. *)
Fixpoint mkdirs (base ds : list (list Z)) (ns : dirmap) : option dirmap :=
  match ds with
  | [] => Some ns
  | d :: ds =>
      match ns !! (base ++ [d]) with
      | None => mkdirs (base ++ [d]) ds (<[base ++ [d] := EDir]> ns)
      | Some EDir => mkdirs (base ++ [d]) ds ns
      | Some _ => None
      end
  end.

Lemma put_spec (path : list (list Z)) (e : entry) (ns ns' : dirmap) :
  put path e ns = Some ns' -> ns !! path = None /\ ns' = <[path := e]> ns.
Proof. unfold put. destruct (ns !! path); [done|]. by intros [= <-]. Qed.

Lemma put_keeps (path : list (list Z)) (e : entry) (ns ns' : dirmap) cs e' :
  put path e ns = Some ns' -> ns !! cs = Some e' -> ns' !! cs = Some e'.
Proof. intros [Hn ->]%put_spec Hcs. rewrite lookup_insert_ne; [done|]. congruence. Qed.

(** A change of the node that was changed last. *)
Ltac step_file := apply wp_bind; eapply wp_update_file; [apply lookup_insert_eq|done|].

Section entries.
Context {M : Type} {HS : System M} {HM : Machine}.
Implicit Types s : fs M.

(** * How nodes represent it *)

(** Chunks that hold [t], in memory that nobody takes away. *)
Definition text_from s (first : Z) (t : list Z) : Prop := exists l,
  stored (chunks s) (bytes s) first l /\ Forall (chunk_safe s []) l /\ ((length l <= 1)%nat \/ contents l <> []) /\
  contents l = t /\ Z.of_nat (length t) < 2 ^ 62.

(** A file made of a buffer has one chunk, which is the buffer, or none. *)
Definition entry_at s (x : Z) (e : entry) : Prop := exists f, files s !! x = Some f /\
  match e with
  | EDir => ftype f = DIRECTORY
  | EDevice => ftype f = DEVICE
  | EFile data len => ftype f = FILE /\
      if data =? NULL then content f = NULL
      else content f <> NULL /\ content f ∈ (live s).*1 /\ chunks s !! content f = Some (FileChunk data len len NULL)
  | EText t => ftype f = FILE /\ text_from s (content f) t
  end.

Record holds s (kids : Z -> list Z) (ns : dirmap) : Prop := {
  ho_names : names_ok (files s) kids;
  ho_paths cs : Forall simple cs ->
    match ns !! cs with
    | Some e => entry_at s (node_at (files s) kids cs) e
    | None => node_at (files s) kids cs = NULL
    end;
  ho_held x : is_Some (files s !! x) -> held s x;
  ho_tidy : tidy (files s) kids;
  ho_linked cs f : Forall simple cs -> files s !! node_at (files s) kids cs = Some f -> ftype f = FILE -> hard_links f <> 0;
}.

Lemma holds_node s kids ns cs e :
  holds s kids ns -> Forall simple cs -> ns !! cs = Some e -> entry_at s (node_at (files s) kids cs) e.
Proof. intros H Hcs E. pose proof (ho_paths _ _ _ H cs Hcs) as Hp. by rewrite E in Hp. Qed.

Lemma entry_valid s kids ns x e : holds s kids ns -> entry_at s x e -> x <> NULL.
Proof. intros H (f & Hf & _) ->. by rewrite (null_absent _ _ (ho_names _ _ _ H)) in Hf. Qed.

Lemma holds_none s kids ns cs :
  holds s kids ns -> Forall simple cs -> ns !! cs = None <-> node_at (files s) kids cs = NULL.
Proof.
  intros H Hcs. pose proof (ho_paths _ _ _ H cs Hcs) as Hp. destruct (ns !! cs) as [e|]; [|done].
  split; [done|]. intros E. by apply (entry_valid _ _ _ _ _ H) in Hp.
Qed.

(** What entries depend on: the chunks and bytes that stay. *)
Record same_memory s s' : Prop := {
  sm_chunks y : held s y -> chunks s' !! y = chunks s !! y;
  sm_bytes a : safe s [] a -> bytes s' !! a = bytes s !! a;
  sm_live : live s ⊆ live s';
  sm_area : area s' = area s;
}.

Lemma memory_held s s' y : same_memory s s' -> held s y -> held s' y.
Proof.
  intros H [Hy|Hy]; [by left|right]. apply list_elem_of_fmap in Hy as ([z k] & -> & Hz).
  apply list_elem_of_fmap. exists (z, k). split; [done|]. by apply (sm_live _ _ H).
Qed.
Lemma memory_safe s s' a : same_memory s s' -> safe s [] a -> safe s' [] a.
Proof.
  intros H [(p & n & Hp & HR & Ha)|Ha]; [left|right; by rewrite (sm_area _ _ H)].
  exists p, n. split; [by apply (sm_live _ _ H)|done].
Qed.

Lemma text_frame s s' p t : same_memory s s' -> text_from s p t -> text_from s' p t.
Proof.
  intros H (l & Hst & Hsafe & Hone & Hc & Hl). exists l. split_and!; [| |done|done|done].
  - eapply stored_frame; [apply H|apply H|exact Hsafe|exact Hst].
  - eapply Forall_impl; [exact Hsafe|]. intros [z v] [Hz Hr]. split; [by eapply memory_held|]. intros c' Hc' i Hi.
    eapply memory_safe; [exact H|]. apply (Hr c'); [|done]. by rewrite <-(sm_chunks _ _ H) by done.
Qed.

(** Entries do not depend on more than the type and content of the node and
    this memory. *)
Lemma entry_frame s s' x x' e :
  (forall f, files s !! x = Some f -> exists f', files s' !! x' = Some f' /\ ftype f' = ftype f /\
     (ftype f = FILE -> content f' = content f)) ->
  same_memory s s' -> entry_at s x e -> entry_at s' x' e.
Proof.
  intros Hm Hmem (f & Hf & He). destruct (Hm f Hf) as (f' & Hf' & Et & Ec). exists f'. split; [done|].
  destruct e as [|data len|t|]; [congruence| | |congruence]; destruct He as [Ht He]; rewrite Ec by done;
    [|split; [congruence|by eapply text_frame]]. destruct Hmem as [Hc _ Hl _].
  split; [congruence|]. destruct (data =? NULL); [done|]. destruct He as (Hn & Hin & He). split_and!; [done|..].
  - apply list_elem_of_fmap in Hin as ([y k] & -> & Hy). apply list_elem_of_fmap. exists (y, k). auto.
  - rewrite Hc; [done|by right].
Qed.

(** ** What stays while memory is taken *)

Record keeps (c : Z) s s' : Prop := {
  kp_grows : sys_grows (rt_sys (fs_rt s)) (rt_sys (fs_rt s')) c;
  kp_only : only_sys s s';
  kp_chunks x : held s x -> chunks s' !! x = chunks s !! x;
  kp_bytes a : safe s [] a -> bytes s' !! a = bytes s !! a;
  kp_args : argc s' = argc s /\ argv s' = argv s /\ environ s' = environ s;
}.

Lemma keeps_refl s : sound s -> keeps 0 s s.
Proof. intros Hs. split; try done; [by apply sys_grows_refl|by destruct s as [[]]]. Qed.

Lemma keeps_held c s s' x : keeps c s s' -> held s x -> held s' x.
Proof.
  intros H [Hx|Hx]; [by left|right]. apply list_elem_of_fmap in Hx as ([y k] & -> & Hy).
  apply list_elem_of_fmap. exists (y, k). split; [done|]. by apply (sg_live _ _ _ (kp_grows _ _ _ H)).
Qed.

Lemma keeps_safe c s s' R a : keeps c s s' -> safe s R a -> safe s' R a.
Proof.
  intros H [(p & n & Hp & HR & Ha)|Ha].
  - left. exists p, n. split; [by apply (sg_live _ _ _ (kp_grows _ _ _ H))|done].
  - right. unfold area. by rewrite (sg_area _ _ _ (kp_grows _ _ _ H)).
Qed.

Lemma then_keeps c d s1 s2 s3 : keeps c s1 s2 -> keeps d s2 s3 -> keeps (c + d) s1 s3.
Proof.
  intros H1 H2. split.
  - eapply sys_grows_trans; [apply H1|apply H2].
  - transitivity (set_sys (rt_sys (fs_rt s3)) (fs_rt s2)); [apply (kp_only _ _ _ H2)|].
    by rewrite (kp_only _ _ _ H1).
  - intros x Hx. rewrite (kp_chunks _ _ _ H2), (kp_chunks _ _ _ H1); [done|done|by eapply keeps_held].
  - intros a Ha. rewrite (kp_bytes _ _ _ H2), (kp_bytes _ _ _ H1); [done|done|by eapply keeps_safe].
  - destruct (kp_args _ _ _ H1) as (<- & <- & <-). apply (kp_args _ _ _ H2).
Qed.

Lemma keeps_mono c d s s' : keeps c s s' -> c <= d -> keeps d s s'.
Proof. intros [] Hcd. split; try done. by eapply sys_grows_mono. Qed.

Lemma keeps_first c s s' : keeps c s s' -> first_live s -> first_live s'.
Proof.
  intros H Hf. unfold first_live in *. rewrite (sg_first _ _ _ (kp_grows _ _ _ H)).
  apply list_elem_of_fmap in Hf as (x & -> & Hx). apply list_elem_of_fmap. exists x. split; [done|].
  by apply (sg_live _ _ _ (kp_grows _ _ _ H)).
Qed.

Lemma keeps_memory c s s' : keeps c s s' -> same_memory s s'.
Proof. intros [H _ Hc Hb _]. split; [done|done|apply (sg_live _ _ _ H)|apply (sg_area _ _ _ H)]. Qed.

(** Changes of nodes, chunks that were not there, and descriptors. *)
Lemma keeps_files c s s' m : keeps c s s' -> keeps c s (with_files m s').
Proof. by intros []. Qed.
Lemma keeps_open c s s' o : keeps c s s' -> keeps c s (with_open_files o s').
Proof. by intros []. Qed.
(** ** Steps

    Memory was taken, and what paths found they still find. *)
Record step (c : Z) s (kids : Z -> list Z) s' (kids' : Z -> list Z) : Prop := {
  st_keeps : keeps c s s';
  st_stable cs : Forall simple cs -> node_at (files s) kids cs <> NULL ->
    node_at (files s') kids' cs = node_at (files s) kids cs;
}.

Lemma rest_step s kids : sound s -> step 0 s kids s kids.
Proof. intros Hs. split; [by apply keeps_refl|done]. Qed.

Lemma then_step c d s1 k1 s2 k2 s3 k3 : step c s1 k1 s2 k2 -> step d s2 k2 s3 k3 -> step (c + d) s1 k1 s3 k3.
Proof.
  intros [H1 E1] [H2 E2]. split; [by eapply then_keeps|]. intros cs Hcs Hn.
  rewrite E2, E1; [done|done|done|done|]. by rewrite E1.
Qed.

Lemma step_mono c d s kids s' kids' : step c s kids s' kids' -> c <= d -> step d s kids s' kids'.
Proof. intros [] ?. split; [by eapply keeps_mono|done]. Qed.

Lemma step_room c s kids s' kids' : step c s kids s' kids' ->
  sys_room (rt_sys (fs_rt s)) - c <= sys_room (rt_sys (fs_rt s')).
Proof. intros H. apply (sg_room _ _ _ (kp_grows _ _ _ (st_keeps _ _ _ _ _ H))). Qed.
Lemma step_sound c s kids s' kids' : step c s kids s' kids' -> sound s'.
Proof. intros H. apply (sg_sound _ _ _ (kp_grows _ _ _ (st_keeps _ _ _ _ _ H))). Qed.
Lemma step_first c s kids s' kids' : step c s kids s' kids' -> first_live s -> first_live s'.
Proof. intros H. eapply keeps_first, H. Qed.

(** * Linking *)

Lemma path_simple p c : Forall simple p -> simple c -> Forall simple (p ++ [c]).
Proof. intros Hp Hc. apply Forall_app. by split; [|constructor]. Qed.

(** Linking a node whose entry is [e] into the directory of the path [p] adds
    its entry to the map. *)
(** A node that is in no directory is no node of a path. *)
Lemma loose_elsewhere (m : gmap Z dfile) kids p x f : names_ok m kids -> loose m kids x f -> Forall simple p -> node_at m kids p <> x.
Proof.
  intros Hok Hf Hp E. destruct p as [|c p _] using rev_ind; [pose proof (lo_root _ _ _ _ Hf) as Hr; by rewrite <-E in Hr|].
  apply Forall_app in Hp as [_ Hc%Forall_inv].
  destruct (node_at_child m kids Hok p c Hc) as [Hin _]; [rewrite E; apply Hf|].
  rewrite E in Hin. by apply (lo_out _ _ _ _ Hf) in Hin.
Qed.

Lemma link_holds s kids ns p file f e (Q : Z -> fs M -> Prop) :
  holds s kids ns -> sound s -> Forall simple p -> ns !! p = Some EDir ->
  loose (files s) kids file f -> simple (node_name f) -> entry_at s file e -> ns !! (p ++ [node_name f]) = None ->
  (ftype f = FILE -> wrap16 (hard_links f + 1) <> 0) ->
  (forall m' kids', holds (with_files m' s) kids' (<[p ++ [node_name f] := e]> ns) ->
     step 0 s kids (with_files m' s) kids' -> node_at m' kids' (p ++ [node_name f]) = file ->
     (forall x g, loose (files s) kids x g -> x <> file -> loose m' kids' x g) ->
     (exists f', m' !! file = Some f' /\ same_node f f' /\ (ftype f = FILE -> content f' = content f) /\
       hard_links f' = wrap16 (hard_links f + 1)) ->
     Q 0 (with_files m' s)) ->
  wp (link_file_to_folder (node_at (files s) kids p) file) Q s.
Proof.
  intros H Hs Hp Hdir Hf Hnm He Hnone Hlink HQ. pose proof (ho_names _ _ _ H) as Hok.
  destruct (holds_node _ _ _ _ _ H Hp Hdir) as (d & Hd & Ht). set (folder := node_at (files s) kids p) in *.
  pose proof (loose_elsewhere _ _ _ _ _ Hok Hf Hp) as Hne. fold folder in Hne.
  pose proof (link_children (files s) kids folder d Hok Hd Ht) as Hch.
  eapply wp_mono.
  { apply (link_spec folder file d f (kids folder)); [done|apply (tk_named _ _ (nk_tree _ _ Hok))|apply Hf|apply Hf|done|].
    apply (lo_out _ _ _ _ Hf). }
  intros r s' (-> & m' & -> & Hlk).
  pose proof (link_names_ok (files s) m' kids folder file d f Hok Hd Ht Hf Hlk Hne) as Hok'.
  assert (Hframe : forall x, forall g, files s !! x = Some g -> exists g', m' !! x = Some g' /\ ftype g' = ftype g /\
    (ftype g = FILE -> content g' = content g)).
  { intros x g Hg. destruct (linked_node _ _ _ _ _ d f Hok Hd Hf Hlk x g Hg) as (g' & Hg' & (_ & Et & _) & Ec & _).
    exists g'. split_and!; [done|done|]. intros Hft. apply Ec. intros ->. rewrite Hd in Hg. injection Hg as <-. congruence. }
  assert (Hent : forall x e, entry_at s x e -> entry_at (with_files m' s) x e) by (intros x e'; apply entry_frame; [apply Hframe|by split]).
  assert (Hat : forall cs, Forall simple cs -> node_at m' (link_kids (files s) kids folder file) cs =
    if decide (cs = p ++ [node_name f]) then file else node_at (files s) kids cs).
  { intros cs Hcs. rewrite (link_node_at (files s) m' kids folder file d f Hok Hd Ht Hf Hlk Hne p cs) by done.
    pose proof (holds_none _ _ _ _ H Hcs). repeat case_decide; try tauto. subst cs. tauto. }
  apply (HQ m' (link_kids (files s) kids folder file)).
  - split; [done| | | |].
    + intros cs Hcs. change (files (with_files m' s)) with m'. rewrite Hat by done.
      pose proof (ho_paths _ _ _ H cs Hcs) as Hpath. destruct (decide _) as [->|].
      * rewrite lookup_insert_eq. by apply Hent.
      * rewrite lookup_insert_ne by done. destruct (ns !! cs); [by apply Hent|done].
    + intros x Hx. apply (ho_held _ _ _ H).
      by apply (linked_present (files s) m' kids folder file d f Hok Hd Hf Hlk x).
    + apply (link_tidy (files s) m' kids folder file d f Hok Hd Hf Hlk); [apply H|done|].
      assert (Hsim : Forall simple (p ++ [node_name f])) by by apply path_simple.
      pose proof (proj1 (holds_none _ _ _ _ H Hsim) Hnone) as E. rewrite (node_at_snoc (files s) kids Hok) in E.
      fold folder in E. rewrite Hd, Ht in E. cbn [is_directory] in E. by rewrite enter_simple in E by done.
    + intros cs g Hcs. change (files (with_files m' s)) with m'. rewrite Hat by done. destruct (decide _) as [->|].
      * intros Hg Hft. destruct (lk_file _ _ _ _ _ Hlk f (lo_node _ _ _ _ Hf)) as [k Hk]. rewrite Hk in Hg. injection Hg as <-.
        by apply Hlink.
      * intros Hg Hft. destruct (linked_links (files s) m' kids folder file d f Hok Hd Hf Hlk Hne _ g Hg) as (g0 & Hg0 & Et & El).
        { intros E. by apply (loose_elsewhere (files s) kids cs file f). }
        rewrite El. apply (ho_linked _ _ _ H cs g0); [done|done|congruence].
  - split; [by apply keeps_files, keeps_refl|]. intros cs Hcs Hn. etransitivity; [by apply Hat|].
    rewrite decide_False; [done|]. intros ->. by apply Hn, (holds_none _ _ _ _ H).
  - rewrite Hat by by apply path_simple. by rewrite decide_True.
  - intros x g Hx Hxf. pose proof Hx as [Hg Hx0 Hxr Hxp Hxk].
    pose proof (loose_elsewhere _ _ _ _ _ Hok Hx Hp) as Hxd. fold folder in Hxd.
    split; try done; [|intros y [[_ ?]|Hy]%link_kids_in; [done|by apply (Hxp y)]|unfold link_kids; by rewrite (proj2 (Z.eqb_neq _ _))].
    rewrite (lk_kept _ _ _ _ _ Hlk); [done..|]. apply Hxp.
  - destruct (linked_node _ _ _ _ _ d f Hok Hd Hf Hlk file f (lo_node _ _ _ _ Hf)) as (f' & Hf' & Hsame & Ec & _).
    exists f'. split_and!; [done|done|intros _; apply Ec; congruence|].
    destruct (lk_file _ _ _ _ _ Hlk f (lo_node _ _ _ _ Hf)) as [k Hk]. rewrite Hk in Hf'. by injection Hf' as <-.
Qed.

(** * New nodes *)

(** A name of [n] characters ends in the memory of a new node: it fills the
    field, or the byte behind it is found zero.  [create_file] writes no
    terminator. *)
Definition ends (n : nat) : Prop := (n < 64)%nat -> forall k, found k (Z.of_nat n) = NUL.

Lemma put_sys_keeps s m c : sys_grows (rt_sys (fs_rt s)) m c -> keeps c s (put_sys m s).
Proof. by split. Qed.

Lemma wp_fs_alloc_room size align (Q : Z -> fs M -> Prop) s :
  sound s -> first_live s -> 0 < size < 2 ^ 63 -> 0 <= align <= 16 ->
  sys_cost size <= sys_room (rt_sys (fs_rt s)) ->
  (forall p n m, grown s (put_sys m s) p n -> keeps (sys_cost size) s (put_sys m s) -> Q p (put_sys m s)) ->
  wp (fs_alloc size align) Q s.
Proof.
  intros Hs Hf Hsz Ha Hroom HQ. apply wp_fs_alloc_grown; [done..|]. intros p n m _ Hg Hgr.
  by apply (HQ p n m Hg), put_sys_keeps.
Qed.

(** A new address is not that of a node or chunk. *)
Lemma grown_unheld s s' p n x : grown s s' p n -> held s x -> x <> p.
Proof.
  intros Hg [Hx|Hx] ->; [pose proof (gr_pos _ _ _ _ Hg); lia|]. by apply (gr_fresh _ _ _ _ Hg).
Qed.

Lemma keeps_live c s s' : keeps c s s' -> live s ⊆ live s'.
Proof. intros H. apply (sg_live _ _ _ (kp_grows _ _ _ H)). Qed.

Lemma holds_new c s s' kids ns p f :
  holds s kids ns -> keeps c s s' -> 0 < p -> (p ∉ (live s).*1) -> p ∈ (live s').*1 ->
  files s' = <[p := f]> (files s) -> named f -> (ftype f = DIRECTORY -> content f = NULL) ->
  holds s' kids ns /\ loose (files s') kids p f /\ step c s kids s' kids.
Proof.
  intros H Hk Hp0 Hfresh Hlive Hfs Hn Hdir.
  assert (Hnew : forall x, is_Some (files s !! x) -> x <> p).
  { intros x Hx ->. destruct (ho_held _ _ _ H p Hx); [lia|done]. }
  assert (Hp : files s !! p = None).
  { destruct (files s !! p) eqn:E; [|done]. by destruct (Hnew p ltac:(by eexists)). }
  destruct (fresh_names (files s) kids (ho_names _ _ _ H) p f) as (Hok & Hlo & Hat);
    [done|unfold NULL; lia|done|done|]. rewrite Hfs. split_and!; [split; rewrite ?Hfs|done|].
  - done.
  - intros cs Hcs. rewrite Hat. pose proof (ho_paths _ _ _ H cs Hcs) as Hpath. destruct (ns !! cs); [|done].
    eapply entry_frame; [|by eapply keeps_memory|exact Hpath].
    intros g Hg. exists g. rewrite Hfs, lookup_insert_ne; [done|]. intros E. congruence.
  - intros x Hx. destruct (decide (x = p)) as [->|]; [by right|]. rewrite lookup_insert_ne in Hx by done.
    eapply keeps_held; [done|]. by apply (ho_held _ _ _ H).
  - apply (tidy_frame (files s)); [|apply H]. intros x y Hy. unfold name_at. rewrite lookup_insert_ne; [done|]. intros <-.
    destruct (nk_parent _ _ (ho_names _ _ _ H) _ _ Hy) as (g' & Hg' & _). congruence.
  - intros cs g Hcs. rewrite Hat. destruct (decide (p = node_at (files s) kids cs)) as [E|].
    + pose proof (node_at_found (files s) kids (ho_names _ _ _ H) cs) as Hfound. rewrite <-E in Hfound.
      destruct Hfound as [? ?]; [unfold NULL; lia|congruence].
    + rewrite lookup_insert_ne by done. by apply (ho_linked _ _ _ H).
  - split; [done|]. intros cs _ _. by rewrite Hfs.
Qed.

Lemma take_while_stop t l : Forall (fun b => b <> NUL) t -> (l = [] \/ exists r, l = NUL :: r) ->
  take_while (fun b => negb (b =? NUL)) (t ++ l) = t.
Proof.
  intros Ht Hl. induction Ht as [|b t Hb _ IH]; cbn; [by destruct Hl as [->|[r ->]]|].
  rewrite (proj2 (Z.eqb_neq _ _)) by done. cbn. by rewrite IH.
Qed.

(** A name in front of a zero, or as long as the field, is the name of the node. *)
Lemma ended_name t l f :
  Forall (fun b => b <> NUL) t -> (length t <= 64)%nat -> length l = 64%nat -> name f = t ++ drop (length t) l ->
  ((length t < 64)%nat -> l !! length t = Some NUL) -> named f /\ node_name f = t.
Proof.
  intros Hnz Hl Hlen E Hend. assert (Hn : named f).
  { unfold named. rewrite E, length_app, length_drop, Hlen. change (Z.to_nat FS_NAME_LENGTH) with 64%nat. lia. }
  split; [done|]. rewrite node_name_whole, E by done. apply take_while_stop; [done|].
  destruct (decide (length t < 64)%nat) as [Hlt|]; [right|left; apply drop_ge; lia].
  rewrite (drop_S _ _ _ (Hend Hlt)). by eexists.
Qed.

Lemma found_name_length k : length (name (found_file k)) = 64%nat.
Proof. cbn. by rewrite length_map, length_seqZ. Qed.
Lemma found_name_at k n : (n < 64)%nat -> name (found_file k) !! n = Some (found k (Z.of_nat n)).
Proof. intros Hn. cbn. rewrite list_lookup_fmap, lookup_seqZ_lt; [cbn; f_equal; f_equal; lia|unfold FS_NAME_LENGTH; lia]. Qed.

(** * Creating files *)

Definition file_cost : Z := sys_cost sizeof_dfile + sys_cost sizeof_chunk.

Lemma sys_cost_pos k : 0 <= k < 2 ^ 63 -> 0 <= sys_cost k.
Proof. intros Hk. by apply (sys_cost_mono k k); lia. Qed.

Lemma keeps_chunk c s s' q k : keeps c s s' -> (forall x, held s x -> x <> q) ->
  keeps c s (with_chunks (<[q := k]> (chunks s')) s').
Proof.
  intros [] Hq. split; try done. intros x Hx. cbn. rewrite lookup_insert_ne; [auto|]. intros E. by apply (Hq x).
Qed.
Lemma keeps_from_files c m s s' : keeps c (with_files m s) s' -> keeps c s s'.
Proof. by intros []. Qed.

Lemma grown_in s s' p n : grown s s' p n -> p ∈ (live s').*1.
Proof. intros Hg. rewrite (gr_live _ _ _ _ Hg). constructor. Qed.

(** The chunk of a new file: none for no buffer. *)
Definition first_chunk (file buf len : Z) : prog (fs M) bool :=
  if negb (buf =? NULL) then
    let! new_content := alloc_chunk in
    if new_content =? NULL then ret false else
    let! _ := update_chunk new_content (fun _ => FileChunk buf len len NULL) in
    let! _ := update_file file (set_content new_content) in ret true
  else let! _ := update_file file (set_content NULL) in ret true.

Lemma first_chunk_spec s p f buf len (Q : bool -> fs M -> Prop) :
  sound s -> first_live s -> sys_cost sizeof_chunk <= sys_room (rt_sys (fs_rt s)) ->
  files s !! p = Some f -> p <> NULL -> ftype f = FILE ->
  (forall s' c, keeps (sys_cost sizeof_chunk) s s' -> files s' = <[p := set_content c f]> (files s) ->
     open_files s' = open_files s -> entry_at s' p (EFile buf len) -> Q true s') ->
  wp (first_chunk p buf len) Q s.
Proof.
  intros Hs Hfl Hroom Hf Hp Ht HQ. unfold first_chunk.
  pose proof (sys_cost_pos sizeof_chunk ltac:(unfold sizeof_chunk; lia)) as Hc.
  destruct (buf =? NULL) eqn:E; cbn [negb].
  - apply wp_bind. eapply wp_update_file; [done..|]. apply wp_ret. apply (HQ _ NULL); [|done|done|].
    + apply keeps_files. eapply keeps_mono; [by apply keeps_refl|lia].
    + eexists. split; [apply lookup_insert_eq|]. split; [done|]. by rewrite E.
  - apply wp_bind, wp_bind, wp_fs_alloc_room; [done|done|unfold sizeof_chunk; lia|lia|done|].
    intros q n m Hg Hk. pose proof (gr_pos _ _ _ _ Hg) as Hq. assert (Hq0 : q <> NULL) by (unfold NULL; lia).
    rewrite (proj2 (Z.eqb_neq _ _)) by done. apply wp_bind, wp_modify, wp_ret.
    rewrite (proj2 (Z.eqb_neq _ _)) by done. apply wp_bind. eapply wp_update_chunk; [apply lookup_insert_eq|done|].
    apply wp_bind. eapply wp_update_file; [done..|]. apply wp_ret. apply (HQ _ q); [|done|done|].
    + apply keeps_files, (keeps_chunk _ _ (with_chunks _ _)); [|intros x Hx; by eapply grown_unheld].
      apply keeps_chunk; [done|]. intros x Hx. by eapply grown_unheld.
    + eexists. split; [apply lookup_insert_eq|]. split; [done|]. rewrite E. split_and!; [done|exact (grown_in _ _ _ _ Hg)|apply lookup_insert_eq].
Qed.

Lemma create_file_spec s kids ns q buf len fmode (Q : Z -> fs M -> Prop) :
  holds s kids ns -> sound s -> first_live s -> ends (length (text q)) -> path_ok q -> simple (text q) ->
  p_len q <= FS_NAME_LENGTH -> file_cost <= sys_room (rt_sys (fs_rt s)) ->
  (forall p s' f, step file_cost s kids s' kids -> holds s' kids ns -> loose (files s') kids p f ->
     node_name f = text q -> ftype f = FILE -> open_descripotors f = 0 -> hard_links f = 0 -> entry_at s' p (EFile buf len) ->
     open_files s' = open_files s -> Q p s') ->
  wp (create_file q buf len fmode) Q s.
Proof.
  intros H Hs Hfl Hz Hq (Hd1 & Hd2 & Hnz & _) Hlen Hroom HQ. pose proof (text_length q Hq) as Htl.
  pose proof (sys_cost_pos sizeof_dfile ltac:(unfold sizeof_dfile; lia)) as Hc1.
  pose proof (sys_cost_pos sizeof_chunk ltac:(unfold sizeof_chunk; lia)) as Hc2. unfold file_cost in *.
  unfold create_file. apply wp_bind, wp_bind, wp_fs_alloc_room; [done|done|unfold sizeof_dfile; lia|lia|lia|].
  intros p n m Hg Hk. pose proof (gr_pos _ _ _ _ Hg) as Hp. assert (Hp0 : p <> NULL) by (unfold NULL; lia).
  rewrite (proj2 (Z.eqb_neq _ _)) by done. apply wp_bind, wp_modify, wp_ret.
  rewrite (proj2 (Z.eqb_neq p NULL)), (proj2 (Z.ltb_ge _ _)) by (done || lia). apply wp_bind. unfold wp at 1.
  rewrite path_chars_spec by (done || destruct Hq; lia). rewrite Z.add_0_r, Z2Nat.id by (destruct Hq; lia). fold (text q).
  do 2 step_file. rewrite !with_files_twice. cbn [files with_files]. rewrite !insert_insert_eq.
  apply wp_bind. pose proof (sg_room _ _ _ (kp_grows _ _ _ Hk)) as Hroom1.
  eapply (first_chunk_spec _ p _ buf len); [exact (gr_sound _ _ _ _ Hg)|exact (keeps_first _ _ _ Hk Hfl)|cbn in *; lia|apply lookup_insert_eq|done|done|].
  intros s2 c Hk2%keeps_from_files Hfs2 Ho2 (f2 & Hf2 & He2). cbn [negb].
  rewrite Hfs2 in Hf2. rewrite lookup_insert_eq in Hf2. injection Hf2 as <-.
  cbn [files with_files] in Hfs2. rewrite insert_insert_eq in Hfs2.
  apply wp_bind; eapply wp_update_file; [by rewrite Hfs2, lookup_insert_eq|done|].
  do 2 step_file. apply wp_ret. rewrite !with_files_twice. cbn [files with_files]. rewrite !insert_insert_eq, Hfs2, insert_insert_eq.
  match goal with |- Q p (with_files (<[p := ?g]> _) _) => set (f := g) end.
  set (k := S (requests s)) in *.
  destruct (ended_name (text q) (name (found_file k)) f) as [Hn Hname];
    [done|unfold FS_NAME_LENGTH in *; lia|apply found_name_length|done|intros Hlt; by rewrite found_name_at, Hz|].
  pose proof (then_keeps _ _ _ _ _ Hk Hk2) as Hkk.
  assert (Hk3 : keeps (sys_cost sizeof_dfile + sys_cost sizeof_chunk) s (with_files (<[p:=f]> (files s)) s2)) by by apply keeps_files.
  destruct (holds_new _ _ _ _ _ p f H Hk3) as (Hh & Hlo & Hst).
  - done.
  - exact (gr_fresh _ _ _ _ Hg).
  - apply list_elem_of_fmap. exists (p, n). split; [done|]. apply (keeps_live _ _ _ Hk2).
    change (live _) with (live (put_sys m s)). rewrite (gr_live _ _ _ _ Hg). constructor.
  - done.
  - done.
  - done.
  - apply (HQ p _ f Hst Hh Hlo Hname); [done|done|done|..].
    + exists f. split; [apply lookup_insert_eq|]. exact He2.
    + exact Ho2.
Qed.
End entries.
