(* ===== verification/FsDirs.v ===== *)
(** Creating the directories of a path ([create_directories] of
    src/file_system/file_system.c) on the map from paths to entries. *)
From S2P Require Import Prelude Bytes Heap Alloc AllocSession AllocTheorems System RuntimeIO RuntimeTree RuntimeOutput Paths PathSpec FsStore FileSystem FsImpl FsLemmas FsTree FsResolve FsData FsWrite FsExport FsNames FsSpace.

Section dirs.
Context {M : Type} {HS : System M} {HM : Machine}.
Implicit Types s : fs M.

Definition dir_cost : Z := sys_cost sizeof_dfile.

(** A component that the name field of a directory can hold with its
    terminator. *)
Definition dir_name (c : list Z) : Prop := simple c /\ (length c < 64)%nat.

Lemma dir_cost_pos : 0 <= dir_cost.
Proof. apply sys_cost_pos. unfold sizeof_dfile. lia. Qed.

(** The terminator that [create_directories] writes behind the name. *)
Lemma terminated_spec t l : (length t < length l)%nat ->
  zinsert (Z.of_nat (length t)) NUL (t ++ drop (length t) l) = t ++ drop (length t) (<[length t := NUL]> l).
Proof.
  intros Hl. unfold zinsert. rewrite Nat2Z.id, insert_app_r_alt, Nat.sub_diag by lia. f_equal.
  rewrite drop_insert_ge, Nat.sub_diag by lia. done.
Qed.

Lemma make_directory_spec s kids ns p q (Q : Z -> fs M -> Prop) :
  holds s kids ns -> sound s -> first_live s -> Forall simple p -> ns !! p = Some EDir ->
  path_ok q -> dir_name (text q) -> ns !! (p ++ [text q]) = None -> dir_cost <= sys_room (rt_sys (fs_rt s)) ->
  (forall s' kids', step dir_cost s kids s' kids' -> holds s' kids' (<[p ++ [text q] := EDir]> ns) ->
     open_files s' = open_files s -> Q (node_at (files s') kids' (p ++ [text q])) s') ->
  wp (make_directory (node_at (files s) kids p) q) Q s.
Proof.
  intros H Hs Hfl Hp Hdir Hq [(Hd1 & Hd2 & Hnz & Hne) Hlen] Hnone Hroom HQ. pose proof (text_length q Hq) as Htl.
  unfold make_directory, dir_cost in *.
  apply wp_bind, wp_bind, wp_fs_alloc_room; [done|done|unfold sizeof_dfile; lia|lia|lia|].
  intros x n m Hg Hk. pose proof (gr_pos _ _ _ _ Hg) as Hx. assert (Hx0 : x <> NULL) by (unfold NULL; lia).
  rewrite (proj2 (Z.eqb_neq _ _)) by done. apply wp_bind, wp_modify, wp_ret.
  step_file. apply wp_bind. unfold wp at 1.
  rewrite path_chars_spec by (done || destruct Hq; lia). rewrite Z.add_0_r, Z2Nat.id by (destruct Hq; lia). fold (text q).
  step_file. apply wp_bind. unfold terminate_name. rewrite (proj2 (Z.ltb_lt _ _)) by (unfold FS_NAME_LENGTH; lia).
  eapply wp_update_file; [apply lookup_insert_eq|done|]. step_file.
  rewrite !with_files_twice. cbn [files with_files]. rewrite !insert_insert_eq.
  match goal with |- wp _ _ (with_files (<[x := ?g]> _) _) => set (f := g) end.
  set (k := S (requests s)) in *. pose proof (found_name_length k) as Hkl.
  assert (Hname0 : name f = text q ++ drop (length (text q)) (<[length (text q) := NUL]> (name (found_file k)))).
  { subst f. cbn [name set_content set_name]. rewrite <-Htl. apply terminated_spec. by rewrite Hkl. }
  destruct (ended_name _ _ f Hnz ltac:(lia) ltac:(by rewrite length_insert) Hname0) as [Hn Hname].
  { intros _. apply list_lookup_insert_eq. by rewrite Hkl. }
  assert (Hk1 : keeps (sys_cost sizeof_dfile) s (with_files (<[x:=f]> (files (put_sys m s))) (put_sys m s))) by by apply keeps_files.
  destruct (holds_new _ _ _ _ _ x f H Hk1) as (Hh & Hlo & Hst); try done.
  { exact (gr_fresh _ _ _ _ Hg). }
  { exact (grown_in _ _ _ _ Hg). }
  set (s1 := with_files _ _) in *.
  assert (Hat : node_at (files s) kids p = node_at (files s1) kids p).
  { destruct (fresh_names (files s) kids (ho_names _ _ _ H) x f) as (_ & _ & Hat); [|done|done|done|by rewrite Hat].
    destruct (files s !! x) eqn:E; [|done].
    by destruct (grown_unheld s (put_sys m s) x n x Hg (ho_held _ _ _ H x ltac:(by eexists))). }
  rewrite Hat. apply wp_bind. eapply (link_holds s1 kids ns p x f EDir); [done|apply Hst|done|done|done|by rewrite Hname|..].
  { exists f. split; [apply lookup_insert_eq|done]. }
  { by rewrite Hname. }
  { done. }
  intros m' kids' Hh' Hst' Hnew _ _. rewrite Hname in Hh', Hnew. assert (0 <? 0 = false) as -> by done.
  apply wp_ret.
  rewrite <-Hnew at 1. apply (HQ (with_files m' s1) kids'); [|done|done].
  eapply step_mono; [by eapply then_step|lia].
Qed.

(** ** The loop

    Every directory of the path is there or can be made. *)
Lemma mkdirs_base base ds ns ns' e : mkdirs base ds ns = Some ns' -> forall cs, ns !! cs = Some e -> ns' !! cs = Some e.
Proof.
  revert base ns. induction ds as [|d ds IH]; intros base ns; cbn; [by intros [= ->]|].
  destruct (ns !! (base ++ [d])) as [[]|] eqn:E; [apply IH|done..|].
  intros H cs Hcs. apply (IH _ _ H). rewrite lookup_insert_ne; [done|]. congruence.
Qed.

Lemma mkdirs_dir ds : forall base ns ns', ns !! base = Some EDir -> mkdirs base ds ns = Some ns' ->
  ns' !! (base ++ ds) = Some EDir.
Proof.
  induction ds as [|d ds IH]; intros base ns ns' Hb; cbn; [rewrite app_nil_r; by intros [= <-]|].
  change (base ++ d :: ds) with (base ++ [d] ++ ds). rewrite app_assoc.
  destruct (ns !! (base ++ [d])) as [[]|] eqn:E; [by apply IH|done..|]. apply IH, lookup_insert_eq.
Qed.

(** The body of the loop. *)
Definition directory_step (prevent_up : bool) : Z * path -> prog (fs M) ((Z * path) + Z) := fun '(directory, p) =>
  let! adv := get_component_advance p in
  let '(current_path, rest) := adv in
  if negb (p_len current_path >? 0) then ret (inr directory) else
  if FS_NAME_LENGTH <? p_len current_path then ret (inr NULL) else
  let! b := is_dot current_path in
  if b : bool then ret (inl (directory, rest)) else
  let! b := is_dot_dot current_path in
  if b : bool then
    if prevent_up then ret (inr NULL) else
    let! d := get_file_node directory in
    if parent d =? NULL then ret (inl (directory, rest))
    else ret (inl (parent d, rest))
  else
    let! candidate_dir := find_file_in_dir directory current_path in
    if negb (candidate_dir =? NULL) then ret (inl (candidate_dir, rest)) else
    let! new_dir := make_directory directory current_path in
    if new_dir =? NULL then ret (inr NULL) else ret (inl (new_dir, rest)).

(** What the body does for the next component [c]. *)
Lemma directory_step_spec s kids ns base q c cs prevent_up (Q : (Z * path) + Z -> fs M -> Prop) :
  holds s kids ns -> sound s -> first_live s -> Forall simple base -> ns !! base = Some EDir ->
  path_ok q -> components (text q) = c :: cs -> dir_name c -> dir_cost <= sys_room (rt_sys (fs_rt s)) ->
  (ns !! (base ++ [c]) = None \/ ns !! (base ++ [c]) = Some EDir) ->
  (forall s' kids' rest, step dir_cost s kids s' kids' -> holds s' kids' (<[base ++ [c] := EDir]> ns) ->
     open_files s' = open_files s -> path_ok rest -> components (text rest) = cs -> p_len rest < p_len q ->
     Q (inl (node_at (files s') kids' (base ++ [c]), rest)) s') ->
  wp (directory_step prevent_up (node_at (files s) kids base, q)) Q s.
Proof.
  intros H Hs Hfl Hbase Hdir Hq Hcs Hc Hroom Hway HQ. unfold directory_step.
  destruct (component_advance_spec q s Hq) as (q' & rest & Hrun & Hq' & Hrest & _ & _ & _ & Eq & Er).
  pose proof (advance_components q q' rest Eq Er) as Hadv.
  destruct (text q') as [|b w] eqn:Et; [congruence|]. assert (c = text q' /\ cs = components (text rest)) as [-> ->] by (split; congruence).
  rewrite <-Et in *. assert (Hne : text q' <> []) by congruence.
  pose proof (advance_shorter q q' rest Hq Hq' Hrest Hne Eq Er) as Hlt.
  destruct Hc as [Hsimple Hlen]. pose proof Hsimple as (Hd1 & Hd2 & Hnz & Hnn). pose proof (text_length q' Hq') as Htl.
  apply wp_bind. unfold wp at 1. rewrite Hrun. assert (0 < p_len q').
  { destruct (text q'); [done|]. cbn in Htl. lia. }
  rewrite (proj2 (Z.gtb_lt _ _)), (proj2 (Z.ltb_ge _ _)) by (unfold FS_NAME_LENGTH; lia). cbn [negb].
  apply wp_bind. unfold wp at 1. rewrite is_dot_spec, bool_decide_eq_false_2 by done.
  apply wp_bind. unfold wp at 1. rewrite is_dot_dot_spec, bool_decide_eq_false_2 by done.
  destruct (holds_node _ _ _ _ _ H Hbase Hdir) as (d & Hd & Ht). pose proof (ho_names _ _ _ H) as Hok.
  apply wp_bind. unfold wp at 1. rewrite (find_in_dir_enter s kids _ d q' (nk_tree _ _ Hok) Hd Ht Hq').
  assert (Hat : enter (files s) kids (node_at (files s) kids base) (text q') = node_at (files s) kids (base ++ [text q'])).
  { rewrite node_at_snoc, Hd, Ht by done. done. }
  rewrite Hat. pose proof (path_simple _ _ Hbase Hsimple) as Hsp. destruct Hway as [Hnone|Hthere].
  - rewrite (proj1 (holds_none _ _ _ _ H Hsp) Hnone), Z.eqb_refl. cbn [negb].
    apply wp_bind. eapply make_directory_spec; [done..|]. intros s' kids' Hk Hh Ho.
    pose proof (holds_node _ _ _ (base ++ [text q']) EDir Hh Hsp (lookup_insert_eq _ _ _)) as Hx.
    rewrite (proj2 (Z.eqb_neq _ _)) by by eapply entry_valid. by apply wp_ret, (HQ s' kids' rest).
  - pose proof (holds_node _ _ _ _ _ H Hsp Hthere) as Hx.
    rewrite (proj2 (Z.eqb_neq _ _)) by by eapply entry_valid. cbn [negb]. apply wp_ret, (HQ s kids rest); try done.
    + eapply step_mono; [by apply rest_step|apply dir_cost_pos].
    + by rewrite insert_id.
Qed.

Lemma create_directories_spec up ds : forall s kids ns ns' base q (Q : Z -> fs M -> Prop),
  holds s kids ns -> sound s -> first_live s -> Forall simple base -> ns !! base = Some EDir ->
  path_ok q -> components (text q) = ds -> Forall dir_name ds -> mkdirs base ds ns = Some ns' ->
  Z.of_nat (length ds) * dir_cost <= sys_room (rt_sys (fs_rt s)) ->
  (forall s' kids', step (Z.of_nat (length ds) * dir_cost) s kids s' kids' -> holds s' kids' ns' ->
     open_files s' = open_files s -> Q (node_at (files s') kids' (base ++ ds)) s') ->
  wp (create_directories (node_at (files s) kids base) q up) Q s.
Proof.
  intros s kids ns ns' base q Q H Hs Hfl Hbase Hdir Hq Hds Hnames Hmk Hroom HQ.
  unfold create_directories. destruct (holds_node _ _ _ _ _ H Hbase Hdir) as (d & Hd & Ht).
  apply wp_bind. eapply wp_get_file; [done|by eapply (entry_valid s kids ns _ EDir); [|exists d]|].
  rewrite Ht. cbn [is_directory negb]. change (wp (loop (path_fuel q) (directory_step up) (node_at (files s) kids base, q)) Q s).
  assert (Hfuel : p_len q < Z.of_nat (path_fuel q)) by (unfold path_fuel; destruct Hq; lia).
  revert Hfuel. generalize (path_fuel q). clear d Hd Ht. intros n. revert n s kids ns base q Q H Hs Hfl Hbase Hdir Hq Hds Hnames Hmk Hroom HQ.
  pose proof dir_cost_pos as Hpos.
  induction ds as [|c ds IH]; intros n s kids ns base q Q H Hs Hfl Hbase Hdir Hq Hds Hnames Hmk Hroom HQ Hfuel;
    (destruct n as [|n]; [destruct Hq; lia|]); apply wp_loop_step.
  - unfold directory_step. destruct (component_advance_spec q s Hq) as (q' & rest & Hrun & Hq' & Hrest & _ & _ & _ & Eq & Er).
    apply wp_bind. unfold wp at 1. rewrite Hrun. pose proof (advance_components q q' rest Eq Er) as Hadv.
    destruct (text q') as [|b w] eqn:Et; [|congruence]. apply text_nil in Et; [|done]. rewrite Et. apply wp_ret.
    cbn in Hmk. injection Hmk as <-. rewrite <-(app_nil_r base). apply (HQ s kids); [|by rewrite ?app_nil_r|done].
    cbn. by apply rest_step.
  - apply Forall_cons in Hnames as [Hc Hnames]. cbn [length] in *. cbn [mkdirs] in Hmk.
    assert (Hroom1 : Z.of_nat (S (length ds)) * dir_cost = dir_cost + Z.of_nat (length ds) * dir_cost) by lia.
    rewrite Hroom1 in *. assert (0 <= Z.of_nat (length ds) * dir_cost) by lia.
    apply (directory_step_spec s kids ns base q c ds); try done; [lia|by destruct (ns !! (base ++ [c])) as [[]|]; [right| | | |left]|].
    intros s' kids' rest Hk Hh Ho Hrest Hcs Hlt.
    apply (IH n s' kids' (<[base ++ [c] := EDir]> ns) (base ++ [c]) rest); try done.
    + by eapply step_sound.
    + by eapply step_first.
    + apply path_simple; [done|apply Hc].
    + apply lookup_insert_eq.
    + destruct (ns !! (base ++ [c])) as [[]|] eqn:E; try done. by rewrite insert_id.
    + pose proof (step_room _ _ _ _ _ Hk). lia.
    + intros s2 kids2 Hk2 Hh2 Ho2. rewrite <-app_assoc. apply (HQ s2 kids2); [by eapply then_step|done|congruence].
    + lia.
Qed.
End dirs.
