(* ===== verification/FsInput.v ===== *)
(** The set-up of the file system from the input sets ([fs_initialize] of
    src/file_system/file_system.c): streams, items and sets, as steps on the map
    from paths to entries. *)
From S2P Require Import Prelude Bytes Heap Alloc AllocSession AllocTheorems System RuntimeIO RuntimeTree RuntimeInit RuntimeOutput Paths PathSpec FsStore FileSystem FsImpl FsLemmas FsTree FsResolve FsData FsWrite FsExport FsExportNode FsTerminate FsNames FsSpace FsDirs.

(** * Texts of paths *)

(** A path whose last character is no slash: directories and a name. *)
Definition file_path (t : list Z) : Prop := exists c, last t = Some c /\ c <> slash.
#[export] Instance file_path_dec t : Decision (file_path t).
Proof.
  unfold file_path. destruct (last t) as [c|]; [|right; by intros (? & ? & _)].
  destruct (decide (c = slash)) as [->|]; [right; intros (? & [= <-] & ?); done|left; by exists c].
Defined.

Lemma components_from_app cur d r :
  components_from cur (d ++ slash :: r) = components_from cur d ++ components_from [] r.
Proof.
  revert cur. induction d as [|c d IH]; intros cur; cbn.
  - by destruct cur.
  - destruct (is_slash c); [|apply IH]. destruct cur; [apply IH|]. by rewrite IH.
Qed.

Lemma components_name f : f <> [] -> Forall (fun c => c <> slash) f -> components f = [f].
Proof.
  intros Hne Hf. rewrite components_step. assert (drop_while is_slash f = f) as E.
  { destruct Hf as [|c f Hc _]; [done|]. cbn. unfold is_slash. by rewrite (proj2 (Z.eqb_neq _ _)). }
  rewrite E. assert (take_while not_slash f = f /\ drop_while not_slash f = []) as [-> ->].
  { clear E Hne. induction Hf as [|c f Hc _ [IH1 IH2]]; [done|]. cbn. unfold not_slash at 1 3.
    rewrite (proj2 (Z.eqb_neq _ _)) by done. cbn. by rewrite IH1, IH2. }
  by destruct f.
Qed.

Lemma file_path_split t : file_path t -> exists d f, f <> [] /\ Forall (fun c => c <> slash) f /\
  (t = d ++ slash :: f \/ d = [] /\ t = f) /\ components t = components d ++ [f].
Proof.
  intros (c & Hl & Hc). apply last_Some in Hl as [l ->].
  assert (Hgen : exists d f, Forall (fun x => x <> slash) f /\ (l = d ++ slash :: f \/ d = [] /\ l = f)).
  { induction l as [|x l (d & f & Hf & IH)] using rev_ind; [by exists [], []; split; [|right]|].
    destruct (decide (x = slash)) as [->|Hx]; [exists l, []; split; [constructor|by left]|].
    exists d, (f ++ [x]). split; [apply Forall_app; by split; [|constructor]|].
    destruct IH as [->|[-> ->]]; [left; by rewrite <-app_assoc|by right]. }
  destruct Hgen as (d & f & Hf & H). exists d, (f ++ [c]).
  assert (Hf' : Forall (fun x => x <> slash) (f ++ [c])) by (apply Forall_app; by split; [|constructor]).
  split_and!; [by destruct f|done| |].
  - destruct H as [->|[-> ->]]; [left; by rewrite <-app_assoc|by right].
  - destruct H as [->|[-> ->]].
    + rewrite <-app_assoc. unfold components. cbn [app]. rewrite components_from_app. f_equal.
      apply components_name; [by destruct f|done].
    + rewrite components_name; [done|by destruct f|done].
Qed.

(** * The inputs, abstractly

    An item has a path and a buffer, a set a name and items. *)
Definition item : Type := list Z * io_buffer.
Definition input_set : Type := list Z * list item.

Definition add_file (base : list (list Z)) (it : item) (ns : dirmap) : option dirmap :=
  if decide (it.1 = []) then Some ns else
  let cs := components it.1 in
  match mkdirs base (removelast cs) ns with
  | Some ns => put (base ++ cs) (EFile (ib_data it.2) (ib_data_len it.2)) ns
  | None => None
  end.

Fixpoint add_files (base : list (list Z)) (items : list item) (ns : dirmap) : option dirmap :=
  match items with
  | [] => Some ns
  | it :: items => match add_file base it ns with Some ns => add_files base items ns | None => None end
  end.

(** The names that mean something in the set [stdio]. *)
Definition is_stdio (name : list Z) : Prop := upto_nul name = chars "stdio".
Definition called (t name : list Z) : Prop := last (components t) = Some name.
#[export] Instance is_stdio_dec name : Decision (is_stdio name).
Proof. unfold is_stdio. apply _. Defined.
#[export] Instance called_dec t name : Decision (called t name).
Proof. unfold called. apply _. Defined.

(** An item that the set-up can take: no path, or directories and a name. *)
Definition item_ok (stdio : bool) (t : list Z) : Prop := t = [] \/
  file_path t /\ Forall dir_name (components t) /\
  (stdio = true -> ~ called t (chars "argv") /\ ~ called t (chars "environ")).

(** The entries that are files. *)
Definition file_entry (e : entry) : bool := match e with EFile _ _ | EText _ => true | _ => false end.

Lemma add_file_keeps base it ns ns' cs e :
  add_file base it ns = Some ns' -> ns !! cs = Some e -> ns' !! cs = Some e.
Proof.
  unfold add_file. destruct (decide _); [by intros [= ->]|]. destruct (mkdirs _ _ _) as [n1|] eqn:E; [|done].
  intros Hp Hcs. eapply put_keeps; [exact Hp|]. by eapply mkdirs_base.
Qed.

Section input.
Context {M : Type} {HS : System M} {HM : Machine}.
Implicit Types s : fs M.

Lemma path_keeps c s s' a t : keeps c s s' -> path_at s a t -> path_at s' a t.
Proof.
  intros H [Hr Hs Hp]. split; [|intros i Hi; eapply keeps_safe; [exact H|by apply Hs]|done].
  intros i b Hi. rewrite (kp_bytes _ _ _ H); [by apply Hr|]. apply Hs. by eapply zlookup_range.
Qed.

(** * Changes that leave the tree alone *)

Lemma holds_same s s' kids ns :
  files s' = files s -> same_memory s s' -> holds s kids ns -> holds s' kids ns.
Proof.
  intros Ef Hm [Hn Hp Hh Hc Hk]. split; rewrite ?Ef; [done| | |done|done].
  - intros cs Hcs. specialize (Hp cs Hcs). destruct (ns !! cs); [|done].
    eapply entry_frame; [|exact Hm|exact Hp]. rewrite Ef. intros f Hf. by exists f.
  - intros x Hx. eapply memory_held; [exact Hm|]. by apply Hh.
Qed.

(** A change of the fields of a node that say nothing about its place. *)
Lemma update_holds s kids ns x f f' : holds s kids ns -> sound s -> files s !! x = Some f -> x <> NULL -> same_shape f f' ->
  (ftype f = FILE -> content f' = content f) -> hard_links f' = hard_links f ->
  let s' := with_files (<[x := f']> (files s)) s in
  holds s' kids ns /\ step 0 s kids s' kids /\ (forall y e, entry_at s y e -> entry_at s' y e) /\
  (forall cs, node_at (files s') kids cs = node_at (files s) kids cs) /\
  (forall g, loose (files s) kids x g -> loose (files s') kids x f').
Proof.
  intros H Hs Hf Hx Hsame Hcont Hlinks s'.
  destruct (update_names (files s) kids (ho_names _ _ _ H) x f f' Hf Hsame) as [Hok Hat].
  assert (Hent : forall y e, entry_at s y e -> entry_at s' y e).
  { intros y e. apply entry_frame; [|by split]. intros g Hg. destruct (decide (x = y)) as [<-|].
    - exists f'. cbn. rewrite lookup_insert_eq. assert (g = f) as -> by congruence. split_and!; [done|apply Hsame|done].
    - exists g. cbn. by rewrite lookup_insert_ne. }
  split_and!; [split; [done| | | |]|split|exact Hent|exact Hat|].
  - intros cs Hcs. cbn [files with_files s']. rewrite Hat. pose proof (ho_paths _ _ _ H cs Hcs) as Hp.
    destruct (ns !! cs); [by apply Hent|done].
  - intros y Hy. cbn in Hy. apply (ho_held _ _ _ H). destruct (decide (x = y)) as [<-|]; [by exists f|].
    by rewrite lookup_insert_ne in Hy.
  - apply (tidy_frame (files s)); [|apply H]. intros _ y _. unfold name_at. cbn. destruct (decide (x = y)) as [<-|].
    + rewrite lookup_insert_eq, Hf. unfold node_name. by destruct Hsame as (-> & _).
    + by rewrite lookup_insert_ne.
  - intros cs g Hcs. cbn [files with_files s']. rewrite Hat. destruct (decide (x = node_at (files s) kids cs)) as [E|].
    + rewrite E in Hf |- *. rewrite lookup_insert_eq. intros [= <-]. destruct Hsame as (_ & Et & _). rewrite Et, Hlinks.
      by apply (ho_linked _ _ _ H cs).
    + rewrite lookup_insert_ne by done. by apply (ho_linked _ _ _ H).
  - apply keeps_files, keeps_refl, Hs.
  - intros cs _ _. apply Hat.
  - intros g [Hg H0 Hr Hp Hk]. assert (g = f) as -> by congruence.
    split; [apply lookup_insert_eq|done..].
Qed.

(** What a descriptor keeps of the flags it is opened with. *)
Definition access_of (flags : Z) : Z := Z.lor (Z.land flags O_ACCMODE) (Z.land flags O_APPEND).

(** Opening: the node counts the descriptor. *)
Definition opened_node (f : dfile) : dfile := set_open_descripotors (wrap16 (open_descripotors f + 1)) f.

Lemma open_existing_spec s kids ns index x f flags omode skip o (Q : Z -> fs M -> Prop) :
  holds s kids ns -> sound s -> files s !! x = Some f -> x <> NULL ->
  has flags O_TRUNC = false -> zlookup index (open_files s) = Some o ->
  (skip = true -> has (Z.land flags O_ACCMODE) O_WRONLY = true -> has (mode f) S_IWUSR = true) ->
  (forall s', holds s' kids ns -> step 0 s kids s' kids ->
     open_files s' = zinsert index (OpenFile x (if is_file (ftype f) then content f else NULL) 0 (access_of flags)) (open_files s) ->
     (forall y e, entry_at s y e -> entry_at s' y e) ->
     (forall g, loose (files s) kids x g -> exists g', loose (files s') kids x g' /\ node_name g' = node_name g /\ ftype g' = ftype g) ->
     files s' !! x = Some (opened_node f) -> Q 0 s') ->
  wp (open_existing_file index x flags omode skip) Q s.
Proof.
  intros H Hs Hf Hx Htr Ho Hmode HQ. unfold open_existing_file. apply wp_bind. eapply wp_get_file; [done..|].
  assert (Hr : has (Z.land flags O_ACCMODE) O_RDONLY = false) by (unfold has, O_RDONLY; by rewrite Z.land_0_r).
  rewrite Hr, andb_false_r, andb_false_r.
  assert (Hw : skip && (negb (has (mode f) S_IWUSR) && has (Z.land flags O_ACCMODE) O_WRONLY) = false).
  { destruct skip, (has (Z.land flags O_ACCMODE) O_WRONLY); rewrite ?andb_false_r; try done. cbn. by rewrite (Hmode eq_refl eq_refl). }
  rewrite Hw, Htr. cbn [andb]. apply wp_bind, wp_ret, wp_bind. eapply wp_get_file; [done..|].
  apply wp_bind. eapply wp_update_file; [done..|]. fold (opened_node f).
  destruct (update_holds s kids ns x f (opened_node f)) as (Hh & Hst & Hent & _ & Hloose); [done..|by split_and!|done|done|].
  apply wp_bind. eapply wp_set_open; [done|]. apply wp_ret, HQ.
  - by eapply (holds_same (with_files _ s)).
  - destruct Hst as [Hk Hst]. split; [by apply keeps_open|exact Hst].
  - done.
  - exact Hent.
  - intros g Hg. exists (opened_node f). split; [by eapply Hloose|]. rewrite (lo_node _ _ _ _ Hg) in Hf. by injection Hf as ->.
  - apply lookup_insert_eq.
Qed.

(** * Items *)

(** The platform's buffer shows the path of the item. *)
Record item_shown s (it : item) : Prop := {
  is_path : path_at s (ib_ident it.2) it.1;
  is_len : ib_ident_len it.2 = Z.of_nat (length it.1);
  is_small : Z.of_nat (length it.1) < 2 ^ 31;
}.

Definition item_cost (t : list Z) : Z :=
  if decide (t = []) then 0 else Z.of_nat (length (removelast (components t))) * dir_cost + file_cost.

(** A descriptor that is open on a file of the map, or free. *)
Definition leads s (kids : Z -> list Z) (ns : dirmap) (fd : Z) : Prop := exists o cs e,
  zlookup fd (open_files s) = Some o /\ Forall simple cs /\ ns !! cs = Some e /\ file_entry e = true /\
  of_file o = node_at (files s) kids cs.
Definition vacant s (fd : Z) : Prop := exists o, zlookup fd (open_files s) = Some o /\ of_file o = NULL.

Lemma leads_valid s kids ns fd : holds s kids ns -> leads s kids ns fd ->
  exists o, zlookup fd (open_files s) = Some o /\ of_file o <> NULL.
Proof.
  intros H (o & cs & e & Ho & Hcs & He & _ & Ex). exists o. split; [done|]. rewrite Ex.
  eapply entry_valid; [exact H|]. by eapply holds_node.
Qed.

(** The files of [ns] are files of [ns']. *)
Definition files_stay (ns ns' : dirmap) : Prop :=
  forall cs e, ns !! cs = Some e -> file_entry e = true -> exists e', ns' !! cs = Some e' /\ file_entry e' = true.

Lemma leads_step c s kids s' kids' ns ns' fd : holds s kids ns -> step c s kids s' kids' -> files_stay ns ns' ->
  zlookup fd (open_files s') = zlookup fd (open_files s) -> leads s kids ns fd -> leads s' kids' ns' fd.
Proof.
  intros H Hst Hns Hfd (o & cs & e & Ho & Hcs & He & Hfile & Ex). destruct (Hns _ _ He Hfile) as (e' & He' & Hfile').
  exists o, cs, e'. split_and!; [congruence|done|done|done|]. rewrite Ex. symmetry.
  apply (st_stable _ _ _ _ _ Hst _ Hcs). eapply entry_valid; [exact H|]. by eapply holds_node.
Qed.
Lemma leads_same s s' kids ns fd : files s' = files s -> zlookup fd (open_files s') = zlookup fd (open_files s) ->
  leads s kids ns fd -> leads s' kids ns fd.
Proof. intros Hf Hfd (o & cs & e & Ho & H). exists o, cs, e. rewrite Hfd, Hf. done. Qed.

Lemma files_grow ns ns' : (forall cs e, ns !! cs = Some e -> ns' !! cs = Some e) -> files_stay ns ns'.
Proof. intros H cs e He Hf. exists e. auto. Qed.

(** Descriptor 0 is open or not; the others stay. *)
Definition stdin_open s (kids : Z -> list Z) (ns : dirmap) (b : bool) : Prop :=
  if b then leads s kids ns STDIN_FILENO else vacant s STDIN_FILENO.

Lemma stdin_step c s kids s' kids' ns ns' b : holds s kids ns -> step c s kids s' kids' -> files_stay ns ns' ->
  open_files s' = open_files s -> stdin_open s kids ns b -> stdin_open s' kids' ns' b.
Proof.
  intros H Hst Hns Ho. destruct b; [apply (leads_step c); [done..|by rewrite Ho]|]. unfold stdin_open, vacant. by rewrite Ho.
Qed.
Definition others_open s s' : Prop :=
  forall k, k <> STDIN_FILENO -> zlookup k (open_files s') = zlookup k (open_files s).

Lemma name_at_path q nm : text q = nm -> path_ok q -> Forall (fun b => b <> NUL) nm -> path_name q = nm.
Proof. intros E Hq Hn. unfold path_name. rewrite E. by apply take_while_nonzero. Qed.

Lemma path_is_spec q nm str len s :
  path_ok q -> text q = nm -> Forall (fun b => b <> NUL) nm -> 0 <= len <= Z.of_nat (length str) ->
  path_is q str len s = Ret (bool_decide (nm = cstr len str)) s.
Proof.
  intros Hq E Hn Hlen. unfold path_is, bind.
  destruct (cstr_compare (path_tail q) (p_len q) str len s) as (c & -> & Hc); [by apply path_tail_length|done|].
  unfold ret. rewrite Hc, path_name_cstr, (name_at_path q nm) by done. done.
Qed.

Lemma file_cost_pos : 0 <= file_cost.
Proof.
  unfold file_cost. pose proof (sys_cost_pos sizeof_dfile ltac:(unfold sizeof_dfile; lia)).
  pose proof (sys_cost_pos sizeof_chunk ltac:(unfold sizeof_chunk; lia)). lia.
Qed.

(** The name of the item ends in the memory of a new node. *)
Definition path_ends (t : list Z) : Prop := forall nm, called t nm -> ends (length nm).

(** An item of the set [stdio] that is neither the arguments nor the
    environment: the standard input is opened. *)
Lemma use_stdio_spec s kids ns q nm cs e b it (Q : option Z -> fs M -> Prop) :
  holds s kids ns -> sound s -> path_ok q -> text q = nm -> Forall (fun b => b <> NUL) nm ->
  nm <> chars "argv" -> nm <> chars "environ" -> Forall simple cs -> ns !! cs = Some e -> file_entry e = true ->
  stdin_open s kids ns b ->
  (forall s', holds s' kids ns -> step 0 s kids s' kids ->
     stdin_open s' kids ns (b || bool_decide (nm = chars "stdin")) -> others_open s s' -> Q None s') ->
  wp (use_stdio_item q (node_at (files s) kids cs) it) Q s.
Proof.
  intros H Hs Hq Et Hnz Hargv Henv Hcs He Hfile Hb HQ. unfold use_stdio_item.
  assert (Ho : exists o, zlookup STDIN_FILENO (open_files s) = Some o).
  { destruct b; [destruct Hb as (o & ? & ? & Ho & _)|destruct Hb as (o & Ho & _)]; by exists o. }
  destruct Ho as [o Ho]. pose proof (holds_node _ _ _ _ _ H Hcs He) as Hent.
  pose proof (entry_valid _ _ _ _ _ H Hent) as Hx. destruct Hent as (f & Hf & _).
  assert (Hrest : forall s', wp (
      let! is_argv := path_is q (literal "argv") 4 in
      let! _ := if is_argv : bool then
          let! r := setup_charpparray (ib_data it) (ib_data_len it) in
          modify (fun s => with_args r.1 r.2 (environ s) s)
        else ret tt in
      let! is_environ := path_is q (literal "environ") 7 in
      let! _ := if is_environ : bool then
          let! r := setup_charpparray (ib_data it) (ib_data_len it) in
          modify (fun s => with_args (argc s) (argv s) r.2 s)
        else ret tt in ret None) (fun (r : option Z) s2 => r = None /\ s2 = s') s').
  { intros s'. apply wp_bind. unfold wp at 1. rewrite (path_is_spec q nm) by (done || cbn; lia).
    rewrite bool_decide_eq_false_2 by done. apply wp_bind, wp_ret, wp_bind. unfold wp at 1.
    rewrite (path_is_spec q nm) by (done || cbn; lia). rewrite bool_decide_eq_false_2 by done.
    by apply wp_bind, wp_ret, wp_ret. }
  apply wp_bind. unfold wp at 1. rewrite (path_is_spec q nm) by (done || cbn; lia).
  change (cstr 5 (literal "stdin")) with (chars "stdin"). apply wp_bind.
  destruct (decide (nm = chars "stdin")) as [E|E].
  - rewrite bool_decide_eq_true_2 in * by done. eapply open_existing_spec; [done|done|exact Hf|done|done|exact Ho|done|].
    intros s' Hh Hst Hop _ _ _. rewrite Z.eqb_refl. cbn [negb]. eapply wp_mono; [apply Hrest|].
    intros r s2 [-> ->]. apply HQ; [done|done|..].
    + rewrite orb_true_r. eexists _, cs, e. rewrite Hop. split; [apply zlookup_insert_eq; by eapply zlookup_range|].
      split_and!; [done..|]. symmetry. by apply (st_stable _ _ _ _ _ Hst).
    + intros k Hk. rewrite Hop. apply zlookup_insert_ne; [done|by intros <-].
  - rewrite bool_decide_eq_false_2 in * by done. apply wp_ret. rewrite Z.eqb_refl. cbn [negb].
    eapply wp_mono; [apply Hrest|]. intros r s2 [-> ->]. apply HQ; [done|by apply rest_step|by rewrite orb_false_r|done].
Qed.

(** The input sets of the runtime. *)
Record inputs_at s (ins : list view) : Prop := {
  in_tree : tree_at (fs_rt s) (rt_input_sets (fs_rt s)) ins;
  in_len : Z.of_nat (length ins) = input_sets_len (fs_rt s);
}.

Lemma tree_keeps c s s' p t : keeps c s s' -> tree_at (fs_rt s) p t -> tree_at (fs_rt s') p t.
Proof.
  intros H. apply tree_frame. rewrite (kp_only _ _ _ H). split_and!; [|done|done]. intros x Hx.
  apply list_elem_of_fmap in Hx as (y & -> & Hy). apply list_elem_of_fmap. exists y. split; [done|].
  by apply (keeps_live _ _ _ H).
Qed.

Lemma inputs_keep c s s' ins : keeps c s s' -> inputs_at s ins -> inputs_at s' ins.
Proof.
  intros H [Ht Hl]. split; [|by rewrite (kp_only _ _ _ H)].
  assert (E : rt_input_sets (fs_rt s') = rt_input_sets (fs_rt s)) by by rewrite (kp_only _ _ _ H).
  rewrite E. by eapply tree_keeps.
Qed.

Lemma with_rt_id s : with_rt (fs_rt s) s = s.
Proof. by destruct s. Qed.

Lemma wp_input_buffer {A} s ins i j v b (k : io_buffer -> prog (fs M) A) (Q : A -> fs M -> Prop) :
  inputs_at s ins -> zlookup i ins = Some v -> zlookup j v.2 = Some b -> wp (k b) Q s ->
  wp (let! place := on_rt (dandelion_get_input i j) in
      match place with
      | None => fail NullDeref
      | Some (p, i) => let! item := on_rt (get_buf p i) in k item
      end) Q s.
Proof.
  intros [(sets & Ht) Hl] Hi Hj HQ. pose proof (zlookup_range _ _ _ Hi). pose proof (zlookup_range _ _ _ Hj).
  destruct (sets_at_lookup _ _ _ _ _ _ Ht Hi) as (Hp0 & _ & Harr & set & Hset & Hv).
  pose proof (sv_count _ _ _ Hv) as Hc. pose proof (sv_cap _ _ _ Hv) as Hcap.
  destruct (sv_bufs _ _ _ Hv) as (arr & Ha & Hla & Htake).
  assert (Hget : dandelion_get_input i j (fs_rt s) = Ret (Some (buffers set, j)) (fs_rt s)).
  { unfold dandelion_get_input, get_set, array_get, bind, gets.
    rewrite (proj2 (Z.leb_gt _ _)), (proj2 (Z.eqb_neq _ _)), Harr, Hset by (done || lia).
    rewrite (proj2 (Z.leb_gt _ _)) by lia. done. }
  unfold arr_of in Ha. rewrite (proj2 (Z.eqb_neq _ 0)) in Ha by lia. destruct (_ =? NULL) eqn:En; [done|].
  assert (Hbuf : get_buf (buffers set) j (fs_rt s) = Ret b (fs_rt s)).
  { unfold get_buf, array_get. rewrite En, Ha. assert (zlookup j arr = Some b) as ->; [|done].
    rewrite Htake in Hj. unfold zlookup in *. destruct (0 <=? j); [|done]. by apply lookup_take_Some in Hj as [? _]. }
  apply wp_bind, wp_zoom. unfold wp at 1. rewrite Hget, with_rt_id.
  apply wp_bind, wp_zoom. unfold wp at 1. by rewrite Hbuf, with_rt_id.
Qed.

Lemma removelast_snoc {A} (l : list A) a : removelast (l ++ [a]) = l.
Proof. by rewrite removelast_app, app_nil_r. Qed.

(** ** The whole item *)

Lemma initialize_item_spec s kids ns ns' ins base stdio i j v it b (Q : option Z -> fs M -> Prop) :
  holds s kids ns -> sound s -> first_live s -> path_ends it.1 -> Forall simple base -> ns !! base = Some EDir ->
  inputs_at s ins -> zlookup i ins = Some v -> zlookup j v.2 = Some it.2 -> item_shown s it ->
  item_ok stdio it.1 -> add_file base it ns = Some ns' -> item_cost it.1 <= sys_room (rt_sys (fs_rt s)) ->
  stdin_open s kids ns b ->
  (forall s' kids', holds s' kids' ns' -> step (item_cost it.1) s kids s' kids' ->
     stdin_open s' kids' ns' (b || stdio && bool_decide (called it.1 (chars "stdin"))) -> others_open s s' -> Q None s') ->
  wp (initialize_item (node_at (files s) kids base) stdio i j) Q s.
Proof.
  intros H Hs Hfl Hz Hbase Hdir Hins Hi Hj [Hpath Hlen Hsmall] Hok Hadd Hroom Hopen HQ.
  eapply wp_input_buffer; [done..|]. rewrite Hlen.
  assert (Hstay : files_stay ns ns') by (apply files_grow; intros cs e; by apply (add_file_keeps base it)).
  unfold add_file, item_cost in *.
  destruct (decide (it.1 = [])) as [E|Hne].
  { rewrite E. injection Hadd as <-. apply wp_ret, (HQ s kids); [done|by apply rest_step| |done].
    rewrite E. change (bool_decide (called [] (chars "stdin"))) with false. by rewrite andb_false_r, orb_false_r. }
  destruct Hok as [?|(Hfp & Hdirs & Hstd)]; [done|].
  rewrite (proj2 (Z.eqb_neq _ 0)) by (destruct it.1; [done|cbn; lia]).
  apply wp_bind. unfold wp at 1. rewrite load_path_spec by done.
  destruct (file_path_split _ Hfp) as (d & f & Hf0 & Hfs & Htext & Hcomp).
  destruct (split_path_spec (set_path it.1) s f d) as (pd & pf & Hd & Hfile & Hpd & Hpf & Etd & Etf);
    [by apply set_path_ok|done| |by rewrite set_path_text|].
  { eapply Forall_impl; [exact Hfs|]. intros c Hc. unfold is_slash. by apply Z.eqb_neq. }
  apply wp_bind. unfold wp at 1. rewrite Hd. apply wp_bind. unfold wp at 1. rewrite Hfile. apply wp_bind.
  rewrite Hcomp, removelast_snoc in Hadd, Hroom, HQ. rewrite Hcomp in Hdirs. apply Forall_app in Hdirs as [Hdirs Hf%Forall_inv].
  destruct (mkdirs base (components d) ns) as [ns1|] eqn:Hmk; [|done]. apply put_spec in Hadd as [Hnone Hadd]. rewrite app_assoc in Hnone, Hadd.
  pose proof file_cost_pos as Hfc. pose proof dir_cost_pos as Hdc.
  assert (0 <= Z.of_nat (length (components d)) * dir_cost) by lia.
  eapply (create_directories_spec true (components d)); [done|done|done|done|done|done|by rewrite Etd|done|done|lia|].
  intros s1 kids1 Hst1 Hh1 Ho1. pose proof (mkdirs_dir _ _ _ _ Hdir Hmk) as Hdir1.
  set (P := base ++ components d) in *. set (c1 := Z.of_nat (length (components d)) * dir_cost) in *.
  assert (HP : Forall simple P).
  { apply Forall_app. split; [done|]. eapply Forall_impl; [exact Hdirs|]. by intros c []. }
  pose proof (holds_node _ _ _ _ _ Hh1 HP Hdir1) as Hent1. pose proof (entry_valid _ _ _ _ _ Hh1 Hent1) as Hnn.
  rewrite (proj2 (Z.eqb_neq _ _)) by done. pose proof (step_room _ _ _ _ _ Hst1) as Hroom1.
  destruct Hf as [Hfsim Hflen]. pose proof (text_length pf Hpf) as Htl.
  assert (Hz1 : ends (length (text pf))) by (rewrite Etf; apply Hz; unfold called; by rewrite Hcomp, last_snoc).
  apply wp_bind. eapply create_file_spec; [exact Hh1|by eapply step_sound|by eapply step_first|exact Hz1|done|by rewrite Etf|
    unfold FS_NAME_LENGTH; rewrite Etf in Htl; lia|lia|].
  intros x s2 g Hst2 Hh2 Hlo Hname Hft _ Hhl Hent Ho2. rewrite Etf in Hname.
  rewrite (proj2 (Z.eqb_neq x NULL)) by apply Hlo. rewrite <-(st_stable _ _ _ _ _ Hst2 P HP Hnn).
  apply wp_bind. eapply (link_holds s2 kids1 ns1 P x g); [done|by eapply step_sound|done|done|done|by rewrite Hname|exact Hent|by rewrite Hname|by rewrite Hhl|].
  intros m' kids3 Hh3 Hst3 Hat3 _ _. assert (0 <? 0 = false) as -> by done.
  rewrite Hname, <-Hadd in Hh3. rewrite Hname in Hat3.
  pose proof (then_step _ _ _ _ _ _ _ _ (then_step _ _ _ _ _ _ _ _ Hst1 Hst2) Hst3) as Hst.
  rewrite Z.add_0_r in Hst. set (s3 := with_files m' s2) in *.
  assert (Hop3 : open_files s3 = open_files s) by (unfold s3; cbn; congruence).
  pose proof (stdin_step _ s kids s3 kids3 ns ns' b H Hst Hstay Hop3 Hopen) as Hop3'.
  assert (Hc : bool_decide (called it.1 (chars "stdin")) = bool_decide (f = chars "stdin")).
  { apply bool_decide_ext. unfold called. rewrite Hcomp, last_snoc. split; [by intros [= ->]|by intros ->]. }
  rewrite Hc in HQ. destruct stdio.
  - destruct (Hstd eq_refl) as [Hargv Henv]. unfold called in Hargv, Henv. rewrite Hcomp, last_snoc in Hargv, Henv.
    change m' with (files s3) in Hat3. rewrite <-Hat3.
    eapply (use_stdio_spec s3 kids3 _ pf f (P ++ [f]) _ b); [exact Hh3|by eapply step_sound|done|done|apply Hfsim|congruence|congruence|
      by apply path_simple|rewrite Hadd; apply lookup_insert_eq|done|done|].
    intros s4 Hh4 Hst4 Hin Hoth. apply (HQ s4 kids3); [done| |done|].
    + eapply step_mono; [by eapply then_step|lia].
    + intros k Hk. by rewrite Hoth, Hop3.
  - rewrite andb_false_l, orb_false_r in HQ. apply wp_ret, (HQ s3 kids3); [done|done|done|]. intros k _. by rewrite Hop3.
Qed.
End input.
