(* ===== verification/FsClose.v ===== *)
(** Closing the descriptors of the standard streams ([dandelion_close] of
    src/file_system/fs_implementation.c), as the C library does it when it closes
    the streams at the end of the program. *)
From S2P Require Import Prelude Bytes Heap Alloc AllocSession AllocTheorems System RuntimeIO RuntimeTree RuntimeInit RuntimeOutput Paths PathSpec FsStore FileSystem FsImpl FsLemmas FsTree FsResolve FsData FsWrite FsSeek FsRemove FsExport FsExportNode FsTerminate FsNames FsSpace FsDirs FsInput.

Section close.
Context {M : Type} {HS : System M} {HM : Machine}.
Implicit Types s : fs M.

(** Closing takes the descriptor away; a node that has a name stays. *)
Lemma close_spec s kids ns fd o x f (Q : Z -> fs M -> Prop) :
  holds s kids ns -> sound s -> zlookup fd (open_files s) = Some o -> of_file o = x -> x <> NULL ->
  files s !! x = Some f -> hard_links f <> 0 ->
  (forall s', holds s' kids ns -> step 0 s kids s' kids ->
     open_files s' = zinsert fd (set_of_file NULL o) (open_files s) -> Q 0 s') ->
  wp (dandelion_close fd) Q s.
Proof.
  intros H Hs Ho Hox Hx Hf Hhl HQ. unfold dandelion_close. apply wp_bind. eapply wp_get_open; [exact Ho|].
  rewrite Hox, (proj2 (Z.eqb_neq x NULL)) by done. apply wp_bind. eapply wp_update_file; [done..|].
  set (f' := set_open_descripotors _ f).
  destruct (update_holds s kids ns x f f') as (Hh & Hst & _); [done..|by split_and!|done|done|].
  apply wp_bind. eapply free_data_kept; [apply lookup_insert_eq|done|by left|].
  apply wp_bind. eapply wp_update_open; [exact Ho|]. apply wp_ret, HQ.
  - by eapply (holds_same (with_files _ s)).
  - destruct Hst as [Hk Hst]. split; [by apply keeps_open|exact Hst].
  - done.
Qed.

(** * The standard streams *)

Definition standard_streams : list Z := [STDIN_FILENO; STDOUT_FILENO; STDERR_FILENO].

(** Closing some descriptors, whatever comes of it. *)
Fixpoint close_all (fds : list Z) : prog (fs M) unit :=
  match fds with
  | [] => ret tt
  | fd :: fds => let! _ := dandelion_close fd in close_all fds
  end.

(** Each standard stream is closed, or it is open on a file of the map. *)
Definition closable s (kids : Z -> list Z) (ns : dirmap) : Prop :=
  Forall (fun fd => vacant s fd \/ leads s kids ns fd) standard_streams.

(** A step that concerns one descriptor at most. *)
Lemma closable_step c s kids s' kids' ns ns' fd : holds s kids ns -> step c s kids s' kids' -> files_stay ns ns' ->
  (forall k, k <> fd -> zlookup k (open_files s') = zlookup k (open_files s)) ->
  (zlookup fd (open_files s') = zlookup fd (open_files s) \/ vacant s' fd \/ leads s' kids' ns' fd) ->
  closable s kids ns -> closable s' kids' ns'.
Proof.
  unfold closable. rewrite !Forall_forall. intros H Hst Hns Ho Hfd Hc k Hk.
  assert (Hkeep : zlookup k (open_files s') = zlookup k (open_files s) -> vacant s' k \/ leads s' kids' ns' k).
  { intros E. destruct (Hc k Hk) as [Hv|Hl]; [left; unfold vacant; by rewrite E|right]. by eapply leads_step. }
  destruct (decide (k = fd)) as [->|Hne]; [|auto]. destruct Hfd; auto.
Qed.

Lemma close_one_spec s kids ns fd (Q : Z -> fs M -> Prop) :
  holds s kids ns -> sound s -> closable s kids ns -> fd ∈ standard_streams ->
  (forall r s', holds s' kids ns -> step 0 s kids s' kids -> closable s' kids ns -> Q r s') ->
  wp (dandelion_close fd) Q s.
Proof.
  intros H Hs Hc Hfd HQ. pose proof (proj1 (Forall_forall _ _) Hc fd Hfd) as [(o & Ho & Hn)|(o & cs & e & Ho & Hcs & He & Hfile & Hx)].
  - unfold dandelion_close. apply wp_bind. eapply wp_get_open; [exact Ho|]. rewrite Hn. change (NULL =? NULL) with true.
    apply wp_ret, HQ; [done|by apply rest_step|done].
  - pose proof (holds_node _ _ _ _ _ H Hcs He) as Hent. pose proof (entry_valid _ _ _ _ _ H Hent) as Hnn.
    assert (Hnode : exists f, files s !! node_at (files s) kids cs = Some f /\ ftype f = FILE).
    { destruct Hent as (f & Hf & Hk). exists f. split; [done|]. by destruct e; [|destruct Hk..|]. }
    destruct Hnode as (f & Hf & Hft). eapply close_spec; [done|done|exact Ho|exact Hx|done|exact Hf|by apply (ho_linked _ _ _ H cs)|].
    intros s' Hh Hst Hop. pose proof (zlookup_range _ _ _ Ho). apply HQ; [done|done|].
    eapply (closable_step 0 s kids s' kids ns ns fd); [done|done|by apply files_grow| | |done].
    + intros k Hk. rewrite Hop. apply zlookup_insert_ne; [lia|by intros <-].
    + right. left. exists (set_of_file NULL o). rewrite Hop. split; [by apply zlookup_insert_eq|done].
Qed.

Lemma close_all_spec fds : forall s kids ns (Q : unit -> fs M -> Prop),
  holds s kids ns -> sound s -> closable s kids ns -> Forall (fun fd => fd ∈ standard_streams) fds ->
  (forall s', holds s' kids ns -> step 0 s kids s' kids -> Q tt s') -> wp (close_all fds) Q s.
Proof.
  induction fds as [|fd fds IH]; intros s kids ns Q H Hs Hc Hfds HQ; cbn [close_all].
  - apply wp_ret, HQ; [done|by apply rest_step].
  - apply Forall_cons in Hfds as [Hfd Hfds]. apply wp_bind. eapply close_one_spec; [done..|].
    intros r s1 Hh1 Hst1 Hc1. eapply IH; [exact Hh1|by eapply step_sound|done|done|]. intros s2 Hh2 Hst2.
    apply HQ; [done|]. eapply step_mono; [by eapply then_step|lia].
Qed.
End close.
