(* ===== verification/FsInit.v ===== *)
(** The whole set-up of the file system ([fs_initialize] of
    src/file_system/file_system.c): input sets, output sets, streams. *)
From S2P Require Import Prelude Bytes Heap Alloc AllocSession AllocTheorems System RuntimeIO RuntimeTree RuntimeInit RuntimeOutput Paths PathSpec FsStore FileSystem FsImpl FsLemmas FsTree FsResolve FsData FsWrite FsExport FsExportNode FsTerminate FsNames FsSpace FsDirs FsInput.

(** * Sets, abstractly *)

Definition add_set (st : input_set) (ns : dirmap) : option dirmap :=
  if decide (st.1 = []) then Some ns else
  match mkdirs [] (components st.1) ns with
  | Some ns => add_files (components st.1) st.2 ns
  | None => None
  end.

Fixpoint add_sets (sets : list input_set) (ns : dirmap) : option dirmap :=
  match sets with
  | [] => Some ns
  | st :: sets => match add_set st ns with Some ns => add_sets sets ns | None => None end
  end.

(** Whether an item of the set is opened as the standard input. *)
Definition stdin_items (items : list item) : bool :=
  existsb (fun it => bool_decide (called it.1 (chars "stdin"))) items.
Definition gives_stdin (st : input_set) : bool := bool_decide (is_stdio st.1) && stdin_items st.2.

Definition input_ok (st : input_set) : Prop :=
  Forall dir_name (components st.1) /\ Forall (fun it => item_ok (bool_decide (is_stdio st.1)) it.1) st.2.

Lemma mkdirs_root ds ns ns' : ns !! [] = Some EDir -> mkdirs [] ds ns = Some ns' -> ns' !! [] = Some EDir.
Proof. intros H Hm. by eapply mkdirs_base. Qed.

Lemma add_files_keeps base items : forall ns ns' cs e,
  add_files base items ns = Some ns' -> ns !! cs = Some e -> ns' !! cs = Some e.
Proof.
  induction items as [|it items IH]; intros ns ns' cs e; cbn; [by intros [= ->]|].
  destruct (add_file base it ns) as [n1|] eqn:E; [|done]. intros Hr Hcs.
  eapply IH; [exact Hr|]. by eapply add_file_keeps.
Qed.

Lemma add_set_keeps st ns ns' cs e : add_set st ns = Some ns' -> ns !! cs = Some e -> ns' !! cs = Some e.
Proof.
  unfold add_set. destruct (decide _); [by intros [= ->]|]. destruct (mkdirs _ _ _) as [n1|] eqn:E; [|done].
  intros Hr Hcs. eapply add_files_keeps; [exact Hr|]. by eapply mkdirs_base.
Qed.

Section init.
Context {M : Type} {HS : System M} {HM : Machine}.
Implicit Types s : fs M.

Definition items_cost (items : list item) : Z := foldr (fun it c => item_cost it.1 + c) 0 items.
Definition name_cost (name : list Z) : Z :=
  if decide (name = []) then 0 else Z.of_nat (length (components name)) * dir_cost.
Definition set_cost (st : input_set) : Z :=
  if decide (st.1 = []) then 0 else name_cost st.1 + items_cost st.2.

Lemma item_cost_pos t : 0 <= item_cost t.
Proof. unfold item_cost. pose proof file_cost_pos. pose proof dir_cost_pos. destruct (decide _); lia. Qed.
Lemma items_cost_pos items : 0 <= items_cost items.
Proof. induction items as [|it items IH]; cbn; [lia|]. pose proof (item_cost_pos it.1). unfold items_cost in IH. lia. Qed.
Lemma name_cost_pos name : 0 <= name_cost name.
Proof. unfold name_cost. pose proof dir_cost_pos. destruct (decide _); lia. Qed.
Lemma set_cost_pos st : 0 <= set_cost st.
Proof. unfold set_cost. pose proof (items_cost_pos st.2). pose proof (name_cost_pos st.1). destruct (decide _); lia. Qed.

Lemma item_shown_keeps c s s' it : keeps c s s' -> item_shown s it -> item_shown s' it.
Proof. intros H [Hp ? ?]. split; [by eapply path_keeps|done|done]. Qed.

Lemma others_trans s1 s2 s3 : others_open s1 s2 -> others_open s2 s3 -> others_open s1 s3.
Proof. intros H1 H2 k Hk. by rewrite H2, H1. Qed.

(** * The items of a set *)

Lemma initialize_items_spec ins i v base stdio : forall items before s kids ns ns' b (Q : option Z -> fs M -> Prop),
  holds s kids ns -> sound s -> first_live s -> Forall (fun it : item => path_ends it.1) items ->
  Forall simple base -> ns !! base = Some EDir -> inputs_at s ins -> zlookup i ins = Some v -> v.2 = before ++ map snd items ->
  Forall (item_shown s) items -> Forall (fun it => item_ok stdio it.1) items ->
  add_files base items ns = Some ns' -> items_cost items <= sys_room (rt_sys (fs_rt s)) -> stdin_open s kids ns b ->
  (forall s' kids', holds s' kids' ns' -> step (items_cost items) s kids s' kids' ->
     stdin_open s' kids' ns' (b || stdio && stdin_items items) -> others_open s s' -> Q None s') ->
  wp (for_from (length items) (Z.of_nat (length before))
    (initialize_item (node_at (files s) kids base) stdio i)) Q s.
Proof.
  induction items as [|it items IH]; intros before s kids ns ns' b Q H Hs Hfl Hz Hbase Hdir Hins Hi Hv Hshown Hok Hadd Hroom Hin HQ.
  - injection Hadd as <-. apply wp_ret, (HQ s kids); [done|by apply rest_step|by rewrite andb_false_r, orb_false_r|done].
  - apply Forall_cons in Hshown as [Hit Hshown]. apply Forall_cons in Hok as [Hok1 Hok]. apply Forall_cons in Hz as [Hz1 Hz].
    cbn [add_files items_cost foldr length for_from] in *. change (foldr _ 0 items) with (items_cost items) in *.
    destruct (add_file base it ns) as [ns1|] eqn:Hadd1; [|done].
    pose proof (item_cost_pos it.1). pose proof (items_cost_pos items).
    apply wp_bind. eapply (initialize_item_spec s kids ns ns1 ins base stdio i _ v it b); try done; [|lia|].
    { rewrite Hv. apply zlookup_middle. }
    intros s1 kids1 Hh1 Hst1 Hin1 Hoth1. pose proof (st_keeps _ _ _ _ _ Hst1) as Hk1.
    assert (Hnn : node_at (files s) kids base <> NULL) by by eapply entry_valid, holds_node.
    rewrite <-(st_stable _ _ _ _ _ Hst1 base Hbase Hnn).
    replace (Z.of_nat (length before) + 1) with (Z.of_nat (length (before ++ [it.2]))) by (rewrite length_app; cbn; lia).
    apply (IH _ s1 kids1 ns1 ns' (b || stdio && bool_decide (called it.1 (chars "stdin")))); try done.
    + by eapply step_sound.
    + by eapply step_first.
    + by eapply add_file_keeps.
    + by eapply inputs_keep.
    + by rewrite <-app_assoc.
    + eapply Forall_impl; [exact Hshown|]. intros x. by eapply item_shown_keeps.
    + pose proof (step_room _ _ _ _ _ Hst1). lia.
    + intros s2 kids2 Hh2 Hst2 Hin2 Hoth2. apply (HQ s2 kids2); [done|by eapply then_step| |by eapply others_trans].
      cbn [stdin_items existsb]. by rewrite andb_orb_distrib_r, orb_assoc.
Qed.

(** * Sets *)

Lemma input_getters s ins i v : inputs_at s ins -> zlookup i ins = Some v ->
  on_rt (dandelion_input_set_ident i) s = Ret v.1.1 s /\ on_rt (dandelion_input_set_ident_len i) s = Ret v.1.2 s /\
  on_rt (dandelion_input_buffer_count i) s = Ret (Z.of_nat (length v.2)) s.
Proof.
  intros [(sets & Ht) Hl] Hi. pose proof (zlookup_range _ _ _ Hi).
  destruct (sets_at_lookup _ _ _ _ _ _ Ht Hi) as (Hp0 & _ & Harr & set & Hset & [E1 E2 _ E3 _ _]).
  assert (Hget : get_set (rt_input_sets (fs_rt s)) i (fs_rt s) = Ret set (fs_rt s)).
  { unfold get_set, array_get. by rewrite (proj2 (Z.eqb_neq _ _)), Harr, Hset by done. }
  unfold on_rt, zoom, dandelion_input_set_ident, dandelion_input_set_ident_len, dandelion_input_buffer_count, bind, gets.
  rewrite (proj2 (Z.leb_gt _ _)) by lia. rewrite Hget. unfold ret. by rewrite E1, E2, E3, with_rt_id.
Qed.

(** The platform's set shows its name and its items. *)
Record set_shown s (v : view) (st : input_set) : Prop := {
  ss_path : path_at s v.1.1 st.1;
  ss_len : v.1.2 = Z.of_nat (length st.1);
  ss_small : Z.of_nat (length st.1) < 2 ^ 31;
  ss_bufs : v.2 = map snd st.2;
  ss_items : Forall (item_shown s) st.2;
}.

Lemma set_shown_keeps c s s' v st : keeps c s s' -> set_shown s v st -> set_shown s' v st.
Proof.
  intros H [Hp ? ? ? Hit]. split; [by eapply path_keeps|done|done|done|].
  eapply Forall_impl; [exact Hit|]. intros it. by eapply item_shown_keeps.
Qed.

Lemma is_stdio_spec name s :
  Z.of_nat (length name) < 2 ^ 31 -> path_is (set_path name) STDIO_NAME 5 s = Ret (bool_decide (is_stdio name)) s.
Proof.
  intros Hn. unfold path_is, bind. pose proof (set_path_ok name Hn) as Hok.
  destruct (cstr_compare (path_tail (set_path name)) (p_len (set_path name)) STDIO_NAME 5 s) as (c & -> & Hc);
    [by apply path_tail_length|cbn; lia|].
  unfold ret. by rewrite Hc, path_name_cstr, path_name_set.
Qed.

(** Making the directory of a set. *)
Lemma set_directory_spec s kids ns ns' name (Q : Z -> fs M -> Prop) :
  holds s kids ns -> sound s -> first_live s -> ns !! [] = Some EDir -> name <> [] ->
  Z.of_nat (length name) < 2 ^ 31 -> Forall dir_name (components name) -> mkdirs [] (components name) ns = Some ns' ->
  name_cost name <= sys_room (rt_sys (fs_rt s)) ->
  (forall s' kids', holds s' kids' ns' -> step (name_cost name) s kids s' kids' -> open_files s' = open_files s ->
     node_at (files s') kids' (components name) <> NULL ->
     ns' !! components name = Some EDir -> Forall simple (components name) -> Q (node_at (files s') kids' (components name)) s') ->
  wp (create_directories fs_root (set_path name) true) Q s.
Proof.
  intros H Hs Hfl Hroot Hne Hsm Hnames Hmk Hroom HQ. unfold name_cost in *. rewrite decide_False in * by done.
  change fs_root with (node_at (files s) kids []).
  eapply (create_directories_spec true (components name)); [done|done|done|constructor|done|by apply set_path_ok|
    by rewrite set_path_text|done|exact Hmk|done|].
  intros s' kids' Hst Hh Ho. cbn [app]. pose proof (mkdirs_dir _ _ _ _ Hroot Hmk) as Hdir. cbn [app] in Hdir.
  assert (Hsimple : Forall simple (components name)) by (eapply Forall_impl; [exact Hnames|]; by intros c []).
  apply (HQ s' kids'); try done. by eapply entry_valid, holds_node.
Qed.

Lemma initialize_input_set_spec s kids ns ns' ins i v st b (Q : option Z -> fs M -> Prop) :
  holds s kids ns -> sound s -> first_live s -> Forall (fun it : item => path_ends it.1) st.2 -> ns !! [] = Some EDir ->
  inputs_at s ins -> zlookup i ins = Some v -> set_shown s v st -> input_ok st ->
  add_set st ns = Some ns' -> set_cost st <= sys_room (rt_sys (fs_rt s)) -> stdin_open s kids ns b ->
  (forall s' kids', holds s' kids' ns' -> step (set_cost st) s kids s' kids' ->
     stdin_open s' kids' ns' (b || gives_stdin st) -> others_open s s' -> Q None s') ->
  wp (initialize_input_set i) Q s.
Proof.
  intros H Hs Hfl Hz Hroot Hins Hi [Hp Hlen Hsm Hbufs Hit] [Hnames Hok] Hadd Hroom Hin HQ.
  destruct (input_getters s ins i v Hins Hi) as (E1 & E2 & _). unfold initialize_input_set, add_set, set_cost in *.
  apply wp_bind. unfold wp at 1. rewrite E1. apply wp_bind. unfold wp at 1. rewrite E2, Hlen.
  destruct (decide (st.1 = [])) as [E|Hne].
  { rewrite E. injection Hadd as <-. apply wp_ret, (HQ s kids); [done|by apply rest_step| |done].
    unfold gives_stdin. rewrite bool_decide_eq_false_2; [by rewrite orb_false_r|]. by rewrite E. }
  rewrite (proj2 (Z.eqb_neq _ 0)) by (destruct st.1; [done|cbn; lia]).
  apply wp_bind. unfold wp at 1. rewrite load_path_spec by done. apply wp_bind.
  destruct (mkdirs [] (components st.1) ns) as [ns1|] eqn:Hmk; [|done].
  pose proof (name_cost_pos st.1). pose proof (items_cost_pos st.2).
  eapply set_directory_spec; [done|done|done|done|done|done|done|exact Hmk|lia|].
  intros s1 kids1 Hh1 Hst1 Ho1 Hnn Hdir Hsimple. rewrite (proj2 (Z.eqb_neq _ _)) by done.
  pose proof (st_keeps _ _ _ _ _ Hst1) as Hk1. pose proof (inputs_keep _ _ _ _ Hk1 Hins) as Hins1.
  destruct (input_getters s1 ins i v Hins1 Hi) as (_ & _ & E3).
  apply wp_bind. unfold wp at 1. rewrite is_stdio_spec by done. apply wp_bind. unfold wp at 1. rewrite E3.
  unfold for_loop. rewrite Nat2Z.id, Hbufs, length_map.
  pose proof (initialize_items_spec ins i v (components st.1) (bool_decide (is_stdio st.1)) st.2 []
    s1 kids1 ns1 ns' b Q Hh1 (step_sound _ _ _ _ _ Hst1) (step_first _ _ _ _ _ Hst1 Hfl) Hz Hsimple Hdir Hins1 Hi Hbufs) as Hloop.
  apply Hloop; try done.
  - eapply Forall_impl; [exact Hit|]. intros it. by eapply item_shown_keeps.
  - pose proof (step_room _ _ _ _ _ Hst1). lia.
  - eapply (stdin_step _ s kids); [done|exact Hst1| |done|done]. apply files_grow. intros cs e Hcs. by eapply mkdirs_base.
  - intros s2 kids2 Hh2 Hst2 Hin2 Hoth2. apply (HQ s2 kids2); [done|by eapply then_step|done|].
    intros k Hk. by rewrite Hoth2, Ho1.
Qed.

Definition sets_cost (sets : list input_set) : Z := foldr (fun st c => set_cost st + c) 0 sets.
Lemma sets_cost_pos sets : 0 <= sets_cost sets.
Proof. induction sets as [|st sets IH]; cbn; [lia|]. pose proof (set_cost_pos st). unfold sets_cost in IH. lia. Qed.

Lemma initialize_input_sets_spec ins : forall sets before rest s kids ns ns' b (Q : option Z -> fs M -> Prop),
  holds s kids ns -> sound s -> first_live s -> Forall (fun st : input_set => Forall (fun it : item => path_ends it.1) st.2) sets ->
  ns !! [] = Some EDir -> inputs_at s ins -> ins = before ++ rest -> Forall2 (set_shown s) rest sets -> Forall input_ok sets ->
  add_sets sets ns = Some ns' -> sets_cost sets <= sys_room (rt_sys (fs_rt s)) -> stdin_open s kids ns b ->
  (forall s' kids', holds s' kids' ns' -> step (sets_cost sets) s kids s' kids' ->
     stdin_open s' kids' ns' (b || existsb gives_stdin sets) -> others_open s s' -> Q None s') ->
  wp (for_from (length sets) (Z.of_nat (length before)) initialize_input_set) Q s.
Proof.
  induction sets as [|st sets IH]; intros before rest s kids ns ns' b Q H Hs Hfl Hz Hroot Hins Hsplit Hshown Hok Hadd Hroom Hin HQ.
  - injection Hadd as <-. apply wp_ret, (HQ s kids); [done|by apply rest_step|by rewrite orb_false_r|done].
  - inversion Hshown as [|v ? rest' ? Hv Hrest]; subst. apply Forall_cons in Hok as [Hok1 Hok]. apply Forall_cons in Hz as [Hz1 Hz].
    cbn [add_sets sets_cost foldr length for_from] in *. change (foldr _ 0 sets) with (sets_cost sets) in *.
    destruct (add_set st ns) as [ns1|] eqn:Hadd1; [|done].
    pose proof (set_cost_pos st). pose proof (sets_cost_pos sets).
    apply wp_bind. eapply (initialize_input_set_spec s kids ns ns1 _ _ v st b); try done; [apply zlookup_middle|lia|].
    intros s1 kids1 Hh1 Hst1 Hin1 Hoth1. pose proof (st_keeps _ _ _ _ _ Hst1) as Hk1.
    replace (Z.of_nat (length before) + 1) with (Z.of_nat (length (before ++ [v]))) by (rewrite length_app; cbn; lia).
    apply (IH _ rest' s1 kids1 ns1 ns' (b || gives_stdin st)); try done.
    + by eapply step_sound.
    + by eapply step_first.
    + by eapply add_set_keeps.
    + by eapply inputs_keep.
    + by rewrite <-app_assoc.
    + eapply Forall2_impl; [exact Hrest|]. intros x y. by eapply set_shown_keeps.
    + pose proof (step_room _ _ _ _ _ Hst1). lia.
    + intros s2 kids2 Hh2 Hst2 Hin2 Hoth2. apply (HQ s2 kids2); [done|by eapply then_step| |by eapply others_trans].
      cbn [existsb]. by rewrite orb_assoc.
Qed.

(** * Output sets *)

Record outputs_at s (outs : list view) : Prop := {
  out_tree_at : tree_at (fs_rt s) (rt_output_sets (fs_rt s)) outs;
  out_len : Z.of_nat (length outs) = output_sets_len (fs_rt s);
}.

Lemma outputs_keep c s s' outs : keeps c s s' -> outputs_at s outs -> outputs_at s' outs.
Proof.
  intros H [Ht Hl]. split; [|by rewrite (kp_only _ _ _ H)].
  assert (E : rt_output_sets (fs_rt s') = rt_output_sets (fs_rt s)) by by rewrite (kp_only _ _ _ H).
  rewrite E. by eapply tree_keeps.
Qed.

(** A name of a set in the platform's memory. *)
Record name_shown s (v : view) (name : list Z) : Prop := {
  ns_path : path_at s v.1.1 name;
  ns_len : v.1.2 = Z.of_nat (length name);
  ns_small : Z.of_nat (length name) < 2 ^ 31;
  ns_names : Forall dir_name (components name);
}.

Lemma name_shown_keeps c s s' v name : keeps c s s' -> name_shown s v name -> name_shown s' v name.
Proof. intros H []. split; [by eapply path_keeps|done..]. Qed.

Definition add_output (name : list Z) (ns : dirmap) : option dirmap :=
  if decide (name = []) then Some ns else mkdirs [] (components name) ns.
Fixpoint add_outputs (names : list (list Z)) (ns : dirmap) : option dirmap :=
  match names with
  | [] => Some ns
  | name :: names => match add_output name ns with Some ns => add_outputs names ns | None => None end
  end.
Definition names_cost (names : list (list Z)) : Z := foldr (fun name c => name_cost name + c) 0 names.
Lemma names_cost_pos names : 0 <= names_cost names.
Proof. induction names as [|n names IH]; cbn; [lia|]. pose proof (name_cost_pos n). unfold names_cost in IH. lia. Qed.

Lemma add_output_keeps name ns ns' cs e : add_output name ns = Some ns' -> ns !! cs = Some e -> ns' !! cs = Some e.
Proof. unfold add_output. destruct (decide _); [by intros [= ->]|]. intros Hm. by eapply mkdirs_base. Qed.

Lemma output_getters_at s outs i v : outputs_at s outs -> zlookup i outs = Some v ->
  on_rt (dandelion_output_set_ident i) s = Ret v.1.1 s /\ on_rt (dandelion_output_set_ident_len i) s = Ret v.1.2 s.
Proof.
  intros [(sets & Ht) Hl] Hi. pose proof (zlookup_range _ _ _ Hi).
  destruct (sets_at_lookup _ _ _ _ _ _ Ht Hi) as (Hp0 & _ & Harr & set & Hset & [E1 E2 _ _ _ _]).
  assert (Hget : get_set (rt_output_sets (fs_rt s)) i (fs_rt s) = Ret set (fs_rt s)).
  { unfold get_set, array_get. by rewrite (proj2 (Z.eqb_neq _ _)), Harr, Hset by done. }
  unfold on_rt, zoom, dandelion_output_set_ident, dandelion_output_set_ident_len, bind, gets.
  rewrite (proj2 (Z.leb_gt _ _)) by lia. rewrite Hget. unfold ret. by rewrite E1, E2, with_rt_id.
Qed.

Lemma initialize_output_set_spec s kids ns ns' outs i v name (Q : option Z -> fs M -> Prop) :
  holds s kids ns -> sound s -> first_live s -> ns !! [] = Some EDir ->
  outputs_at s outs -> zlookup i outs = Some v -> name_shown s v name ->
  add_output name ns = Some ns' -> name_cost name <= sys_room (rt_sys (fs_rt s)) ->
  (forall s' kids', holds s' kids' ns' -> step (name_cost name) s kids s' kids' ->
     open_files s' = open_files s -> Q None s') ->
  wp (initialize_output_set i) Q s.
Proof.
  intros H Hs Hfl Hroot Houts Hi [Hp Hlen Hsm Hnames] Hadd Hroom HQ.
  destruct (output_getters_at s outs i v Houts Hi) as (E1 & E2). unfold initialize_output_set, add_output in *.
  apply wp_bind. unfold wp at 1. rewrite E1. apply wp_bind. unfold wp at 1. rewrite E2, Hlen.
  destruct (decide (name = [])) as [->|Hne].
  { apply wp_ret, (HQ s kids); [by injection Hadd as <-|by apply rest_step|done]. }
  rewrite (proj2 (Z.eqb_neq _ 0)) by (destruct name; [done|cbn; lia]).
  apply wp_bind. unfold wp at 1. rewrite load_path_spec by done. apply wp_bind.
  eapply set_directory_spec; [done|done|done|done|done|done|done|exact Hadd|done|].
  intros s1 kids1 Hh1 Hst1 Ho1 Hnn _ _. rewrite (proj2 (Z.eqb_neq _ _)) by done. by apply wp_ret, (HQ s1 kids1).
Qed.

Lemma initialize_output_sets_spec outs : forall names before rest s kids ns ns' (Q : option Z -> fs M -> Prop),
  holds s kids ns -> sound s -> first_live s -> ns !! [] = Some EDir ->
  outputs_at s outs -> outs = before ++ rest -> Forall2 (name_shown s) rest names ->
  add_outputs names ns = Some ns' -> names_cost names <= sys_room (rt_sys (fs_rt s)) ->
  (forall s' kids', holds s' kids' ns' -> step (names_cost names) s kids s' kids' ->
     open_files s' = open_files s -> Q None s') ->
  wp (for_from (length names) (Z.of_nat (length before)) initialize_output_set) Q s.
Proof.
  induction names as [|name names IH]; intros before rest s kids ns ns' Q H Hs Hfl Hroot Houts Hsplit Hshown Hadd Hroom HQ.
  - apply wp_ret, (HQ s kids); [by injection Hadd as <-|by apply rest_step|done].
  - inversion Hshown as [|v ? rest' ? Hv Hrest]; subst.
    cbn [add_outputs names_cost foldr length for_from] in *. change (foldr _ 0 names) with (names_cost names) in *.
    destruct (add_output name ns) as [ns1|] eqn:Hadd1; [|done].
    pose proof (name_cost_pos name). pose proof (names_cost_pos names).
    apply wp_bind. eapply (initialize_output_set_spec s kids ns ns1 _ _ v name); try done; [apply zlookup_middle|lia|].
    intros s1 kids1 Hh1 Hst1 Ho1. pose proof (st_keeps _ _ _ _ _ Hst1) as Hk1.
    replace (Z.of_nat (length before) + 1) with (Z.of_nat (length (before ++ [v]))) by (rewrite length_app; cbn; lia).
    apply (IH _ rest' s1 kids1 ns1 ns'); try done.
    + by eapply step_sound.
    + by eapply step_first.
    + by eapply add_output_keeps.
    + by eapply outputs_keep.
    + by rewrite <-app_assoc.
    + eapply Forall2_impl; [exact Hrest|]. intros x y. by eapply name_shown_keeps.
    + pose proof (step_room _ _ _ _ _ Hst1). lia.
    + intros s2 kids2 Hh2 Hst2 Ho2. apply (HQ s2 kids2); [done|by eapply then_step|congruence].
Qed.
End init.
