(* ===== verification/FsDemo.v ===== *)
(** Concrete states of the file system, on which the theorems about it are
    instantiated. *)
From S2P Require Import Prelude Bytes Heap Alloc AllocSession AllocTheorems System RuntimeIO Paths PathSpec FsStore FileSystem FsImpl FsLemmas FsTree FsResolve FsData FsWrite.

(** * A machine *)

#[export] Instance demo_machine : Machine := {|
  found := fun _ _ => 170;
  junk_set := IoSet 1 1 1 1 1;
  junk_buf := IoBuffer 1 1 1 1 1;
  random_value := fun seed n => seed + n;
  to_char := fun z => z mod 256;
|}.
#[export] Instance demo_system : System session := session_system true.

(** * Live memory *)

(** A sequence of requests to the allocator. *)
Fixpoint allocs (requests : list Z) : prog session (list Z) :=
  match requests with
  | [] => ret []
  | n :: requests => let! p := session_alloc n 8 in let! ps := allocs requests in ret (p :: ps)
  end.

Lemma allocs_sound requests m :
  sys_sound m -> Forall (fun n => 0 <= n < 2 ^ 64) requests ->
  wp (allocs requests) (fun _ m' => sys_sound m') m.
Proof.
  intros Hm Hr. revert m Hm. induction Hr as [|n requests Hn Hr IH]; intros m Hm; [by apply wp_ret|].
  apply wp_bind. eapply wp_mono; [by apply (sys_alloc_law (System := demo_system) m n 8); [..|lia]|].
  intros p m' [Hm' _]. apply wp_bind. eapply wp_mono; [by apply IH|]. intros ps m2 Hm2. by apply wp_ret.
Qed.

Definition demo_start : session := Session (init_heap 4096 (4096 + 16 * 4096) ∅) [].
Definition demo_requests : list Z := [32; 8; 8; 32; 8].
Definition demo_session : session :=
  match allocs demo_requests demo_start with Ret _ m => m | Fault _ => demo_start end.

Lemma demo_session_run :
  allocs demo_requests demo_start = Ret [4104; 4152; 4176; 4200; 4248] demo_session.
Proof. vm_compute. reflexivity. Qed.

Lemma demo_session_sound : sys_sound demo_session.
Proof.
  eapply (wp_from_run _ (fun _ m => sys_sound m)); [apply demo_session_run|].
  apply allocs_sound; [exists []; apply inv_init; lia|]. repeat constructor; lia.
Qed.

Lemma demo_session_live :
  sys_live demo_session = [(4248, 1); (4200, 4); (4176, 1); (4152, 1); (4104, 4)].
Proof. vm_compute. reflexivity. Qed.

(** * Nodes

    The directories [in] and [out] under the root, the file [data] in [in], and
    a file [new] that is in no directory. *)
Definition node (str : String.string) (nxt par : Z) (t : file_type) (c : Z) : dfile :=
  DFile (static_name (chars str)) nxt par t c 1 0 (Z.lor S_IRUSR S_IWUSR).
Definition demo_files : gmap Z dfile :=
  <[fs_root := node "/" NULL NULL DIRECTORY 500]> (
  <[500 := node "in" 600 fs_root DIRECTORY 700]> (
  <[600 := node "out" NULL fs_root DIRECTORY NULL]> (
  <[700 := node "data" NULL 500 FILE 4104]> (
  <[800 := node "new" NULL NULL FILE NULL]> ∅)))).
Definition demo_kids (x : Z) : list Z :=
  if x =? fs_root then [500; 600] else if x =? 500 then [700] else [].

(** Bytes of a buffer. *)
Definition buffer (a : Z) (l : list Z) (m : gmap Z Z) : gmap Z Z := write_bytes a l m.

(** The file has one chunk of eight bytes that holds three, and there is a
    buffer of eight bytes. *)
Definition demo_chunks : gmap Z file_chunk := {[4104 := FileChunk 4152 8 3 NULL]}.
Definition demo_bytes : gmap Z Z :=
  buffer 4152 (chars "abc" ++ replicate 5 0) (buffer 4176 (chars "defghijk") ∅).

(** The same with two chunks of three bytes. *)
Definition demo_two_chunks : gmap Z file_chunk :=
  <[4104 := FileChunk 4152 8 3 4200]> {[4200 := FileChunk 4248 8 3 NULL]}.
Definition demo_two_bytes : gmap Z Z := buffer 4248 (chars "xyz" ++ replicate 5 0) demo_bytes.

Definition demo_runtime : runtime session :=
  Runtime demo_session 0 [] 0 [] [] NULL NULL NULL ∅ ∅.
Definition demo_open : list open_file :=
  OpenFile 700 4104 0 O_RDWR :: replicate 1023 (OpenFile NULL NULL 0 0).
Definition demo_state (cs : gmap Z file_chunk) (m : gmap Z Z) : fs session :=
  Fs demo_runtime demo_files cs m ∅ ∅ demo_open 0 0 0 NULL NULL 0%nat.
Definition demo_fs : fs session := demo_state demo_chunks demo_bytes.
Definition demo_two : fs session := demo_state demo_two_chunks demo_two_bytes.

(** * Facts *)

Ltac each_lookup H :=
  repeat (apply lookup_insert_Some in H as [[<- <-]|[_ H]]); try (by rewrite lookup_empty in H).

Lemma demo_named : all_named demo_files.
Proof. intros x f H. unfold demo_files in H. each_lookup H; reflexivity. Qed.

Lemma demo_chains x d : demo_files !! x = Some d -> ftype d = DIRECTORY ->
  chain next demo_files (content d) (demo_kids x).
Proof.
  intros H. unfold demo_files in H. each_lookup H; cbn; try done; intros _;
    repeat (split_and!; [done|done|]; eexists; split; [vm_compute; reflexivity|]; cbn); done.
Qed.

Lemma demo_tree : tree_ok demo_files demo_kids.
Proof.
  split.
  - by eexists.
  - apply demo_named.
  - apply demo_chains.
  - intros x. unfold demo_kids. repeat case_bool; subst; set_solver.
  - vm_compute. reflexivity.
  - intros x d _ H. unfold demo_files in H. each_lookup H; cbn; try (by left); right; by eexists.
Qed.

(** The buffers. *)
Ltac solve_region :=
  repeat (apply region_cons; split; [vm_compute; reflexivity|]); apply region_nil.

Lemma demo_region : region demo_bytes 4152 (chars "abc" ++ replicate 5 0).
Proof. solve_region. Qed.
Lemma demo_source_region : region demo_bytes 4176 (chars "defghijk").
Proof. solve_region. Qed.
Lemma demo_two_region : region demo_two_bytes 4152 (chars "abc" ++ replicate 5 0).
Proof. solve_region. Qed.
Lemma demo_two_second : region demo_two_bytes 4248 (chars "xyz" ++ replicate 5 0).
Proof. solve_region. Qed.
Lemma demo_two_source : region demo_two_bytes 4176 (chars "defghijk").
Proof. solve_region. Qed.

Definition demo_l : list (Z * list Z) := [(4104, chars "abc")].
Definition demo_l2 : list (Z * list Z) := [(4104, chars "abc"); (4200, chars "xyz")].

Lemma demo_stored : stored demo_chunks demo_bytes 4104 demo_l.
Proof.
  split.
  - split_and!; [done|done|]. by eexists.
  - constructor; [|constructor]. eexists. split; [vm_compute; reflexivity|]. cbn.
    split_and!; try lia. apply (proj1 (proj1 (region_app _ _ _ _) demo_region)).
Qed.

Lemma demo_two_stored : stored demo_two_chunks demo_two_bytes 4104 demo_l2.
Proof.
  split.
  - split_and!; [done|done|]. eexists. split; [vm_compute; reflexivity|].
    split_and!; [done|done|]. by eexists.
  - repeat constructor; (eexists; split; [vm_compute; reflexivity|]); cbn; split_and!; try lia.
    + apply (proj1 (proj1 (region_app _ _ _ _) demo_two_region)).
    + apply (proj1 (proj1 (region_app _ _ _ _) demo_two_second)).
Qed.

Lemma demo_file_ok : file_ok demo_fs 4104 demo_l.
Proof.
  assert (Hone : forall x c, x ∈ demo_l.*1 -> demo_chunks !! x = Some c ->
    x = 4104 /\ c = FileChunk 4152 8 3 NULL).
  { intros x c Hx%list_elem_of_singleton Hc. cbn in Hx. subst x. split; [done|].
    vm_compute in Hc. by injection Hc as <-. }
  split; [apply demo_stored| |].
  - intros x c Hx Hc. destruct (Hone x c Hx Hc) as [-> ->]. unfold live. cbn [fs_rt demo_fs demo_state rt_sys demo_runtime].
    rewrite demo_session_live. split_and!; [cbn; set_solver|exists 1; split; [set_solver|cbn; lia]|].
    exact (region_writable _ _ _ demo_region).
  - intros x y cx cy Hx Hy Hne Hcx Hcy. destruct (Hone x cx Hx Hcx) as [-> _], (Hone y cy Hy Hcy) as [-> _]. done.
Qed.

Lemma demo_two_ok : file_ok demo_two 4104 demo_l2.
Proof.
  assert (Hone : forall x c, x ∈ demo_l2.*1 -> demo_two_chunks !! x = Some c ->
    (x = 4104 /\ c = FileChunk 4152 8 3 4200) \/ (x = 4200 /\ c = FileChunk 4248 8 3 NULL)).
  { intros x c Hx Hc. cbn in Hx. apply elem_of_cons in Hx as [->|Hx%list_elem_of_singleton]; [left|right; subst x];
      (split; [done|]; vm_compute in Hc; by injection Hc as <-). }
  split; [apply demo_two_stored| |].
  - intros x c Hx Hc. unfold live. cbn [fs_rt demo_two demo_state rt_sys demo_runtime].
    rewrite demo_session_live. destruct (Hone x c Hx Hc) as [[-> ->]|[-> ->]].
    + split_and!; [cbn; set_solver|exists 1; split; [set_solver|cbn; lia]|].
      exact (region_writable _ _ _ demo_two_region).
    + split_and!; [cbn; set_solver|exists 1; split; [set_solver|cbn; lia]|].
      exact (region_writable _ _ _ demo_two_second).
  - intros x y cx cy Hx Hy Hne Hcx Hcy. unfold disjoint_range.
    destruct (Hone x cx Hx Hcx) as [[-> ->]|[-> ->]], (Hone y cy Hy Hcy) as [[-> ->]|[-> ->]]; cbn; lia.
Qed.

Lemma demo_source : source_ok demo_fs 4176 (chars "defg") demo_l.
Proof.
  split; [|lia| |].
  - apply (take_region _ _ _ 4 demo_source_region).
  - left. exists 4176, 1. unfold live. cbn [fs_rt demo_fs demo_state rt_sys demo_runtime].
    rewrite demo_session_live. split; [set_solver|]. cbn. lia.
  - intros x c Hx%list_elem_of_singleton Hc. cbn in Hx. subst x. vm_compute in Hc. injection Hc as <-.
    unfold disjoint_range. cbn. lia.
Qed.
