(* ===== verification/PathTheorems.v ===== *)
(** What the path functions promise: names are ordered like their characters,
    and a path is the list of its components. *)
From S2P Require Import Prelude Bytes Heap System RuntimeIO Paths PathSpec FsStore FileSystem FsImpl FsLemmas FsTree FsResolve FsDemo.

(** * Names and components *)

(** [namecmp] never reads outside the two names and returns the sign of the
    lexicographic order of the characters in front of their terminators; it
    returns 0 exactly for equal names, and the opposite sign when the names are
    exchanged. *)
Theorem namecmp_orders {S} (s : S) l1 n1 l2 n2 :
  0 <= n1 <= Z.of_nat (length l1) -> 0 <= n2 <= Z.of_nat (length l2) ->
  exists r, namecmp l1 n1 l2 n2 s = Ret r s /\ namecmp l2 n2 l1 n1 s = Ret (- r) s /\
    r = cmp_int (lex (cstr n1 l1) (cstr n2 l2)) /\ (r = 0 <-> cstr n1 l1 = cstr n2 l2).
Proof.
  intros H1 H2. exists (cmp_int (lex (cstr n1 l1) (cstr n2 l2))).
  rewrite !namecmp_spec by done. split_and!; [done| |done|].
  - f_equal. rewrite (lex_antisym (cstr n1 l1)). by destruct (lex (cstr n1 l1) (cstr n2 l2)).
  - rewrite <-lex_eq. by destruct (lex _ _).
Qed.

Lemma namecmp_orders_witness :
  exists r, namecmp (chars "stdin" ++ [0; 7]) 7 (chars "stdio") 5 tt = Ret r tt /\ r = -1.
Proof.
  destruct (namecmp_orders tt (chars "stdin" ++ [0; 7]) 7 (chars "stdio") 5) as (r & H & _ & E & _);
    [vm_compute; split; discriminate|vm_compute; split; discriminate|].
  exists r. split; [exact H|]. rewrite E. vm_compute. reflexivity.
Defined.

(** [get_component_advance] splits the first component off a path: the text
    it returns has no slash, the components of the path are this one followed
    by the components of the rest, and it is empty exactly when there are no
    more components; the rest is never longer, and shorter while a component
    was found, so the loops over it end. *)
Theorem advance_takes_component {S} (s : S) p :
  path_ok p ->
  exists q rest, get_component_advance p s = Ret (q, rest) s /\ path_ok q /\ path_ok rest /\
    Forall (fun c => c <> slash) (text q) /\ (p_len q = 0 <-> components (text p) = []) /\
    (p_len q <> 0 -> components (text p) = text q :: components (text rest) /\ p_len rest < p_len p).
Proof.
  intros Hp. destruct (component_advance_spec p s Hp) as (q & r & Hrun & Hq & Hr & _ & _ & _ & Eq & Er).
  exists q, r. pose proof (advance_components p q r Eq Er) as E.
  split_and!; [done|done|done| | |].
  - rewrite Eq. apply Forall_forall. intros c Hc%take_while_all. unfold not_slash in Hc. by bool_to_prop.
  - rewrite <-text_nil by done. rewrite E. by destruct (text q).
  - intros Hl. assert (Hne : text q <> []) by by rewrite text_nil.
    split.
    + rewrite E. by destruct (text q).
    + by eapply (advance_shorter p q r).
Qed.

Lemma advance_takes_component_witness :
  exists q rest, get_component_advance (Path (chars "//in/a") 0 6) tt = Ret (q, rest) tt /\
    text q :: components (text rest) = [chars "in"; chars "a"].
Proof.
  destruct (advance_takes_component tt (Path (chars "//in/a") 0 6)) as (q & r & Hrun & _ & _ & _ & Hz & Hc).
  - split; cbn; lia.
  - exists q, r. split; [exact Hrun|]. rewrite <-(proj1 (Hc ltac:(intros H; apply Hz in H; vm_compute in H; discriminate))).
    vm_compute. reflexivity.
Defined.

(** a path that does not end in a slash splits into the directories in
    front of its last slash and the name behind it. *)
Theorem path_splits {S} (s : S) p d f :
  path_ok p -> f <> [] -> Forall (fun c => c <> slash) f ->
  (text p = d ++ slash :: f \/ d = [] /\ text p = f) ->
  exists pd pf, get_directories p s = Ret pd s /\ get_file p s = Ret pf s /\
    text pd = d /\ text pf = f.
Proof.
  intros Hp Hne Hf Ht. destruct (split_path_spec p s f d Hp Hne) as (pd & pf & H1 & H2 & _ & _ & H3 & H4); [|done|].
  - eapply Forall_impl; [exact Hf|]. intros c Hc. by apply Z.eqb_neq.
  - by exists pd, pf.
Qed.

Lemma path_splits_witness :
  exists pd pf, get_directories (Path (chars "sub/dir/file") 0 12) tt = Ret pd tt /\
    get_file (Path (chars "sub/dir/file") 0 12) tt = Ret pf tt /\
    text pd = chars "sub/dir" /\ text pf = chars "file".
Proof.
  apply (path_splits tt (Path (chars "sub/dir/file") 0 12) (chars "sub/dir") (chars "file")).
  - split; cbn; lia.
  - discriminate.
  - repeat constructor; discriminate.
  - left. vm_compute. reflexivity.
Defined.

Lemma char_at_outside {S} str i (s : S) :
  Z.of_nat (length str) <= i -> char_at str i s = Fault OutOfBounds.
Proof.
  intros Hi. unfold char_at. destruct (zlookup i str) eqn:E; [|done].
  apply zlookup_range in E. lia.
Qed.

(** a path that ends in a slash does not split: the directory part is the
    whole path without the slash and the name is the last component with the
    slash; and the name of an empty path is looked for at the end of the address
    space, far behind the string. *)
Theorem trailing_slash_example {S} (s : S) str :
  Z.of_nat (length str) < 2 ^ 64 - 1 ->
  (get_directories (Path (chars "a/b/") 0 4) s = Ret (Path (chars "a/b/") 0 3) s /\
   get_file (Path (chars "a/b/") 0 4) s = Ret (Path (chars "a/b/") 2 2) s) /\
  get_file (Path str 0 0) s = Fault OutOfBounds.
Proof.
  intros Hstr. split; [split; vm_compute; reflexivity|].
  unfold get_file. cbn [p_len]. rewrite wrap64_neg by lia. apply bind_fault.
  cbn [scan_back]. rewrite (proj2 (Z.gtb_lt _ 0)) by lia. apply bind_fault, bind_fault.
  unfold path_char. apply char_at_outside. cbn [p_str p_off]. lia.
Qed.

Lemma trailing_slash_example_witness :
  get_file (Path (literal "") 0 0) tt = Fault OutOfBounds.
Proof. apply (trailing_slash_example tt (literal "")). vm_compute. reflexivity. Defined.

(** * Lookup *)

Section lookup.
Context {M : Type} {HS : System M} {HM : Machine}.
Implicit Types s : fs M.

(** C24: looking up a path visits the tree component by component, starting at
    the root: ["."] stays, [".."] goes to the parent, a name goes to the child
    of that name; it gives [NULL] as soon as a component is missing or a node
    on the way is not a directory, and changes nothing. *)
Theorem find_file_resolves s kids str t :
  tree_ok (files s) kids -> c_string str t ->
  find_file str s = Ret (resolve (files s) kids fs_root (components t)) s.
Proof. apply find_file_spec. Qed.
End lookup.

Lemma find_file_resolves_witness : find_file (literal "/in/./data") demo_fs = Ret 700 demo_fs.
Proof.
  refine (eq_trans (find_file_resolves demo_fs demo_kids _ (chars "/in/./data") demo_tree _) _).
  - split; [by exists []|repeat constructor; discriminate|vm_compute; reflexivity].
  - vm_compute. reflexivity.
Defined.
