(* ===== verification/FsNodeTheorems.v ===== *)
(** What the directories of the file system promise, and where they do not:
    sorted insertion, search, creation, opening. *)
From Stdlib Require Import Sorting.Sorted.
From S2P Require Import Prelude Bytes Heap Alloc AllocSession AllocTheorems System RuntimeIO Paths PathSpec FsStore FileSystem FsImpl FsLemmas FsTree FsResolve FsData FsWrite FsNames FsSpace FsDemo.

Section nodes.
Context {M : Type} {HS : System M} {HM : Machine}.
Implicit Types s : fs M.

(** C27: linking a node into a directory returns 0, makes the directory its
    parent, counts the link on 16 bits, and puts the node into the list of
    children at its place in the order of names; a directory that was sorted
    stays sorted, has exactly one child more, and no other node changes but for
    the pointer to its right neighbour. *)
Theorem link_keeps_sorted s folder file d f l :
  children (files s) folder d l -> sorted_names (files s) l -> all_named (files s) ->
  files s !! file = Some f -> file <> NULL -> file <> folder -> file ∉ l ->
  wp (link_file_to_folder folder file) (fun r s' => r = 0 /\
    exists m' d' l', s' = with_files m' s /\ children m' folder d' l' /\
      sorted_names m' l' /\ l' ≡ₚ file :: l /\
      (exists n, m' !! file = Some (set_next n (adopted folder f))) /\
      (forall x, x <> folder -> x <> file -> x ∉ l -> m' !! x = files s !! x) /\
      (forall x g, x ∈ l -> files s !! x = Some g -> exists n, m' !! x = Some (set_next n g))) s.
Proof.
  intros Hch Hs Hn Hf Hf0 Hne Hni. eapply wp_mono; [by eapply link_spec|].
  intros r s' (-> & m' & -> & Hlk). split; [done|].
  destruct (linked_children _ _ _ _ _ _ _ Hch Hlk Hf Hne) as [d' Hd'].
  assert (Hin : forall x, x ∈ l -> is_Some (files s !! x)) by (intros x Hx; eapply chain_in; [apply Hch|done]).
  exists m', d', (insert_child (files s) file l). split_and!; [done|done| |apply insert_child_perm| | |].
  - eapply sorted_names_ext; [by eapply linked_names; [|apply Hch|..]|]. by apply insert_child_sorted.
  - by apply (lk_file _ _ _ _ _ Hlk).
  - by apply (lk_kept _ _ _ _ _ Hlk).
  - by apply (lk_child _ _ _ _ _ Hlk).
Qed.

(** in a sorted directory a search for a name that is not ["."] or [".."]
    returns a child of that name, and [NULL] only if there is none, although it
    stops at the first greater name; nothing changes. *)
Theorem find_in_dir_exact s folder d l q :
  path_ok q -> plain q -> children (files s) folder d l -> sorted_names (files s) l ->
  all_named (files s) ->
  exists x, find_file_in_dir folder q s = Ret x s /\
    (x = NULL -> forall y, y ∈ l -> name_at (files s) y <> path_name q) /\
    (x <> NULL -> x ∈ l /\ name_at (files s) x = path_name q).
Proof.
  intros Hq Hp Hch Hs Hn. eexists. split; [by eapply find_in_dir_spec|]. split.
  - intros E. apply find_child_none; [done| |done]. intros Hin.
    by destruct (chain_in _ _ _ _ _ (ch_list _ _ _ _ Hch) Hin).
  - apply find_child_sound.
Qed.

(** after a node was linked into a sorted directory, a search for its name
    finds it, unless another child already had that name, in which case the
    search keeps finding the other one; a search for any other name gives what
    it gave before. *)
Theorem link_then_find s folder file d f l q :
  path_ok q -> plain q ->
  children (files s) folder d l -> sorted_names (files s) l -> all_named (files s) ->
  files s !! file = Some f -> file <> NULL -> file <> folder -> file ∉ l ->
  let found := find_child (files s) (path_name q) l in
  find_file_in_dir folder q s = Ret found s /\
  wp (link_file_to_folder folder file) (fun _ s' =>
    find_file_in_dir folder q s' =
    Ret (if decide (node_name f = path_name q /\ found = NULL) then file else found) s') s.
Proof.
  intros Hq Hp Hch Hs Hn Hf Hf0 Hne Hni found. split; [by eapply find_in_dir_spec|].
  eapply wp_mono; [by eapply link_spec|]. intros r s' (_ & m' & -> & Hlk).
  assert (Hin : forall x, x ∈ l -> is_Some (files s !! x)) by (intros x Hx; eapply chain_in; [apply Hch|done]).
  destruct (linked_children _ _ _ _ _ _ _ Hch Hlk Hf Hne) as [d' Hd'].
  assert (Hnull : NULL ∉ l) by (intros H; by destruct (chain_in _ _ _ _ _ (ch_list _ _ _ _ Hch) H)).
  rewrite (find_in_dir_spec folder d' (insert_child (files s) file l)); [|done|done|done|].
  2: { eapply linked_all_named; [done|apply Hch|done|done|done]. }
  cbn [files with_files].
  rewrite (find_child_ext (files s)) by (eapply linked_names; [done|apply Hch|done|done]).
  rewrite find_child_insert, (name_at_eq _ _ _ Hf) by done. f_equal. fold found.
  destruct (decide (node_name f = path_name q)) as [E|E].
  - destruct (decide (found = NULL)) as [E2|E2]; [by rewrite decide_True|].
    rewrite decide_False; [done|]. by intros [_ ?].
  - rewrite decide_False; [done|]. by intros [? _].
Qed.

(** * Creation *)

Lemma take_while_app t l : Forall (fun c => c <> NUL) t ->
  take_while (fun c => negb (c =? NUL)) (t ++ l) = t ++ take_while (fun c => negb (c =? NUL)) l.
Proof. induction 1 as [|c t Hc _ IH]; cbn; [done|]. by rewrite (proj2 (Z.eqb_neq _ _)), IH by done. Qed.

(** C38: A new file without content gets the characters of its name and keeps
    behind them whatever the memory of the allocation held before: the node's name is the
    one it was created with when the byte behind it happened to be zero, and otherwise
    goes on with the old bytes up to the first zero. *)
Theorem create_file_name s q fmode :
  path_ok q -> Forall (fun c => c <> NUL) (text q) -> 0 < p_len q < FS_NAME_LENGTH ->
  sound s -> let memory := name (found_file (S (requests s))) in
  wp (create_file q NULL 0 fmode) (fun p s' => p = NULL \/
    exists f, files s' = <[p := f]> (files s) /\ (p ∉ (live s).*1) /\ ftype f = FILE /\
      content f = NULL /\ hard_links f = 0 /\
      name f = text q ++ drop (length (text q)) memory /\
      node_name f = text q ++ take_while (fun c => negb (c =? NUL)) (drop (length (text q)) memory) /\
      (node_name f = text q <-> found (S (requests s)) (p_len q) = NUL)) s.
Proof.
  intros Hq Hnz Hlen Hs memory. pose proof (found_name_length (S (requests s))) as Hj. fold memory in Hj. pose proof (text_length q Hq) as Htl.
  unfold create_file. apply wp_bind, wp_bind, wp_fs_alloc; [done|unfold sizeof_dfile; lia|lia| |].
  { intros s' _. apply wp_bind, wp_ret, wp_ret, wp_ret. by left. }
  intros p n m Hn Hg. pose proof (gr_pos _ _ _ _ Hg) as Hp.
  assert (Hp0 : p <> NULL) by (unfold NULL; lia).
  rewrite (proj2 (Z.eqb_neq _ _)) by done. apply wp_bind, wp_modify, wp_ret.
  rewrite (proj2 (Z.eqb_neq p NULL)), (proj2 (Z.ltb_ge _ _)) by (done || lia). apply wp_bind. unfold wp at 1.
  rewrite path_chars_spec by (done || lia). rewrite Z.add_0_r, Z2Nat.id by lia. fold (text q).
  repeat (apply wp_bind; eapply wp_update_file; [apply lookup_insert_eq|done|]).
  rewrite Z.eqb_refl. cbn [negb].
  apply wp_bind, wp_bind. eapply wp_update_file; [apply lookup_insert_eq|done|]. apply wp_ret. cbn [negb].
  repeat (apply wp_bind; eapply wp_update_file; [apply lookup_insert_eq|done|]).
  apply wp_ret. right. eexists. split.
  { cbn. rewrite !insert_insert_eq. reflexivity. }
  split_and!; try done; [exact (gr_fresh _ _ _ _ Hg)|..].
  all: unfold node_name, cstr; cbn [name set_mode set_open_descripotors set_hard_links set_content set_ftype put_name set_name].
  all: set (t := text q) in *; set (r := drop (length t) memory).
  all: assert (Hr : length r = (64 - length t)%nat) by (unfold r; by rewrite length_drop, Hj).
  all: unfold FS_NAME_LENGTH in *; assert (Hsub : sub_string (t ++ r) 0 64 = t ++ r)
    by (unfold sub_string; change (Z.to_nat 0) with 0%nat; rewrite drop_0; apply take_ge; rewrite length_app; lia).
  all: change (name (found_file (S (requests s)))) with memory; fold r.
  all: rewrite Hsub, take_while_app by done.
  { done. }
  assert (Hd : r = found (S (requests s)) (p_len q) :: drop (S (length t)) memory).
  { unfold r. apply drop_S. rewrite <-Htl. apply found_name_at. lia. }
  rewrite Hd. cbn [take_while]. destruct (_ =? NUL) eqn:Ec; bool_to_prop; cbn [negb].
  - by rewrite app_nil_r.
  - split; [|done]. intros E. apply (f_equal length) in E. rewrite length_app in E. cbn in E. lia.
Qed.

(** * Opening *)

(** The first unused entry of the table. *)
Fixpoint lowest_free (i : Z) (l : list open_file) : option Z :=
  match l with
  | [] => None
  | o :: l => if of_file o =? NULL then Some i else lowest_free (i + 1) l
  end.

Lemma lowest_free_spec i l fd : 0 <= i ->
  lowest_free i l = Some fd -> i <= fd < i + Z.of_nat (length l) /\
    (exists o, zlookup (fd - i) l = Some o /\ of_file o = NULL) /\
    forall k o, 0 <= k < fd - i -> zlookup k l = Some o -> of_file o <> NULL.
Proof.
  revert i. induction l as [|o l IH]; intros i Hi; cbn [lowest_free]; [done|].
  destruct (of_file o =? NULL) eqn:E; bool_to_prop.
  - intros [= <-]. cbn [length]. split_and!; try lia. exists o. by rewrite Z.sub_diag.
  - intros H. destruct (IH (i + 1) ltac:(lia) H) as (Hr & (o' & Ho' & En) & Hall). cbn [length].
    assert (Hcons : forall k, 0 < k -> zlookup k (o :: l) = zlookup (k - 1) l).
    { intros k Hk. unfold zlookup. rewrite !(proj2 (Z.leb_le _ _)) by lia.
      by replace (Z.to_nat k) with (Datatypes.S (Z.to_nat (k - 1))) by lia. }
    split_and!; [lia|lia| |].
    + exists o'. rewrite Hcons by lia. by replace (fd - i - 1) with (fd - (i + 1)) by lia.
    + intros k x Hk Hx. destruct (decide (k = 0)) as [->|]; [by injection Hx as <-|].
      rewrite Hcons in Hx by lia. apply (Hall (k - 1)); [lia|done].
Qed.

Lemma free_descriptor_spec s :
  Z.of_nat (length (open_files s)) = FS_MAX_FILES ->
  free_descriptor s = Ret (lowest_free 0 (open_files s)) s.
Proof.
  intros Hlen. unfold free_descriptor, for_loop. rewrite <-Hlen, Nat2Z.id.
  match goal with |- for_from _ _ ?b _ = _ => set (body := b) end.
  enough (H : forall l pre, open_files s = pre ++ l ->
    for_from (length l) (Z.of_nat (length pre)) body s = Ret (lowest_free (Z.of_nat (length pre)) l) s)
    by by apply (H _ []).
  induction l as [|o l IH]; intros pre E; cbn [length for_from lowest_free]; [done|].
  assert (Ho : zlookup (Z.of_nat (length pre)) (open_files s) = Some o).
  { by rewrite zlookup_nat, E, lookup_app_r, Nat.sub_diag by lia. }
  unfold bind at 1, body at 1, bind at 1, get_open. rewrite Ho.
  destruct (of_file o =? NULL) eqn:En; [done|]. cbn [ret].
  replace (Z.of_nat (length pre) + 1) with (Z.of_nat (length (pre ++ [o]))) by (rewrite length_app; cbn; lia).
  apply IH. by rewrite <-app_assoc.
Qed.

(** opening a file that exists, without [O_TRUNC] and within its
    permissions, returns the lowest descriptor that is not in use, which from
    then on stands for that file at its beginning, and counts the opening; all
    other descriptors and nodes stay as they are.  When no descriptor is free it
    returns [-EMFILE] and changes nothing. *)
Theorem open_lowest_descriptor s str flags omode p f :
  find_file str s = Ret p s -> p <> NULL -> files s !! p = Some f ->
  has flags O_EXCL && has flags O_CREAT = false -> has flags O_TRUNC = false ->
  (has (Z.land flags O_ACCMODE) O_WRONLY = true -> has (mode f) S_IWUSR = true) ->
  Z.of_nat (length (open_files s)) = FS_MAX_FILES ->
  wp (dandelion_open str flags omode) (fun r s' =>
    match lowest_free 0 (open_files s) with
    | None => r = - EMFILE /\ s' = s
    | Some fd => r = fd /\ s' =
        with_open_files (zinsert fd (OpenFile p (if is_file (ftype f) then content f else NULL) 0
            (Z.lor (Z.land flags O_ACCMODE) (Z.land flags O_APPEND))) (open_files s))
          (with_files (<[p := set_open_descripotors (wrap16 (open_descripotors f + 1)) f]> (files s)) s)
    end) s.
Proof.
  intros Hfind Hp Hf Hexcl Htr Hacc Hlen. unfold dandelion_open.
  apply wp_bind. unfold wp at 1. rewrite Hfind, Hexcl. cbn [andb].
  rewrite (proj2 (Z.eqb_neq p NULL)) by done. apply wp_bind, wp_ret. apply wp_bind. unfold wp at 1.
  rewrite free_descriptor_spec by done.
  destruct (lowest_free 0 (open_files s)) as [fd|] eqn:Efd; [|by apply wp_ret].
  destruct (lowest_free_spec 0 _ _ ltac:(lia) Efd) as (Hr & (o & Ho & _) & _). rewrite Z.sub_0_r in Ho.
  apply wp_bind. unfold open_existing_file. apply wp_bind. eapply wp_get_file; [done..|].
  cbn [andb]. replace (has _ O_RDONLY) with false by (unfold has, O_RDONLY; by rewrite Z.land_0_r).
  rewrite andb_false_r.
  replace (negb (has (mode f) S_IWUSR) && has (Z.land flags O_ACCMODE) O_WRONLY) with false.
  2: { destruct (has (Z.land flags O_ACCMODE) O_WRONLY); [by rewrite Hacc|by rewrite andb_false_r]. }
  rewrite Htr. cbn [andb]. apply wp_bind, wp_ret. apply wp_bind. eapply wp_get_file; [done..|].
  apply wp_bind. eapply wp_update_file; [done..|]. apply wp_bind. eapply wp_set_open; [done|].
  apply wp_ret. rewrite (proj2 (Z.ltb_ge 0 0)) by lia. by apply wp_ret.
Qed.
End nodes.

(** * Instances *)

Definition q_of (str : String.string) : path := Path (chars str) 0 (Z.of_nat (length (chars str))).

Lemma demo_root_children : children demo_files fs_root (node "/" NULL NULL DIRECTORY 500) [500; 600].
Proof.
  split; [done|done|done| |set_solver]. exact (demo_chains fs_root _ eq_refl eq_refl).
Qed.

Lemma demo_root_sorted : sorted_names demo_files [500; 600].
Proof.
  constructor; [by repeat constructor|]. repeat constructor. vm_compute. discriminate.
Qed.

Lemma link_keeps_sorted_witness :
  wp (link_file_to_folder fs_root 800) (fun r s' => r = 0 /\
    exists d' l', children (files s') fs_root d' l' /\ sorted_names (files s') l' /\
      l' ≡ₚ [800; 500; 600]) demo_fs.
Proof.
  eapply wp_mono; [apply (link_keeps_sorted demo_fs fs_root 800 _ (node "new" NULL NULL FILE NULL)
    [500; 600] demo_root_children demo_root_sorted demo_named); [reflexivity|discriminate|discriminate|set_solver]|].
  intros r s' (Hr & m' & d' & l' & -> & H1 & H2 & H3 & _). split; [exact Hr|]. by exists d', l'.
Defined.

Lemma find_in_dir_exact_witness :
  exists x, find_file_in_dir fs_root (q_of "out") demo_fs = Ret x demo_fs /\ (x <> NULL -> x ∈ [500; 600]).
Proof.
  destruct (find_in_dir_exact demo_fs fs_root (node "/" NULL NULL DIRECTORY 500) [500; 600] (q_of "out")) as (x & H & _ & Hx).
  - split; cbn; lia.
  - split; vm_compute; discriminate.
  - exact demo_root_children.
  - exact demo_root_sorted.
  - exact demo_named.
  - exists x. split; [exact H|]. intros Hn. apply (Hx Hn).
Defined.

Lemma link_then_find_witness :
  wp (link_file_to_folder fs_root 800) (fun _ s' =>
    find_file_in_dir fs_root (q_of "new") s' = Ret 800 s') demo_fs.
Proof.
  destruct (link_then_find demo_fs fs_root 800 (node "/" NULL NULL DIRECTORY 500) (node "new" NULL NULL FILE NULL) [500; 600] (q_of "new"))
    as [_ H].
  - split; cbn; lia.
  - split; vm_compute; discriminate.
  - exact demo_root_children.
  - exact demo_root_sorted.
  - exact demo_named.
  - reflexivity.
  - discriminate.
  - discriminate.
  - set_solver.
  - eapply wp_mono; [exact H|]. intros r s' E. rewrite E. rewrite decide_True; [reflexivity|].
    split; vm_compute; reflexivity.
Defined.

Lemma create_file_name_witness :
  wp (create_file (q_of "log") NULL 0 S_IRUSR) (fun p s' => p = NULL \/
    exists f, files s' !! p = Some f /\ node_name f = chars "log" ++ replicate 61 170) demo_fs.
Proof.
  eapply wp_mono; [apply (create_file_name demo_fs (q_of "log") S_IRUSR)|].
  - split; cbn; lia.
  - repeat constructor; discriminate.
  - split; vm_compute; reflexivity.
  - exact demo_session_sound.
  - intros p s' [->|(f & E & _ & _ & _ & _ & _ & Hn & _)]; [by left|right]. exists f.
    rewrite E. split; [apply lookup_insert_eq|]. rewrite Hn. vm_compute. reflexivity.
Defined.

Lemma open_lowest_descriptor_witness :
  wp (dandelion_open (literal "/in/data") O_RDWR 0) (fun r s' => r = 1 /\
    zlookup 1 (open_files s') = Some (OpenFile 700 4104 0 O_RDWR)) demo_fs.
Proof.
  eapply wp_mono; [apply (open_lowest_descriptor demo_fs (literal "/in/data") O_RDWR 0 700
    (node "data" NULL 500 FILE 4104)); [vm_compute; reflexivity|discriminate|reflexivity|reflexivity|
    reflexivity|vm_compute; discriminate|vm_compute; reflexivity]|].
  intros r s' H.
  replace (lowest_free 0 (open_files demo_fs)) with (Some 1) in H by (vm_compute; reflexivity).
  destruct H as [-> ->]. split; [reflexivity|]. vm_compute. reflexivity.
Defined.
