(* ===== verification/FsFileTheorems.v ===== *)
(** What reading, writing, seeking, the size and the export of a file do with
    its content, the list of bytes in its chunks. *)
From S2P Require Import Prelude Bytes Heap Alloc AllocSession AllocTheorems System RuntimeIO Paths PathSpec FsStore FileSystem FsImpl FsLemmas FsTree FsResolve FsData FsWrite FsSeek FsExport FsDemo.

Section files.
Context {M : Type} {HS : System M} {HM : Machine}.
Implicit Types s : fs M.

(** An open descriptor of a regular file. *)
Record open_on s (fd : Z) (o : open_file) (f : dfile) : Prop := {
  oo_open : zlookup fd (open_files s) = Some o;
  oo_used : of_file o <> NULL;
  oo_node : files s !! of_file o = Some f;
  oo_file : ftype f = FILE;
}.

(** C23: a write without [O_APPEND] and [USE_OFFSET], at the last chunk of a
    file, puts the whole buffer behind the content of the file, across as many
    new chunks as it takes, and returns its length.  Where the descriptor stood
    plays no role, and with [MOVE_OFFSET] it ends at the beginning of the last
    chunk.  The only other outcome is the dereference of [NULL] when a chunk
    cannot be allocated. *)
Theorem write_appends s fd o f ptr buf off options l x t :
  open_on s fd o f -> file_ok s (content f) (l ++ [(x, t)]) ->
  source_ok s ptr buf (l ++ [(x, t)]) -> sound s ->
  current_chunk o = x \/ (current_chunk o = NULL /\ l = []) ->
  has (open_flags o) O_APPEND = false -> has options USE_OFFSET = false ->
  Z.of_nat (length buf) < 2 ^ 31 - 4096 ->
  wpf (dandelion_write fd ptr (Z.of_nat (length buf)) off options) (fun r s' =>
    r = Z.of_nat (length buf) /\ files s' = files s /\ sound s' /\ exists l' y u,
      file_ok s' (content f) (l' ++ [(y, u)]) /\
      contents (l' ++ [(y, u)]) = contents (l ++ [(x, t)]) ++ buf /\
      open_files s' = if has options MOVE_OFFSET
        then zinsert fd (OpenFile (of_file o) y 0 (open_flags o)) (open_files s)
        else open_files s) NullDeref s.
Proof. intros []. by apply dandelion_write_spec. Qed.

Lemma write_fits_run s fd o f ptr buf off options l x t c :
  open_on s fd o f -> file_ok s (content f) (l ++ [(x, t)]) ->
  source_ok s ptr buf (l ++ [(x, t)]) -> sound s ->
  current_chunk o = x \/ (current_chunk o = NULL /\ l = []) ->
  has (open_flags o) O_APPEND = false -> has options USE_OFFSET = false ->
  chunks s !! x = Some c -> used c + Z.of_nat (length buf) <= capacity c ->
  0 < Z.of_nat (length buf) ->
  wp (dandelion_write fd ptr (Z.of_nat (length buf)) off options) (fun r s' =>
    r = Z.of_nat (length buf) /\ s' = moved options fd o x 0 (appended s x c buf)) s.
Proof.
  intros [Ho Hof Hf Ht] Hok Hsrc Hs Hcur Happ Huse Hc Hcap Hpos. unfold dandelion_write.
  apply wp_bind. eapply wp_get_open; [done|]. rewrite (proj2 (Z.eqb_neq _ _)) by done.
  replace (has (open_flags o) O_RDONLY) with false by (unfold has, O_RDONLY; by rewrite Z.land_0_r).
  cbn [orb]. apply wp_bind. eapply wp_get_file; [done..|]. rewrite Ht. cbn [is_device is_file negb].
  apply wp_bind. unfold write_start. destruct (fo_stored _ _ _ Hok) as [Hch Hall].
  assert (Hxin : x ∈ (l ++ [(x, t)]).*1) by (rewrite fmap_app; set_solver).
  assert (Hx0 : x <> NULL) by by eapply chain_in.
  assert (Hnn : content f <> NULL).
  { rewrite fmap_app in Hch. destruct l as [|[z v] l]; destruct Hch as (-> & ? & _); done. }
  rewrite (proj2 (Z.eqb_neq (content f) NULL)) by done. rewrite Huse.
  eapply wp_mono with (P := fun r s' => r = Some (x, 0) /\ s' = s).
  { destruct Hcur as [Hcur|[Hcur ->]].
    - rewrite Hcur, (proj2 (Z.eqb_neq _ _)) by done. by apply wp_ret.
    - rewrite Hcur, Z.eqb_refl. apply wp_ret. split; [|done]. by destruct Hch as (-> & _). }
  intros r s' [-> ->]. rewrite Happ. cbn [andb]. apply wp_bind, wp_ret.
  destruct (stored_in _ _ _ _ x t (fo_stored _ _ _ Hok) ltac:(set_solver)) as (_ & c' & Hc' & Hu & Hcc & _).
  cbv [fst snd] in Hc'. assert (c' = c) as -> by congruence.
  set (k := Z.of_nat (length buf)) in *.
  assert (Hk : Z.min k (capacity c - used c) = k) by lia.
  assert (Htake : take (Z.to_nat k) buf = buf) by (apply take_ge; lia).
  apply wp_bind. eapply wp_mono with (P := fun r s' => r = (x, k) /\ s' = appended s x c buf).
  { unfold write_chunks. replace (Z.to_nat k) with (Datatypes.S (Z.to_nat (k - 1))) by lia.
    apply wp_loop_step. rewrite (proj2 (Z.gtb_lt k 0)) by lia. cbn [negb]. apply wp_bind.
    eapply wp_mono with (P := fun r s' => r = (x, capacity c - used c) /\ s' = s).
    - apply wp_bind. eapply wp_get_chunk; [done..|]. cbv zeta. rewrite int32_small by lia.
      rewrite (proj2 (Z.eqb_neq (capacity c - used c) 0)) by lia. by apply wp_ret.
    - intros r s' [-> ->]. apply wp_bind. eapply write_to_spec; [done|done|done|lia|]. cbv zeta. fold k.
      rewrite Hk, Htake. apply wp_ret, wp_loop_step. rewrite Z.sub_diag, wrap64_small by lia.
      cbn [Z.gtb Z.compare negb]. apply wp_ret. split; [|done]. f_equal. by rewrite wrap64_small by lia. }
  intros r s' [-> ->].
  apply wp_bind. unfold moved. destruct (has options MOVE_OFFSET).
  - eapply wp_place_open; [done|]. by apply wp_ret.
  - apply wp_ret, wp_ret. split; [done|]. by destruct s.
Qed.

(** when the buffer fits behind the content of the last chunk, the write
    needs no memory, and never fails. *)
Theorem write_fits s fd o f ptr buf off options l x t c :
  open_on s fd o f -> file_ok s (content f) (l ++ [(x, t)]) ->
  source_ok s ptr buf (l ++ [(x, t)]) -> sound s ->
  current_chunk o = x \/ (current_chunk o = NULL /\ l = []) ->
  has (open_flags o) O_APPEND = false -> has options USE_OFFSET = false ->
  chunks s !! x = Some c -> used c + Z.of_nat (length buf) <= capacity c ->
  0 < Z.of_nat (length buf) ->
  wp (dandelion_write fd ptr (Z.of_nat (length buf)) off options) (fun r s' =>
    r = Z.of_nat (length buf) /\ file_ok s' (content f) (l ++ [(x, t ++ buf)]) /\
    live s' = live s) s.
Proof.
  intros Ho Hok Hsrc Hs Hcur Happ Huse Hc Hcap Hpos.
  eapply wp_mono; [by eapply write_fits_run|]. intros r s' [-> ->].
  assert (Hok' : file_ok (appended s x c buf) (content f) (l ++ [(x, t ++ buf)])) by (by apply file_ok_appended).
  unfold moved. destruct (has options MOVE_OFFSET); [|done]. split_and!; [done|by destruct Hok'|done].
Qed.

Lemma dandelion_read_spec s fd o f ptr len off options x t l :
  open_on s fd o f -> has (open_flags o) O_WRONLY = false ->
  current_chunk o = x -> stored (chunks s) (bytes s) x ((x, t) :: l) ->
  0 <= offset o <= Z.of_nat (length t) -> 0 < len < 2 ^ 31 -> 0 < ptr ->
  has options USE_OFFSET = false ->
  let out := read_out len (offset o) ((x, t) :: l) in
  Z.of_nat (length out) < 2 ^ 31 -> writable (bytes s) ptr (Z.of_nat (length out)) ->
  apart_from (chunks s) ptr (Z.of_nat (length out)) ((x, t) :: l) ->
  wp (dandelion_read fd ptr len off options) (fun r s' => r = Z.of_nat (length out) /\
    s' = with_open_files (if has options MOVE_OFFSET
      then zinsert fd (OpenFile (of_file o) (read_end len (offset o) ((x, t) :: l)).1
             (read_end len (offset o) ((x, t) :: l)).2 (open_flags o)) (open_files s)
      else open_files s) (with_bytes (write_bytes ptr out (bytes s)) s)) s.
Proof.
  intros [Ho Hof Hf Ht] Hfl Hcur Hst Hoff Hlen Hptr Huse out Hmax Hw Hap. unfold dandelion_read.
  apply wp_bind. eapply wp_get_open; [done|]. rewrite (proj2 (Z.eqb_neq _ _)), Hfl by done. cbn [orb].
  apply wp_bind. eapply wp_get_file; [done..|]. rewrite Ht. cbn [is_device is_file negb].
  rewrite (proj2 (Z.eqb_neq len 0)) by lia. rewrite Huse, Hcur.
  pose proof Hst as (_ & Hx & _)%stored_cons. rewrite (proj2 (Z.eqb_neq x NULL)) by done.
  apply wp_bind, wp_ret, wp_bind. rewrite int32_small by lia.
  eapply wp_mono; [apply read_chunks_spec; try done; lia|].
  intros r s' [-> ->]. fold out. rewrite wrap64_small by lia. apply wp_bind.
  destruct (has options MOVE_OFFSET).
  - eapply wp_place_open; [done|]. by apply wp_ret.
  - by apply wp_ret, wp_ret.
Qed.

(** a read from the position of a descriptor copies to the buffer what
    [read_out] describes, moves the descriptor to the end of what it copied when
    [MOVE_OFFSET] is set, and returns the number of bytes. *)
Theorem read_copies s fd o f ptr len off options x t l :
  open_on s fd o f -> has (open_flags o) O_WRONLY = false ->
  current_chunk o = x -> stored (chunks s) (bytes s) x ((x, t) :: l) ->
  0 <= offset o <= Z.of_nat (length t) -> 0 < len < 2 ^ 31 -> 0 < ptr ->
  has options USE_OFFSET = false ->
  let out := read_out len (offset o) ((x, t) :: l) in
  Z.of_nat (length out) < 2 ^ 31 -> writable (bytes s) ptr (Z.of_nat (length out)) ->
  apart_from (chunks s) ptr (Z.of_nat (length out)) ((x, t) :: l) ->
  wp (dandelion_read fd ptr len off options) (fun r s' => r = Z.of_nat (length out) /\
    bytes s' = write_bytes ptr out (bytes s) /\ files s' = files s /\ chunks s' = chunks s /\
    open_files s' = if has options MOVE_OFFSET
      then zinsert fd (OpenFile (of_file o) (read_end len (offset o) ((x, t) :: l)).1
             (read_end len (offset o) ((x, t) :: l)).2 (open_flags o)) (open_files s)
      else open_files s) s.
Proof.
  intros. eapply wp_mono; [by eapply dandelion_read_spec|]. intros r s' [-> ->]. split_and!; try done.
Qed.

Lemma read_last_run s fd o f ptr len off x t :
  open_on s fd o f -> has (open_flags o) O_WRONLY = false ->
  current_chunk o = x -> stored (chunks s) (bytes s) x [(x, t)] ->
  0 <= offset o <= Z.of_nat (length t) -> 0 < len < 2 ^ 31 -> 0 < ptr ->
  let n := Z.min len (Z.of_nat (length t) - offset o) in
  writable (bytes s) ptr n -> apart_from (chunks s) ptr n [(x, t)] ->
  wp (dandelion_read fd ptr len off MOVE_OFFSET) (fun r s' => r = n /\
    s' = with_open_files (zinsert fd (OpenFile (of_file o) x (offset o + n) (open_flags o)) (open_files s))
      (with_bytes (write_bytes ptr (take (Z.to_nat n) (drop (Z.to_nat (offset o)) t)) (bytes s)) s)) s.
Proof.
  intros Hop Hfl Hcur Hst Hoff Hlen Hptr n Hw Hap.
  assert (Hend : read_end len (offset o) [(x, t)] = (x, offset o + n)).
  { cbn [read_end]. case_bool; f_equal; lia. }
  assert (Hlen' : Z.of_nat (length (drop (Z.to_nat (offset o)) t)) = Z.of_nat (length t) - offset o).
  { rewrite length_drop. lia. }
  assert (Hout : read_out len (offset o) [(x, t)] = take (Z.to_nat n) (drop (Z.to_nat (offset o)) t)).
  { cbn [read_out]. rewrite Hlen'. case_bool; [by replace n with len by lia|].
    rewrite app_nil_r, take_ge; [done|]. lia. }
  assert (Hn : Z.of_nat (length (read_out len (offset o) [(x, t)])) = n) by (rewrite Hout, length_take; lia).
  pose proof Hst as (_ & _ & c & _ & Hu & Hcap & _)%stored_cons.
  eapply wp_mono.
  { apply (dandelion_read_spec s fd o f ptr len off MOVE_OFFSET x t [] Hop Hfl Hcur Hst Hoff Hlen Hptr);
      [done|rewrite Hn..]; [lia|done|done]. }
  rewrite Hn, Hend, Hout. by intros r s' [-> ->].
Qed.

(** in the last chunk of a file a read does what it should: it copies the
    bytes from the position on, as many as were asked for and are there, and
    moves the position by as many. *)
Theorem read_last_chunk s fd o f ptr len off x t :
  open_on s fd o f -> has (open_flags o) O_WRONLY = false ->
  current_chunk o = x -> stored (chunks s) (bytes s) x [(x, t)] ->
  0 <= offset o <= Z.of_nat (length t) -> 0 < len < 2 ^ 31 -> 0 < ptr ->
  let n := Z.min len (Z.of_nat (length t) - offset o) in
  writable (bytes s) ptr n -> apart_from (chunks s) ptr n [(x, t)] ->
  wp (dandelion_read fd ptr len off MOVE_OFFSET) (fun r s' => r = n /\
    region (bytes s') ptr (take (Z.to_nat n) (drop (Z.to_nat (offset o)) t)) /\
    open_files s' = zinsert fd (OpenFile (of_file o) x (offset o + n) (open_flags o)) (open_files s)) s.
Proof.
  intros Hop Hfl Hcur Hst Hoff Hlen Hptr n Hw Hap.
  eapply wp_mono; [by eapply read_last_run|]. intros r s' [-> ->].
  split_and!; [done| |done]. apply region_write.
Qed.

(** C35: a read that empties the chunk it starts in asks the next chunk for the
    full length again: with two chunks it copies the rest of the first and up to
    [len] more bytes of the second, so it can return more than [len] and write
    behind the caller's buffer. *)
Theorem read_overruns s fd o f ptr len off x t y u :
  open_on s fd o f -> has (open_flags o) O_WRONLY = false ->
  current_chunk o = x -> stored (chunks s) (bytes s) x [(x, t); (y, u)] ->
  0 <= offset o <= Z.of_nat (length t) -> 0 < ptr ->
  Z.of_nat (length t) - offset o <= len < 2 ^ 31 -> 0 < len ->
  let n := Z.of_nat (length t) - offset o + Z.min len (Z.of_nat (length u)) in
  n < 2 ^ 31 -> writable (bytes s) ptr n -> apart_from (chunks s) ptr n [(x, t); (y, u)] ->
  wp (dandelion_read fd ptr len off MOVE_OFFSET) (fun r s' => r = n /\
    region (bytes s') ptr (drop (Z.to_nat (offset o)) t ++ take (Z.to_nat len) u)) s.
Proof.
  intros Hop Hfl Hcur Hst Hoff Hptr Hlen Hlen0 n Hn31 Hw Hap.
  assert (Hlen' : Z.of_nat (length (drop (Z.to_nat (offset o)) t)) = Z.of_nat (length t) - offset o).
  { rewrite length_drop. lia. }
  assert (Hout : read_out len (offset o) [(x, t); (y, u)] = drop (Z.to_nat (offset o)) t ++ take (Z.to_nat len) u).
  { cbn [read_out]. rewrite Hlen', (proj2 (Z.ltb_ge _ _)) by lia. f_equal.
    change (Z.to_nat 0) with 0%nat. rewrite drop_0. case_bool; [done|]. rewrite app_nil_r, take_ge; [done|]. lia. }
  assert (Hn : Z.of_nat (length (read_out len (offset o) [(x, t); (y, u)])) = n).
  { rewrite Hout, length_app, length_take. lia. }
  eapply wp_mono.
  { apply (dandelion_read_spec s fd o f ptr len off MOVE_OFFSET x t [(y, u)] Hop Hfl Hcur Hst Hoff); try done;
      [lia|rewrite Hn; done..]. }
  rewrite Hn, Hout. intros r s' [-> ->]. split; [done|]. apply region_write.
Qed.

(** seeking to a position inside a file, from its start or from its end,
    returns the position counted from the start, and leaves the descriptor at
    the chunk and offset where the bytes from that position on begin; nothing
    else changes. *)
Theorem lseek_moves s fd o f l pos off whence :
  open_on s fd o f -> stored (chunks s) (bytes s) (content f) l -> l <> [] ->
  let size := Z.of_nat (length (contents l)) in
  0 <= pos <= size -> size < 2 ^ 31 ->
  (whence = SEEK_SET /\ off = pos) \/ (whence = SEEK_END /\ off = pos - size) ->
  wp (dandelion_lseek fd off whence) (fun r s' => r = pos /\ exists y j,
    s' = with_open_files (zinsert fd (OpenFile (of_file o) y j (open_flags o)) (open_files s)) s /\
    exists u l2, (y, u) ∈ l /\
      drop (Z.to_nat pos) (contents l) = drop (Z.to_nat j) u ++ contents l2) s.
Proof.
  intros [Ho Hof Hf Ht] Hst Hl size Hpos Hmax Hwh.
  eapply wp_mono; [by eapply dandelion_lseek_spec|]. intros r s' (-> & y & j & Hat & ->).
  split; [done|]. exists y, j. split; [done|]. by eapply at_position_contents.
Qed.

(** the status of a file gives its mode, the number of links and the number
    of bytes in all its chunks; it changes nothing. *)
Theorem stat_size s fd o f l :
  open_on s fd o f -> stored (chunks s) (bytes s) (content f) l ->
  Z.of_nat (length (contents l)) < 2 ^ 64 ->
  dandelion_fstat fd s = Ret (0, Some (DandelionStat (mode f) (hard_links f)
    (Z.of_nat (length (contents l))) FS_CHUNK_SIZE)) s.
Proof.
  intros [Ho Hof Hf Ht] Hst Hmax. unfold dandelion_fstat, bind at 1, get_open. rewrite Ho.
  rewrite (proj2 (Z.eqb_neq _ _)) by done. unfold stat_node, bind at 1, get_file_node, deref.
  rewrite (proj2 (Z.eqb_neq _ _)), Hf, Ht by done. cbn [is_file]. unfold bind at 1.
  rewrite (content_chunks_spec _ l.*1 _ s (fun c acc => wrap64 (acc + used c))); [|apply Hst|done].
  erewrite total_used; [|exact Hst|lia|lia]. done.
Qed.

(** * Export *)

(** A new allocation is apart from the chunks of a file. *)
Lemma grown_apart s s' p0 l a words z v cz :
  file_ok s p0 l -> grown s s' a words -> (z, v) ∈ l -> chunks s !! z = Some cz ->
  disjoint_range a (8 * words) (data cz) (Z.of_nat (length v)).
Proof.
  intros Hok Hg Hz Hcz. destruct (fo_owned _ _ _ Hok z cz) as (_ & (w & Hw & Hcw) & _); [|done|].
  - apply list_elem_of_fmap. by exists (z, v).
  - destruct (stored_in _ _ _ _ z v (fo_stored _ _ _ Hok) Hz) as (_ & c' & Hc' & Hu' & Hcap' & _).
    cbv [fst snd] in Hc', Hu'. assert (c' = cz) as -> by congruence.
    pose proof (gr_apart _ _ _ _ Hg _ _ Hw). unfold apart, disjoint_range in *. lia.
Qed.

(** the export of a file gives one buffer with the whole content of the
    file, the concatenation of its chunks in order; it is a new allocation
    unless the file has at most one chunk, and the export gives no buffer only
    when memory ran out. *)
Theorem export_contiguous s first l :
  file_ok s first l -> sound s -> 0 < Z.of_nat (length (contents l)) < 2 ^ 63 ->
  wp (file_content first) (fun r s' => r = None \/ exists a,
    r = Some (a, Z.of_nat (length (contents l))) /\ region (bytes s') a (contents l) /\
    chunks s' = chunks s /\ files s' = files s) s.
Proof.
  intros Hok Hs Hlen. pose proof (fo_stored _ _ _ Hok) as Hst. unfold file_content.
  destruct l as [|[x t] l]; [cbn in Hlen; lia|].
  pose proof Hst as (-> & Hx & c & Hc & Hu & Hcap & Hd & Hr & Hl)%stored_cons.
  rewrite (proj2 (Z.eqb_neq _ _)) by done. apply wp_bind. eapply wp_get_chunk; [done..|].
  destruct l as [|[y u] l].
  { rewrite (stored_nil _ _ _ Hl). apply wp_ret. right. exists (data c).
    rewrite contents_cons, app_nil_r, Hu. by split_and!. }
  pose proof Hl as (E & Hy & _)%stored_cons. rewrite E, (proj2 (Z.eqb_neq _ _)) by done.
  set (L := (x, t) :: (y, u) :: l) in *. set (total := Z.of_nat (length (contents L))) in *.
  apply wp_bind. unfold wp at 1.
  rewrite (content_chunks_spec _ L.*1 _ s (fun c acc => wrap64 (acc + used c))); [|apply Hst|done].
  erewrite total_used; [|exact Hst|lia|fold total; lia]. rewrite Z.add_0_l. fold total.
  apply wp_bind, wp_alloc_raw; [done|lia|lia| |].
  { intros s' _. apply wp_ret. by left. }
  intros p n m Hn Hg. pose proof (gr_pos _ _ _ _ Hg) as Hp. rewrite (proj2 (Z.eqb_neq _ _)) by (unfold NULL; lia).
  pose proof (local_size_small total ltac:(lia)) as Hls.
  assert (Hfill : forall a, bytes (with_buffer p total (put_sys m s)) !! a =
    if decide (p <= a < p + 8 * local_size_of total) then Some (found (S (requests s)) (a - p)) else bytes s !! a).
  { intros a. cbn. rewrite fill_bytes_spec. by rewrite Z2Nat.id by lia. }
  apply wp_bind. eapply wp_mono.
  - apply (file_content_copy s (with_buffer p total (put_sys m s)) x L p total Hst eq_refl); [| |lia|done|lia].
    + intros z v cz Hz Hcz. pose proof (grown_apart _ _ _ _ _ _ z v cz Hok Hg Hz Hcz) as Hd'.
      destruct (stored_in _ _ _ _ z v Hst Hz) as (_ & c' & Hc' & _ & _ & _ & Hr').
      cbv [fst snd] in Hc', Hr'. assert (c' = cz) as -> by congruence. split.
      * intros i b Hi. rewrite Hfill, decide_False; [by apply Hr'|].
        apply zlookup_range in Hi. unfold disjoint_range in Hd'. lia.
      * unfold disjoint_range in *. lia.
    + intros i Hi. rewrite Hfill, decide_True by lia. by eexists.
  - intros r s' [-> ->]. apply wp_ret. right. exists p. split_and!; [done| |done|done].
    apply region_write.
Qed.
End files.

(** * Instances *)

Lemma demo_open_on cs m : open_on (demo_state cs m) 0 (OpenFile 700 4104 0 O_RDWR) (node "data" NULL 500 FILE 4104).
Proof. split; [reflexivity|discriminate|reflexivity|reflexivity]. Qed.

Lemma write_appends_witness :
  wpf (dandelion_write 0 4176 4 0 MOVE_OFFSET) (fun r s' => r = 4 /\ exists l' y u,
    file_ok s' 4104 (l' ++ [(y, u)]) /\ contents (l' ++ [(y, u)]) = chars "abcdefg") NullDeref demo_fs.
Proof.
  eapply wpf_mono; [apply (write_appends demo_fs 0 _ _ 4176 (chars "defg") 0 MOVE_OFFSET [] 4104 (chars "abc")
    (demo_open_on _ _) demo_file_ok demo_source demo_session_sound);
    [by left|reflexivity|reflexivity|vm_compute; reflexivity]|].
  intros r s' (Hr & _ & _ & l' & y & u & Hok & E & _). split; [exact Hr|]. by exists l', y, u.
Defined.

Lemma write_fits_witness :
  wp (dandelion_write 0 4176 4 0 MOVE_OFFSET) (fun r s' => r = 4 /\
    file_ok s' 4104 [(4104, chars "abcdefg")]) demo_fs.
Proof.
  eapply wp_mono; [apply (write_fits demo_fs 0 _ _ 4176 (chars "defg") 0 MOVE_OFFSET [] 4104 (chars "abc")
    (FileChunk 4152 8 3 NULL) (demo_open_on _ _) demo_file_ok demo_source demo_session_sound);
    [by left|reflexivity|reflexivity|vm_compute; reflexivity|vm_compute; discriminate|vm_compute; reflexivity]|].
  intros r s' (Hr & Hok & _). split; [exact Hr|exact Hok].
Defined.

Lemma demo_apart n : 0 <= n <= 8 -> apart_from demo_chunks 4176 n demo_l.
Proof.
  intros Hn. constructor; [|constructor]. intros c Hc. vm_compute in Hc. injection Hc as <-.
  unfold disjoint_range. cbn. lia.
Qed.
Lemma demo_writable n : 0 <= n <= 8 -> writable demo_bytes 4176 n.
Proof. intros Hn i Hi. apply (region_writable _ _ _ demo_source_region). cbn. lia. Qed.
Lemma demo_two_apart n : 0 <= n <= 8 -> apart_from demo_two_chunks 4176 n demo_l2.
Proof.
  intros Hn. constructor; [|constructor; [|constructor]]; intros c Hc; vm_compute in Hc;
    injection Hc as <-; unfold disjoint_range; cbn; lia.
Qed.
Lemma demo_two_writable n : 0 <= n <= 8 -> writable demo_two_bytes 4176 n.
Proof. intros Hn i Hi. apply (region_writable _ _ _ demo_two_source). cbn. lia. Qed.

Lemma read_copies_witness :
  wp (dandelion_read 0 4176 2 0 MOVE_OFFSET) (fun r s' => r = 2 /\
    bytes s' = write_bytes 4176 (chars "ab") demo_bytes) demo_fs.
Proof.
  eapply wp_mono; [apply (read_copies demo_fs 0 _ _ 4176 2 0 MOVE_OFFSET 4104 (chars "abc") []
    (demo_open_on _ _)); [reflexivity|reflexivity|exact demo_stored|cbn; lia|lia|lia|reflexivity
    |vm_compute; reflexivity|apply (demo_writable 2); lia|apply (demo_apart 2); lia]|].
  intros r s' (Hr & Hb & _). split; [exact Hr|exact Hb].
Defined.

Lemma read_last_chunk_witness :
  wp (dandelion_read 0 4176 8 0 MOVE_OFFSET) (fun r s' => r = 3 /\
    region (bytes s') 4176 (chars "abc")) demo_fs.
Proof.
  eapply wp_mono; [apply (read_last_chunk demo_fs 0 _ _ 4176 8 0 4104 (chars "abc")
    (demo_open_on _ _)); [reflexivity|reflexivity|exact demo_stored|cbn; lia|lia|lia
    |apply (demo_writable 3); lia|apply (demo_apart 3); lia]|].
  intros r s' (Hr & Hb & _). split; [exact Hr|exact Hb].
Defined.

Lemma read_overruns_witness :
  wp (dandelion_read 0 4176 4 0 MOVE_OFFSET) (fun r s' => r = 6 /\
    region (bytes s') 4176 (chars "abcxyz")) demo_two.
Proof.
  eapply wp_mono; [apply (read_overruns demo_two 0 _ _ 4176 4 0 4104 (chars "abc") 4200 (chars "xyz")
    (demo_open_on _ _)); [reflexivity|reflexivity|exact demo_two_stored|cbn; lia|lia|cbn; lia|lia
    |cbn; lia|apply (demo_two_writable 6); lia|apply (demo_two_apart 6); lia]|].
  intros r s' (Hr & Hb). split; [exact Hr|exact Hb].
Defined.

Lemma lseek_moves_witness :
  wp (dandelion_lseek 0 (-2) SEEK_END) (fun r s' => r = 4) demo_two.
Proof.
  eapply wp_mono; [apply (lseek_moves demo_two 0 _ _ demo_l2 4 (-2) SEEK_END (demo_open_on _ _) demo_two_stored);
    [discriminate|cbn; lia|cbn; lia|right; split; reflexivity]|].
  intros r s' (Hr & _). exact Hr.
Defined.

Lemma stat_size_witness :
  dandelion_fstat 0 demo_two = Ret (0, Some (DandelionStat 384 1 6 4096)) demo_two.
Proof. apply (stat_size demo_two 0 _ _ demo_l2 (demo_open_on _ _) demo_two_stored). vm_compute. reflexivity. Defined.

Lemma export_contiguous_witness :
  wp (file_content 4104) (fun r s' => r = None \/ exists a, r = Some (a, 6) /\
    region (bytes s') a (chars "abcxyz")) demo_two.
Proof.
  eapply wp_mono; [apply (export_contiguous demo_two 4104 demo_l2 demo_two_ok demo_session_sound); cbn; lia|].
  intros r s' [->|(a & Hr & Hb & _)]; [by left|right; exists a; split; [exact Hr|exact Hb]].
Defined.
