(* ===== verification/Freestanding.v ===== *)
(** The memory functions of a freestanding build
    (src/system/freestanding.c): definitions on a byte memory, and what they
    do on ranges that overlap and ranges that do not. *)
From S2P Require Import Prelude Bytes Heap RuntimeIO Paths FsStore FsLemmas FsData.

(** * Definitions

    The memory maps addresses to bytes; a word is eight bytes that are read
    before any of them is written. *)
Notation memory := (gmap Z Z) (only parsing).

Definition load (a : Z) : prog memory Z := fun m =>
  match m !! a with Some b => Ret b m | None => Fault OutOfBounds end.
Definition store (a b : Z) : prog memory unit := fun m =>
  match m !! a with Some _ => Ret tt (<[a := b]> m) | None => Fault OutOfBounds end.

Fixpoint load_list (a : Z) (n : nat) : prog memory (list Z) :=
  match n with
  | O => ret []
  | Datatypes.S n => let! b := load a in let! l := load_list (a + 1) n in ret (b :: l)
  end.
Fixpoint store_list (a : Z) (l : list Z) : prog memory unit :=
  match l with
  | [] => ret tt
  | b :: l => let! _ := store a b in store_list (a + 1) l
  end.

Definition pointer_size : nat := 8.

(** [*to = *from] on words, and on bytes. *)
Definition copy_word (dst src : Z) : prog memory unit :=
  let! w := load_list src pointer_size in store_list dst w.
Definition copy_byte (dst src : Z) : prog memory unit :=
  let! b := load src in store dst b.

Definition memcpy (dest src n : Z) : prog memory Z :=
  let to_copy := 8 * (n / 8) in
  let! _ := for_loop (R := unit) (n / 8) (fun i =>
    let! _ := copy_word (dest + 8 * i) (src + 8 * i) in ret None) in
  let! _ := for_loop (R := unit) (n - to_copy) (fun i =>
    let! _ := copy_byte (dest + to_copy + i) (src + to_copy + i) in ret None) in
  ret dest.

Definition memset (dest c n : Z) : prog memory Z :=
  let! _ := for_loop (R := unit) n (fun i =>
    let! _ := store (dest + i) (c mod 256) in ret None) in
  ret dest.

(** [for (i = n - 1; i >= 0; i--) to[i] = from[i]] *)
Fixpoint copy_reverse (dst src : Z) (k : nat) : prog memory unit :=
  match k with
  | O => ret tt
  | Datatypes.S k =>
      let! _ := copy_byte (dst + Z.of_nat k) (src + Z.of_nat k) in copy_reverse dst src k
  end.

Definition memmove (dest src n : Z) : prog memory Z :=
  if (src =? dest) || (n =? 0) then ret dest else
  if (dest >? src) && (dest - src <? int32 n) then
    let! _ := copy_reverse dest src (Z.to_nat (int32 (n - 1) + 1)) in ret dest
  else
    let! _ := memcpy dest src n in ret dest.

(** The result of a difference compares the pointers. *)
Definition memcmp (str1 str2 n : Z) : prog memory Z :=
  let! r := for_loop n (fun i =>
    let! a := load (str1 + i) in
    let! b := load (str2 + i) in
    if negb (a =? b) then ret (Some (if str1 >? str2 then 1 else -1)) else ret None) in
  ret (match r with Some x => x | None => 0 end).

(** * Copies *)

Lemma wp_load_mem a b (Q : Z -> memory -> Prop) m : m !! a = Some b -> Q b m -> wp (load a) Q m.
Proof. intros Hb HQ. unfold wp, load. by rewrite Hb. Qed.

Lemma wp_store_mem a b (Q : unit -> memory -> Prop) m :
  is_Some (m !! a) -> Q tt (<[a := b]> m) -> wp (store a b) Q m.
Proof. intros [c Hc] HQ. unfold wp, store. by rewrite Hc. Qed.

Lemma load_list_spec a l m (Q : list Z -> memory -> Prop) :
  region m a l -> Q l m -> wp (load_list a (length l)) Q m.
Proof.
  revert a Q. induction l as [|b l IH]; intros a Q Hr HQ; cbn [length load_list]; [done|].
  apply region_cons in Hr as [Hb Hr]. apply wp_bind. eapply wp_load_mem; [done|].
  apply wp_bind. apply IH; [done|]. by apply wp_ret.
Qed.

Lemma store_list_spec a l m (Q : unit -> memory -> Prop) :
  writable m a (Z.of_nat (length l)) -> Q tt (write_bytes a l m) -> wp (store_list a l) Q m.
Proof.
  revert a m. induction l as [|b l IH]; intros a m Hw HQ; cbn [store_list length write_bytes] in *; [done|].
  apply wp_bind, wp_store_mem; [rewrite <-(Z.add_0_r a); apply Hw; lia|].
  apply IH; [|done]. intros i Hi. rewrite lookup_insert_ne by lia.
  replace (a + 1 + i) with (a + (i + 1)) by lia. apply Hw. lia.
Qed.

(** A copy of pieces in ascending order is the copy of the whole, when no
    piece is read after its source was overwritten. *)
Definition forward_ok (dst src n : Z) : Prop := dst <= src \/ src + n <= dst.

(** The state of a forward copy after [k] bytes. *)
Definition copied (dst : Z) (t : list Z) (k : Z) (m : memory) : memory :=
  write_bytes dst (take (Z.to_nat k) t) m.

Lemma copied_region dst src t k m :
  region m src t -> forward_ok dst src (Z.of_nat (length t)) -> 0 <= k <= Z.of_nat (length t) ->
  region (copied dst t k m) (src + k) (drop (Z.to_nat k) t).
Proof.
  intros Hr Hf Hk. unfold copied, forward_ok in *.
  apply region_write_other; [by apply drop_region|]. rewrite length_drop, length_take. lia.
Qed.

(** A piece of [j] bytes. *)
Lemma copied_step dst t k j m :
  0 <= k -> 0 <= j -> k + j <= Z.of_nat (length t) ->
  write_bytes (dst + k) (take (Z.to_nat j) (drop (Z.to_nat k) t)) (copied dst t k m) =
  copied dst t (k + j) m.
Proof.
  intros Hk Hj Hkj. unfold copied.
  replace (dst + k) with (dst + Z.of_nat (length (take (Z.to_nat k) t))) by (rewrite length_take; lia).
  rewrite <-write_bytes_app. f_equal.
  rewrite Z2Nat.inj_add, <-take_take_drop by lia. done.
Qed.

Lemma copied_writable dst t k m n : writable m dst n -> writable (copied dst t k m) dst n.
Proof. apply writable_write. Qed.

Lemma copy_word_step dst src t k m (Q : unit -> memory -> Prop) :
  region m src t -> writable m dst (Z.of_nat (length t)) ->
  forward_ok dst src (Z.of_nat (length t)) -> 0 <= k -> k + 8 <= Z.of_nat (length t) ->
  Q tt (copied dst t (k + 8) m) -> wp (copy_word (dst + k) (src + k)) Q (copied dst t k m).
Proof.
  intros Hr Hw Hf Hk Hk8 HQ. apply wp_bind.
  set (u := take 8 (drop (Z.to_nat k) t)).
  assert (Hu : length u = pointer_size) by (unfold u, pointer_size; rewrite length_take, length_drop; lia).
  rewrite <-Hu. apply load_list_spec; [by apply take_region, copied_region; [..|lia]|].
  apply store_list_spec.
  - intros i Hi. rewrite <-Z.add_assoc. apply (copied_writable _ _ _ _ _ Hw). rewrite Hu in Hi. unfold pointer_size in Hi. lia.
  - rewrite <-copied_step in HQ by lia. done.
Qed.

Lemma copy_byte_step dst src t k m (Q : unit -> memory -> Prop) :
  region m src t -> writable m dst (Z.of_nat (length t)) ->
  forward_ok dst src (Z.of_nat (length t)) -> 0 <= k < Z.of_nat (length t) ->
  Q tt (copied dst t (k + 1) m) -> wp (copy_byte (dst + k) (src + k)) Q (copied dst t k m).
Proof.
  intros Hr Hw Hf Hk HQ. destruct (zlookup_lt k t Hk) as [b Hb]. apply wp_bind.
  assert (Hd : drop (Z.to_nat k) t = b :: drop (Datatypes.S (Z.to_nat k)) t).
  { apply drop_S. unfold zlookup in Hb. by rewrite (proj2 (Z.leb_le _ _)) in Hb by lia. }
  eapply wp_load_mem.
  - pose proof (copied_region dst src t k m Hr Hf ltac:(lia)) as Hc. rewrite Hd in Hc.
    by apply region_cons in Hc as [? _].
  - apply wp_store_mem; [apply (copied_writable _ _ _ _ _ Hw); lia|].
    rewrite <-copied_step in HQ by lia. rewrite Hd in HQ. done.
Qed.

Lemma memcpy_spec dst src t m :
  region m src t -> writable m dst (Z.of_nat (length t)) ->
  forward_ok dst src (Z.of_nat (length t)) ->
  wp (memcpy dst src (Z.of_nat (length t))) (fun r m' => r = dst /\ m' = write_bytes dst t m) m.
Proof.
  intros Hr Hw Hf. set (n := Z.of_nat (length t)) in *.
  pose proof (Z.div_mod n 8 ltac:(lia)). pose proof (Z.mod_pos_bound n 8 ltac:(lia)).
  unfold memcpy. apply wp_bind.
  apply (wp_for (fun i m' => m' = copied dst t (8 * i) m)); [lia|done| |].
  - intros i m' Hi ->. apply wp_bind, copy_word_step; [done|done|done|lia|lia|].
    apply wp_ret. f_equal. lia.
  - intros m' ->. apply wp_bind.
    apply (wp_for (fun i m' => m' = copied dst t (8 * (n / 8) + i) m)); [lia|by rewrite Z.add_0_r| |].
    + intros i m' Hi ->. apply wp_bind. rewrite <-!Z.add_assoc.
      apply copy_byte_step; [done|done|done|lia|]. apply wp_ret. f_equal. lia.
    + intros m' ->. apply wp_ret. split; [done|]. unfold copied.
      by rewrite take_ge by lia.
Qed.

(** The reverse copy: the bytes from [k] on are in place. *)
Lemma copy_reverse_spec dst src t k m0 m :
  region m0 src t -> writable m0 dst (Z.of_nat (length t)) -> src < dst ->
  (k <= length t)%nat -> m = write_bytes (dst + Z.of_nat k) (drop k t) m0 ->
  wp (copy_reverse dst src k) (fun _ m' => m' = write_bytes dst t m0) m.
Proof.
  intros Hr Hw Hlt. revert m. induction k as [|k IH]; intros m Hk ->; cbn [copy_reverse].
  { apply wp_ret. by rewrite Z.add_0_r, drop_0. }
  destruct (lookup_lt_is_Some_2 t k ltac:(lia)) as [b Hb]. apply wp_bind, wp_bind.
  eapply (wp_load_mem _ b).
  { rewrite write_bytes_out by lia. apply Hr. by rewrite zlookup_nat. }
  apply wp_store_mem; [apply (writable_write _ _ _ _ _ Hw); lia|]. apply IH; [lia|].
  rewrite (drop_S _ _ _ Hb). cbn [write_bytes].
  assert (Hcomm : forall a u x c (mm : memory), x < a -> <[x := c]> (write_bytes a u mm) = write_bytes a u (<[x := c]> mm)).
  { intros a u. revert a. induction u as [|d u IHu]; intros a x c mm Hx; cbn [write_bytes]; [done|].
    rewrite IHu by lia. by rewrite insert_insert_ne by lia. }
  rewrite Hcomm by lia. f_equal. lia.
Qed.

Lemma memmove_spec dst src t m :
  region m src t -> writable m dst (Z.of_nat (length t)) -> Z.of_nat (length t) < 2 ^ 31 ->
  wp (memmove dst src (Z.of_nat (length t))) (fun r m' => r = dst /\ m' = write_bytes dst t m) m.
Proof.
  intros Hr Hw Hn. unfold memmove. set (n := Z.of_nat (length t)) in *.
  destruct ((src =? dst) || (n =? 0)) eqn:E.
  - apply wp_ret. split; [done|]. apply map_eq. intros x. rewrite write_bytes_spec.
    destruct (zlookup (x - dst) t) as [b|] eqn:Eb; [|done]. apply orb_true_iff in E.
    pose proof (zlookup_range _ _ _ Eb). destruct E as [E|E]; bool_to_prop; [|lia].
    subst. specialize (Hr _ _ Eb). by replace (dst + (x - dst)) with x in Hr by lia.
  - bool_to_prop. rewrite !int32_small by lia.
    destruct ((dst >? src) && (dst - src <? n)) eqn:E2.
    + bool_to_prop. apply Z.gtb_lt in H1. apply wp_bind. eapply wp_mono.
      * apply (copy_reverse_spec dst src t _ m m); [done|done|lia|lia|].
        rewrite drop_ge by lia. done.
      * intros _ m' ->. by apply wp_ret.
    + apply wp_bind. eapply wp_mono; [apply memcpy_spec; [done|done|]|].
      * unfold forward_ok. fold n. apply andb_false_iff in E2 as [E2|E2]; bool_to_prop; [|lia].
        rewrite Z.gtb_ltb in E2. bool_to_prop. lia.
      * intros r m' [-> ->]. by apply wp_ret.
Qed.

(** The first difference decides, by the order of the two pointers. *)
Lemma memcmp_spec p q t u m :
  region m p t -> region m q u -> length t = length u ->
  memcmp p q (Z.of_nat (length t)) m =
  Ret (if decide (t = u) then 0 else if p >? q then 1 else -1) m.
Proof.
  intros Ht Hu Hlen.
  assert (Hw : wp (memcmp p q (Z.of_nat (length t))) (fun r m' => m' = m /\
    r = if decide (t = u) then 0 else if p >? q then 1 else -1) m).
  2: { apply wp_run in Hw as (r & m' & E & -> & ->). done. }
  unfold memcmp. apply wp_bind.
  apply (wp_for (fun i m' => m' = m /\ take (Z.to_nat i) t = take (Z.to_nat i) u)); [lia|by split| |].
  - intros i m' Hi [-> E].
    destruct (zlookup_lt i t ltac:(lia)) as [a Ha]. destruct (zlookup_lt i u ltac:(lia)) as [b Hb].
    apply wp_bind. eapply wp_load_mem; [by apply Ht|]. apply wp_bind. eapply wp_load_mem; [by apply Hu|].
    unfold zlookup in Ha, Hb. rewrite (proj2 (Z.leb_le _ _)) in Ha, Hb by lia.
    destruct (negb (a =? b)) eqn:Eab; bool_to_prop.
    + apply wp_ret, wp_ret. split; [done|]. rewrite decide_False; [done|]. intros ->. congruence.
    + apply wp_ret. split; [done|]. subst.
      replace (Z.to_nat (i + 1)) with (Datatypes.S (Z.to_nat i)) by lia.
      by rewrite (take_S_r _ _ _ Ha), (take_S_r _ _ _ Hb), E.
  - intros m' [-> E]. apply wp_ret. split; [done|]. rewrite decide_True; [done|].
    rewrite !take_ge in E by lia. done.
Qed.
