(* ===== verification/Pthread.v ===== *)
(** The single-threaded pthread layer (src/newlib_shim/pthread.c): mutexes as
    words of flags, once-control, thread-specific keys as a sorted list, and
    the calls that only report an error. *)
From S2P Require Import Prelude Heap FsStore FileSystem.

(** * Error numbers of the C library *)

Definition EAGAIN : Z := 11.
Definition EBUSY : Z := 16.
Definition EDEADLK : Z := 45.
Definition ENOSYS : Z := 88.
Definition ENOTRECOVERABLE : Z := 141.

(** * Mutexes

    [pthread_mutex_t] is a 32-bit word; a flag is on when its bit is zero. *)
Module Mutex.

Definition LOCKED : Z := 1.
Definition RECURSIVE : Z := 2.
Definition DESTROYED : Z := 128.
(** [_PTHREAD_MUTEX_INITIALIZER] *)
Definition INITIALIZER : Z := 2 ^ 32 - 1.

(** [current & flag], [*mutex &= ~flag] and [*mutex |= flag]. *)
Definition is_set (current flag : Z) : bool := negb (Z.land current flag =? 0).
Definition clear (current flag : Z) : Z := Z.land current (wrap32 (Z.lnot flag)).
Definition set (current flag : Z) : Z := Z.lor current flag.

(** The operations return the result and the new value of [*mutex]; [attr] is
    the [recursive] field, [None] for [NULL]. *)
Definition pthread_mutex_init (attr : option Z) : Z * Z :=
  let initial := INITIALIZER in
  let initial := match attr with
                 | Some recursive => if negb (recursive =? 0) then clear initial RECURSIVE else initial
                 | None => initial
                 end in
  (0, initial).

Definition pthread_mutex_destroy (mutex : Z) : Z * Z :=
  if negb (is_set mutex DESTROYED) then (EINVAL, mutex) else
  if negb (is_set mutex LOCKED) then (EBUSY, mutex) else
  (0, clear mutex DESTROYED).

Definition pthread_mutex_trylock (mutex : Z) : Z * Z :=
  if negb (is_set mutex DESTROYED) then (EINVAL, mutex) else
  if negb (is_set mutex LOCKED) && is_set mutex RECURSIVE then (EDEADLK, mutex) else
  (0, clear mutex LOCKED).

Definition pthread_mutex_lock (mutex : Z) : Z * Z := pthread_mutex_trylock mutex.

Definition pthread_mutex_unlock (mutex : Z) : Z * Z :=
  if negb (is_set mutex DESTROYED) then (EINVAL, mutex) else
  if is_set mutex LOCKED then (EPERM, mutex) else
  (0, set mutex LOCKED).

(** ** What a mutex promises *)

Inductive state := Unlocked | Locked | Destroyed.
Inductive op := Lock | Trylock | Unlock | Destroy.

#[export] Instance state_eq_dec : EqDecision state.
Proof. solve_decision. Defined.
#[export] Instance op_eq_dec : EqDecision op.
Proof. solve_decision. Defined.

(** The word of a mutex in a state. *)
Definition word (recursive : bool) (st : state) : Z :=
  let w := if recursive then clear INITIALIZER RECURSIVE else INITIALIZER in
  match st with
  | Unlocked => w
  | Locked => clear w LOCKED
  | Destroyed => clear w DESTROYED
  end.

Definition run (o : op) (mutex : Z) : Z * Z :=
  match o with
  | Lock => pthread_mutex_lock mutex
  | Trylock => pthread_mutex_trylock mutex
  | Unlock => pthread_mutex_unlock mutex
  | Destroy => pthread_mutex_destroy mutex
  end.

(** The mutex as a state machine. *)
Definition spec (recursive : bool) (o : op) (st : state) : Z * state :=
  match st, o with
  | Destroyed, _ => (EINVAL, Destroyed)
  | Unlocked, (Lock | Trylock) => (0, Locked)
  | Unlocked, Unlock => (EPERM, Unlocked)
  | Unlocked, Destroy => (0, Destroyed)
  | Locked, (Lock | Trylock) => (if recursive then 0 else EDEADLK, Locked)
  | Locked, Unlock => (0, Unlocked)
  | Locked, Destroy => (EBUSY, Locked)
  end.

(** Sequences of operations, with the results. *)
Fixpoint runs (os : list op) (mutex : Z) : list Z * Z :=
  match os with
  | [] => ([], mutex)
  | o :: os => let '(r, mutex) := run o mutex in let '(rs, mutex) := runs os mutex in (r :: rs, mutex)
  end.
Fixpoint specs (recursive : bool) (os : list op) (st : state) : list Z * state :=
  match os with
  | [] => ([], st)
  | o :: os => let '(r, st) := spec recursive o st in let '(rs, st) := specs recursive os st in (r :: rs, st)
  end.

Lemma run_spec recursive o st :
  run o (word recursive st) = ((spec recursive o st).1, word recursive (spec recursive o st).2).
Proof. by destruct recursive, o, st. Qed.

Lemma runs_specs recursive os st :
  runs os (word recursive st) = ((specs recursive os st).1, word recursive (specs recursive os st).2).
Proof.
  revert st. induction os as [|o os IH]; intros st; cbn [runs specs]; [done|].
  rewrite run_spec. destruct (spec recursive o st) as [r st']. cbv [fst snd]. rewrite IH.
  by destruct (specs recursive os st').
Qed.
End Mutex.

(** * Once-control *)

Section once.
Context {S : Type}.

(** [init_executed] is part of the state of the program. *)
Definition pthread_once (get : S -> Z) (put : Z -> S -> S) (init_routine : prog S unit) : prog S Z :=
  let! init_executed := gets get in
  let! _ := if init_executed =? 0 then
      let! _ := init_routine in modify (put 1)
    else ret tt in
  ret 0.
End once.

(** * Thread-specific keys

    The list from [key_root]; nodes are only reached through it.  Whether
    [malloc] returned memory is an argument: the code does not look. *)
Module Keys.

Record node := Node { key : Z; content : Z }.

Fixpoint insert_after (new_key : Z -> node) (l : list node) : list node * Z :=
  match l with
  | [] => ([], 0)
  | current :: l =>
      let stop := match l with
                  | [] => true
                  | nxt :: _ => negb (key nxt =? wrap32 (key current + 1))
                  end in
      if stop then
        let n := new_key (wrap32 (key current + 1)) in (current :: n :: l, key n)
      else let '(l, k) := insert_after new_key l in (current :: l, k)
  end.

(** Returns the new list and the key, or a fault. *)
Definition pthread_key_create (memory : bool) : prog (list node) Z := fun l =>
  if negb memory then Fault NullDeref else
  match l with
  | [] => Ret 0 [Node 0 NULL]
  | _ => let '(l, k) := insert_after (fun k => Node k NULL) l in Ret k l
  end.

Fixpoint pthread_getspecific (k : Z) (l : list node) : Z :=
  match l with
  | [] => NULL
  | current :: l => if key current =? k then content current else pthread_getspecific k l
  end.

Fixpoint pthread_setspecific (k value : Z) (l : list node) : Z * list node :=
  match l with
  | [] => (EINVAL, [])
  | current :: l =>
      if key current =? k then (0, Node k value :: l)
      else let '(r, l) := pthread_setspecific k value l in (r, current :: l)
  end.

(** The walk to the node whose successor has the key. *)
Fixpoint delete_after (k : Z) (l : list node) : Z * list node :=
  match l with
  | [] => (EINVAL, [])
  | current :: l =>
      if key current =? k then (0, l)
      else let '(r, l) := delete_after k l in (r, current :: l)
  end.

Definition pthread_key_delete (k : Z) (l : list node) : Z * list node :=
  match l with
  | [] => (EINVAL, [])
  | current :: rest =>
      if key current =? k then (0, rest)
      else let '(r, rest) := delete_after k rest in (r, current :: rest)
  end.

(** ** Keys are unique and sorted *)

Fixpoint above (b : Z) (l : list node) : Prop :=
  match l with [] => True | n :: l => b < key n < 2 ^ 32 - 1 /\ above (key n) l end.
Definition keys_ok (l : list node) : Prop := above (-1) l.

Definition keys (l : list node) : list Z := map key l.

Lemma above_in b l n : above b l -> n ∈ l -> b < key n < 2 ^ 32 - 1.
Proof.
  revert b. induction l as [|m l IH]; intros b; [by intros _ ?%elem_of_nil|].
  intros [Hm Hl] [->|Hn]%elem_of_cons; [done|]. specialize (IH _ Hl Hn). lia.
Qed.

Lemma above_app b l1 n l2 :
  above b (l1 ++ n :: l2) -> (forall m, m ∈ l1 -> key m < key n) /\ above (key n) l2.
Proof.
  revert b. induction l1 as [|m l1 IH]; intros b; cbn.
  - intros [_ Hl]. split; [by intros m ?%elem_of_nil|done].
  - intros [Hm Hl]. destruct (IH _ Hl) as [H1 H2]. split; [|done].
    intros x [->|Hx]%elem_of_cons; [|by apply H1].
    eapply above_in in Hl; [|apply elem_of_app; right; constructor]. lia.
Qed.

Lemma above_remove b l1 n l2 : above b (l1 ++ n :: l2) -> above b (l1 ++ l2).
Proof.
  revert b. induction l1 as [|m l1 IH]; intros b; cbn.
  - destruct l2 as [|m l2]; [done|]. cbn. intros [Hn [Hm Hl]]. split; [lia|done].
  - intros [Hm Hl]. split; [done|]. by apply IH.
Qed.

Lemma getspecific_at b l1 n l2 :
  above b (l1 ++ n :: l2) -> pthread_getspecific (key n) (l1 ++ n :: l2) = content n.
Proof.
  intros [Hl _]%above_app. induction l1 as [|m l1 IH]; cbn; [by rewrite Z.eqb_refl|].
  rewrite (proj2 (Z.eqb_neq _ _)); [apply IH; set_solver|].
  assert (key m < key n) by (apply Hl; constructor). lia.
Qed.

Lemma getspecific_ne j n l1 l2 :
  j <> key n -> pthread_getspecific j (l1 ++ n :: l2) = pthread_getspecific j (l1 ++ l2).
Proof.
  intros Hj. induction l1 as [|m l1 IH]; cbn; [by rewrite (proj2 (Z.eqb_neq _ _)) by done|].
  by rewrite IH.
Qed.

Lemma getspecific_none k l : k ∉ keys l -> pthread_getspecific k l = NULL.
Proof.
  induction l as [|n l IH]; cbn; [done|]. intros Hk.
  rewrite (proj2 (Z.eqb_neq _ _)) by set_solver. apply IH. set_solver.
Qed.

Lemma keys_app_not b l1 n l2 : above b (l1 ++ n :: l2) -> key n ∉ keys (l1 ++ l2).
Proof.
  intros [H1 H2]%above_app. unfold keys. rewrite map_app. intros [Hk|Hk]%elem_of_app;
    apply list_elem_of_fmap in Hk as (m & E & Hm).
  - specialize (H1 m Hm). lia.
  - apply (above_in _ _ _ H2) in Hm. lia.
Qed.

Lemma insert_after_next f c d l :
  insert_after f (c :: d :: l) =
  (if negb (key d =? wrap32 (key c + 1))
   then (c :: f (wrap32 (key c + 1)) :: d :: l, key (f (wrap32 (key c + 1))))
   else let '(l', k) := insert_after f (d :: l) in (c :: l', k)).
Proof. done. Qed.

Lemma insert_after_spec b c l l' k :
  -1 <= b -> above b (c :: l) -> insert_after (fun k => Node k NULL) (c :: l) = (l', k) ->
  k < 2 ^ 32 - 1 ->
  exists l1 l2, c :: l = l1 ++ l2 /\ l' = l1 ++ Node k NULL :: l2 /\ above b l'.
Proof.
  revert b c l'. induction l as [|d l IH]; intros b c l' Hb [Hc Hl] E Hk.
  - cbn in E. rewrite wrap32_small in E by lia. injection E as <- <-.
    exists [c], []. split_and!; [done|done|]. cbn. lia.
  - rewrite insert_after_next, wrap32_small in E by lia.
    destruct (negb (key d =? key c + 1)) eqn:Ed; bool_to_prop.
    + injection E as <- <-. exists [c], (d :: l). cbn in *. destruct Hl. split_and!; done || lia.
    + destruct (insert_after (fun k => Node k NULL) (d :: l)) as [l0 k0] eqn:E0. injection E as <- <-.
      destruct (IH (key c) d l0) as (l1 & l2 & E1 & -> & Hab); [lia|done|done|done|].
      exists (c :: l1), l2. cbn [app]. rewrite <-E1. split_and!; [done|done|]. by split.
Qed.

Lemma key_create_spec l l' k :
  keys_ok l -> pthread_key_create true l = Ret k l' -> k < 2 ^ 32 - 1 ->
  exists l1 l2, l = l1 ++ l2 /\ l' = l1 ++ Node k NULL :: l2 /\ keys_ok l'.
Proof.
  unfold pthread_key_create, keys_ok. cbn [negb]. destruct l as [|c l].
  - intros _ [= <- <-] Hk. exists [], []. split_and!; [done|done|]. cbn. lia.
  - intros Hl. destruct (insert_after _ (c :: l)) as [l0 k0] eqn:E. intros [= <- <-] Hk.
    by eapply insert_after_spec.
Qed.

Lemma setspecific_spec k v l :
  k ∈ keys l -> exists r1 n r2, l = r1 ++ n :: r2 /\ key n = k /\
    pthread_setspecific k v l = (0, r1 ++ Node k v :: r2).
Proof.
  induction l as [|n l IH]; cbn; [by intros ?%elem_of_nil|]. destruct (key n =? k) eqn:E; bool_to_prop.
  - intros _. by exists [], n, l.
  - intros [?|Hk]%elem_of_cons; [congruence|]. destruct (IH Hk) as (r1 & m & r2 & -> & Em & ->).
    by exists (n :: r1), m, r2.
Qed.

Lemma key_delete_spec k l :
  k ∈ keys l -> exists r1 n r2, l = r1 ++ n :: r2 /\ key n = k /\
    pthread_key_delete k l = (0, r1 ++ r2).
Proof.
  destruct l as [|c l]; cbn; [by intros ?%elem_of_nil|]. destruct (key c =? k) eqn:E; bool_to_prop.
  { intros _. by exists [], c, l. }
  intros [?|Hk]%elem_of_cons; [congruence|].
  assert (exists r1 n r2, l = r1 ++ n :: r2 /\ key n = k /\ delete_after k l = (0, r1 ++ r2))
    as (r1 & n & r2 & -> & En & ->).
  { revert Hk. clear E. induction l as [|m l IH]; cbn; [by intros ?%elem_of_nil|].
    destruct (key m =? k) eqn:E; bool_to_prop; [intros _; by exists [], m, l|].
    intros [?|Hk]%elem_of_cons; [congruence|]. destruct (IH Hk) as (r1 & n & r2 & -> & En & ->).
    by exists (m :: r1), n, r2. }
  by exists (c :: r1), n, r2.
Qed.

Lemma missing_key k v l :
  (k ∉ keys l) -> pthread_setspecific k v l = (EINVAL, l) /\ pthread_key_delete k l = (EINVAL, l).
Proof.
  intros Hk. assert (Hset : pthread_setspecific k v l = (EINVAL, l)).
  { induction l as [|n l IH]; cbn in *; [done|]. rewrite (proj2 (Z.eqb_neq _ _)) by set_solver.
    rewrite IH by set_solver. done. }
  split; [done|]. clear Hset. destruct l as [|c l]; [done|]. cbn in *.
  rewrite (proj2 (Z.eqb_neq _ _)) by set_solver.
  assert (delete_after k l = (EINVAL, l)) as ->; [|done].
  assert (Hl : k ∉ map key l) by set_solver. clear Hk.
  induction l as [|n l IH]; cbn in *; [done|]. rewrite (proj2 (Z.eqb_neq _ _)) by set_solver.
  rewrite IH by set_solver. done.
Qed.
End Keys.

(** * Calls without an implementation

    The value they return and the one they leave in [errno]: [None] when they
    do not touch it. *)
Definition unsupported : Z * option Z := (ENOSYS, Some ENOSYS).
Definition refuse (e : Z) : Z * option Z := (e, None).

Definition pthread_mutexattr_init := refuse EINVAL.
Definition pthread_mutexattr_destroy := refuse EINVAL.
Definition pthread_mutexattr_setpshared := unsupported.
Definition pthread_mutexattr_gettype := refuse EINVAL.
Definition pthread_mutexattr_settype := refuse EINVAL.
Definition pthread_mutexattr_getrobust := unsupported.
Definition pthread_mutexattr_setrobust := unsupported.
Definition pthread_mutexattr_getprotocol := unsupported.
Definition pthread_mutexattr_setprotocol := unsupported.
Definition pthread_mutex_timedlock := unsupported.
Definition pthread_mutex_consistent := unsupported.
Definition pthread_rwlock_init := refuse EPERM.
Definition pthread_rwlock_destry := refuse EINVAL.
Definition pthread_rwlock_rdlock := refuse EINVAL.
Definition pthread_rwlock_tryrdlock := refuse EINVAL.
Definition pthread_rwlock_wrlock := refuse EINVAL.
Definition pthread_rwlock_trywrlock := refuse EINVAL.
Definition pthread_rwlock_unlock := refuse EINVAL.
Definition pthread_cond_init := refuse EAGAIN.
Definition pthread_cond_destroy := refuse EINVAL.
Definition pthread_condattr_init := unsupported.
Definition pthread_condattr_destroy := unsupported.
Definition pthread_condattr_getclock := unsupported.
Definition pthread_condattr_setclock := unsupported.
Definition pthread_cond_wait := refuse ENOTRECOVERABLE.
Definition pthread_cond_timedwait := refuse ENOTRECOVERABLE.
Definition pthread_cond_signal := refuse EINVAL.
Definition pthread_cond_broadcast := refuse EINVAL.
Definition pthread_barrier_init := unsupported.
Definition pthread_barrier_destroy := unsupported.
Definition pthread_barrier_wait := unsupported.
Definition pthread_self : Z := 0.
Definition pthread_create := refuse EPERM.
Definition pthread_join := refuse EINVAL.
Definition pthread_detach := refuse EINVAL.
Definition pthread_cancel := unsupported.
Definition pthread_kill := unsupported.
Definition pthread_atfork := refuse ENOMEM.
