(* ===== verification/Shim.v ===== *)
(** The system calls of the C library (src/newlib_shim/shim.c, the
    directory functions of src/libc_extension/dirent.c and the clock of
    src/newlib_shim/time.c): error codes become [-1] and [errno]. *)
From S2P Require Import Prelude Heap Alloc System RuntimeIO Paths FsStore FileSystem FsImpl.

(** * State

    There are two objects: the variable [errno] that shim.c, pthread.c, time.c,
    search.c and math_stubs.c declare after they undefine the macro of the same
    name, and the one behind the macro of <errno.h>, [*__errno()], which unistd.c,
    signal_dandelion.c and the files of src/libc_extension write. *)

Record shim (M : Type) := Shim {
  sh_fs : fs M;
  errno : Z;
  thread_errno : Z;
  is_initialized : Z;
  base_time : Z;
}.
Arguments Shim {M}. Arguments sh_fs {M}. Arguments errno {M}. Arguments thread_errno {M}.
Arguments is_initialized {M}. Arguments base_time {M}.

(** The fields of [struct stat] that are filled in. *)
Record stat_buf := Stat { sb_mode : Z; sb_nlink : Z; sb_size : Z; sb_blksize : Z; sb_blocks : Z }.

Record timespec := Timespec { tv_sec : Z; tv_nsec : Z }.

Definition R_OK : Z := 4.
Definition W_OK : Z := 2.
Definition X_OK : Z := 1.

(** [sbrk]: the increment becomes a [size_t], and the result is not changed. *)
Definition sbrk (incr : Z) : prog heap Z := dandelion_sbrk (wrap64 incr).

Section shim.
Context {M : Type} {HS : System M} {HM : Machine}.
(** Code of the C library and of the program: the constructors, [main], the
    destructors, [fcloseall], [memalign] and the time stamp counter. *)
Context (libc_init_array libc_fini_array fcloseall : prog (shim M) unit)
        (main : Z -> Z -> prog (shim M) Z)
        (memalign : Z -> Z -> prog (shim M) Z)
        (rdtsc : prog (shim M) Z).
Implicit Types s : shim M.
Notation prog := (prog (shim M)).

Definition set_fs f s : shim M := Shim f (errno s) (thread_errno s) (is_initialized s) (base_time s).
Definition set_errno e s : shim M := Shim (sh_fs s) e (thread_errno s) (is_initialized s) (base_time s).
Definition set_thread_errno e s : shim M := Shim (sh_fs s) (errno s) e (is_initialized s) (base_time s).
Definition on_fs {A} (c : Prelude.prog (fs M) A) : prog A := zoom sh_fs set_fs c.

(** The parameter is an [int]: the caller's value is converted. *)
Definition process_error (value : Z) : prog Z :=
  let error := int32 value in
  if error <? 0 then
    let! _ := modify (set_errno (int32 (- error))) in ret (-1)
  else ret error.

(** [return process_error(c);] *)
Definition wrap (c : Prelude.prog (fs M) Z) : prog Z :=
  let! value := on_fs c in process_error value.

(** * Start and end of the program *)

Definition initialization : prog Z :=
  let! errcode := on_fs fs_initialize in
  if negb (errcode =? 0) then ret errcode else
  let! _ := libc_init_array in
  let! c := gets (fun s => argc (sh_fs s)) in
  let! v := gets (fun s => argv (sh_fs s)) in
  let! errcode := main c v in
  let! _ := libc_fini_array in
  let! _ := fcloseall in
  let! _ := on_fs fs_terminate in
  ret errcode.

(** [__dandelion_entry] of include/dandelion/crt.h. *)
Definition dandelion_entry : prog unit :=
  let! _ := on_fs (on_rt (dandelion_init junk_set junk_buf)) in
  let! code := initialization in
  on_fs (fs_exit code).

(** The status given by the program is not used. *)
Definition _exit (status : Z) : prog unit :=
  let! _ := on_fs fs_terminate in
  let! e := gets errno in
  on_fs (fs_exit e).

(** * Files *)

Definition isatty (file : Z) : Z := dandelion_isatty file.
Definition open (name : list Z) (flags mode : Z) : prog Z := wrap (dandelion_open name flags mode).
Definition mkdir (name : list Z) (mode : Z) : prog Z := wrap (dandelion_mkdir name mode).
Definition rmdir (pathname : list Z) : prog Z := wrap (dandelion_rmdir pathname).
Definition close (file : Z) : prog Z := wrap (dandelion_close file).
Definition link (path1 path2 : list Z) : prog Z := wrap (dandelion_link path1 path2).
Definition unlink (path : list Z) : prog Z := wrap (dandelion_unlink path).
Definition lseek (fildes offset whence : Z) : prog Z := wrap (dandelion_lseek fildes offset whence).
Definition read (file ptr len : Z) : prog Z := wrap (dandelion_read file ptr len 0 MOVE_OFFSET).
Definition pread (file ptr len offset : Z) : prog Z :=
  wrap (dandelion_read file ptr len offset USE_OFFSET).
Definition write (file ptr len : Z) : prog Z := wrap (dandelion_write file ptr len 0 MOVE_OFFSET).
Definition pwrite (file ptr len offset : Z) : prog Z :=
  wrap (dandelion_write file ptr len offset USE_OFFSET).
Definition truncate (path : list Z) (length : Z) : prog Z := wrap (dandelion_truncate path length).
Definition ftruncate (fd length : Z) : prog Z := wrap (dandelion_ftruncate fd length).

(** [DandelionStat local = {};] *)
Definition empty_stat : dandelion_stat_data := DandelionStat 0 0 0 0.

(** The result, and the new value of [*st] when it was written. *)
Definition convert_stat (c : Prelude.prog (fs M) (Z * option dandelion_stat_data))
    : prog (Z * option stat_buf) :=
  let! r := on_fs c in
  let '(error, out) := r in
  let local := default empty_stat out in
  if error <? 0 then
    let! _ := modify (set_errno (int32 (- error))) in ret (-1, None)
  else ret (0, Some (Stat (st_mode local) (st_hard_links local) (file_size local)
                       (blk_size local) (wrap64 (file_size local + 511) / 512))).

Definition fstat (file : Z) : prog (Z * option stat_buf) := convert_stat (dandelion_fstat file).
Definition stat (file : list Z) : prog (Z * option stat_buf) := convert_stat (dandelion_stat file).
Definition lstat (file : list Z) : prog (Z * option stat_buf) := stat file.

Definition access (file : list Z) (amode : Z) : prog Z :=
  let! r := on_fs (dandelion_stat file) in
  let '(error, out) := r in
  let local := default empty_stat out in
  if error <? 0 then
    let! _ := modify (set_errno (int32 (- error))) in ret (-1)
  else if (has amode R_OK && negb (has (st_mode local) S_IRUSR))
       || (has amode W_OK && negb (has (st_mode local) S_IWUSR))
       || (has amode X_OK && negb (has (st_mode local) S_IXUSR))
  then ret (-1) else ret 0.

Definition umask (mask : Z) : Z := 511.

(** The result, and the new value of [*memptr]. *)
Definition posix_memalign (alignment size : Z) : prog (Z * option Z) :=
  let! new_allocation := memalign alignment size in
  if new_allocation =? NULL then
    let! _ := modify (set_errno ENOMEM) in ret (-1, None)
  else ret (0, Some new_allocation).

(** * Directories

    [malloc] of the C library gives the memory of the structures; whether it
    did is an argument. *)

Definition opendir (memory : bool) (name : list Z) : prog (option dir) :=
  let! r := on_fs (dandelion_opendir name) in
  let '(error, out) := r in
  if negb (error =? 0) then
    let! _ := modify (set_thread_errno (int32 (- error))) in ret None
  else if memory then ret out else fail NullDeref.

Definition closedir (d : dir) : prog Z := on_fs (dandelion_closedir d).

(** The entry, or [None] for [NULL], and the new state of the directory. *)
Definition readdir (memory : bool) (junk : dirent) (d : dir) : prog (option dirent * dir) :=
  if negb memory then
    let! _ := modify (set_thread_errno ENOMEM) in ret (None, d)
  else
    let! r := on_fs (dandelion_readdir d junk) in
    let '(error, d, e) := r in
    if error =? 0 then ret (Some e, d) else
    let! _ := if negb (error =? -1) then modify (set_thread_errno (int32 (- error))) else ret tt in
    ret (None, d).

(** The position is converted to [int] on its way. *)
Definition telldir (d : dir) : prog Z :=
  let error := int32 (dandelion_telldir d) in
  if error <? 0 then
    let! _ := modify (set_thread_errno (int32 (- error))) in ret (-1)
  else ret error.
Definition seekdir (d : dir) (index : Z) : dir := dandelion_seekdir d index.

(** * Clock *)

Definition clock_gettime : prog (Z * timespec) :=
  let! started := gets is_initialized in
  let! _ := if started =? 0 then
      let! t := rdtsc in
      modify (fun s => Shim (sh_fs s) (errno s) (thread_errno s) 1 t)
    else ret tt in
  let! t := rdtsc in
  let! base := gets base_time in
  let time_diff := wrap64 (t - base) in
  let divisor := 1000000000 in
  ret (0, Timespec (time_diff / divisor) (time_diff mod divisor)).
End shim.
