(* ===== verification/LibTheorems.v ===== *)
(** Theorems on the support code: the memory functions of freestanding.c, the
    mutexes and keys of pthread.c, the error convention of shim.c and the
    clock. *)
From S2P Require Import Prelude Bytes Heap Alloc System RuntimeIO Paths FsStore FileSystem FsImpl FsLemmas Freestanding Pthread Shim.

(** * Memory functions *)

(** [memcpy] with its word and byte loops copies the bytes of the source
    to the destination in order, and touches nothing else, whenever a forward
    copy does not overwrite source bytes it still needs (the case that
    [memmove] leaves to it). *)
Theorem memcpy_copies dst src t m :
  region m src t -> writable m dst (Z.of_nat (length t)) ->
  forward_ok dst src (Z.of_nat (length t)) ->
  wp (memcpy dst src (Z.of_nat (length t))) (fun r m' => r = dst /\ m' = write_bytes dst t m) m.
Proof. exact (memcpy_spec dst src t m). Qed.

(** [memmove] is equivalent to writing the bytes that were in the source
    before the call, for any overlap of source and destination, below 2^31
    bytes (the length is converted to [int]). *)
Theorem memmove_overlap dst src t m :
  region m src t -> writable m dst (Z.of_nat (length t)) -> Z.of_nat (length t) < 2 ^ 31 ->
  wp (memmove dst src (Z.of_nat (length t))) (fun r m' => r = dst /\ m' = write_bytes dst t m) m.
Proof. exact (memmove_spec dst src t m). Qed.

(** [memcmp] returns 0 exactly for equal contents; for different
    contents its sign is that of the pointers and not of the first different
    bytes. *)
Theorem memcmp_compares_pointers p q t u m :
  region m p t -> region m q u -> length t = length u ->
  memcmp p q (Z.of_nat (length t)) m =
  Ret (if decide (t = u) then 0 else if p >? q then 1 else -1) m.
Proof. exact (memcmp_spec p q t u m). Qed.

(** A memory with eight bytes at 100, two free ones behind them, and six bytes
    at 200. *)
Definition demo_memory : gmap Z Z :=
  write_bytes 100 (chars "abcdefgh" ++ [0; 0]) (write_bytes 200 (chars "abcxyz") ∅).

Lemma demo_memory_region : region demo_memory 100 (chars "abcdefgh" ++ [0; 0]).
Proof. apply region_write. Qed.
Lemma demo_memory_source : region demo_memory 100 (chars "abcdefgh").
Proof. apply (region_app _ _ _ [0; 0]), demo_memory_region. Qed.
Lemma demo_memory_other : region demo_memory 200 (chars "abcxyz").
Proof. apply region_write_other; [apply region_write|vm_compute; right; discriminate]. Qed.

Lemma memcpy_copies_witness :
  wp (memcpy 200 100 6) (fun r m' => r = 200 /\ m' = write_bytes 200 (chars "abcdef") demo_memory) demo_memory.
Proof.
  apply (memcpy_copies 200 100 (chars "abcdef") demo_memory).
  - apply (region_app _ _ _ (chars "gh")), demo_memory_source.
  - apply (region_writable _ _ _ demo_memory_other).
  - right. vm_compute. discriminate.
Defined.

Lemma memmove_overlap_witness :
  wp (memmove 102 100 8) (fun r m' => r = 102 /\ m' = write_bytes 102 (chars "abcdefgh") demo_memory) demo_memory.
Proof.
  apply (memmove_overlap 102 100 (chars "abcdefgh") demo_memory); [exact demo_memory_source| |vm_compute; reflexivity].
  intros i Hi. replace (102 + i) with (100 + (i + 2)) by lia.
  apply (region_writable _ _ _ demo_memory_region). change (Z.of_nat (length (chars "abcdefgh"))) with 8 in Hi.
  change (Z.of_nat (length (chars "abcdefgh" ++ [0; 0]))) with 10. lia.
Defined.

(** The bytes at 100 are smaller, but so is the pointer: swapping the buffers
    keeps the sign that the pointers give. *)
Lemma memcmp_compares_pointers_witness :
  memcmp 100 200 6 demo_memory = Ret (-1) demo_memory /\ memcmp 200 100 6 demo_memory = Ret 1 demo_memory.
Proof.
  assert (Hr : region demo_memory 100 (chars "abcdef"))
    by apply (region_app _ _ _ (chars "gh")), demo_memory_source.
  split.
  - apply (memcmp_compares_pointers 100 200 (chars "abcdef") (chars "abcxyz") demo_memory Hr demo_memory_other). reflexivity.
  - apply (memcmp_compares_pointers 200 100 (chars "abcxyz") (chars "abcdef") demo_memory demo_memory_other Hr). reflexivity.
Defined.

(** * Mutexes *)

Module MutexTheorems.
Import Mutex.

(** The attribute asks for a recursive mutex. *)
Definition asks_recursive (attr : option Z) : bool :=
  match attr with Some r => negb (r =? 0) | None => false end.

(** C33: Any sequence of lock, trylock, unlock and destroy on an initialised
    mutex returns the error codes of the state machine unlocked / locked /
    destroyed, and its word always encodes the state of that machine. *)
Theorem mutex_refines attr os :
  exists mutex, pthread_mutex_init attr = (0, mutex) /\
    runs os mutex = ((specs (asks_recursive attr) os Unlocked).1,
                     word (asks_recursive attr) (specs (asks_recursive attr) os Unlocked).2).
Proof.
  exists (word (asks_recursive attr) Unlocked). split; [|apply runs_specs].
  destruct attr as [r|]; [|done]. cbn. unfold pthread_mutex_init. by destruct (r =? 0).
Qed.

(** A recursive mutex does not count: after any number of locks one
    unlock releases it, and the next unlock fails with [EPERM]. *)
Theorem recursive_unlocks_once n attr :
  asks_recursive attr = true ->
  runs (replicate (S n) Lock ++ [Unlock; Unlock]) (pthread_mutex_init attr).2
  = (replicate (S n) 0 ++ [0; EPERM], (pthread_mutex_init attr).2).
Proof.
  intros Ha. assert ((pthread_mutex_init attr).2 = word true Unlocked) as ->.
  { destruct attr as [r|]; [|done]. cbn in Ha |- *. unfold pthread_mutex_init. by rewrite Ha. }
  rewrite runs_specs.
  assert (specs true (replicate (S n) Lock ++ [Unlock; Unlock]) Unlocked
    = (replicate (S n) 0 ++ [0; EPERM], Unlocked)) as ->; [|done].
  cbn [replicate app specs spec]. assert (specs true (replicate n Lock ++ [Unlock; Unlock]) Locked
    = (replicate n 0 ++ [0; EPERM], Unlocked)) as ->; [|done].
  induction n as [|n IH]; [done|]. cbn [replicate app specs spec]. by rewrite IH.
Qed.
Lemma recursive_unlocks_once_witness :
  runs [Lock; Lock; Unlock; Unlock] (pthread_mutex_init (Some 1)).2
  = ([0; 0; 0; EPERM], (pthread_mutex_init (Some 1)).2).
Proof. apply (recursive_unlocks_once 1 (Some 1)). reflexivity. Defined.
End MutexTheorems.

(** * Thread-specific keys *)

Module KeyTheorems.
Import Keys.

(** What the keys promise: a partial map from the live keys to their values. *)
Fixpoint assoc (k : Z) (l : list node) : option Z :=
  match l with [] => None | n :: l => if key n =? k then Some (content n) else assoc k l end.

(** The results of [pthread_setspecific] and [pthread_key_delete] on a map. *)
Definition key_error (m : gmap Z Z) (k : Z) : Z :=
  match m !! k with Some _ => 0 | None => EINVAL end.
Definition update_key (k v : Z) (m : gmap Z Z) : gmap Z Z :=
  match m !! k with Some _ => <[k := v]> m | None => m end.

(** The states a program reaches through the calls, each beside the map that
    the calls describe; at most 2^32 - 1 keys are live. *)
Inductive session : list node -> gmap Z Z -> Prop :=
| session_start : session [] ∅
| session_create l m k l' :
    session l m -> pthread_key_create true l = Ret k l' -> k < 2 ^ 32 - 1 ->
    session l' (<[k := NULL]> m)
| session_set l m k v :
    session l m -> session (pthread_setspecific k v l).2 (update_key k v m)
| session_delete l m k :
    session l m -> session (pthread_key_delete k l).2 (delete k m).

Lemma assoc_keys k l : assoc k l = None <-> k ∉ keys l.
Proof.
  induction l as [|n l IH]; cbn; [split; [intros _ ?%elem_of_nil|]; done|].
  destruct (key n =? k) eqn:E; bool_to_prop; [split; [done|]; set_solver|].
  rewrite IH. set_solver.
Qed.

Lemma assoc_getspecific k l : pthread_getspecific k l = default NULL (assoc k l).
Proof. induction l as [|n l IH]; cbn; [done|]. by destruct (key n =? k). Qed.

(** The map without its node in the middle. *)
Lemma assoc_middle k l1 n l2 :
  key n ∉ keys (l1 ++ l2) ->
  assoc k (l1 ++ n :: l2) = if key n =? k then Some (content n) else assoc k (l1 ++ l2).
Proof.
  intros Hn. induction l1 as [|c l1 IH]; cbn; [done|]. cbn in Hn.
  rewrite IH by set_solver. destruct (key c =? k) eqn:Ec, (key n =? k) eqn:En; bool_to_prop; [|done..].
  exfalso. set_solver.
Qed.

Lemma above_replace b l1 n l2 v : above b (l1 ++ n :: l2) -> above b (l1 ++ Node (key n) v :: l2).
Proof. revert b. induction l1 as [|m l1 IH]; intros b; cbn; [done|]. intros [Hm Hl]. split; [done|by apply IH]. Qed.

Definition agree (l : list node) (m : gmap Z Z) : Prop := forall k, m !! k = assoc k l.

Lemma agree_member l m k : agree l m -> k ∈ keys l <-> is_Some (m !! k).
Proof.
  intros Ha. rewrite Ha. pose proof (assoc_keys k l) as Hk. destruct (assoc k l) as [v|].
  - split; [by exists v|]. intros _. destruct (decide (k ∈ keys l)); [done|]. naive_solver.
  - split; [|by intros [v ?]]. naive_solver.
Qed.

Lemma create_agrees l m k l' :
  keys_ok l -> agree l m -> pthread_key_create true l = Ret k l' -> k < 2 ^ 32 - 1 ->
  keys_ok l' /\ m !! k = None /\ agree l' (<[k := NULL]> m).
Proof.
  intros Hok Ha E Hk. destruct (key_create_spec _ _ _ Hok E Hk) as (l1 & l2 & -> & -> & Hok').
  pose proof (keys_app_not _ _ _ _ Hok') as Hn. split_and!; [done| |].
  - rewrite Ha. by apply assoc_keys.
  - intros j. rewrite assoc_middle by done. cbn. destruct (k =? j) eqn:Ej; bool_to_prop.
    + subst. by rewrite lookup_insert_eq.
    + rewrite lookup_insert_ne by done. apply Ha.
Qed.

Lemma set_agrees l m k v :
  keys_ok l -> agree l m ->
  (pthread_setspecific k v l).1 = key_error m k /\ keys_ok (pthread_setspecific k v l).2 /\
  agree (pthread_setspecific k v l).2 (update_key k v m).
Proof.
  intros Hok Ha. unfold key_error, update_key. pose proof (agree_member l m k Ha) as Hm.
  destruct (m !! k) as [w|] eqn:Ek.
  - destruct (setspecific_spec k v l) as (r1 & n & r2 & -> & <- & ->); [apply Hm; by exists w|].
    cbv [fst snd]. split_and!; [done|by apply above_replace|]. intros j.
    pose proof (keys_app_not _ _ _ _ Hok) as Hn. rewrite assoc_middle by done. cbn.
    specialize (Ha j). rewrite assoc_middle in Ha by done.
    destruct (key n =? j) eqn:Ej; bool_to_prop; [subst; apply lookup_insert_eq|].
    by rewrite lookup_insert_ne.
  - destruct (missing_key k v l) as [-> _]; [|done]. rewrite Hm. by intros [? ?].
Qed.

Lemma delete_agrees l m k :
  keys_ok l -> agree l m ->
  (pthread_key_delete k l).1 = key_error m k /\ keys_ok (pthread_key_delete k l).2 /\
  agree (pthread_key_delete k l).2 (delete k m).
Proof.
  intros Hok Ha. unfold key_error. pose proof (agree_member l m k Ha) as Hm.
  destruct (m !! k) as [w|] eqn:Ek.
  - destruct (key_delete_spec k l) as (r1 & n & r2 & -> & <- & ->); [apply Hm; by exists w|].
    cbv [fst snd]. split_and!; [done|by eapply above_remove|]. intros j.
    pose proof (keys_app_not _ _ _ _ Hok) as Hn.
    specialize (Ha j). rewrite assoc_middle in Ha by done.
    destruct (key n =? j) eqn:Ej; bool_to_prop.
    + subst. rewrite lookup_delete_eq. symmetry. by apply assoc_keys.
    + by rewrite lookup_delete_ne.
  - destruct (missing_key k 0 l) as [_ ->]; [rewrite Hm; by intros [? ?]|].
    split_and!; [done|done|]. intros j. by rewrite delete_id.
Qed.

Lemma session_agrees l m : session l m -> keys_ok l /\ agree l m.
Proof.
  induction 1 as [|l m k l' _ [Hok Ha] E Hk|l m k v _ [Hok Ha]|l m k _ [Hok Ha]].
  - split; [done|]. intros k. by rewrite lookup_empty.
  - by destruct (create_agrees l m k l' Hok Ha E Hk) as (? & _ & ?).
  - by destruct (set_agrees l m k v Hok Ha) as (_ & ? & ?).
  - by destruct (delete_agrees l m k Hok Ha) as (_ & ? & ?).
Qed.

(** C32: The sorted list of keys refines a partial map: after any calls of
    key_create, setspecific and key_delete, getspecific reads the value last
    set for a live key and [NULL] for any other, setspecific and key_delete
    fail with [EINVAL] exactly for keys that are not live, and key_create
    returns a key that is not in use. *)
Theorem keys_session l m :
  session l m ->
  (forall k, pthread_getspecific k l = default NULL (m !! k)) /\
  (forall k v, (pthread_setspecific k v l).1 = key_error m k) /\
  (forall k, (pthread_key_delete k l).1 = key_error m k) /\
  (forall k l', pthread_key_create true l = Ret k l' -> k < 2 ^ 32 - 1 -> m !! k = None).
Proof.
  intros [Hok Ha]%session_agrees. split_and!.
  - intros k. by rewrite assoc_getspecific, Ha.
  - intros k v. by apply set_agrees.
  - intros k. by apply delete_agrees.
  - intros k l' E Hk. by destruct (create_agrees l m k l' Hok Ha E Hk) as (_ & ? & _).
Qed.

(** Two keys, the second with a value, the first deleted. *)
Definition demo_keys : list node := [Node 1 42].
Definition demo_map : gmap Z Z := delete 0 (update_key 1 42 (<[1 := NULL]> (<[0 := NULL]> ∅))).

Lemma demo_keys_session : session demo_keys demo_map.
Proof.
  apply (session_delete [Node 0 0; Node 1 42] _ 0), (session_set [Node 0 0; Node 1 0] _ 1 42).
  eapply (session_create [Node 0 0]); [|reflexivity|lia].
  eapply (session_create []); [constructor|reflexivity|lia].
Qed.

Lemma keys_session_witness :
  session demo_keys demo_map /\ pthread_getspecific 1 demo_keys = 42 /\
  (pthread_setspecific 0 7 demo_keys).1 = EINVAL.
Proof.
  split; [exact demo_keys_session|].
  destruct (keys_session demo_keys demo_map demo_keys_session) as (Hg & Hs & _ & _).
  split; [rewrite Hg; vm_compute; reflexivity|rewrite Hs; vm_compute; reflexivity].
Defined.
End KeyTheorems.
