(* ===== verification/ShimTheorems.v ===== *)
(** Theorems on the system calls of the C library: the error convention of
    shim.c, and what a program sees that writes, seeks and reads. *)
From S2P Require Import Prelude Bytes Heap Alloc AllocSession AllocTheorems System RuntimeIO Paths PathSpec FsStore FileSystem FsImpl FsLemmas FsTree FsResolve FsData FsWrite FsSeek FsDemo FsFileTheorems Shim.

Section calls.
Context {M : Type} {HS : System M} {HM : Machine}.
Implicit Types s : shim M.

(** A call that succeeds with a value that an [int] holds. *)
Lemma wp_wrap (c : prog (fs M) Z) (P : Z -> fs M -> Prop) (Q : Z -> shim M -> Prop) s :
  wp c P (sh_fs s) ->
  (forall v f, P v f -> 0 <= v < 2 ^ 31 /\ Q v (set_fs f s)) -> wp (wrap c) Q s.
Proof.
  intros Hc HQ. apply wp_bind, wp_zoom. eapply wp_mono; [exact Hc|]. intros v f Hv.
  destruct (HQ v f Hv) as [Hr Hq]. unfold process_error. rewrite int32_small by lia.
  rewrite (proj2 (Z.ltb_ge _ _)) by lia. by apply wp_ret.
Qed.

(** The error convention of the C library: a call whose file system
    operation returns the negated error code [-e] returns -1 and sets [errno]
    to [e]; otherwise it returns the result and leaves [errno] as it was; the
    file system is in the same state either way. *)
Theorem errors_reach_errno (c : prog (fs M) Z) s v f :
  c (sh_fs s) = Ret v f -> - 2 ^ 31 < v < 2 ^ 31 ->
  exists r, wrap c s = Ret r (Shim f (if v <? 0 then - v else errno s) (thread_errno s) (is_initialized s) (base_time s)) /\
    r = (if v <? 0 then -1 else v) /\ (r = -1 <-> v < 0).
Proof.
  intros Hc Hv. unfold wrap, bind at 1, on_fs, zoom. rewrite Hc. unfold process_error.
  rewrite (int32_small v) by lia. destruct (v <? 0) eqn:E; bool_to_prop.
  - exists (-1). unfold bind, modify, ret. rewrite int32_small by lia. done.
  - exists v. unfold ret. split_and!; [by destruct s|done|lia].
Qed.

(** Write, seek to the start, read. *)
Definition write_then_read (fd src n dst len : Z) : prog (shim M) (Z * Z * Z) :=
  let! w := write fd src n in
  let! p := lseek fd 0 SEEK_SET in
  let! r := read fd dst len in
  ret (w, p, r).

(** Seek to the start of a file of one chunk, and read all of it. *)
Lemma rewind_spec {A} s fd o f x u c dst len (k : Z -> Z -> prog (shim M) A) Q :
  open_on (sh_fs s) fd o f -> stored (chunks (sh_fs s)) (bytes (sh_fs s)) (content f) [(x, u)] ->
  has (open_flags o) O_WRONLY = false -> chunks (sh_fs s) !! x = Some c ->
  let n := Z.of_nat (length u) in
  0 < n <= len -> len < 2 ^ 31 -> 0 < dst -> writable (bytes (sh_fs s)) dst n ->
  disjoint_range dst n (data c) n ->
  (forall s', region (bytes (sh_fs s')) dst u -> errno s' = errno s -> wp (k 0 n) Q s') ->
  wp (let! p := lseek fd 0 SEEK_SET in let! r := read fd dst len in k p r) Q s.
Proof.
  intros [Ho Hof Hf Ht] Hst Hwr Hc n Hn Hlen Hdst Hw Hdis HQ.
  assert (Hcont : contents [(x, u)] = u) by (unfold contents; cbn; apply app_nil_r).
  apply wp_bind. eapply wp_wrap.
  { eapply (dandelion_lseek_spec _ fd o f [(x, u)] 0 0 SEEK_SET); rewrite ?Hcont; try done; try (fold n; lia). }
  intros v g (-> & y & j & (l1 & t & l2 & El & Hj & Ep) & ->). split; [lia|].
  assert (l1 = [] /\ (y, t) = (x, u)) as [-> [= -> ->]].
  { destruct l1 as [|? l1]; [by injection El as -> -> _|]. by destruct l1. }
  unfold contents in Ep. cbn in Ep. assert (j = 0) as -> by lia.
  match goal with |- wp _ _ (set_fs ?g _) => set (f2 := g) end.
  set (o2 := OpenFile (of_file o) x 0 (open_flags o)).
  assert (Hop : open_on f2 fd o2 f) by (split; [apply zlookup_insert_eq; by eapply zlookup_range|done..]).
  pose proof Hst as (Ex & _)%stored_cons. rewrite Ex in Hst.
  apply wp_bind. eapply wp_wrap.
  { apply (read_last_run f2 fd o2 f dst len 0 x u Hop Hwr eq_refl Hst);
      change (offset o2) with 0; fold n; rewrite ?(Z.min_r len (n - 0)), ?Z.sub_0_r by lia; [lia|lia|done|done|].
    constructor; [|constructor]. cbn [fst snd]. intros c' Hc'.
    change (chunks f2) with (chunks (sh_fs s)) in Hc'. by assert (c' = c) as -> by congruence. }
  change (offset o2) with 0. fold n. rewrite Z.min_r by lia. rewrite Z.sub_0_r.
  intros v g [-> ->]. split; [lia|]. apply HQ; [|done].
  rewrite drop_0, take_ge by lia. apply region_write.
Qed.

(** C31: A program that writes a buffer to a file that has room for it in its
    only chunk, seeks to the start and reads, gets back what the file held
    followed by what it wrote; the calls return the number of bytes written, the
    position 0 and the number of bytes read, and leave [errno] alone.  The file is not
    open with [O_APPEND]; with a second chunk the read would overrun the buffer, see
    [FsFileTheorems.read_overruns]. *)
Theorem write_read_roundtrip s fd o f src buf dst len x t c :
  open_on (sh_fs s) fd o f -> file_ok (sh_fs s) (content f) [(x, t)] ->
  source_ok (sh_fs s) src buf [(x, t)] -> sound (sh_fs s) ->
  current_chunk o = x \/ current_chunk o = NULL ->
  has (open_flags o) O_APPEND = false -> has (open_flags o) O_WRONLY = false ->
  chunks (sh_fs s) !! x = Some c -> used c + Z.of_nat (length buf) <= capacity c ->
  0 < Z.of_nat (length buf) ->
  let n := Z.of_nat (length (t ++ buf)) in
  n <= len < 2 ^ 31 -> 0 < dst -> writable (bytes (sh_fs s)) dst n ->
  disjoint_range dst n (data c) (capacity c) ->
  wp (write_then_read fd src (Z.of_nat (length buf)) dst len) (fun r s' =>
    r = (Z.of_nat (length buf), 0, n) /\ region (bytes (sh_fs s')) dst (t ++ buf) /\
    errno s' = errno s) s.
Proof.
  intros Hop Hok Hsrc Hs Hcur Happ Hwr Hc Hcap Hpos n Hlen Hdst Hw Hdis.
  destruct Hop as [Ho Hof Hf Ht].
  pose proof (zlookup_range _ _ _ Ho) as Hfd.
  destruct (stored_in _ _ _ _ x t (fo_stored _ _ _ Hok) ltac:(constructor)) as (_ & c' & Hc' & Hu & Hcc & _).
  cbv [fst snd] in Hc'. assert (c' = c) as -> by congruence.
  set (f1 := appended (sh_fs s) x c buf).
  assert (Hok1 : file_ok f1 (content f) [(x, t ++ buf)]) by (by apply (file_ok_appended _ _ [])).
  apply wp_bind. eapply wp_wrap; [eapply (write_fits_run _ fd o f src buf 0 MOVE_OFFSET [] x t c); try done|].
  { destruct Hcur; [by left|by right]. }
  intros v g [-> ->]. split; [unfold n in *; rewrite length_app in *; lia|].
  unfold moved. change (has MOVE_OFFSET MOVE_OFFSET) with true. cbv iota. fold f1.
  assert (Hc1 : chunks f1 !! x = Some (FileChunk (data c) (capacity c) (used c + Z.of_nat (length buf)) (next_chunk c))).
  { cbn. by rewrite lookup_insert_eq. }
  eapply (rewind_spec _ fd (OpenFile (of_file o) x _ (open_flags o)) f x (t ++ buf)).
  - split; [cbn; by eapply zlookup_insert_eq|done..].
  - exact (fo_stored _ _ _ Hok1).
  - done.
  - exact Hc1.
  - fold n. unfold n. rewrite length_app. unfold n in Hlen. rewrite length_app in Hlen. lia.
  - lia.
  - done.
  - intros i Hi. apply (writable_write _ _ _ _ _ Hw). fold n in Hi. lia.
  - fold n. unfold disjoint_range, n in *. rewrite length_app in *. cbn in Hu |- *. lia.
  - intros s' Hreg He. by apply wp_ret.
Qed.
End calls.

(** A program whose file system is the one of the examples. *)
Definition demo_shim : shim session := Shim demo_fs 0 0 0 0.

Lemma errors_reach_errno_witness :
  exists r s', close 3 demo_shim = Ret r s' /\ r = -1 /\ errno s' = EBADF.
Proof.
  assert (E : dandelion_close 3 (sh_fs demo_shim) = Ret (-9) demo_fs) by (vm_compute; reflexivity).
  destruct (errors_reach_errno (dandelion_close 3) demo_shim (-9) demo_fs E ltac:(lia)) as (r & Hr & Er & _).
  eexists _, _. split; [exact Hr|]. split; [exact Er|reflexivity].
Defined.

Lemma write_read_roundtrip_witness :
  wp (write_then_read 0 4176 4 4176 8) (fun r s' =>
    r = (4, 0, 7) /\ region (bytes (sh_fs s')) 4176 (chars "abcdefg") /\ errno s' = 0) demo_shim.
Proof.
  apply (write_read_roundtrip demo_shim 0 _ _ 4176 (chars "defg") 4176 8 4104 (chars "abc")
    (FileChunk 4152 8 3 NULL) (demo_open_on _ _) demo_file_ok demo_source demo_session_sound).
  - by left.
  - reflexivity.
  - reflexivity.
  - vm_compute. reflexivity.
  - vm_compute. discriminate.
  - vm_compute. reflexivity.
  - split; vm_compute; congruence.
  - lia.
  - apply (demo_writable 7). lia.
  - unfold disjoint_range. cbn. lia.
Defined.
