(* ===== verification/ExportTheorems.v ===== *)
(** Theorems on what a program hands over when it ends: [fs_terminate] of
    src/file_system/file_system.c appends the files below the directory of each
    output set to that set, and [_exit] of src/newlib_shim/shim.c then gives
    them to the platform. *)
From S2P Require Import Prelude Bytes Heap Alloc AllocSession AllocTheorems AllocRoom System RuntimeIO RuntimeTree RuntimeOutput RuntimeExit Paths PathSpec FsStore FileSystem FsLemmas FsTree FsData FsWrite FsExport FsExportNode FsTerminate FsDemo Shim.

(** * What the sets show *)

Section shown.
Context {M : Type} {HS : System M} {HM : Machine}.
Implicit Types s : fs M.

(** The buffers of a set, and the paths and contents that they show. *)
Definition shows s (bufs : list io_buffer) (items : list (list Z * list Z)) : Prop :=
  Forall2 (item_at (bytes s)) bufs items.

(** What a program has to leave behind: the root, the runtime's output tree,
    and for every set its name and the trees of its directory, with memory for
    the export. *)
Record can_terminate n s views strs trees : Prop := {
  ct_bound : 0 <= n < 2 ^ 56;
  ct_root : exists xs d, root_at s xs d /\ Forall3 (set_ok s xs) views strs trees;
  ct_ready : ready s [] views;
  ct_fits : Forall2 (set_fits n) views trees;
  ct_room : total_cost n trees <= sys_room (rt_sys (fs_rt s));
}.

Lemma terminate_spec n s views strs trees :
  can_terminate n s views strs trees ->
  wp fs_terminate (fun r s' => r = 0 /\
    exists bufss, all_exported (total_cost n trees) s s' [] views bufss (map items_of trees)) s.
Proof. intros [Hn (xs & d & Hroot & Hok) Hr Hfit Hroom]. by eapply fs_terminate_spec. Qed.

Lemma items_shown s R bufss items :
  Forall2 (Forall2 (item_kept s R)) bufss items -> Forall2 (shows s) bufss items.
Proof.
  intros H. eapply Forall2_impl; [exact H|]. intros bufs its Hb.
  eapply Forall2_impl; [exact Hb|]. by intros b it [].
Qed.

(** The end of a program exports its files: when memory suffices,
    [fs_terminate] returns 0, and behind the buffers a set had there is, in the
    order of the directories, one buffer for each file below the directory with
    the set's name (without the standard input, the arguments and the
    environment in [stdio]), which shows the path from that directory and the
    content in one piece; files, and bytes that are in use, stay as they were. *)
Theorem terminate_exports n s views strs trees :
  can_terminate n s views strs trees ->
  wp fs_terminate (fun r s' => r = 0 /\ exists bufss,
    out_tree (fs_rt s') (rt_output_sets (fs_rt s')) (zip_with add_bufs views bufss) /\
    Forall2 (shows s') bufss (map items_of trees) /\
    (forall x, held s x -> files s' !! x = files s !! x /\ chunks s' !! x = chunks s !! x) /\
    (forall a, safe s [] a -> bytes s' !! a = bytes s !! a) /\
    live s ⊆ live s' /\
    sys_room (rt_sys (fs_rt s)) - total_cost n trees <= sys_room (rt_sys (fs_rt s'))) s.
Proof.
  intros Hcan. eapply wp_mono; [by eapply terminate_spec|].
  intros r s' (-> & bufss & [He Hr Hit _ _]). split; [done|]. exists bufss.
  destruct (rd_out _ _ _ Hr) as (sets & Hs & Hd & _). split_and!.
  - by exists sets.
  - by eapply items_shown.
  - intros x Hx. split; [by apply (ex_files _ _ _ He)|by apply (ex_chunks _ _ _ He)].
  - apply (ex_bytes _ _ _ He).
  - by eapply ex_live.
  - apply (sg_room _ _ _ (ex_grows _ _ _ He)).
Qed.

(** * The exit *)

Definition sum_items (trees : list (list tree)) : Z := foldr (fun ts k => sum_files ts + k) 0 trees.

Lemma files_in_items ts : Z.of_nat (length (items_of ts)) = sum_files ts.
Proof.
  unfold items_of, sum_files. induction ts as [|t ts IH]; [done|]. cbn [map concat foldr].
  by rewrite length_app, Nat2Z.inj_add, files_in_exports, IH.
Qed.

(** The number of buffers in all sets after the export. *)
Lemma exported_count s bufss trees views :
  Forall2 (shows s) bufss (map items_of trees) -> length views = length trees ->
  Z.of_nat (length (flat_bufs (zip_with add_bufs views bufss))) =
    Z.of_nat (length (flat_bufs views)) + sum_items trees.
Proof.
  intros H. revert views. remember (map items_of trees) as items eqn:E. revert trees E.
  induction H as [|bufs its bufss items Hb _ IH]; intros [|ts trees] E [|v views] Hl; try done.
  injection E as -> E. injection Hl as Hl. apply Forall2_length in Hb. unfold flat_bufs in *.
  cbn [zip_with fmap list_fmap concat add_bufs snd sum_items foldr].
  rewrite !length_app, !Nat2Z.inj_add, (IH trees E views Hl), Hb, files_in_items. unfold sum_items. lia.
Qed.

Lemma add_bufs_idents views bufss raw :
  same_idents views raw -> same_idents (zip_with add_bufs views bufss) raw.
Proof.
  intros H i v info Hv Hi. unfold zlookup in Hv. destruct (0 <=? i) eqn:E; [|done].
  apply lookup_zip_with_Some in Hv as (w & bufs & -> & Hw & _). apply (H i w info); [|done].
  unfold zlookup. by rewrite E.
Qed.

(** What the platform asks of the runtime's output sets, with the memory for the
    flat list of all buffers. *)
Record can_exit n s views trees : Prop := {
  ce_length : length (output_sets (fs_rt s)) = S (length views);
  ce_idents : same_idents views (output_sets (fs_rt s));
  ce_views : views <> [];
  ce_size : (Z.of_nat (length (flat_bufs views)) + sum_items trees) * sizeof_io < 2 ^ 63;
  ce_room : total_cost n trees + sys_cost ((Z.of_nat (length (flat_bufs views)) + sum_items trees) * sizeof_io) <=
    sys_room (rt_sys (fs_rt s));
}.

(** The platform found the sets with their buffers, which show the items. *)
Definition handed_over s views bufss (trees : list (list tree)) : Prop :=
  let t := zip_with add_bufs views bufss in
  Forall2 (shows s) bufss (map items_of trees) /\
  (exists sen, output_sets (fs_rt s) = flat_infos 0 sen t) /\ raw_output (fs_rt s) = flat_bufs t.

Lemma hand_over_spec n s f views strs trees bufss code :
  can_terminate n s views strs trees -> can_exit n s views trees ->
  all_exported (total_cost n trees) s f [] views bufss (map items_of trees) ->
  wp (fs_exit code) (fun _ f' => sys_exited (rt_sys (fs_rt f')) = true /\ sys_code (rt_sys (fs_rt f')) = code /\
    handed_over f' views bufss trees) f.
Proof.
  intros Hcan [Hraw Hid Hne Htot Hroom] [He Hr Hit Hsame Hout].
  set (total := Z.of_nat (length (flat_bufs views)) + sum_items trees) in *.
  apply wp_zoom. pose proof (items_shown _ _ _ _ Hit) as Hshow. cbn [app] in Hr.
  assert (Hlen : length views = length trees) by (destruct Hcan as [_ _ _ H%Forall2_length _]; done).
  assert (Hlt : length (zip_with add_bufs views bufss) = length views).
  { apply Forall2_length in Hshow. rewrite length_map in Hshow. rewrite length_zip_with. lia. }
  pose proof (exported_count _ _ _ _ Hshow Hlen : _ = total) as Hcount.
  destruct Hsame as (_ & _ & Hl2 & Hraw2 & _). destruct (rd_out _ _ _ Hr) as (sets & Hs & _).
  eapply wp_mono.
  { apply (dandelion_exit_spec _ (fs_rt f) (zip_with add_bufs views bufss)).
    - apply Hr.
    - by exists sets.
    - apply Hr.
    - by rewrite Hraw2, Hlt.
    - rewrite Hraw2. by apply add_bufs_idents.
    - rewrite Hcount. lia. }
  intros _ r' [[_ Hno]|(H1 & H2 & Hsen & H4)]; [|by split_and!].
  destruct Hno. unfold exit_room. rewrite Hcount. split_and!; [|done|].
  - destruct (sys_live _) eqn:E; [|done]. pose proof (rd_first _ _ _ Hr) as Hf. unfold first_live, live in Hf.
    rewrite E in Hf. by apply elem_of_nil in Hf.
  - pose proof (sg_room _ _ _ (ex_grows _ _ _ He)) as Hg. lia.
Qed.

(** C8: The files of a program reach the platform: with enough memory,
    [_exit] ends the process, and the platform finds the flat list of the sets
    under their names, with the buffers the program had added itself and behind
    them, for each set, its exported files with their paths and contents.  The
    exit code is [errno], whatever status the program gave. *)
Theorem exit_hands_over_files n (w : shim M) views strs trees status :
  can_terminate n (sh_fs w) views strs trees -> can_exit n (sh_fs w) views trees ->
  wp (_exit status) (fun _ w' =>
    sys_exited (rt_sys (fs_rt (sh_fs w'))) = true /\ sys_code (rt_sys (fs_rt (sh_fs w'))) = errno w /\
    exists bufss, handed_over (sh_fs w') views bufss trees) w.
Proof.
  intros Hcan Hex. apply wp_bind, wp_zoom. eapply wp_mono; [by eapply terminate_spec|].
  intros r f' (_ & bufss & Hall). apply wp_bind, wp_gets, wp_zoom. cbn [sh_fs set_fs errno].
  eapply wp_mono; [by eapply hand_over_spec|]. intros _ f2 (H1 & H2 & H3). split_and!; [done|done|by exists bufss].
Qed.
End shown.

(** * A program with two output sets

    The platform asks for the sets [out] and [stdio].  In [out] there is the
    directory [logs] with a file of two chunks, and a file [result]; in [stdio]
    the arguments and the standard output. *)
Module Demo.
Definition requests : list Z := [80; 112; 112; 112; 112; 112; 112; 112; 32; 8; 32; 8; 32; 8; 32; 8].
Definition start : session := Session (init_heap 4096 (4096 + 2 ^ 20) ∅) [].
Definition memory : session :=
  match allocs requests start with Ret _ m => m | Fault _ => start end.

Lemma export_memory_run : allocs requests start =
  Ret [4104; 4200; 4328; 4456; 4584; 4712; 4840; 4968; 5096; 5144; 5168; 5216; 5240; 5288; 5312; 5360] memory.
Proof. vm_compute. reflexivity. Qed.

Lemma export_memory_sound : sys_sound memory.
Proof.
  eapply (wp_from_run _ (fun _ m => sys_sound m)); [apply export_memory_run|].
  apply allocs_sound; [exists []; apply inv_init; lia|]. repeat constructor; lia.
Qed.

Lemma memory_live : sys_live memory =
  [(5360, 1); (5312, 4); (5288, 1); (5240, 4); (5216, 1); (5168, 4); (5144, 1); (5096, 4); (4968, 14);
   (4840, 14); (4712, 14); (4584, 14); (4456, 14); (4328, 14); (4200, 14); (4104, 10)].
Proof. vm_compute. reflexivity. Qed.

Definition tree_files : gmap Z dfile :=
  <[fs_root := node "/" NULL NULL DIRECTORY 4200]> (
  <[4200 := node "out" 4328 fs_root DIRECTORY 4456]> (
  <[4328 := node "stdio" NULL fs_root DIRECTORY 4840]> (
  <[4456 := node "logs" 4712 4200 DIRECTORY 4584]> (
  <[4584 := node "log" NULL 4456 FILE 5096]> (
  <[4712 := node "result" NULL 4200 FILE 5240]> (
  <[4840 := node "argv" 4968 4328 FILE NULL]> (
  <[4968 := node "stdout" NULL 4328 FILE 5312]> ∅))))))).
Definition tree_chunks : gmap Z file_chunk :=
  <[5096 := FileChunk 5144 8 3 5168]> (<[5168 := FileChunk 5216 8 3 NULL]> (
  <[5240 := FileChunk 5288 8 2 NULL]> {[5312 := FileChunk 5360 8 5 NULL]})).
Definition memory_bytes : gmap Z Z :=
  buffer 5144 (chars "abc") (buffer 5216 (chars "xyz") (buffer 5288 (chars "42") (buffer 5360 (chars "hello")
    (buffer 100 (chars "out") (buffer 110 (chars "stdio") ∅))))).

Definition views : list view := [(100, 3, []); (110, 5, [])].
Definition rt : runtime session :=
  Runtime memory 0 [IoSetInfo NULL 0 0] 2 [IoSetInfo 100 3 0; IoSetInfo 110 5 0; IoSetInfo NULL 0 0] [] NULL NULL 4104
    {[4104 := [IoSet 100 3 NULL 0 0; IoSet 110 5 NULL 0 0]]} ∅.
Definition fs0 : fs session := Fs rt tree_files tree_chunks memory_bytes ∅ ∅ demo_open 0 0 0 NULL NULL 0%nat.
Definition program : shim session := Shim fs0 5 0 0 0.

Definition out_trees : list tree :=
  [TDir (chars "logs") [TFile (chars "log") (chars "abcxyz")]; TFile (chars "result") (chars "42")].
Definition stdio_trees : list tree :=
  chosen (chars "stdio") [TFile (chars "argv") []; TFile (chars "stdout") (chars "hello")].

(** ** Facts *)

Lemma held_by x : bool_decide (x < 0 \/ x ∈ (live fs0).*1) = true -> held fs0 x.
Proof. by intros H%bool_decide_eq_true. Qed.
Ltac is_held := apply held_by; vm_compute; reflexivity.

Lemma node_by x f : tree_files !! x = Some f -> negb (x =? NULL) && bool_decide (x < 0 \/ x ∈ (live fs0).*1) &&
  bool_decide (length (name f) = 64%nat) && negb (bool_decide (node_name f = [])) = true -> node_ok fs0 x f.
Proof.
  intros Hf [[[H0%negb_true_iff%Z.eqb_neq H1%held_by]%andb_prop H2%bool_decide_eq_true]%andb_prop
    H3%negb_true_iff%bool_decide_eq_false]%andb_prop. by split.
Qed.

Lemma chunk_by x c l k : tree_chunks !! x = Some c -> (data c, k) ∈ live fs0 -> (x ∈ (live fs0).*1) ->
  Z.of_nat (length l) <= 8 * k -> 1 <= 8 * k -> chunk_safe fs0 [] (x, l).
Proof.
  intros Hc Hk Hx Hl H1. split; [by right|]. intros c' Hc'. cbn [fst snd] in *. assert (c' = c) as -> by (cbn in Hc'; congruence).
  intros i Hi. left. exists (data c), k. split_and!; [done|apply not_elem_of_nil|lia|lia].
Qed.
Ltac in_live := apply (bool_decide_eq_true_1 _); vm_compute; reflexivity.
Ltac a_chunk := eapply (chunk_by _ _ _ 1); [vm_compute; reflexivity|in_live|in_live|cbn; lia|lia].
Ltac some_chunk :=
  eexists; split; [vm_compute; reflexivity|]; cbn; split_and!; try lia;
  repeat (apply region_cons; split; [vm_compute; reflexivity|]); apply region_nil.
Ltac a_chain := repeat (split; [reflexivity|]; split; [done|]; eexists; split; [vm_compute; reflexivity|]); reflexivity.

Lemma file_by x f l label text : node_ok fs0 x f -> ftype f = FILE -> node_name f = label -> contents l = text ->
  stored tree_chunks memory_bytes (content f) l -> Forall (chunk_safe fs0 []) l ->
  (length l <= 1)%nat \/ text <> [] -> Z.of_nat (length text) < 2 ^ 62 -> node_rep fs0 [] x (TFile label text).
Proof. intros ? ? <- <- ? ? ? ?. by apply rep_file. Qed.
Lemma dir_by x f xs label kids : node_ok fs0 x f -> ftype f = DIRECTORY -> node_name f = label ->
  chain next tree_files (content f) xs -> Forall2 (node_rep fs0 []) xs kids -> node_rep fs0 [] x (TDir label kids).
Proof. intros ? ? <- ? ?. by eapply rep_dir. Qed.
Ltac a_node := apply node_by; [reflexivity|vm_compute; reflexivity].
Ltac each t := repeat (apply Forall_cons_2; [t|]); apply Forall_nil_2.
Ltac computed := vm_compute; reflexivity.

Lemma log_rep : node_rep fs0 [] 4584 (TFile (chars "log") (chars "abcxyz")).
Proof.
  eapply (file_by _ (node "log" NULL 4456 FILE 5096) [(5096, chars "abc"); (5168, chars "xyz")]);
    [a_node|done|computed|computed|split; [a_chain|each some_chunk]|each a_chunk|by right|done].
Qed.
Lemma result_rep : node_rep fs0 [] 4712 (TFile (chars "result") (chars "42")).
Proof.
  eapply (file_by _ (node "result" NULL 4200 FILE 5240) [(5240, chars "42")]);
    [a_node|done|computed|computed|split; [a_chain|each some_chunk]|each a_chunk|by right|done].
Qed.
Lemma argv_rep : node_rep fs0 [] 4840 (TFile (chars "argv") []).
Proof.
  eapply (file_by _ (node "argv" 4968 4328 FILE NULL) []);
    [a_node|done|computed|computed|split; [a_chain|constructor]|constructor|left; cbn; lia|done].
Qed.
Lemma stdout_rep : node_rep fs0 [] 4968 (TFile (chars "stdout") (chars "hello")).
Proof.
  eapply (file_by _ (node "stdout" NULL 4328 FILE 5312) [(5312, chars "hello")]);
    [a_node|done|computed|computed|split; [a_chain|each some_chunk]|each a_chunk|by right|done].
Qed.
Lemma logs_rep : node_rep fs0 [] 4456 (TDir (chars "logs") [TFile (chars "log") (chars "abcxyz")]).
Proof.
  eapply (dir_by _ (node "logs" 4712 4200 DIRECTORY 4584) [4584]);
    [a_node|done|computed|a_chain|constructor; [apply log_rep|constructor]].
Qed.

Lemma names_named : all_named tree_files.
Proof. intros x f H. unfold tree_files in H. each_lookup H; reflexivity. Qed.

Lemma root : root_at fs0 [4200; 4328] (node "/" NULL NULL DIRECTORY 4200).
Proof.
  split; [split; [done|done|done|a_chain|set_solver]|each is_held|apply names_named].
Qed.

(** The names of the sets lie outside the heap. *)
Lemma name_in_memory a str : region memory_bytes a str -> 0 < a -> a + Z.of_nat (length str) <= 4096 -> path_at fs0 a str.
Proof.
  intros Hr Ha Hl. split; [done| |by right]. intros i Hi. right.
  change (area fs0) with (4096, 4096 + 2 ^ 20). cbn. lia.
Qed.

Lemma out_ok : set_ok fs0 [4200; 4328] (100, 3, []) (chars "out") out_trees.
Proof.
  split; [apply name_in_memory; [solve_region|cbn; lia|cbn; lia]|done|done|done|].
  apply (set_dir fs0 _ (chars "out") 4200 (node "out" 4328 fs_root DIRECTORY 4456) [4456; 4712] out_trees);
    [vm_compute; reflexivity|done|done|done|a_chain|].
  constructor; [apply logs_rep|]. constructor; [apply result_rep|constructor].
Qed.

Lemma stdio_ok : set_ok fs0 [4200; 4328] (110, 5, []) (chars "stdio") stdio_trees.
Proof.
  split; [apply name_in_memory; [solve_region|cbn; lia|cbn; lia]|done|done|done|].
  apply (set_dir fs0 _ (chars "stdio") 4328 (node "stdio" NULL fs_root DIRECTORY 4840) [4840; 4968]
    [TFile (chars "argv") []; TFile (chars "stdout") (chars "hello")]); [vm_compute; reflexivity|done|done|done|a_chain|].
  constructor; [apply argv_rep|]. constructor; [apply stdout_rep|constructor].
Qed.

Lemma sets_ok : Forall3 (set_ok fs0 [4200; 4328]) views [chars "out"; chars "stdio"] [out_trees; stdio_trees].
Proof. constructor; [apply out_ok|]. constructor; [apply stdio_ok|constructor]. Qed.

Lemma set_without_items a k : set_view rt (IoSet a k NULL 0 0) (a, k, []).
Proof. split; cbn; try done. by exists []. Qed.

Lemma rt_ready : ready fs0 [] views.
Proof.
  split; [apply export_memory_sound|unfold first_live; in_live| |constructor|done].
  exists [IoSet 100 3 NULL 0 0; IoSet 110 5 NULL 0 0]. split_and!.
  - split; [right; split; [done|]; split; [unfold owned; in_live|reflexivity]|].
    constructor; [apply set_without_items|]. constructor; [apply set_without_items|constructor].
  - intros i j a b Hne Ha Hb. unfold zlookup in Ha. destruct (0 <=? i); [|done].
    apply list_elem_of_lookup_2 in Ha. repeat (apply elem_of_cons in Ha as [->|Ha]; [done|]). by apply elem_of_nil in Ha.
  - constructor; [done|]. constructor; [done|constructor].
  - intros _. apply not_elem_of_nil.
Qed.

Lemma ready_to_end : can_terminate 4 fs0 views [chars "out"; chars "stdio"] [out_trees; stdio_trees].
Proof.
  split.
  - lia.
  - eexists _, _. split; [apply root|apply sets_ok].
  - apply rt_ready.
  - constructor; [vm_compute; split_and!; done|]. constructor; [vm_compute; split_and!; done|constructor].
  - vm_compute. done.
Qed.

Lemma ready_to_exit : can_exit 4 fs0 views [out_trees; stdio_trees].
Proof.
  split.
  - reflexivity.
  - intros i v info Hv Hi. unfold zlookup in Hv, Hi. destruct (0 <=? i); [|done].
    destruct (Z.to_nat i) as [|[|k]]; [injection Hv as <-; injection Hi as <-; done..|done].
  - done.
  - vm_compute. reflexivity.
  - vm_compute. done.
Qed.
End Demo.

Definition demo_items : list (list (list Z * list Z)) :=
  [[(chars "logs/log", chars "abcxyz"); (chars "result", chars "42")]; [(chars "stdout", chars "hello")]].

Lemma terminate_exports_witness :
  map items_of [Demo.out_trees; Demo.stdio_trees] = demo_items /\
  wp fs_terminate (fun r s' => r = 0 /\ exists bufss,
    out_tree (fs_rt s') (rt_output_sets (fs_rt s')) (zip_with add_bufs Demo.views bufss) /\
    Forall2 (shows s') bufss demo_items) Demo.fs0.
Proof.
  assert (E : map items_of [Demo.out_trees; Demo.stdio_trees] = demo_items) by (vm_compute; reflexivity).
  split; [exact E|].
  eapply wp_mono; [exact (terminate_exports 4 Demo.fs0 Demo.views _ [Demo.out_trees; Demo.stdio_trees] Demo.ready_to_end)|].
  intros r s' (Hr & bufss & Ht & Hs & _). split; [exact Hr|]. exists bufss. rewrite <-E. by split.
Defined.

Lemma exit_hands_over_files_witness :
  wp (_exit 0) (fun _ w' =>
    sys_exited (rt_sys (fs_rt (sh_fs w'))) = true /\ sys_code (rt_sys (fs_rt (sh_fs w'))) = 5 /\
    exists bufss, Forall2 (shows (sh_fs w')) bufss demo_items /\
      raw_output (fs_rt (sh_fs w')) = flat_bufs (zip_with add_bufs Demo.views bufss)) Demo.program.
Proof.
  assert (E : map items_of [Demo.out_trees; Demo.stdio_trees] = demo_items) by (vm_compute; reflexivity).
  rewrite <-E. eapply wp_mono.
  { apply (exit_hands_over_files 4 Demo.program Demo.views [chars "out"; chars "stdio"] [Demo.out_trees; Demo.stdio_trees] 0);
      [exact Demo.ready_to_end|exact Demo.ready_to_exit]. }
  intros _ w' (H1 & H2 & bufss & Hs & _ & Hraw). split_and!; [done|done|]. exists bufss. by split.
Defined.
