(* ===== verification/Unsupported.v ===== *)
(** The calls of the C library that have no implementation
    (src/newlib_shim: the second half of shim.c, unistd.c, signal_dandelion.c,
    search.c, the timers of time.c, math_stubs.c and the last part of
    pthread.c).  Each returns a constant and most
    of them set [errno]; arguments that a body ignores are left out. *)
From S2P Require Import Prelude Heap Alloc System RuntimeIO Paths FsStore FileSystem FsImpl Pthread Shim.

Definition ECHILD : Z := 10.
Definition EFAULT : Z := 14.
Definition ENOTSUP : Z := 134.

(** [errno = error; return result;] *)
Definition failure {M A} (error : Z) (result : A) : prog (shim M) A :=
  let! _ := modify (set_errno error) in ret result.
Definition enosys {M A} (result : A) : prog (shim M) A := failure ENOSYS result.
(** The same with the object that the macro [errno] of <errno.h> stands for. *)
Definition macro_failure {M A} (error : Z) (result : A) : prog (shim M) A :=
  let! _ := modify (set_thread_errno error) in ret result.
Definition macro_enosys {M A} (result : A) : prog (shim M) A := macro_failure ENOSYS result.

(** What a call does to the two objects. *)
Inductive effect := Leaves | SetsErrno (e : Z) | SetsThreadErrno (e : Z).
Definition apply_effect {M} (c : effect) (s : shim M) : shim M :=
  match c with Leaves => s | SetsErrno e => set_errno e s | SetsThreadErrno e => set_thread_errno e s end.

(** A call whose result is not used. *)
Definition void {M A} (c : prog (shim M) A) : prog (shim M) unit := let! _ := c in ret tt.

Section unsupported.
Context {M : Type} {HS : System M} {HM : Machine}.
(** Constants of headers of the C library. *)
Context (FNM_NOMATCH REG_BADPAT REG_NOMATCH WRDE_NOSPACE SIG_ERR : Z)
        (PTHREAD_CANCEL_ENABLE PTHREAD_CANCEL_DEFERRED : Z).
(** The floating point numbers of a format, and the one of the macro [NAN]. *)
Context {float : Type} (NAN : float).
Notation prog := (prog (shim M)).

(** ** src/newlib_shim/shim.c *)

Definition execve : prog Z := failure ENOMEM (-1).
Definition fcntl : prog Z := enosys (-1).
Definition posix_fadvise : prog Z := enosys (-1).
Definition posix_fallocate : prog Z := enosys (-1).
Definition clearenv : prog Z := enosys (-1).
Definition getdelim : prog Z := enosys (-1).
Definition getline : prog Z := enosys (-1).
Definition fork : prog Z := failure EAGAIN (-1).
Definition grantpt : prog Z := enosys (-1).
Definition basename : prog Z := enosys NULL.
Definition dirname : prog Z := enosys NULL.
Definition getpid : prog Z := ret 1.
Definition getppid : prog Z := enosys 0.
Definition getegid : prog Z := enosys 0.
Definition geteuid : prog Z := enosys 0.
Definition fnmatch : prog Z := enosys FNM_NOMATCH.
Definition iconv_open : prog Z := enosys size_max.
Definition iconv : prog Z := enosys size_max.
Definition iconv_close : prog Z := enosys (-1).
Definition popen : prog Z := enosys NULL.
Definition pclose : prog Z := enosys (-1).
Definition flockfile : prog unit := enosys tt.
Definition funlockfile : prog unit := enosys tt.
Definition posix_spawn_file_actions_init : prog Z := enosys ENOSYS.
Definition posix_spawn_file_actions_addclose : prog Z := enosys ENOSYS.
Definition posix_spawn_file_actions_adddup2 : prog Z := enosys ENOSYS.
Definition posix_spawn_file_actions_destroy : prog Z := enosys ENOSYS.
Definition posix_spawnp : prog Z := enosys ENOSYS.
Definition initstate : prog Z := enosys NULL.
Definition setstate : prog Z := enosys NULL.
(** The result, and the value stored at [timer]. *)
Definition time (timer : Z) : prog (Z * option Z) :=
  let! _ := modify (set_errno ENOSYS) in
  ret (-1, if negb (timer =? NULL) then Some (-1) else None).
Definition futimens : prog Z := enosys (-1).
Definition utimensat : prog Z := enosys (-1).
(** The result, and the value stored at [result]. *)
Definition getpwnam_r (result : Z) : prog (Z * option Z) :=
  let stored := if negb (result =? NULL) then Some NULL else None in
  enosys (ENOSYS, stored).
Definition regcomp : prog Z := enosys REG_BADPAT.
(** The result, and the character stored at [errbuf]. *)
Definition regerror (errbuf errbuf_size : Z) : prog (Z * option Z) :=
  let stored := if negb (errbuf =? NULL) && negb (errbuf_size =? 0) then Some 0 else None in
  enosys (0, stored).
Definition regexec : prog Z := enosys REG_NOMATCH.
Definition regfree : prog unit := enosys tt.
Definition waitpid : prog Z := enosys (-1).
Definition waitid : prog Z := enosys (-1).
Definition getpriority : prog Z := enosys (-1).
Definition getrlimit : prog Z := enosys (-1).
Definition getrusage : prog Z := enosys (-1).
Definition gettimeofday : prog Z := enosys (-1).
Definition kill : prog Z := failure EINVAL (-1).
Definition pipe : prog Z := failure EFAULT (-1).
Definition posix_openpt : prog Z := enosys (-1).
Definition ptsname : prog Z := enosys NULL.
Definition setpriority : prog Z := enosys (-1).
Definition setrlimit : prog Z := enosys (-1).
Definition readlink : prog Z := failure EACCES (-1).
Definition realpath : prog Z := failure EACCES NULL.
Definition sigaction : prog Z := failure EPERM (-1).
Definition sysconf : prog Z := enosys (-1).
Definition times : prog Z := enosys (-1).
Definition unlockpt : prog Z := enosys (-1).
Definition wait : prog Z := failure ECHILD (-1).
Definition wordexp : prog Z := ret WRDE_NOSPACE.
Definition wordfree : prog unit := ret tt.

(** ** src/newlib_shim/unistd.c *)

Definition chdir : prog Z := macro_failure EACCES (-1).
Definition fchdir : prog Z := macro_failure EACCES (-1).
Definition chroot : prog Z := macro_failure EACCES (-1).
Definition daemon : prog Z := macro_enosys (-1).
Definition dup3 (fildes fildes2 flags : Z) : prog Z := macro_failure EMFILE (-1).
Definition dup2 (fildes fildes2 : Z) : prog Z := dup3 fildes fildes2 0.
Definition dup (fildes : Z) : prog Z := dup3 fildes (-1) 0.
Definition eaccess (path : list Z) (mode : Z) : prog Z := access path mode.
Definition euidaccess (path : list Z) (mode : Z) : prog Z := eaccess path mode.
Definition execl : prog Z := macro_enosys (-1).
Definition execle : prog Z := macro_enosys (-1).
Definition execv : prog Z := execve.
Definition fsync : prog Z := ret 0.
Definition fdatasync : prog Z := ret 0.
Definition getcwd : prog (list Z) := ret (chars "/").
Definition setgroups : prog Z := macro_failure EPERM (-1).
Definition sleep (seconds : Z) : prog Z := macro_enosys seconds.
Definition usleep : prog Z := ret 0.
Definition vfork : prog Z := macro_enosys (-1).
Definition symlink : prog Z := macro_failure EPERM (-1).
Definition mknod : prog Z := macro_enosys (-1).

(** ** src/newlib_shim/signal_dandelion.c *)

Definition psiginfo : prog unit := ret tt.
Definition sighold : prog Z := macro_enosys (-1).
Definition sigignore : prog Z := macro_enosys (-1).
Definition siginterrupt : prog Z := macro_enosys (-1).
Definition sigrelse : prog Z := macro_enosys (-1).
Definition sigset : prog Z := macro_enosys SIG_ERR.
Definition pthread_sigmask : prog Z := macro_enosys (-1).
Definition sigaddset : prog Z := macro_enosys (-1).
Definition sigemptyset : prog Z := macro_enosys (-1).
Definition sigismember : prog Z := macro_enosys (-1).
Definition sigprocmask : prog Z := macro_enosys (-1).
Definition sigaltstack : prog Z := macro_enosys (-1).

(** ** src/newlib_shim/search.c *)

Definition insque : prog unit := enosys tt.
Definition lfind : prog Z := enosys NULL.
Definition lsearch : prog Z := enosys NULL.
Definition remque : prog unit := enosys tt.

(** ** src/newlib_shim/pthread.c *)

(** The result, and the value stored at [oldstate]. *)
Definition pthread_setcancelstate (oldstate : Z) : prog (Z * option Z) :=
  let stored := if negb (oldstate =? NULL) then Some PTHREAD_CANCEL_ENABLE else None in
  enosys (ENOSYS, stored).
(** The result, and the value stored at [oldtype]. *)
Definition pthread_setcanceltype (oldtype : Z) : prog (Z * option Z) :=
  let stored := if negb (oldtype =? NULL) then Some PTHREAD_CANCEL_DEFERRED else None in
  enosys (ENOSYS, stored).
Definition pthread_testcancel : prog unit := enosys tt.
Definition pthread_exit : prog unit :=
  let! _ := modify (set_errno ENOSYS) in _exit 1.
Definition _pthread_cleanup_push : prog unit := enosys tt.
Definition _pthread_cleanup_pop : prog unit := enosys tt.

(** ** src/newlib_shim/time.c *)

(** The result, and the value stored in [dandelion_getdate_err], whose address
    [__getdate_err] returns. *)
Definition getdate : prog (Z * Z) := enosys (NULL, 0).
Definition getdate_r : prog (Z * Z) := enosys (-1, 0).
Definition clock_settime : prog Z := failure EINVAL (-1).
Definition clock_getres : prog Z := failure EINVAL (-1).
Definition timer_create : prog Z := failure ENOTSUP (-1).
Definition timer_delete : prog Z := failure EINVAL (-1).
Definition timer_settime : prog Z := failure EINVAL (-1).
Definition timer_gettime : prog Z := failure EINVAL (-1).
Definition timer_getoverrun : prog Z := failure EINVAL (-1).
Definition nanosleep : prog Z := ret 0.

(** ** src/newlib_shim/math_stubs.c *)

Definition nexttoward : prog float := enosys NAN.
Definition nexttowardf : prog float := enosys NAN.
Definition nexttowardl : prog float := enosys NAN.
Definition exp10l : prog float := enosys NAN.
Definition pow10l : prog float := enosys NAN.
(** The values stored at [sinx] and [cosx]. *)
Definition sincosl (sinx cosx : Z) : prog (option float * option float) :=
  let stored p := if negb (p =? NULL) then Some NAN else None in
  enosys (stored sinx, stored cosx).
Definition __kernel_tanl : prog float := enosys NAN.
Definition __pleval : prog Z := enosys size_max.

(** ** The calls by the value they leave in [errno] *)

Definition newlib_plain : list (prog unit) :=
  [void getpid; void wordexp; void wordfree; void fsync; void fdatasync; void getcwd;
   void usleep; void psiginfo; void nanosleep].
Definition newlib_eacces : list (prog unit) :=
  [void readlink; void realpath].
Definition newlib_eagain : list (prog unit) :=
  [void fork].
Definition newlib_echild : list (prog unit) :=
  [void wait].
Definition newlib_efault : list (prog unit) :=
  [void pipe].
Definition newlib_einval : list (prog unit) :=
  [void kill; void clock_settime; void clock_getres; void timer_delete; void timer_settime;
   void timer_gettime; void timer_getoverrun].
Definition macro_eacces : list (prog unit) :=
  [void chdir; void fchdir; void chroot].
Definition macro_emfile (a b d : Z) : list (prog unit) :=
  [void (dup3 a b d); void (dup2 a b); void (dup a)].
Definition newlib_enomem : list (prog unit) :=
  [void execve; void execv].
Definition newlib_enosys (a b : Z) : list (prog unit) :=
  [void fcntl; void posix_fadvise; void posix_fallocate; void clearenv; void getdelim;
   void getline; void grantpt; void basename; void dirname; void getppid; void getegid;
   void geteuid; void fnmatch; void iconv_open; void iconv; void iconv_close; void popen;
   void pclose; void flockfile; void funlockfile; void posix_spawn_file_actions_init;
   void posix_spawn_file_actions_addclose; void posix_spawn_file_actions_adddup2;
   void posix_spawn_file_actions_destroy; void posix_spawnp; void initstate; void setstate;
   void (time a); void futimens; void utimensat; void (getpwnam_r a); void regcomp;
   void (regerror a b); void regexec; void regfree; void waitpid; void waitid;
   void getpriority; void getrlimit; void getrusage; void gettimeofday; void posix_openpt;
   void ptsname; void setpriority; void setrlimit; void sysconf; void times; void unlockpt;
   void insque; void lfind; void lsearch; void remque; void (pthread_setcancelstate a);
   void (pthread_setcanceltype a); void pthread_testcancel; void _pthread_cleanup_push;
   void _pthread_cleanup_pop; void getdate; void getdate_r; void nexttoward;
   void nexttowardf; void nexttowardl; void exp10l; void pow10l; void (sincosl a b);
   void __kernel_tanl; void __pleval].
Definition macro_enosys_calls (a : Z) : list (prog unit) :=
  [void daemon; void execl; void execle; void (sleep a); void vfork; void mknod; void sighold;
   void sigignore; void siginterrupt; void sigrelse; void sigset; void pthread_sigmask;
   void sigaddset; void sigemptyset; void sigismember; void sigprocmask; void sigaltstack].
Definition newlib_enotsup : list (prog unit) :=
  [void timer_create].
Definition newlib_eperm : list (prog unit) :=
  [void sigaction].
Definition macro_eperm : list (prog unit) :=
  [void setgroups; void symlink].
Definition newlib_calls (a b d : Z) : list (effect * prog unit) :=
  map (pair Leaves) newlib_plain ++
  map (pair (SetsErrno EACCES)) newlib_eacces ++
  map (pair (SetsErrno EAGAIN)) newlib_eagain ++
  map (pair (SetsErrno ECHILD)) newlib_echild ++
  map (pair (SetsErrno EFAULT)) newlib_efault ++
  map (pair (SetsErrno EINVAL)) newlib_einval ++
  map (pair (SetsThreadErrno EMFILE)) (macro_emfile a b d) ++
  map (pair (SetsErrno ENOMEM)) newlib_enomem ++
  map (pair (SetsErrno ENOSYS)) (newlib_enosys a b) ++
  map (pair (SetsErrno ENOTSUP)) newlib_enotsup ++
  map (pair (SetsErrno EPERM)) newlib_eperm ++
  map (pair (SetsThreadErrno EACCES)) macro_eacces ++
  map (pair (SetsThreadErrno EPERM)) macro_eperm ++
  map (pair (SetsThreadErrno ENOSYS)) (macro_enosys_calls a).

(** ** [siglongjmp], with the [fprintf] and [exit] of the C library *)
Definition siglongjmp (fprintf : list Z -> prog unit) (exit : Z -> prog unit) (val : Z) : prog unit :=
  let! _ := fprintf (chars "Error: siglongjmp called." ++ [10]) in exit val.
End unsupported.
