(* ===== verification/Extension.v ===== *)
(** The functions of src/libc_extension, none of which is implemented apart
    from the directories of dirent.c (in [Shim]): a constant and [errno]. *)
From S2P Require Import Prelude Heap Alloc System RuntimeIO Paths FsStore FileSystem FsImpl Pthread Shim Unsupported.

Definition EAI_SYSTEM : Z := -11.
Definition SEM_FAILED : Z := NULL.
Definition MAP_FAILED : Z := size_max.

Section extension.
Context {M : Type}.
Notation prog := (prog (shim M)).

(** ** src/libc_extension/aio.c *)

Definition aio_cancel : prog Z := macro_enosys (-1).
Definition aio_error : prog Z := macro_enosys (-1).
Definition aio_fsync : prog Z := macro_enosys (-1).
Definition aio_read : prog Z := macro_enosys (-1).
Definition aio_return : prog Z := macro_enosys (-1).
Definition aio_suspend : prog Z := macro_enosys (-1).
Definition aio_write : prog Z := macro_enosys (-1).
Definition lio_listio : prog Z := macro_enosys (-1).

(** ** src/libc_extension/arpa_inet.c *)

Definition htonl : prog Z := macro_enosys 0.
Definition inet_addr : prog Z := macro_enosys (2 ^ 32 - 1).
Definition inet_ntoa : prog Z := macro_enosys NULL.
Definition inet_ntop : prog Z := macro_enosys NULL.
Definition inet_pton : prog Z := macro_enosys (-1).

(** ** src/libc_extension/crypt.c *)

Definition crypt : prog Z := macro_enosys NULL.

(** ** src/libc_extension/dlfcn.c *)

Definition dlclose : prog Z := macro_enosys (-1).
Definition dlerror : prog (list Z) := macro_enosys (chars "dynamic loading is not supported").
Definition dlopen : prog Z := macro_enosys NULL.
Definition dlsym : prog Z := macro_enosys NULL.

(** ** src/libc_extension/ifaddrs.c *)

Definition getifaddrs : prog Z := macro_enosys (-1).
Definition freeifaddrs : prog unit := ret tt.

(** ** src/libc_extension/mntent.c *)

Definition setmntent : prog Z := macro_enosys NULL.
Definition getmntent : prog Z := macro_enosys NULL.
Definition getmntent_r : prog Z := macro_enosys NULL.
Definition addmntent : prog Z := macro_enosys 1.
Definition endmntent : prog Z := macro_enosys 0.
Definition hasmntopt : prog Z := macro_enosys NULL.

(** ** src/libc_extension/monetary.c *)

Definition strfmon : prog Z := macro_enosys (-1).
Definition strfmon_l : prog Z := macro_enosys (-1).

(** ** src/libc_extension/mqueue.c *)

Definition mq_close : prog Z := macro_enosys (-1).
Definition mq_getattr : prog Z := macro_enosys (-1).
Definition mq_notify : prog Z := macro_enosys (-1).
Definition mq_open : prog Z := macro_enosys (-1).
Definition mq_receive : prog Z := macro_enosys (-1).
Definition mq_send : prog Z := macro_enosys (-1).
Definition mq_setattr : prog Z := macro_enosys (-1).
Definition mq_timedreceive : prog Z := macro_enosys (-1).
Definition mq_timedsend : prog Z := macro_enosys (-1).
Definition mq_unlink : prog Z := macro_enosys (-1).

(** ** src/libc_extension/net_if.c *)

Definition if_freenameindex : prog unit := macro_enosys tt.
Definition if_indextoname : prog Z := macro_enosys NULL.
Definition if_nameindex : prog Z := macro_enosys NULL.
Definition if_nametoindex : prog Z := macro_enosys 0.

(** ** src/libc_extension/netdb.c *)

Definition endhostent : prog unit := ret tt.
Definition endnetent : prog unit := ret tt.
Definition endprotoent : prog unit := ret tt.
Definition endservent : prog unit := ret tt.
Definition gethostbyaddr : prog Z := macro_enosys NULL.
Definition gethostbyname : prog Z := macro_enosys NULL.
Definition gethostent : prog Z := macro_enosys NULL.
Definition getnetbyaddr : prog Z := macro_enosys NULL.
Definition getnetbyname : prog Z := macro_enosys NULL.
Definition getnetent : prog Z := macro_enosys NULL.
Definition getprotobyname : prog Z := macro_enosys NULL.
Definition getprotobynumber : prog Z := macro_enosys NULL.
Definition getprotoent : prog Z := macro_enosys NULL.
Definition getservbyname : prog Z := macro_enosys NULL.
Definition getservbyport : prog Z := macro_enosys NULL.
Definition getservent : prog Z := macro_enosys NULL.
Definition sethostent : prog unit := ret tt.
Definition setnetent : prog unit := ret tt.
Definition setprotoent : prog unit := ret tt.
Definition setservent : prog unit := ret tt.
Definition freeaddrinfo : prog unit := ret tt.
Definition getaddrinfo : prog Z := macro_enosys EAI_SYSTEM.
Definition getnameinfo : prog Z := macro_enosys EAI_SYSTEM.
Definition gai_strerror : prog (list Z) := ret (chars "address resolution is not supported").

(** ** src/libc_extension/nl_types.c *)

Definition catclose : prog Z := macro_enosys (-1).
Definition catgets (s : Z) : prog Z := macro_enosys s.
Definition catopen : prog Z := macro_enosys (-1).

(** ** src/libc_extension/poll.c *)

Definition poll : prog Z := macro_enosys (-1).

(** ** src/libc_extension/pthread.c *)

Definition pthread_rwlock_destroy : prog Z := macro_enosys (-1).

(** ** src/libc_extension/resolv.c *)

Definition dn_expand : prog Z := macro_enosys (-1).

(** ** src/libc_extension/sched.c *)

Definition sched_yield : prog Z := macro_enosys (-1).
Definition sched_getcpu : prog Z := macro_failure ENOTSUP (-1).

(** ** src/libc_extension/semaphore.c *)

Definition sem_close : prog Z := macro_enosys (-1).
Definition sem_destroy : prog Z := macro_enosys (-1).
Definition sem_getvalue : prog Z := macro_enosys (-1).
Definition sem_init : prog Z := macro_enosys (-1).
Definition sem_open : prog Z := macro_enosys SEM_FAILED.
Definition sem_post : prog Z := macro_enosys (-1).
Definition sem_timedwait : prog Z := macro_enosys (-1).
Definition sem_trywait : prog Z := macro_enosys (-1).
Definition sem_unlink : prog Z := macro_enosys (-1).
Definition sem_wait : prog Z := macro_enosys (-1).

(** ** src/libc_extension/socket.c *)

Definition accept : prog Z := macro_enosys (-1).
Definition bind : prog Z := macro_enosys (-1).
Definition connect : prog Z := macro_enosys (-1).
Definition getpeername : prog Z := macro_enosys (-1).
Definition getsockname : prog Z := macro_enosys (-1).
Definition getsockopt : prog Z := macro_enosys (-1).
Definition listen : prog Z := macro_enosys (-1).
Definition recv : prog Z := macro_enosys (-1).
Definition recvfrom : prog Z := macro_enosys (-1).
Definition recvmsg : prog Z := macro_enosys (-1).
Definition send : prog Z := macro_enosys (-1).
Definition sendmsg : prog Z := macro_enosys (-1).
Definition sendto : prog Z := macro_enosys (-1).
Definition setsockopt : prog Z := macro_enosys (-1).
Definition shutdown : prog Z := macro_enosys (-1).
Definition socket : prog Z := macro_enosys (-1).
Definition sockatmark : prog Z := macro_enosys (-1).
Definition socketpair : prog Z := macro_enosys (-1).

(** ** src/libc_extension/sys_ipc.c *)

Definition ftok : prog Z := macro_enosys (-1).

(** ** src/libc_extension/sys_mman.c *)

Definition mmap : prog Z := macro_enosys MAP_FAILED.
Definition mprotect : prog Z := macro_enosys (-1).
Definition msync : prog Z := macro_enosys (-1).
Definition munmap : prog Z := macro_enosys (-1).
Definition mlock : prog Z := macro_enosys (-1).
Definition mlockall : prog Z := macro_enosys (-1).
Definition munlock : prog Z := macro_enosys (-1).
Definition munlockall : prog Z := macro_enosys (-1).
Definition posix_madvise : prog Z := macro_enosys (-1).
Definition shm_open : prog Z := macro_enosys (-1).
Definition shm_unlink : prog Z := macro_enosys (-1).

(** ** src/libc_extension/sys_msg.c *)

Definition msgctl : prog Z := macro_enosys (-1).
Definition msgget : prog Z := macro_enosys (-1).
Definition msgrcv : prog Z := macro_enosys (-1).
Definition msgsnd : prog Z := macro_enosys (-1).

(** ** src/libc_extension/sys_sem.c *)

Definition semctl : prog Z := macro_enosys (-1).
Definition semget : prog Z := macro_enosys (-1).
Definition semop : prog Z := macro_enosys (-1).

(** ** src/libc_extension/sys_shm.c *)

Definition shmat : prog Z := macro_enosys size_max.
Definition shmctl : prog Z := macro_enosys (-1).
Definition shmdt : prog Z := macro_enosys (-1).
Definition shmget : prog Z := macro_enosys (-1).

(** ** src/libc_extension/sys_syscall.c *)

Definition syscall : prog Z := macro_enosys (-1).

(** ** src/libc_extension/sys_termios.c *)

Definition cfgetispeed : prog Z := macro_enosys 0.
Definition cfgetospeed : prog Z := macro_enosys 0.
Definition cfsetispeed : prog Z := macro_enosys (-1).
Definition cfsetospeed : prog Z := macro_enosys (-1).
Definition tcdrain : prog Z := macro_enosys (-1).
Definition tcflow : prog Z := macro_enosys (-1).
Definition tcflush : prog Z := macro_enosys (-1).
Definition tcgetattr : prog Z := macro_enosys (-1).
Definition tcgetsid : prog Z := macro_enosys (-1).
Definition tcsendbreak : prog Z := macro_enosys (-1).
Definition tcsetattr : prog Z := macro_enosys (-1).

(** ** src/libc_extension/sys_utsname.c *)

Definition uname : prog Z := macro_enosys (-1).

(** ** src/libc_extension/syslog.c *)

Definition closelog : prog unit := macro_enosys tt.
Definition openlog : prog unit := macro_enosys tt.
Definition setlogmask : prog Z := macro_enosys 0.
Definition syslog : prog unit := macro_enosys tt.

(** ** src/libc_extension/uio.c *)

Definition readv : prog Z := macro_enosys (-1).
Definition writev : prog Z := macro_enosys (-1).

(** ** src/libc_extension/utmpx.c *)

Definition endutxent : prog unit := macro_enosys tt.
Definition getutxent : prog Z := macro_enosys NULL.
Definition getutxid : prog Z := macro_enosys NULL.
Definition getutxline : prog Z := macro_enosys NULL.
Definition pututxline : prog Z := macro_enosys NULL.
Definition setutxent : prog unit := macro_enosys tt.

(** ** The calls by the value they leave in [errno] *)

Definition extension_plain : list (prog unit) :=
  [void freeifaddrs; void endhostent; void endnetent; void endprotoent; void endservent;
   void sethostent; void setnetent; void setprotoent; void setservent; void freeaddrinfo;
   void gai_strerror].
Definition extension_enosys (a : Z) : list (prog unit) :=
  [void aio_cancel; void aio_error; void aio_fsync; void aio_read; void aio_return;
   void aio_suspend; void aio_write; void lio_listio; void htonl; void inet_addr;
   void inet_ntoa; void inet_ntop; void inet_pton; void crypt; void dlclose; void dlerror;
   void dlopen; void dlsym; void getifaddrs; void setmntent; void getmntent; void getmntent_r;
   void addmntent; void endmntent; void hasmntopt; void strfmon; void strfmon_l; void mq_close;
   void mq_getattr; void mq_notify; void mq_open; void mq_receive; void mq_send;
   void mq_setattr; void mq_timedreceive; void mq_timedsend; void mq_unlink;
   void if_freenameindex; void if_indextoname; void if_nameindex; void if_nametoindex;
   void gethostbyaddr; void gethostbyname; void gethostent; void getnetbyaddr;
   void getnetbyname; void getnetent; void getprotobyname; void getprotobynumber;
   void getprotoent; void getservbyname; void getservbyport; void getservent; void getaddrinfo;
   void getnameinfo; void catclose; void (catgets a); void catopen; void poll;
   void pthread_rwlock_destroy; void dn_expand; void sched_yield; void sem_close;
   void sem_destroy; void sem_getvalue; void sem_init; void sem_open; void sem_post;
   void sem_timedwait; void sem_trywait; void sem_unlink; void sem_wait; void accept;
   void bind; void connect; void getpeername; void getsockname; void getsockopt; void listen;
   void recv; void recvfrom; void recvmsg; void send; void sendmsg; void sendto;
   void setsockopt; void shutdown; void socket; void sockatmark; void socketpair; void ftok;
   void mmap; void mprotect; void msync; void munmap; void mlock; void mlockall; void munlock;
   void munlockall; void posix_madvise; void shm_open; void shm_unlink; void msgctl;
   void msgget; void msgrcv; void msgsnd; void semctl; void semget; void semop; void shmat;
   void shmctl; void shmdt; void shmget; void syscall; void cfgetispeed; void cfgetospeed;
   void cfsetispeed; void cfsetospeed; void tcdrain; void tcflow; void tcflush; void tcgetattr;
   void tcgetsid; void tcsendbreak; void tcsetattr; void uname; void closelog; void openlog;
   void setlogmask; void syslog; void readv; void writev; void endutxent; void getutxent;
   void getutxid; void getutxline; void pututxline; void setutxent].
Definition extension_enotsup : list (prog unit) :=
  [void sched_getcpu].
Definition extension_calls (a : Z) : list (effect * prog unit) :=
  map (pair Leaves) extension_plain ++
  map (pair (SetsThreadErrno ENOSYS)) (extension_enosys a) ++
  map (pair (SetsThreadErrno ENOTSUP)) extension_enotsup.
End extension.
