(* ===== verification/Sockets.v ===== *)
(** The macros with code of the socket headers of src/libc_extension/include:
    the tests of IPv6 addresses (netinet/in.h, with the constants of
    netinet_in.c) and the walk over control messages (sys/socket.h). *)
From S2P Require Import Prelude Heap Alloc System RuntimeIO Paths FsStore FileSystem FsImpl Pthread Shim Unsupported Extension.

(** * netinet/in.h

    An address is its 16 bytes; a word of it is read in the order of the
    machine, least byte first on x86_64 and aarch64. *)
Definition in6_addr : Type := list Z.
Definition s6_addr (a : in6_addr) (i : nat) : Z := nth i a 0.
Definition s6_addr32 (a : in6_addr) (i : nat) : Z :=
  s6_addr a (4 * i) + 2 ^ 8 * s6_addr a (4 * i + 1) + 2 ^ 16 * s6_addr a (4 * i + 2) + 2 ^ 24 * s6_addr a (4 * i + 3).

Definition in6addr_any : in6_addr := replicate 16 0.
Definition in6addr_loopback : in6_addr := replicate 15 0 ++ [1].

Definition IN6_IS_ADDR_UNSPECIFIED (a : in6_addr) : bool :=
  (s6_addr32 a 0 =? 0) && (s6_addr32 a 1 =? 0) && (s6_addr32 a 2 =? 0) && (s6_addr32 a 3 =? 0).
Definition IN6_IS_ADDR_MULTICAST (a : in6_addr) : bool := s6_addr a 0 =? 0xff.
Definition IN6_IS_ADDR_LINKLOCAL (a : in6_addr) : bool :=
  (s6_addr a 0 =? 0xfe) && (Z.land (s6_addr a 1) 0xc0 =? 0x80).
Definition IN6_IS_ADDR_SITELOCAL (a : in6_addr) : bool :=
  (s6_addr a 0 =? 0xfe) && (Z.land (s6_addr a 1) 0xc0 =? 0xc0).
Definition IN6_IS_ADDR_MC_NODELOCAL (a : in6_addr) : bool :=
  IN6_IS_ADDR_MULTICAST a && (Z.land (s6_addr a 1) 0xf =? 0x1).
Definition IN6_IS_ADDR_MC_LINKLOCAL (a : in6_addr) : bool :=
  IN6_IS_ADDR_MULTICAST a && (Z.land (s6_addr a 1) 0xf =? 0x2).
Definition IN6_IS_ADDR_MC_SITELOCAL (a : in6_addr) : bool :=
  IN6_IS_ADDR_MULTICAST a && (Z.land (s6_addr a 1) 0xf =? 0x5).
Definition IN6_IS_ADDR_MC_ORGLOCAL (a : in6_addr) : bool :=
  IN6_IS_ADDR_MULTICAST a && (Z.land (s6_addr a 1) 0xf =? 0x8).
Definition IN6_IS_ADDR_MC_GLOBAL (a : in6_addr) : bool :=
  IN6_IS_ADDR_MULTICAST a && (Z.land (s6_addr a 1) 0xf =? 0xe).

Section calls.
Context {M : Type}.
(** [ntohl] is declared by arpa/inet.h and defined nowhere. *)
Context (ntohl : Z -> prog (shim M) Z).

Definition IN6_IS_ADDR_LOOPBACK (a : in6_addr) : prog (shim M) bool :=
  if (s6_addr32 a 0 =? 0) && (s6_addr32 a 1 =? 0) && (s6_addr32 a 2 =? 0) then
    let! n := htonl in ret (s6_addr32 a 3 =? n)
  else ret false.
Definition IN6_IS_ADDR_V4MAPPED (a : in6_addr) : prog (shim M) bool :=
  if (s6_addr32 a 0 =? 0) && (s6_addr32 a 1 =? 0) then
    let! n := htonl in ret (s6_addr32 a 2 =? n)
  else ret false.
Definition IN6_IS_ADDR_V4COMPAT (a : in6_addr) : prog (shim M) bool :=
  if (s6_addr32 a 0 =? 0) && (s6_addr32 a 1 =? 0) && (s6_addr32 a 2 =? 0) then
    let! n := ntohl (s6_addr32 a 3) in ret (1 <? n)
  else ret false.
End calls.

(** * sys/socket.h

    A header has a length of type [socklen_t] (32 bits), a level and a type. *)
Record cmsghdr := Cmsghdr { cmsg_len : Z; cmsg_level : Z; cmsg_type : Z }.
Record msghdr := Msghdr {
  msg_name : Z; msg_namelen : Z; msg_iov : Z; msg_iovlen : Z;
  msg_control : Z; msg_controllen : Z; msg_flags : Z }.
Definition sizeof_cmsghdr : Z := 12.
Definition sizeof_long : Z := 8.

(** [(len + 7) & ~7], in 64 bits. *)
Definition CMSG_ALIGN (len : Z) : Z := Z.land (wrap64 (len + sizeof_long - 1)) (2 ^ 64 - sizeof_long).
Definition CMSG_SPACE (len : Z) : Z := wrap64 (CMSG_ALIGN len + CMSG_ALIGN sizeof_cmsghdr).
Definition CMSG_LEN (len : Z) : Z := wrap64 (CMSG_ALIGN sizeof_cmsghdr + len).
Definition CMSG_DATA (cmsg : Z) : Z := cmsg + sizeof_cmsghdr.
Definition CMSG_FIRSTHDR (mhdr : msghdr) : Z :=
  if sizeof_cmsghdr <=? msg_controllen mhdr then msg_control mhdr else NULL.

(** The header behind [cmsg], whose fields are [hdr]; the comparison is
    unsigned. *)
Definition CMSG_NXTHDR (mhdr : msghdr) (cmsg : Z) (hdr : cmsghdr) : Z :=
  if (cmsg_len hdr <? sizeof_cmsghdr)
     || (wrap64 (msg_control mhdr + msg_controllen mhdr - cmsg)
         <=? wrap64 (CMSG_ALIGN (cmsg_len hdr) + sizeof_cmsghdr))
  then NULL else cmsg + CMSG_ALIGN (cmsg_len hdr).
