(* ===== verification/StubTheorems.v ===== *)
(** What a program sees of the calls without an implementation: they touch
    nothing but [errno], and [_exit] ends the process with it. *)
From S2P Require Import Prelude Bytes Heap Alloc AllocSession AllocTheorems System RuntimeIO RuntimeTree RuntimeInit RuntimeOutput RuntimeExit RuntimeTheorems Paths PathSpec FsStore FileSystem FsImpl FsLemmas FsTree FsDemo Pthread Shim ShimTheorems Unsupported Extension.

(** [c] does nothing but [e]. *)
Class Sets {M} (e : effect) (c : prog (shim M) unit) : Prop :=
  sets_errno : forall s, c s = Ret tt (apply_effect e s).

Section stubs.
Context {M : Type} {HS : System M} {HM : Machine}.
Context (FNM_NOMATCH REG_BADPAT REG_NOMATCH WRDE_NOSPACE SIG_ERR : Z)
        (PTHREAD_CANCEL_ENABLE PTHREAD_CANCEL_DEFERRED : Z) {float : Type} (NAN : float).
Implicit Types s : shim M.

(** The calls with what they do to [errno], for all arguments. *)
Definition stub (call : effect * prog (shim M) unit) : Prop := exists a b d,
  call ∈ newlib_calls FNM_NOMATCH REG_BADPAT REG_NOMATCH WRDE_NOSPACE SIG_ERR
           PTHREAD_CANCEL_ENABLE PTHREAD_CANCEL_DEFERRED NAN a b d ++ extension_calls a.

(** Calls one after the other. *)
Fixpoint run_calls (calls : list (effect * prog (shim M) unit)) : prog (shim M) unit :=
  match calls with [] => ret tt | call :: calls => let! _ := call.2 in run_calls calls end.

(** The state after them; [errno] has the value of the last one that sets it. *)
Definition state_after (calls : list (effect * prog (shim M) unit)) s : shim M :=
  foldl (fun s call => apply_effect call.1 s) s calls.
Definition errno_after (calls : list (effect * prog (shim M) unit)) (e : Z) : Z :=
  foldl (fun e call => match call.1 with SetsErrno e => e | _ => e end) e calls.

#[local] Instance sets_failure {A} e (a : A) : Sets (M := M) (SetsErrno e) (void (failure e a)).
Proof. by intros []. Qed.
#[local] Instance sets_macro {A} e (a : A) : Sets (M := M) (SetsThreadErrno e) (void (macro_failure e a)).
Proof. by intros []. Qed.
#[local] Instance sets_ret {A} (a : A) : Sets (M := M) Leaves (void (ret a)).
Proof. by intros []. Qed.
#[local] Instance sets_time a : Sets (M := M) (SetsErrno ENOSYS) (void (time a)).
Proof. by intros []. Qed.

Lemma sets_all e (cs : list (prog (shim M) unit)) :
  Forall (Sets e) cs -> Forall (fun call => Sets call.1 call.2) (map (pair e) cs).
Proof. intros H. by apply Forall_map. Qed.

Lemma stub_sets call : stub call -> Sets call.1 call.2.
Proof.
  intros (a & b & d & Hin). revert call Hin. apply Forall_forall, Forall_app_2.
  - repeat apply Forall_app_2; apply sets_all; repeat constructor; exact _.
  - repeat apply Forall_app_2; apply sets_all; repeat constructor; exact _.
Qed.

Lemma run_calls_spec calls s : Forall stub calls -> run_calls calls s = Ret tt (state_after calls s).
Proof.
  intros Hc. revert s. induction Hc as [|call calls H%stub_sets _ IH]; intros s; cbn; [done|].
  unfold Prelude.bind. by rewrite (H s), IH.
Qed.

Lemma state_after_spec calls s :
  sh_fs (state_after calls s) = sh_fs s /\ errno (state_after calls s) = errno_after calls (errno s).
Proof.
  unfold state_after, errno_after. revert s. induction calls as [|[e c] calls IH]; intros s; [done|]. cbn [foldl fst].
  destruct (IH (apply_effect e s)) as [-> ->]. by destruct e.
Qed.

(** The status that a program gives to [_exit] is lost: after any sequence
    of calls without an implementation, the process exports its outputs and ends
    with the value of the variable [errno] of shim.c; one such call makes a program that exits with
    status 0 end with its error code. *)
Theorem exit_reports_errno calls status s f t :
  Forall stub calls ->
  fs_terminate (sh_fs s) = Ret 0 f ->
  sys_sound (rt_sys (fs_rt f)) -> tree_at (fs_rt f) (rt_output_sets (fs_rt f)) t ->
  Z.of_nat (length t) = output_sets_len (fs_rt f) -> length (output_sets (fs_rt f)) = S (length t) ->
  same_idents t (output_sets (fs_rt f)) -> Z.of_nat (length (flat_bufs t)) * sizeof_io < 2 ^ 64 ->
  wp (let! _ := run_calls calls in _exit status) (fun _ s' =>
    oom (fs_rt (sh_fs s')) \/
    sys_exited (rt_sys (fs_rt (sh_fs s'))) = true /\
    sys_code (rt_sys (fs_rt (sh_fs s'))) = errno_after calls (errno s)) s.
Proof.
  intros Hcs Hf Hs Ht Hlen Hraw Hid Htot. apply wp_bind. unfold wp at 1. rewrite (run_calls_spec calls s Hcs).
  destruct (state_after_spec calls s) as [Efs Ee].
  apply wp_bind, wp_zoom. unfold wp at 1. rewrite Efs, Hf. apply wp_bind, wp_gets, wp_zoom.
  unfold fs_exit. apply wp_zoom. cbn [sh_fs set_fs errno]. rewrite <-Ee.
  eapply wp_mono; [by apply (dandelion_exit_spec _ (fs_rt f) t)|].
  intros _ r [[H _]|(H1 & H2 & _)]; [by left|by right].
Qed.
End stubs.

Lemma fcntl_stub : stub (M := session) 1 2 1 4 (-1) 0 0 tt (SetsErrno ENOSYS, void fcntl).
Proof.
  exists 0, 0, 0. apply elem_of_app; left. unfold newlib_calls.
  do 8 (apply elem_of_app; right). apply elem_of_app; left. apply list_elem_of_fmap_2. constructor.
Qed.

(** A program without inputs and outputs. *)
Definition bare_rt : runtime session :=
  Runtime (Session demo_heap []) 0 [IoSetInfo NULL 0 0] 0 [IoSetInfo NULL 0 0] [] NULL NULL NULL ∅ ∅.
Definition bare_shim : shim session := set_fs (with_rt bare_rt demo_fs) demo_shim.

Lemma exit_reports_errno_witness :
  wp (let! _ := run_calls [(SetsErrno ENOSYS, void fcntl)] in _exit 0) (fun _ s' =>
    oom (fs_rt (sh_fs s')) \/
    sys_exited (rt_sys (fs_rt (sh_fs s'))) = true /\ sys_code (rt_sys (fs_rt (sh_fs s'))) = 88) bare_shim.
Proof.
  pose proof (Forall_cons_2 _ _ _ fcntl_stub (Forall_nil_2 _)) as Hcs.
  apply (exit_reports_errno 1 2 1 4 (-1) 0 0 tt _ 0 bare_shim (with_rt bare_rt demo_fs) [] Hcs).
  - vm_compute. reflexivity.
  - exact demo_sound.
  - exists []. split; [by left|constructor].
  - reflexivity.
  - reflexivity.
  - intros i v info H. destruct i; done.
  - done.
Defined.
