(* ===== verification/SocketTheorems.v ===== *)
(** Theorems on the socket headers: the walk over control messages stays in
    their buffer, ends and finds every message; tests of addresses that compare
    with [htonl]. *)
From S2P Require Import Prelude Heap Alloc System RuntimeIO Paths FsStore FileSystem FsImpl Pthread Shim Unsupported Extension Sockets FsDemo ShimTheorems.

(** * The walk *)

Lemma align_eq z : 0 <= z < 2 ^ 64 - 8 -> CMSG_ALIGN z = 8 * ((z + 7) / 8).
Proof.
  intros Hz. unfold CMSG_ALIGN, sizeof_long. rewrite wrap64_small by lia. replace (z + 8 - 1) with (z + 7) by lia.
  set (x := z + 7). replace (2 ^ 64 - 8) with (Z.ldiff (Z.ones 64) (Z.ones 3)) by reflexivity.
  assert (E : Z.land x (Z.ldiff (Z.ones 64) (Z.ones 3)) = Z.ldiff (Z.land x (Z.ones 64)) (Z.ones 3)).
  { apply Z.bits_inj'. intros n Hn. rewrite !Z.land_spec, !Z.ldiff_spec, !Z.land_spec. by rewrite andb_assoc. }
  assert (Hx : 0 <= x < 2 ^ 64) by (unfold x; lia).
  rewrite E, Z.land_ones, Z.mod_small, Z.ldiff_ones_r, Z.shiftl_mul_pow2, Z.shiftr_div_pow2 by lia.
  change (2 ^ 3) with 8. lia.
Qed.

Lemma align_bounds z : 0 <= z < 2 ^ 64 - 8 -> z <= CMSG_ALIGN z <= z + 7.
Proof. intros Hz. rewrite align_eq by done. pose proof (Z.div_mod (z + 7) 8). pose proof (Z.mod_pos_bound (z + 7) 8). lia. Qed.

Lemma space_eq n : 0 <= n < 2 ^ 32 -> CMSG_SPACE n = CMSG_ALIGN (CMSG_LEN n).
Proof.
  intros Hn. unfold CMSG_SPACE, CMSG_LEN. change (CMSG_ALIGN sizeof_cmsghdr) with 16.
  rewrite (wrap64_small (16 + n)), !align_eq by lia. replace (16 + n + 7) with (n + 7 + 2 * 8) by lia.
  rewrite Z.div_add by lia. pose proof (Z.div_mod (n + 7) 8). pose proof (Z.mod_pos_bound (n + 7) 8).
  rewrite wrap64_small; lia.
Qed.

(** A control buffer in the address space, with what it holds where a header is
    read. *)
Record control_ok (mhdr : msghdr) : Prop := {
  co_start : 0 < msg_control mhdr;
  co_len : 0 <= msg_controllen mhdr < 2 ^ 32;
  co_end : msg_control mhdr + msg_controllen mhdr < 2 ^ 64;
}.
Definition in_control (mhdr : msghdr) (p : Z) : Prop :=
  msg_control mhdr <= p /\ p + sizeof_cmsghdr <= msg_control mhdr + msg_controllen mhdr.

Lemma next_spec mhdr p hdr :
  control_ok mhdr -> in_control mhdr p -> 0 <= cmsg_len hdr < 2 ^ 32 ->
  CMSG_NXTHDR mhdr p hdr =
    let q := p + CMSG_ALIGN (cmsg_len hdr) in
    if (sizeof_cmsghdr <=? cmsg_len hdr) && (q + sizeof_cmsghdr <? msg_control mhdr + msg_controllen mhdr) then q else NULL.
Proof.
  intros [Hs Hl He] [H1 H2] Hh. pose proof (align_bounds (cmsg_len hdr) ltac:(lia)). unfold CMSG_NXTHDR, sizeof_cmsghdr in *.
  rewrite !wrap64_small by lia. cbv zeta. by repeat case_bool; try lia.
Qed.

(** The loop of a program over the messages: all headers it looks at. *)
Fixpoint walk (fuel : nat) (mhdr : msghdr) (headers : Z -> cmsghdr) (p : Z) : list Z :=
  match fuel with
  | O => []
  | S fuel => if p =? NULL then [] else p :: walk fuel mhdr headers (CMSG_NXTHDR mhdr p (headers p))
  end.
Definition messages (mhdr : msghdr) (headers : Z -> cmsghdr) : list Z :=
  walk (S (Z.to_nat (msg_controllen mhdr))) mhdr headers (CMSG_FIRSTHDR mhdr).

(** Headers are behind each other, at least 16 bytes apart, inside the buffer. *)
Fixpoint spaced (from : Z) (ps : list Z) (stop : Z) : Prop :=
  match ps with
  | [] => True
  | p :: ps => from <= p /\ p + sizeof_cmsghdr <= stop /\ spaced (p + 16) ps stop
  end.

Lemma walk_spec mhdr headers : control_ok mhdr -> (forall p, 0 <= cmsg_len (headers p) < 2 ^ 32) ->
  forall fuel p from, p = NULL \/ in_control mhdr p /\ from <= p ->
  let stop := msg_control mhdr + msg_controllen mhdr in
  spaced from (walk fuel mhdr headers p) stop /\
  (stop - from < Z.of_nat fuel -> forall more, walk (fuel + more) mhdr headers p = walk fuel mhdr headers p).
Proof.
  intros Hok Hlen. induction fuel as [|fuel IH]; intros p from Hp stop; cbn [walk].
  - split; [done|]. intros Hf more. destruct Hp as [->|[[H1 H2] H3]]; [by destruct more|].
    unfold sizeof_cmsghdr, stop in *. lia.
  - destruct Hp as [->|[Hin Hfrom]].
    { change (NULL =? NULL) with true. split; [done|]. intros _ more. by cbn. }
    pose proof (co_start _ Hok). rewrite (proj2 (Z.eqb_neq p NULL)) by (destruct Hin; unfold NULL; lia).
    set (q := CMSG_NXTHDR mhdr p (headers p)).
    assert (Hq : q = NULL \/ in_control mhdr q /\ p + 16 <= q).
    { unfold q. rewrite next_spec by done. pose proof (align_eq (cmsg_len (headers p)) ltac:(specialize (Hlen p); lia)) as E.
      pose proof (align_bounds (cmsg_len (headers p)) ltac:(specialize (Hlen p); lia)). specialize (Hlen p).
      destruct Hin. unfold in_control, sizeof_cmsghdr in *. cbv zeta. case_bool; [|by left]. right. lia. }
    destruct (IH q (p + 16) Hq) as [Hsp Hf]. split.
    + split; [done|]. split; [apply Hin|done].
    + intros Hfuel more. cbn [walk Nat.add]. rewrite (proj2 (Z.eqb_neq p NULL)) by (destruct Hin; unfold NULL; lia).
      f_equal. apply Hf. unfold stop in *. lia.
Qed.

(** C36: Whatever a control buffer holds, the loop over its messages with
    [CMSG_FIRSTHDR] and [CMSG_NXTHDR] ends, and every header it looks at lies
    inside the buffer, at least 16 bytes behind the one before. *)
Theorem control_walk_safe mhdr headers :
  control_ok mhdr -> (forall p, 0 <= cmsg_len (headers p) < 2 ^ 32) ->
  let stop := msg_control mhdr + msg_controllen mhdr in
  spaced (msg_control mhdr) (messages mhdr headers) stop /\
  forall fuel, msg_controllen mhdr < Z.of_nat fuel -> walk fuel mhdr headers (CMSG_FIRSTHDR mhdr) = messages mhdr headers.
Proof.
  intros Hok Hlen stop.
  assert (Hp : CMSG_FIRSTHDR mhdr = NULL \/ in_control mhdr (CMSG_FIRSTHDR mhdr) /\ msg_control mhdr <= CMSG_FIRSTHDR mhdr).
  { unfold CMSG_FIRSTHDR, in_control, sizeof_cmsghdr. case_bool; [right; lia|by left]. }
  destruct (walk_spec mhdr headers Hok Hlen (S (Z.to_nat (msg_controllen mhdr))) _ _ Hp) as [Hs Hf]. split; [exact Hs|].
  intros fuel Hfuel. pose proof (co_len _ Hok). unfold messages.
  replace fuel with (S (Z.to_nat (msg_controllen mhdr)) + (fuel - S (Z.to_nat (msg_controllen mhdr))))%nat by lia.
  apply Hf. lia.
Qed.

(** ** Messages behind each other *)

(** The addresses of messages with data of the lengths [ns] from [p] on. *)
Fixpoint places (p : Z) (ns : list Z) : list Z :=
  match ns with [] => [] | n :: ns => p :: places (p + CMSG_SPACE n) ns end.
Definition total_space (ns : list Z) : Z := foldr (fun n k => CMSG_SPACE n + k) 0 ns.

Lemma space_bounds n : 0 <= n < 2 ^ 32 -> 16 + n <= CMSG_SPACE n <= 23 + n.
Proof.
  intros Hn. rewrite space_eq by done. unfold CMSG_LEN. change (CMSG_ALIGN sizeof_cmsghdr) with 16.
  rewrite wrap64_small by lia. pose proof (align_bounds (16 + n)). lia.
Qed.
Lemma total_space_nonneg ns : Forall (fun n => 0 <= n < 2 ^ 32) ns -> 0 <= total_space ns.
Proof. induction 1 as [|n ns Hn _ IH]; cbn; [lia|]. pose proof (space_bounds n Hn). unfold total_space in IH. lia. Qed.

Lemma walk_places mhdr headers : control_ok mhdr -> forall ns n p fuel,
  (length ns < fuel)%nat -> in_control mhdr p -> Forall (fun n => 0 <= n < 2 ^ 32 - 16) (n :: ns) ->
  p + total_space (n :: ns) = msg_control mhdr + msg_controllen mhdr ->
  Forall2 (fun q k => cmsg_len (headers q) = CMSG_LEN k) (places p (n :: ns)) (n :: ns) ->
  walk fuel mhdr headers p = places p (n :: ns).
Proof.
  intros Hok. induction ns as [|k ns IH]; intros n p fuel Hfuel Hin Hns Hstop Hh.
  all: destruct fuel as [|fuel]; [lia|]; cbn [walk]; pose proof (co_start _ Hok);
    rewrite (proj2 (Z.eqb_neq p NULL)) by (destruct Hin; unfold NULL; lia);
    apply Forall_cons in Hns as [Hn Hns]; cbn [places] in Hh; apply Forall2_cons in Hh as [Hp Hh];
    assert (Hl : CMSG_LEN n = 16 + n) by (unfold CMSG_LEN; change (CMSG_ALIGN sizeof_cmsghdr) with 16; rewrite wrap64_small; lia);
    rewrite next_spec by (done || lia); cbv zeta; rewrite Hp, <-space_eq by lia; pose proof (space_bounds n ltac:(lia));
    cbn [total_space foldr] in Hstop; cbn [places]; f_equal; unfold sizeof_cmsghdr in *.
  - rewrite (proj2 (Z.ltb_ge (p + CMSG_SPACE n + 12) _)) by lia. rewrite andb_false_r. by destruct fuel.
  - change (foldr _ 0 ns) with (total_space ns) in Hstop. pose proof Hns as [Hk Hns']%Forall_cons.
    pose proof (space_bounds k ltac:(lia)).
    assert (0 <= total_space ns) by (apply total_space_nonneg; eapply Forall_impl; [exact Hns'|]; cbn; lia).
    rewrite (proj2 (Z.leb_le 12 (CMSG_LEN n))), (proj2 (Z.ltb_lt (p + CMSG_SPACE n + 12) _)) by lia. cbn [andb].
    apply IH; [cbn in Hfuel; lia| |done| |done].
    + destruct Hin. unfold in_control, sizeof_cmsghdr. lia.
    + cbn [total_space foldr]. change (foldr _ 0 ns) with (total_space ns). lia.
Qed.

(** A control buffer that was filled with [CMSG_SPACE] and [CMSG_LEN] gives
    its messages back: the loop looks at exactly the headers that were put into
    it, in their order, also when the last message has no data. *)
Theorem control_messages_found mhdr headers ns :
  control_ok mhdr -> ns <> [] -> Forall (fun n => 0 <= n < 2 ^ 32 - 16) ns ->
  total_space ns = msg_controllen mhdr ->
  Forall2 (fun p n => cmsg_len (headers p) = CMSG_LEN n) (places (msg_control mhdr) ns) ns ->
  messages mhdr headers = places (msg_control mhdr) ns.
Proof.
  intros Hok Hne Hns Htot Hh. destruct ns as [|n ns]; [done|].
  assert (Hsp : Forall (fun n => 0 <= n < 2 ^ 32) (n :: ns)) by (eapply Forall_impl; [exact Hns|]; cbn; lia).
  assert (Hlen : 16 * Z.of_nat (length (n :: ns)) <= msg_controllen mhdr).
  { rewrite <-Htot. clear -Hsp. induction Hsp as [|k ks Hk _ IH]; cbn [length total_space foldr]; [lia|].
    pose proof (space_bounds k Hk). unfold total_space in IH. lia. }
  unfold messages, CMSG_FIRSTHDR, sizeof_cmsghdr. cbn [length] in Hlen. rewrite (proj2 (Z.leb_le 12 _)) by lia.
  apply walk_places; [done|lia| |done|lia|done]. unfold in_control, sizeof_cmsghdr. lia.
Qed.

(** * Addresses *)

Definition bytes16 (a : in6_addr) : Prop := length a = 16%nat /\ Forall (fun b => 0 <= b < 256) a.
(** The first [n] bytes are zero. *)
Definition zeros (n : nat) (a : in6_addr) : bool := forallb (fun b => b =? 0) (take n a).

(** A word is zero when its bytes are. *)
Lemma word_zero b0 b1 b2 b3 : Forall (fun b => 0 <= b < 256) [b0; b1; b2; b3] ->
  (b0 + 2 ^ 8 * b1 + 2 ^ 16 * b2 + 2 ^ 24 * b3 =? 0) = (b0 =? 0) && ((b1 =? 0) && ((b2 =? 0) && (b3 =? 0))).
Proof.
  intros H. apply Forall_cons in H as [H0 H]. apply Forall_cons in H as [H1 H]. apply Forall_cons in H as [H2 H].
  apply Forall_cons in H as [H3 _]. repeat case_bool; cbn; try done; lia.
Qed.

Lemma nth_drop_in m k (a : list Z) : nth k (drop m a) 0 = nth (m + k) a 0.
Proof. revert a. induction m as [|m IH]; intros [|b a]; cbn; [by rewrite ?drop_0|done|by destruct k|apply IH]. Qed.

Lemma words_zero a n : bytes16 a -> (n <= 4)%nat ->
  forallb (fun i => s6_addr32 a i =? 0) (seq 0 n) = zeros (4 * n) a.
Proof.
  intros [Hl Ha]. revert a Hl Ha. enough (H : forall i a, length a = 16%nat -> Forall (fun b => 0 <= b < 256) a ->
    (i + n <= 4)%nat -> forallb (fun i => s6_addr32 a i =? 0) (seq i n) = forallb (fun b => b =? 0) (take (4 * n) (drop (4 * i) a))).
  { intros a Hl Ha Hn. rewrite (H 0%nat a Hl Ha Hn). by rewrite Nat.mul_0_r, drop_0. }
  induction n as [|n IH]; intros i a Hl Ha Hi; [done|].
  cbn [seq forallb]. rewrite IH by (done || lia).
  assert (Hlen : length (drop (4 * i) a) = (16 - 4 * i)%nat) by by rewrite length_drop, Hl.
  assert (Hall : Forall (fun b => 0 <= b < 256) (drop (4 * i) a)) by by apply Forall_drop.
  replace (4 * S i)%nat with (4 * i + 4)%nat by lia. rewrite <-drop_drop.
  unfold s6_addr32, s6_addr. replace (4 * i)%nat with (4 * i + 0)%nat at 1 by lia.
  rewrite <-!nth_drop_in. set (l := drop (4 * i) a) in *.
  destruct l as [|b0 [|b1 [|b2 [|b3 l]]]]; try (cbn in Hlen; lia).
  cbn [nth drop]. replace (4 * S n)%nat with (4 + 4 * n)%nat by lia. cbn [Nat.add take forallb].
  rewrite word_zero; [by rewrite <-!andb_assoc|].
  repeat (apply Forall_cons in Hall as [? Hall]). by repeat (apply Forall_cons_2; [done|]).
Qed.

Lemma zeros_any a : bytes16 a -> zeros 16 a = bool_decide (a = in6addr_any).
Proof.
  intros [Hl _]. unfold zeros. rewrite take_ge by lia. apply eq_true_iff_eq. rewrite bool_decide_eq_true. split.
  - intros H. unfold in6addr_any. rewrite <-Hl. clear Hl. induction a as [|b a IH]; [done|].
    cbn in H. apply andb_true_iff in H as [->%Z.eqb_eq H]. cbn. by rewrite <-IH.
  - by intros ->.
Qed.

Section tests.
Context {M : Type}.
Implicit Types s : shim M.

(** What a test did that called [htonl]. *)
Definition after_htonl (called : bool) s : shim M := if called then set_thread_errno ENOSYS s else s.

(** Since [htonl] is not implemented and returns 0, the tests of IPv6
    addresses that compare with it are wrong: the loopback test holds for the
    address of all zeros, [in6addr_any], and for nothing else, so never for
    [in6addr_loopback]; the test for a mapped address holds for every address
    that begins with twelve zero bytes.  Both set [errno] when they get as far as
    the call.  Only the unspecified test is right. *)
Theorem loopback_test_matches_any a s :
  bytes16 a ->
  IN6_IS_ADDR_UNSPECIFIED a = bool_decide (a = in6addr_any) /\
  IN6_IS_ADDR_LOOPBACK a s = Ret (bool_decide (a = in6addr_any)) (after_htonl (zeros 12 a) s) /\
  IN6_IS_ADDR_V4MAPPED a s = Ret (zeros 12 a) (after_htonl (zeros 8 a) s).
Proof.
  intros Ha. pose proof (words_zero a 4 Ha ltac:(lia)) as H4. pose proof (words_zero a 3 Ha ltac:(lia)) as H3.
  pose proof (words_zero a 2 Ha ltac:(lia)) as H2. rewrite <-zeros_any by done. cbn [Nat.mul Nat.add] in H4, H3, H2.
  rewrite <-H4, <-H3, <-H2. cbn [seq forallb]. rewrite !andb_true_r, !andb_assoc.
  unfold IN6_IS_ADDR_LOOPBACK, IN6_IS_ADDR_V4MAPPED, htonl, enosys, failure. split; [done|].
  split; [destruct (s6_addr32 a 0 =? 0), (s6_addr32 a 1 =? 0), (s6_addr32 a 2 =? 0)|
    destruct (s6_addr32 a 0 =? 0), (s6_addr32 a 1 =? 0)]; reflexivity.
Qed.
End tests.

(** * Instances

    Two messages, with data of 5 and of 0 bytes, in a buffer at 4096. *)
Definition two_messages : msghdr := Msghdr 0 0 0 0 4096 40 0.
Definition two_headers (p : Z) : cmsghdr := Cmsghdr (if p =? 4096 then 21 else 16) 1 1.

Lemma two_ok : control_ok two_messages.
Proof. split; cbn; lia. Qed.

Lemma control_walk_safe_witness :
  spaced 4096 (messages two_messages two_headers) 4136 /\
  walk 100 two_messages two_headers 4096 = messages two_messages two_headers.
Proof.
  destruct (control_walk_safe two_messages two_headers two_ok) as [H1 H2].
  { intros p. unfold two_headers. cbn. destruct (p =? 4096); lia. }
  split; [exact H1|]. apply (H2 100%nat). cbn. lia.
Defined.

Lemma control_messages_found_witness : messages two_messages two_headers = [4096; 4120].
Proof.
  apply (control_messages_found two_messages two_headers [5; 0] two_ok).
  - done.
  - apply Forall_cons_2; [lia|]. apply Forall_cons_2; [lia|constructor].
  - reflexivity.
  - apply Forall2_cons; split; [reflexivity|]. apply Forall2_cons; split; [reflexivity|constructor].
Defined.

Lemma loopback_test_matches_any_witness :
  IN6_IS_ADDR_LOOPBACK in6addr_loopback demo_shim = Ret false (set_thread_errno ENOSYS demo_shim) /\
  IN6_IS_ADDR_LOOPBACK in6addr_any demo_shim = Ret true (set_thread_errno ENOSYS demo_shim).
Proof.
  assert (Hb : bytes16 in6addr_loopback /\ bytes16 in6addr_any).
  { split; (split; [reflexivity|]); by apply (bool_decide_eq_true_1 _); vm_compute. }
  destruct (loopback_test_matches_any in6addr_loopback demo_shim (proj1 Hb)) as (_ & -> & _).
  destruct (loopback_test_matches_any in6addr_any demo_shim (proj2 Hb)) as (_ & -> & _). split; reflexivity.
Defined.
