(* ===== verification/FsArgs.v ===== *)
(** The argument and environment strings: what a text of words and quotes
    means, and that [setup_charpparray] computes it. *)
From S2P Require Import Prelude Bytes Heap Alloc AllocSession AllocTheorems System RuntimeIO Paths PathSpec FsStore FileSystem FsImpl FsLemmas FsTree FsData FsWrite.

(** * The words of a text *)

Definition is_space (c : Z) : bool := c =? space.

(** The characters up to the end of a quote, and the rest from there on. *)
Fixpoint quoted (e : Z) (t : list Z) : list Z * list Z :=
  match t with
  | [] => ([], [])
  | c :: r => if c =? e then ([], t) else let '(q, r') := quoted e r in (c :: q, r')
  end.

(** The first word of a text that does not start with a space, without its
    quotes, and the rest from its end on; [q] is the quote that is open. *)
Fixpoint argument (q : option Z) (t : list Z) : list Z * list Z :=
  match t with
  | [] => ([], [])
  | c :: r =>
      match q with
      | Some e => if c =? e then argument None r
                  else let '(a, r') := argument q r in (c :: a, r')
      | None => if is_space c then ([], t)
                else if is_quote c then argument (Some c) r
                else let '(a, r') := argument None r in (c :: a, r')
      end
  end.

(** Every quote is closed. *)
Fixpoint closed (q : option Z) (t : list Z) : bool :=
  match t with
  | [] => match q with None => true | Some _ => false end
  | c :: r =>
      match q with
      | Some e => closed (if c =? e then None else q) r
      | None => closed (if is_quote c then Some c else None) r
      end
  end.

Fixpoint words_from (n : nat) (t : list Z) : list (list Z) :=
  match n with
  | O => []
  | S n => match drop_while is_space t with
           | [] => []
           | t => (argument None t).1 :: words_from n (argument None t).2
           end
  end.
Definition words (t : list Z) : list (list Z) := words_from (S (length t)) t.

Lemma drop_while_length f t : (length (drop_while f t) <= length t)%nat.
Proof. induction t as [|c t IH]; cbn; [done|]. destruct (f c); cbn; lia. Qed.

Lemma argument_length q t : (length (argument q t).2 <= length t)%nat.
Proof.
  revert q. induction t as [|c t IH]; intros q; cbn; [done|]. pose proof (IH None).
  destruct q as [e|].
  - destruct (c =? e); [lia|]. pose proof (IH (Some e)). destruct (argument (Some e) t); cbn in *. lia.
  - destruct (is_space c); cbn; [lia|]. destruct (is_quote c).
    + pose proof (IH (Some c)). lia.
    + destruct (argument None t); cbn in *. lia.
Qed.

(** A word has at most the characters of its text. *)
Lemma argument_chars q t :
  (length (argument q t).1 + length (argument q t).2 <= length t)%nat.
Proof.
  revert q. induction t as [|c t IH]; intros q; cbn; [done|]. pose proof (IH None).
  destruct q as [e|].
  - destruct (c =? e); [lia|]. pose proof (IH (Some e)). destruct (argument (Some e) t); cbn in *. lia.
  - destruct (is_space c); cbn; [lia|]. destruct (is_quote c).
    + pose proof (IH (Some c)). lia.
    + destruct (argument None t); cbn in *. lia.
Qed.

(** A word takes at least one character. *)
Lemma argument_progress c t :
  is_space c = false -> (length (argument None (c :: t)).2 <= length t)%nat.
Proof.
  intros Hc. cbn. rewrite Hc. destruct (is_quote c); [apply argument_length|].
  pose proof (argument_length None t). by destruct (argument None t).
Qed.

(** An open quote runs to its end, then the word goes on. *)
Lemma argument_quoted e t :
  closed (Some e) t = true ->
  exists r, (quoted e t).2 = e :: r /\ closed None r = true /\
    (length t = length (quoted e t).1 + S (length r))%nat /\
    argument (Some e) t = ((quoted e t).1 ++ (argument None r).1, (argument None r).2).
Proof.
  induction t as [|c t IH]; cbn; [done|]. destruct (c =? e) eqn:E; bool_to_prop.
  - subst c. intros Hc. exists t. split_and!; [done..|]. by destruct (argument None t).
  - intros Hc. destruct (IH Hc) as (r & Hq & Hr & Hl & Ha). exists r. rewrite Ha.
    destruct (quoted e t) as [q r']; cbn in *. split_and!; [done|done|lia|done].
Qed.

(** Enough fuel is enough. *)
Lemma words_from_enough k m t :
  (length t < k)%nat -> (length t < m)%nat -> words_from k t = words_from m t.
Proof.
  revert m t. induction k as [|k IH]; intros [|m] t Hk Hm; try lia. cbn [words_from].
  pose proof (drop_while_length is_space t). destruct (drop_while is_space t) as [|c r] eqn:E; [done|].
  apply drop_while_head in E. pose proof (argument_progress c r E). cbn [length] in *.
  f_equal. apply IH; lia.
Qed.

Lemma words_from_length k t : (length (words_from k t) <= length t)%nat.
Proof.
  revert t. induction k as [|k IH]; intros t; cbn [words_from]; [cbn; lia|].
  pose proof (drop_while_length is_space t). destruct (drop_while is_space t) as [|c r] eqn:E; [cbn; lia|].
  apply drop_while_head in E. pose proof (argument_progress c r E).
  pose proof (IH (argument None (c :: r)).2). cbn [length] in *. lia.
Qed.

Lemma closed_drop t : closed None t = true -> closed None (drop_while is_space t) = true.
Proof.
  induction t as [|c t IH]; cbn; [done|]. intros Hc. destruct (is_space c) eqn:E; [|done].
  apply IH. revert Hc. unfold is_space, space in E. bool_to_prop. by subst.
Qed.

Lemma closed_argument t : closed None t = true -> closed None (argument None t).2 = true.
Proof.
  remember (length t) as n eqn:En. assert (Hn : (length t <= n)%nat) by lia. clear En.
  revert t Hn. induction n as [|n IH]; intros [|c t] Hn Hc; cbn in Hn; try done; try lia.
  cbn. destruct (is_space c) eqn:Es; [done|]. cbn in Hc. destruct (is_quote c) eqn:Eq.
  - destruct (argument_quoted c t Hc) as (r & _ & Hr & Hl & ->). cbn. apply IH; [lia|done].
  - specialize (IH t ltac:(lia) Hc). by destruct (argument None t).
Qed.

(** * Reading the text *)

Section text.
Context {M : Type} {HS : System M} {HM : Machine}.
Implicit Types s : fs M.
Context (text : Z) (t : list Z) (Htext : 0 < text).
Let n : Z := Z.of_nat (length t).

(** The text from position [i] on. *)
Definition rest_at (i : Z) (r : list Z) : Prop :=
  0 <= i /\ i + Z.of_nat (length r) = n /\ drop (Z.to_nat i) t = r.

Lemma rest_nil i : rest_at i [] -> (i <? n) = false.
Proof. intros (_ & Hl & _). cbn in Hl. apply Z.ltb_ge. lia. Qed.

Lemma rest_cons i c r : rest_at i (c :: r) ->
  (i <? n) = true /\ zlookup i t = Some c /\ rest_at (i + 1) r.
Proof.
  unfold rest_at. intros (Hi & Hl & Hd). cbn in Hl. split_and!; [apply Z.ltb_lt; lia| |lia|lia|].
  - unfold zlookup. rewrite (proj2 (Z.leb_le _ _)) by lia.
    rewrite <-(Nat.add_0_r (Z.to_nat i)), <-lookup_drop, Hd. done.
  - replace (Z.to_nat (i + 1)) with (1 + Z.to_nat i)%nat by lia.
    by rewrite Nat.add_comm, <-drop_drop, Hd.
Qed.

Lemma rest_app i q r : rest_at i (q ++ r) -> rest_at (i + Z.of_nat (length q)) r.
Proof.
  revert i. induction q as [|c q IH]; intros i; cbn [app length]; [by rewrite Z.add_0_r|].
  intros (_ & _ & Hr)%rest_cons. apply IH in Hr. by replace (i + Z.of_nat (S (length q)))
    with (i + 1 + Z.of_nat (length q)) by lia.
Qed.

Lemma rest_start : rest_at 0 t.
Proof. unfold rest_at. split_and!; [lia|done|done]. Qed.

Lemma load_rest s i c : region (bytes s) text t -> zlookup i t = Some c -> load_byte (text + i) s = Ret c s.
Proof.
  intros Hr Hc. pose proof (zlookup_range _ _ _ Hc).
  unfold load_byte, deref. rewrite (proj2 (Z.eqb_neq _ _)) by (unfold NULL; lia). by rewrite (Hr i c Hc).
Qed.

Lemma skip_spaces_spec s i r :
  region (bytes s) text t -> rest_at i r ->
  exists j, skip_spaces text n i s = Ret j s /\ rest_at j (drop_while is_space r).
Proof.
  intros Hreg. unfold skip_spaces, text_fuel. fold n.
  match goal with |- context [scan _ ?c _ _] => set (cond := c) end. intros Hr.
  assert (Hf : (length r < S (S (Z.to_nat n)))%nat) by (destruct Hr as (? & ? & _); lia).
  revert i r Hr Hf. generalize (S (S (Z.to_nat n))) as k. induction k as [|k IH]; intros i r Hr Hk; [lia|].
  cbn [scan]. unfold bind at 1, cond at 1. destruct r as [|c r].
  - rewrite (rest_nil _ Hr). by exists i.
  - destruct (rest_cons _ _ _ Hr) as (-> & Hc & Hr'). unfold bind at 1. rewrite (load_rest _ _ _ Hreg Hc).
    cbn [drop_while]. unfold ret at 1. fold (is_space c). destruct (is_space c); [|by exists i].
    apply IH; [done|cbn in *; lia].
Qed.

Lemma skip_escape_spec s e m i r :
  region (bytes s) text t -> rest_at i r ->
  exists j, skip_escape text n e m i s = Ret (m + Z.of_nat (length (quoted e r).1), j) s /\
    rest_at j (quoted e r).2.
Proof.
  intros Hreg. unfold skip_escape, text_fuel. fold n.
  match goal with |- context [loop _ ?c _ _] => set (body := c) end. intros Hr.
  assert (Hf : (length r < S (S (Z.to_nat n)))%nat) by (destruct Hr as (? & ? & _); lia).
  revert m i r Hr Hf. generalize (S (S (Z.to_nat n))) as k. induction k as [|k IH]; intros m i r Hr Hk; [lia|].
  cbn [loop]. unfold bind at 1, body at 1. destruct r as [|c r].
  - rewrite (rest_nil _ Hr). exists i. split; [|done]. cbn. by rewrite Z.add_0_r.
  - destruct (rest_cons _ _ _ Hr) as (-> & Hc & Hr'). unfold bind at 1. rewrite (load_rest _ _ _ Hreg Hc).
    cbn [quoted]. destruct (c =? e); cbn [negb]; unfold ret at 1.
    + exists i. split; [|done]. cbn. by rewrite Z.add_0_r.
    + destruct (IH (m + 1) (i + 1) r Hr' ltac:(cbn in *; lia)) as (j & Hrun & Hj).
      exists j. rewrite Hrun. destruct (quoted e r) as [q r']; cbn in *. split; [|done]. do 2 f_equal. lia.
Qed.

Lemma skip_argument_spec s i r :
  region (bytes s) text t -> rest_at i r -> closed None r = true ->
  exists j, skip_argument text n i s = Ret (Z.of_nat (length (argument None r).1), j) s /\
    rest_at j (argument None r).2.
Proof.
  intros Hreg. unfold skip_argument, text_fuel. fold n.
  match goal with |- context [loop _ ?c _ _] => set (body := c) end. intros Hr Hcl.
  assert (Hf : (length r < S (S (Z.to_nat n)))%nat) by (destruct Hr as (? & ? & _); lia).
  enough (Hgen : forall k m i r, (length r < k)%nat -> rest_at i r -> closed None r = true ->
    exists j, loop k body (m, i) s = Ret (m + Z.of_nat (length (argument None r).1), j) s /\
      rest_at j (argument None r).2) by (apply (Hgen _ 0 i r Hf Hr Hcl)).
  clear i r Hr Hcl Hf. induction k as [|k IH]; intros m i r Hk Hr Hcl; [lia|].
  cbn [loop]. unfold bind at 1, body at 1. destruct r as [|c r].
  - rewrite (rest_nil _ Hr). exists i. split; [|done]. cbn. by rewrite Z.add_0_r.
  - destruct (rest_cons _ _ _ Hr) as (-> & Hc & Hr'). unfold bind at 1. rewrite (load_rest _ _ _ Hreg Hc).
    cbn [argument]. fold (is_space c). destruct (is_space c).
    { exists i. split; [|done]. cbn. by rewrite Z.add_0_r. }
    cbn in Hk, Hcl. destruct (is_quote c).
    + destruct (argument_quoted c r Hcl) as (r2 & Hq & Hcl2 & Hl & Ha).
      destruct (skip_escape_spec s c m (i + 1) r Hreg Hr') as (j & Hrun & Hj).
      unfold bind at 1. rewrite Hrun. rewrite Hq in Hj. destruct (rest_cons _ _ _ Hj) as (_ & _ & Hj').
      unfold ret at 1. destruct (IH (m + Z.of_nat (length (quoted c r).1)) (j + 1) r2 ltac:(lia) Hj' Hcl2) as (j2 & -> & Hj2).
      exists j2. rewrite Ha. cbn [fst snd]. split; [|done]. rewrite length_app. do 2 f_equal. lia.
    + unfold ret at 1. destruct (IH (m + 1) (i + 1) r ltac:(lia) Hr' Hcl) as (j & -> & Hj). exists j.
      destruct (argument None r) as [a r']; cbn in *. split; [|done]. do 2 f_equal. lia.
Qed.

Lemma rest_end i r : rest_at i r -> (n <=? i) = match r with [] => true | _ => false end.
Proof.
  intros Hr. destruct r as [|c r].
  - destruct Hr as (_ & Hl & _). cbn in Hl. apply Z.leb_le. lia.
  - destruct (rest_cons _ _ _ Hr) as (Hlt & _). apply Z.leb_gt. by apply Z.ltb_lt.
Qed.

Lemma count_arguments_spec s :
  region (bytes s) text t -> closed None t = true ->
  count_arguments text n s = Ret (Z.of_nat (length (words t))) s.
Proof.
  intros Hreg Hcl. unfold count_arguments, text_fuel. fold n.
  match goal with |- loop _ ?c _ _ = _ => set (body := c) end.
  enough (Hgen : forall k m i r, (length r < k)%nat -> rest_at i r -> closed None r = true ->
    loop k body (m, i) s = Ret (m + Z.of_nat (length (words_from k r))) s).
  { rewrite (Hgen _ 0 0 t); [|lia|apply rest_start|done].
    unfold words. by rewrite (words_from_enough _ (S (length t))) by lia. }
  clear Hcl. induction k as [|k IH]; intros m i r Hk Hr Hcl; [lia|].
  cbn [loop words_from]. unfold bind at 1, body at 1. destruct r as [|c r].
  - rewrite (rest_nil _ Hr). cbn. unfold ret. f_equal. lia.
  - destruct (rest_cons _ _ _ Hr) as (-> & _ & _). cbn [negb]. unfold bind at 1.
    destruct (skip_spaces_spec s i _ Hreg Hr) as (j & -> & Hj). rewrite (rest_end _ _ Hj).
    pose proof (closed_drop _ Hcl) as Hcl1. pose proof (drop_while_length is_space (c :: r)) as Hdl.
    destruct (drop_while is_space (c :: r)) as [|d r1] eqn:E; [cbn; unfold ret; f_equal; lia|].
    apply drop_while_head in E. unfold bind at 1.
    destruct (skip_argument_spec s j (d :: r1) Hreg Hj Hcl1) as (j2 & -> & Hj2).
    unfold ret at 1. pose proof (argument_progress d r1 E).
    cbn [snd]. rewrite (IH (m + 1) j2 (argument None (d :: r1)).2);
      [|cbn [length] in *; lia|done|by apply closed_argument].
    cbn [length]. f_equal. lia.
Qed.

(** ** Copying a word *)

Section copy.
Context (s : fs M) (target size : Z).
Hypothesis Hreg : region (bytes s) text t.
Hypothesis Hw : writable (bytes s) target size.
Hypothesis Htarget : 0 < target.
Hypothesis Hdis : disjoint_range target size text n.

(** The state when [acc] has been copied. *)
Definition copied_so_far (acc : list Z) : fs M := with_bytes (write_bytes target acc (bytes s)) s.

Lemma copied_text acc : Z.of_nat (length acc) <= size -> region (bytes (copied_so_far acc)) text t.
Proof. intros Ha. apply region_write_other; [done|]. unfold disjoint_range, n in Hdis. lia. Qed.

Lemma copy_byte_spec acc c (Q : unit -> fs M -> Prop) :
  Z.of_nat (length acc) < size -> Q tt (copied_so_far (acc ++ [c])) ->
  wp (store_byte (target + Z.of_nat (length acc)) c) Q (copied_so_far acc).
Proof.
  intros Ha HQ. apply wp_store_byte; [apply (writable_write _ _ _ _ _ Hw); lia|unfold NULL; lia|].
  unfold copied_so_far in *. rewrite write_bytes_snoc in HQ. by rewrite with_bytes_twice.
Qed.

Lemma copy_escape_spec e stop acc i r r2 (Q : Z * Z -> fs M -> Prop) :
  rest_at i r -> (quoted e r).2 = e :: r2 -> i + Z.of_nat (length (quoted e r).1) < stop ->
  Z.of_nat (length (acc ++ (quoted e r).1)) <= size ->
  (forall j, rest_at j (e :: r2) ->
    Q (Z.of_nat (length (acc ++ (quoted e r).1)), j) (copied_so_far (acc ++ (quoted e r).1))) ->
  wp (copy_escape text n e target stop (Z.of_nat (length acc)) i) Q (copied_so_far acc).
Proof.
  unfold copy_escape, text_fuel. fold n.
  match goal with |- context [loop _ ?c _] => set (body := c) end. intros Hr.
  assert (Hf : (length r < S (S (Z.to_nat n)))%nat) by (destruct Hr as (? & ? & _); lia).
  revert acc i r Hr Hf. generalize (S (S (Z.to_nat n))) as k.
  induction k as [|k IH]; intros acc i r Hr Hk Hq Hstop Hsz HQ; [lia|].
  destruct r as [|c r]; [done|]. destruct (rest_cons _ _ _ Hr) as (_ & Hc & Hr').
  apply wp_loop_step. unfold body at 1. rewrite (proj2 (Z.ltb_lt i stop)) by lia.
  apply wp_bind. unfold wp at 1.
  assert (Hacc : Z.of_nat (length acc) <= size) by (rewrite length_app in Hsz; lia).
  rewrite (load_rest _ _ _ (copied_text acc Hacc) Hc). cbn [quoted] in *. destruct (c =? e) eqn:E.
  - cbn [negb fst]. apply wp_ret. specialize (HQ i). cbn [fst snd] in *. rewrite app_nil_r in HQ.
    apply HQ. by rewrite Hq in Hr.
  - destruct (quoted e r) as [q r'] eqn:Eq. cbn [fst snd length] in *. cbn [negb].
    apply wp_bind, copy_byte_spec; [rewrite length_app in Hsz; cbn in Hsz; lia|]. apply wp_ret.
    replace (Z.of_nat (length acc) + 1) with (Z.of_nat (length (acc ++ [c]))) by (rewrite length_app; cbn; lia).
    apply (IH (acc ++ [c]) (i + 1) r); rewrite ?Eq; cbn [fst snd]; [done|lia|done|lia|..];
      rewrite <-app_assoc; done.
Qed.

Lemma copy_argument_spec stop r (Q : unit -> fs M -> Prop) i :
  rest_at i r -> closed None r = true -> rest_at stop (argument None r).2 ->
  Z.of_nat (length (argument None r).1) <= size ->
  Q tt (copied_so_far (argument None r).1) ->
  wp (copy_argument text n target i stop) Q s.
Proof.
  unfold copy_argument, text_fuel. fold n.
  match goal with |- context [loop _ ?c _] => set (body := c) end. intros Hr Hcl Hstop Hsz HQ.
  assert (Hf : (length r < S (S (Z.to_nat n)))%nat) by (destruct Hr as (? & ? & _); lia).
  enough (Hgen : forall k acc i r, (length r < k)%nat -> rest_at i r -> closed None r = true ->
    rest_at stop (argument None r).2 -> Z.of_nat (length (acc ++ (argument None r).1)) <= size ->
    Q tt (copied_so_far (acc ++ (argument None r).1)) ->
    wp (loop k body (Z.of_nat (length acc), i)) Q (copied_so_far acc)).
  { specialize (Hgen _ [] i r Hf Hr Hcl Hstop Hsz HQ). unfold copied_so_far in Hgen.
    cbn [write_bytes length] in Hgen. by rewrite with_bytes_id in Hgen. }
  clear i r Hr Hcl Hstop Hsz HQ Hf.
  induction k as [|k IH]; intros acc i r Hk Hr Hcl Hstop Hsz HQ; [lia|].
  apply wp_loop_step. unfold body at 1.
  assert (Hacc : Z.of_nat (length acc) <= size) by (rewrite length_app in Hsz; lia).
  pose proof Hr as (_ & Hri & _). pose proof Hstop as (_ & Hsi & _).
  destruct (decide (argument None r = ([], r))) as [Ea|Hne].
  { rewrite Ea in *. cbn [fst snd] in *. rewrite app_nil_r in HQ.
    rewrite (proj2 (Z.ltb_ge _ _)) by lia. by apply wp_ret. }
  destruct r as [|c r]; [by destruct Hne|]. destruct (rest_cons _ _ _ Hr) as (_ & Hc & Hr').
  destruct (is_space c) eqn:Es; [exfalso; apply Hne; cbn; by rewrite Es|].
  pose proof (argument_progress c r Es) as Hprog. cbn [length] in *.
  rewrite (proj2 (Z.ltb_lt i stop)) by lia. apply wp_bind. unfold wp at 1.
  rewrite (load_rest _ _ _ (copied_text acc Hacc) Hc).
  cbn [argument] in *. cbn [closed] in Hcl. rewrite Es in *. destruct (is_quote c) eqn:Eq.
  - destruct (argument_quoted c r Hcl) as (r2 & Hq & Hcl2 & Hl & Ha). rewrite Ha in *. cbn [fst snd] in *.
    pose proof (argument_length None r2). rewrite app_assoc in HQ, Hsz.
    apply wp_bind. eapply copy_escape_spec; [done|done|lia|rewrite length_app in Hsz; lia|].
    intros j Hj. apply wp_ret. cbn [fst snd]. destruct (rest_cons _ _ _ Hj) as (_ & _ & Hj').
    apply (IH _ (j + 1) r2); [lia|done..].
  - destruct (argument None r) as [a r'] eqn:Ea. cbn [fst snd] in *.
    apply wp_bind, copy_byte_spec; [rewrite length_app in Hsz; cbn in Hsz; lia|]. apply wp_ret.
    replace (Z.of_nat (length acc) + 1) with (Z.of_nat (length (acc ++ [c]))) by (rewrite length_app; cbn; lia).
    apply (IH (acc ++ [c]) (i + 1) r); rewrite ?Ea; cbn [fst snd]; [lia|done|done|done|..];
      rewrite <-app_assoc; done.
Qed.
End copy.
(** ** The array of strings *)

Lemma wp_alloc_pointers size (Q : Z -> fs M -> Prop) s :
  sound s -> 0 < size < 2 ^ 63 ->
  (forall s', refused s s' -> Q NULL s') ->
  (forall p k m, grown s (put_sys m s) p k ->
     Q p (with_pointers (<[p := found_pointers (S (requests s)) (local_size_of size)]> (pointers s))
       (put_sys m s))) ->
  wp (alloc_pointers size) Q s.
Proof.
  intros Hs Hsz Hnull Hok. unfold alloc_pointers. rewrite wrap64_small by lia.
  apply wp_bind, wp_fs_alloc; [done|lia|unfold sizeof_pointer; lia| |].
  - intros s' Hr. apply wp_bind, wp_ret, wp_ret. by apply Hnull.
  - intros p k m _ Hg. pose proof (gr_pos _ _ _ _ Hg).
    apply wp_bind. rewrite (proj2 (Z.eqb_neq _ _)) by (unfold NULL; lia). apply wp_modify, wp_ret.
    by apply (Hok p k m).
Qed.

Lemma wp_store_pointer p i v l (Q : unit -> fs M -> Prop) s :
  pointers s !! p = Some l -> p <> NULL -> 0 <= i < Z.of_nat (length l) ->
  Q tt (with_pointers (<[p := zinsert i v l]> (pointers s)) s) -> wp (store_pointer p i v) Q s.
Proof.
  intros Hl Hp Hi HQ. apply wp_bind. unfold wp at 1, deref.
  rewrite (proj2 (Z.eqb_neq _ _)) by done. rewrite Hl. destruct (zlookup_lt i l Hi) as [w ->].
  by apply wp_modify.
Qed.

(** A C string in a live allocation. *)
Definition string_at s (p : Z) (w : list Z) : Prop :=
  region (bytes s) p (w ++ [NUL]) /\
  exists v, (p, v) ∈ live s /\ Z.of_nat (length w) + 1 <= 8 * v.

(** The text is not in the memory that the allocator hands out. *)
Definition outside (ar : Z * Z) (a k : Z) : Prop := a + k <= ar.1 \/ ar.2 <= a.

(** The strings of the words [ws] have been made from the state [s0]. *)
Record made s0 s (pp count : Z) (ps : list Z) (ws : list (list Z)) : Prop := {
  md_sound : sound s;
  md_area : area s = area s0;
  md_text : region (bytes s) text t;
  md_array : exists arr, pointers s !! pp = Some arr /\ pp <> NULL /\
    Z.of_nat (length arr) = count + 1 /\ zlookup count arr = Some NULL /\
    take (length ps) arr = ps;
  md_strings : Forall2 (string_at s) ps ws;
  md_others : files s = files s0 /\ chunks s = chunks s0 /\ open_files s = open_files s0;
}.

Lemma string_grown s p k m size q w :
  grown s (put_sys m s) p k -> 8 * local_size_of size <= 8 * k -> 0 < size < 2 ^ 63 ->
  string_at s q w -> string_at (with_buffer p size (put_sys m s)) q w.
Proof.
  intros Hg Hk Hsz [Hr (v & Hv & Hl)]. pose proof (gr_apart _ _ _ _ Hg _ _ Hv) as Hap. split.
  - intros j b Hj. cbn. rewrite fill_bytes_spec, decide_False; [by apply Hr|].
    apply zlookup_range in Hj. rewrite length_app in Hj. cbn in Hj.
    pose proof (local_size_small size Hsz). unfold apart in Hap. lia.
  - exists v. split; [|done]. change (live _) with (live (put_sys m s)).
    rewrite (gr_live _ _ _ _ Hg). by constructor.
Qed.

(** Writing to a new allocation leaves a string elsewhere as it was. *)
Lemma string_written s p k l q w :
  (p, k) ∈ live s -> (forall x v, (x, v) ∈ live s -> x <> p -> apart p k x v) ->
  Z.of_nat (length l) <= 8 * k -> q <> p -> string_at s q w ->
  string_at (with_bytes (write_bytes p l (bytes s)) s) q w.
Proof.
  intros Hp Hap Hl Hq [Hr (v & Hv & Hw)]. split; [|by exists v].
  apply region_write_other; [done|]. rewrite length_app. cbn.
  specialize (Hap q v Hv Hq). unfold apart in Hap. lia.
Qed.

Lemma make_string_spec s0 s pp count ps ws i r stop :
  made s0 s pp count ps ws -> outside (area s0) text n -> n < 2 ^ 31 ->
  Z.of_nat (length ps) < count -> rest_at i r -> closed None r = true ->
  rest_at stop (argument None r).2 ->
  wpf (make_string text n pp (Z.of_nat (length ps)) i stop (Z.of_nat (length (argument None r).1)))
    (fun _ s' => exists p, made s0 s' pp count (ps ++ [p]) (ws ++ [(argument None r).1])) NullDeref s.
Proof.
  intros [Hs Har Htx (arr & Harr & Hpp & Hlen & Hnull & Htake) Hstr Hoth] Hout Hn Hk Hr Hcl Hstop.
  set (a := (argument None r).1) in *. pose proof (argument_chars None r) as Hac. fold a in Hac.
  pose proof Hr as (Hi0 & Hrl & _). unfold make_string. apply wpf_wp_bind.
  apply wp_alloc_raw; [done|lia|lia| |].
  { intros s' _. apply wpf_bind. unfold wpf, store_at. by rewrite Z.eqb_refl. }
  intros p k m Hsz Hg. set (s1 := with_buffer p _ _). pose proof (gr_pos _ _ _ _ Hg) as Hp0.
  pose proof (local_size_small (Z.of_nat (length a) + 1) ltac:(lia)) as Hls.
  destruct (gr_inside _ _ _ _ Hg) as [Hin1 Hin2]. rewrite Har in Hin1, Hin2.
  assert (Hreg1 : region (bytes s1) text t).
  { intros j b Hj. cbn. rewrite fill_bytes_spec, decide_False; [by apply Htx|].
    apply zlookup_range in Hj. unfold outside, n in *. lia. }
  assert (Hw1 : writable (bytes s1) p (Z.of_nat (length a) + 1)).
  { intros j Hj. cbn. rewrite fill_bytes_spec, decide_True by lia. by eexists. }
  assert (Hlive1 : live s1 = (p, k) :: live s) by exact (gr_live _ _ _ _ Hg).
  apply wpf_wp_bind. unfold store_at. rewrite (proj2 (Z.eqb_neq _ _)) by (unfold NULL; lia).
  apply wp_store_byte; [apply Hw1; lia|unfold NULL; lia|]. set (s2 := with_bytes _ s1).
  assert (Hdis : disjoint_range p (Z.of_nat (length a)) text n) by (unfold outside, disjoint_range in *; lia).
  apply wpf_wp_bind. eapply (copy_argument_spec s2 p (Z.of_nat (length a))); try done.
  { apply (region_write_other _ [NUL] (bytes s1)); [done|]. unfold outside, n in *. cbn. lia. }
  { change (bytes s2) with (write_bytes (p + Z.of_nat (length a)) [NUL] (bytes s1)). apply writable_write.
    intros j Hj. apply Hw1. lia. }
  change ((argument None r).1) with a. set (s3 := with_bytes (write_bytes p (a ++ [NUL]) (bytes s1)) s1).
  assert (copied_so_far s2 p a = s3) as ->.
  { unfold copied_so_far, s2, s3. rewrite with_bytes_twice. cbn [bytes with_bytes].
    by rewrite write_bytes_insert, <-write_bytes_snoc by lia. }
  apply wpf_of_wp. eapply wp_store_pointer; [exact Harr|done|lia|]. exists p.
  assert (Hsp : forall x v, (x, v) ∈ live s1 -> x <> p -> apart p k x v).
  { intros x v Hx Hxp. rewrite Hlive1 in Hx. apply elem_of_cons in Hx as [[= -> ->]|Hx]; [done|].
    by apply (gr_apart _ _ _ _ Hg). }
  assert (Hstr3 : forall q w, string_at s q w -> string_at s3 q w).
  { intros q w Hq. apply (string_written s1 p k); [rewrite Hlive1; constructor|done|rewrite length_app; cbn; lia| |].
    - intros ->. destruct Hq as [_ (v & Hv & _)]. apply (gr_fresh _ _ _ _ Hg), list_elem_of_fmap. by exists (p, v).
    - apply (string_grown s p k m); [done|lia|lia|done]. }
  split; [exact (gr_sound _ _ _ _ Hg)|rewrite <-Har; exact (gr_area _ _ _ _ Hg)| | | |done].
  - apply region_write_other; [done|]. rewrite length_app. cbn. unfold outside, n in *. lia.
  - exists (zinsert (Z.of_nat (length ps)) p arr). cbn. rewrite lookup_insert_eq.
    split_and!; [done|done|by rewrite zinsert_length|by rewrite zlookup_insert_ne by lia|].
    rewrite length_app, Nat.add_1_r. unfold zinsert. rewrite Nat2Z.id.
    rewrite (take_S_r _ _ p) by (apply list_lookup_insert_eq; lia).
    by rewrite take_insert_ge, Htake by lia.
  - apply Forall2_app.
    + eapply Forall2_impl; [exact Hstr|]. exact Hstr3.
    + constructor; [|constructor]. split; [apply region_write|]. exists k. split; [|lia].
      change (live _) with (live s1). rewrite Hlive1. constructor.
Qed.
Lemma fill_arguments_spec s0 s pp :
  made s0 s pp (Z.of_nat (length (words t))) [] [] -> outside (area s0) text n -> n < 2 ^ 31 ->
  closed None t = true ->
  wpf (fill_arguments text n pp)
    (fun _ s' => exists ps, made s0 s' pp (Z.of_nat (length (words t))) ps (words t)) NullDeref s.
Proof.
  intros Hmade Hout Hn Hcl. unfold fill_arguments, text_fuel. fold n.
  match goal with |- context [loop _ ?c _] => set (body := c) end.
  set (count := Z.of_nat (length (words t))) in *.
  enough (Hgen : forall k s i r ps ws, (length r < k)%nat -> made s0 s pp count ps ws ->
    rest_at i r -> closed None r = true -> ws ++ words_from k r = words t ->
    wpf (loop k body (Z.of_nat (length ps), i))
      (fun _ s' => exists ps, made s0 s' pp count ps (words t)) NullDeref s).
  { apply (Hgen _ s 0 t [] []); [lia|done|apply rest_start|done|].
    apply words_from_enough; lia. }
  clear s Hmade Hcl. induction k as [|k IH]; intros s i r ps ws Hk Hmade Hr Hcl Hws; [lia|].
  apply wpf_loop_step. unfold body at 1. destruct r as [|c r].
  { rewrite (rest_nil _ Hr). apply wpf_ret. cbn in Hws. rewrite app_nil_r in Hws. subst ws. by exists ps. }
  destruct (rest_cons _ _ _ Hr) as (-> & _ & _). cbn [negb].
  pose proof (md_text _ _ _ _ _ _ Hmade) as Hreg.
  destruct (skip_spaces_spec s i _ Hreg Hr) as (j & Hrun & Hj).
  apply wpf_bind. unfold wpf at 1. rewrite Hrun, (rest_end _ _ Hj).
  pose proof (closed_drop _ Hcl) as Hcl1. pose proof (drop_while_length is_space (c :: r)) as Hdl.
  cbn [words_from] in Hws. destruct (drop_while is_space (c :: r)) as [|d r1] eqn:E.
  { apply wpf_ret. rewrite app_nil_r in Hws. subst ws. by exists ps. }
  apply drop_while_head in E. pose proof (argument_progress d r1 E).
  destruct (skip_argument_spec s j (d :: r1) Hreg Hj Hcl1) as (j2 & Hrun2 & Hj2).
  apply wpf_bind. unfold wpf at 1. rewrite Hrun2. apply wpf_bind.
  pose proof (Forall2_length _ _ _ (md_strings _ _ _ _ _ _ Hmade)) as Hlen.
  eapply wpf_mono; [apply (make_string_spec s0 s pp count ps ws j (d :: r1) j2); try done|].
  { unfold count. rewrite <-Hws, length_app. cbn [length]. lia. }
  intros _ s' (p & Hmade'). apply wpf_ret.
  replace (Z.of_nat (length ps) + 1) with (Z.of_nat (length (ps ++ [p]))) by (rewrite length_app; cbn; lia).
  apply (IH s' j2 (argument None (d :: r1)).2 (ps ++ [p]) (ws ++ [(argument None (d :: r1)).1]));
    [cbn [length] in *; lia|done|done|by apply closed_argument|].
  by rewrite <-app_assoc.
Qed.

Lemma setup_charpparray_spec s :
  sound s -> region (bytes s) text t -> outside (area s) text n -> 0 < n < 2 ^ 31 ->
  closed None t = true ->
  wpf (setup_charpparray text n) (fun r s' => r.1 = Z.of_nat (length (words t)) /\
    exists ps, made s s' r.2 r.1 ps (words t)) NullDeref s.
Proof.
  intros Hs Hreg Hout Hn Hcl. unfold setup_charpparray.
  rewrite (proj2 (Z.eqb_neq _ _)), (proj2 (Z.eqb_neq _ _)) by (unfold NULL; lia). cbn [orb].
  apply wpf_bind. unfold wpf at 1. rewrite count_arguments_spec by done.
  pose proof (words_from_length (S (length t)) t) as Hwl. fold (words t) in Hwl.
  set (count := Z.of_nat (length (words t))) in *.
  assert (Hc : 0 <= count <= n) by (unfold count, n; lia).
  unfold sizeof_pointer. apply wpf_wp_bind, wp_alloc_pointers; [done|lia| |].
  { intros s' _. done. }
  intros p k m Hg. pose proof (gr_pos _ _ _ _ Hg) as Hp.
  assert (Hsz : local_size_of (8 * count + 1) = count + 1).
  { unfold local_size_of. rewrite wrap64_small by lia.
    replace (8 * count + 1 + 8 - 1) with ((count + 1) * 8) by lia. by rewrite Z.div_mul. }
  rewrite Hsz. apply wpf_wp_bind. eapply wp_store_pointer; [apply lookup_insert_eq|unfold NULL; lia| |].
  { rewrite found_pointers_length; lia. }
  apply wpf_bind. eapply wpf_mono; [apply (fill_arguments_spec s); [|done|lia|done]|].
  - split; [exact (gr_sound _ _ _ _ Hg)|exact (gr_area _ _ _ _ Hg)|exact Hreg| |constructor|done].
    exists (zinsert count NULL (found_pointers (S (requests s)) (count + 1))). cbn [pointers with_pointers].
    rewrite insert_insert_eq, lookup_insert_eq. split_and!; [done|unfold NULL; lia| | |done].
    + rewrite zinsert_length, found_pointers_length; lia.
    + apply zlookup_insert_eq. rewrite found_pointers_length; lia.
  - intros _ s' (ps & Hmade). apply wpf_ret. cbn [fst snd]. rewrite int32_small by lia. split; [done|by exists ps].
Qed.
End text.
