(* ===== verification/FsStart.v ===== *)
(** The streams, the static nodes and the order of the steps of the set-up
    ([fs_initialize] of src/file_system/file_system.c). *)
From S2P Require Import Prelude Bytes Heap Alloc AllocSession AllocTheorems System RuntimeIO RuntimeTree RuntimeInit RuntimeOutput Paths PathSpec FsStore FileSystem FsImpl FsLemmas FsTree FsResolve FsData FsWrite FsExport FsExportNode FsTerminate FsNames FsSpace FsDirs FsInput FsInit FsArgs.

(** * The first entries *)

Definition at_root (n : String.string) : list (list Z) := [chars n].
Definition in_dir (d n : String.string) : list (list Z) := [chars d; chars n].

Definition root_space : dirmap := {[ [] := EDir ]}.
(** The devices, and the directory of the streams. *)
Definition device_space : dirmap :=
  <[at_root "stdio" := EDir]> (<[in_dir "dev" "urandom" := EDevice]> (<[at_root "dev" := EDir]> root_space)).
Definition stream_space : dirmap :=
  <[in_dir "stdio" "stdout" := EFile NULL 0]> (<[in_dir "stdio" "stderr" := EFile NULL 0]> device_space).

(** The entries after the whole set-up. *)
Definition start_space (sets : list input_set) (outs : list (list Z)) : option dirmap :=
  match add_sets sets stream_space with
  | None => None
  | Some ns => match add_outputs outs ns with
    | None => None
    | Some ns => if existsb gives_stdin sets then Some ns else put (in_dir "stdio" "stdin") (EFile NULL 0) ns
    end
  end.

(** The static nodes have no children yet. *)
Lemma static_names : names_ok static_files (fun _ => []).
Proof.
  assert (Hall : forall x f, static_files !! x = Some f ->
    named f /\ parent f = NULL /\ (ftype f = DIRECTORY -> content f = NULL)).
  { intros x f H. unfold static_files in H.
    repeat (apply lookup_insert_Some in H as [[<- <-]|[_ H]]; [by split_and!|]). by rewrite lookup_empty in H. }
  split; [split|..].
  - by eexists.
  - intros x f H. by apply (Hall x f).
  - intros x f H Ht. cbn. by apply (Hall x f).
  - intros x. apply not_elem_of_nil.
  - done.
  - intros x f _ H. left. by apply (Hall x f).
  - by eexists.
  - intros x. constructor.
  - by intros x y ?%elem_of_nil.
  - done.
Qed.

Lemma static_loose x f :
  static_files !! x = Some f -> x <> NULL -> x <> fs_root -> loose static_files (fun _ => []) x f.
Proof. intros. split; [done..|intros y; apply not_elem_of_nil|done]. Qed.

Section start.
Context {M : Type} {HS : System M} {HM : Machine}.
Implicit Types s : fs M.

Lemma wp_check (c k : prog (fs M) Z) (Q : Z -> fs M -> Prop) s :
  wp c (fun r s' => r = 0 /\ wp k Q s') s -> wp (check c k) Q s.
Proof. intros H. apply wp_bind. eapply wp_mono; [exact H|]. by intros r s' [-> Hk]. Qed.

(** * Streams *)

Lemma open_stream_spec s kids ns str t index flags fmode o (k : Z -> prog (fs M) Z) (Q : Z -> fs M -> Prop) :
  holds s kids ns -> sound s -> first_live s -> ends (length t) -> c_string str t -> simple t -> (length t < 64)%nat ->
  has flags O_TRUNC = false -> zlookup index (open_files s) = Some o -> file_cost <= sys_room (rt_sys (fs_rt s)) ->
  (forall x s' f, holds s' kids ns -> step file_cost s kids s' kids -> loose (files s') kids x f ->
     node_name f = t -> hard_links f = 0 -> entry_at s' x (EFile NULL 0) ->
     open_files s' = zinsert index (OpenFile x NULL 0 (access_of flags)) (open_files s) -> wp (k x) Q s') ->
  wp (open_stream str index flags fmode k) Q s.
Proof.
  intros H Hs Hfl Hz Hstr Hsim Hlen Htr Ho Hroom HQ.
  destruct (path_from_string_spec fs_exit str t s Hstr) as (Hrun & Hp & Et).
  apply wp_bind. unfold wp at 1. rewrite Hrun. apply wp_bind.
  eapply create_file_spec; [done|done|done|by rewrite Et|done|by rewrite Et|cbn; unfold FS_NAME_LENGTH; lia|done|].
  intros x s1 f Hst1 Hh1 Hlo Hname Hft _ Hhl Hent Ho1. rewrite (proj2 (Z.eqb_neq _ _)) by apply Hlo.
  apply wp_check. eapply (open_existing_spec s1 kids ns index x f); [done|by eapply step_sound|apply Hlo|apply Hlo|done|by rewrite Ho1|done|].
  intros s2 Hh2 Hst2 Ho2 Hent2 Hlo2 Hx2. split; [done|]. destruct (Hlo2 f Hlo) as (g & Hg & Hgn & Hgt).
  assert (Hnull : (if is_file (ftype f) then content f else NULL) = NULL).
  { destruct Hent as (f1 & Hf1 & _ & Hc). rewrite (lo_node _ _ _ _ Hlo) in Hf1. injection Hf1 as <-. rewrite Hc. by destruct (is_file _). }
  eapply (HQ x s2 g); [done| |done|congruence| |by apply Hent2|by rewrite Ho2, Ho1, Hnull].
  - eapply step_mono; [by eapply then_step|lia].
  - rewrite (lo_node _ _ _ _ Hg) in Hx2. by injection Hx2 as ->.
Qed.

(** Linking a stream into the directory of the streams. *)
Lemma link_stream_spec s kids ns x f t e (Q : Z -> fs M -> Prop) :
  holds s kids ns -> sound s -> ns !! at_root "stdio" = Some EDir ->
  node_at (files s) kids (at_root "stdio") = stdio_folder ->
  loose (files s) kids x f -> node_name f = t -> hard_links f = 0 -> simple t -> entry_at s x e -> ns !! (at_root "stdio" ++ [t]) = None ->
  (forall s' kids', holds s' kids' (<[at_root "stdio" ++ [t] := e]> ns) -> step 0 s kids s' kids' ->
     open_files s' = open_files s -> node_at (files s') kids' (at_root "stdio" ++ [t]) = x ->
     Q 0 s') ->
  wp (link_file_to_folder stdio_folder x) Q s.
Proof.
  intros H Hs Hdir Hat Hlo <- Hhl Hsim He Hnone HQ. rewrite <-Hat.
  assert (Forall simple (at_root "stdio")) by (constructor; [by apply (bool_decide_eq_true_1 _); vm_compute|constructor]).
  eapply (link_holds s kids ns _ x f e); [done..|by rewrite Hhl|]. intros m' kids' Hh' Hst' Hnew _ _. by apply (HQ _ kids').
Qed.

(** * The static nodes *)

Lemma static_holds r input_bytes : holds (fs_start r input_bytes) (fun _ => []) root_space.
Proof.
  split; [apply static_names| | | |].
  - intros [|c cs] Hcs; [by eexists|]. apply Forall_cons in Hcs as [Hc _]. unfold root_space.
    rewrite lookup_singleton_ne by done. change (files _) with static_files.
    unfold node_at. cbn [resolve]. rewrite enter_simple by done. reflexivity.
  - intros x [f Hf]. left. cbn in Hf. unfold static_files in Hf.
    repeat (apply lookup_insert_Some in Hf as [[<- _]|[_ Hf]]; [done|]). by rewrite lookup_empty in Hf.
  - split; [by intros x y ?%elem_of_nil|]. intros x. constructor.
  - intros [|c cs] f Hcs; [by intros [= <-]|]. apply Forall_cons in Hcs as [Hc _]. change (files _) with static_files.
    unfold node_at. cbn [resolve]. by rewrite enter_simple by done.
Qed.

Lemma rng_step s kids ns seed calls :
  holds s kids ns -> sound s -> holds (with_rng seed calls s) kids ns /\ step 0 s kids (with_rng seed calls s) kids.
Proof.
  intros H Hs. split; [by eapply (holds_same s)|]. split; [|done].
  split; try done; [by apply sys_grows_refl|by destruct s as [[]]].
Qed.

(** The devices and the directory of the streams. *)
Lemma link_static_spec r input_bytes (k : prog (fs M) Z) (Q : Z -> fs M -> Prop) :
  let s := fs_start r input_bytes in sound s ->
  (forall s' kids, holds s' kids device_space -> step 0 s (fun _ => []) s' kids -> open_files s' = open_files s ->
     node_at (files s') kids (at_root "stdio") = stdio_folder -> wp k Q s') ->
  wp (check (link_file_to_folder fs_root device_folder) (
    let! _ := urandom_init urandom_seed in
    check (link_file_to_folder device_folder urandom_file) (
    check (link_file_to_folder fs_root stdio_folder) k))) Q s.
Proof.
  intros s Hs HQ. pose proof (static_holds r input_bytes) as H0.
  assert (Hdev : loose (files s) (fun _ => []) device_folder (DFile (static_name (chars "dev")) NULL NULL DIRECTORY NULL 1 0 0)) by by apply static_loose.
  assert (Hrnd : loose (files s) (fun _ => []) urandom_file (DFile (static_name (chars "urandom")) NULL NULL DEVICE urandom_device 1 0 S_IRUSR)) by by apply static_loose.
  assert (Hstd : loose (files s) (fun _ => []) stdio_folder (DFile (static_name (chars "stdio")) NULL NULL DIRECTORY NULL 1 0 0)) by by apply static_loose.
  apply wp_check. change fs_root with (node_at (files s) (fun _ => []) []).
  eapply (link_holds s _ _ [] device_folder _ EDir); [exact H0|done|constructor|done|exact Hdev|by apply (bool_decide_eq_true_1 _)|by eexists|done|done|].
  intros m1 kids1 H1 Hst1 Hat1 Hloose1 _. split; [done|].
  pose proof (Hloose1 _ _ Hrnd ltac:(done)) as Hrnd1. pose proof (Hloose1 _ _ Hstd ltac:(done)) as Hstd1.
  apply wp_bind, wp_modify.
  destruct (rng_step _ _ _ (wrap32 urandom_seed) 0 H1 (step_sound _ _ _ _ _ Hst1)) as [H2 Hst2].
  apply wp_check. set (s2 := with_rng _ _ _) in *.
  rewrite <-Hat1. change m1 with (files s2) in Hrnd1, Hstd1 |- *.
  eapply (link_holds s2 _ _ (at_root "dev") urandom_file _ EDevice); [exact H2|by eapply step_sound| |done|exact Hrnd1|..].
  { constructor; [by apply (bool_decide_eq_true_1 _)|constructor]. }
  { by apply (bool_decide_eq_true_1 _). }
  { eexists. split; [apply Hrnd1|done]. }
  { reflexivity. }
  { done. }
  intros m3 kids3 H3 Hst3 _ Hloose3 _. split; [done|]. pose proof (Hloose3 _ _ Hstd1 ltac:(done)) as Hstd3.
  apply wp_check. set (s3 := with_files m3 s2) in *. change fs_root with (node_at (files s3) kids3 []).
  eapply (link_holds s3 _ _ [] stdio_folder _ EDir); [exact H3|by eapply step_sound|constructor|done|exact Hstd3|..].
  { by apply (bool_decide_eq_true_1 _). }
  { eexists. split; [apply Hstd3|done]. }
  { reflexivity. }
  { done. }
  intros m4 kids4 H4 Hst4 Hat4 _ _. split; [done|]. eapply HQ; [exact H4| |done|exact Hat4].
  eapply step_mono; [eapply then_step; [exact Hst1|eapply then_step; [exact Hst2|eapply then_step; [exact Hst3|exact Hst4]]]|lia].
Qed.

(** * A stream and its link *)

Lemma literal_string str : Forall (fun b => b <> NUL) (chars str) -> (length (chars str) < 64)%nat ->
  c_string (literal str) (chars str).
Proof. intros H Hl. split; [by exists []|done|unfold FS_PATH_LENGTH; lia]. Qed.

Lemma stream_spec s kids ns str index flags fmode o (k : Z -> prog (fs M) Z) (Q : Z -> fs M -> Prop) :
  let at_path := in_dir "stdio" str in
  holds s kids ns -> sound s -> first_live s -> ends (length (chars str)) -> simple (chars str) -> (length (chars str) < 64)%nat ->
  has flags O_TRUNC = false -> zlookup index (open_files s) = Some o -> file_cost <= sys_room (rt_sys (fs_rt s)) ->
  ns !! at_root "stdio" = Some EDir -> node_at (files s) kids (at_root "stdio") = stdio_folder -> ns !! at_path = None ->
  (forall x s' kids', holds s' kids' (<[at_path := EFile NULL 0]> ns) -> step file_cost s kids s' kids' ->
     x <> NULL -> open_files s' = zinsert index (OpenFile x NULL 0 (access_of flags)) (open_files s) ->
     node_at (files s') kids' at_path = x ->
     node_at (files s') kids' (at_root "stdio") = stdio_folder -> wp (k 0) Q s') ->
  wp (open_stream (literal str) index flags fmode (fun x => Prelude.bind (link_file_to_folder stdio_folder x) k)) Q s.
Proof.
  intros at_path H Hs Hfl Hz Hsim Hlen Htr Ho Hroom Hdir Hat Hnone HQ.
  assert (Hstd : Forall simple (at_root "stdio")) by (constructor; [by apply (bool_decide_eq_true_1 _); vm_compute|constructor]).
  assert (Hnn : node_at (files s) kids (at_root "stdio") <> NULL) by by rewrite Hat.
  eapply (open_stream_spec s kids ns _ (chars str)); [done|done|done|done|by apply literal_string; [apply Hsim|]|done|done|done|exact Ho|done|].
  intros x s1 f Hh1 Hst1 Hlo1 Hname1 Hhl1 He1 Ho1. apply wp_bind.
  pose proof (st_stable _ _ _ _ _ Hst1 _ Hstd Hnn) as Hat1. rewrite Hat in Hat1.
  eapply (link_stream_spec s1 kids ns x f (chars str)); [done|by eapply step_sound|done|done|exact Hlo1|done|done|done|exact He1|exact Hnone|].
  intros s2 kids2 Hh2 Hst2 Ho2 Hnew. eapply (HQ x s2 kids2); [exact Hh2| |apply Hlo1|by rewrite Ho2|exact Hnew|].
  - eapply step_mono; [by eapply then_step|lia].
  - rewrite (st_stable _ _ _ _ _ Hst2), Hat1; [done|done|by rewrite Hat1].
Qed.

(** The streams: descriptors 1 and 2 are the files of their names, at their
    beginning and open for writing. *)
Definition stream_at s kids (fd : Z) (str : String.string) : Prop :=
  let x := node_at (files s) kids (in_dir "stdio" str) in
  zlookup fd (open_files s) = Some (OpenFile x NULL 0 (access_of O_WRONLY)) /\ x <> NULL.

Lemma stream_at_step c s kids s' kids' fd str :
  step c s kids s' kids' -> Forall simple (in_dir "stdio" str) -> zlookup fd (open_files s') = zlookup fd (open_files s) ->
  stream_at s kids fd str -> stream_at s' kids' fd str.
Proof.
  intros Hst Hsim Hfd [Ho Hx]. unfold stream_at. rewrite (st_stable _ _ _ _ _ Hst) by done. split; [congruence|done].
Qed.

(** * The standard input *)

Lemma default_stdin_spec s kids ns ns' b (Q : Z -> fs M -> Prop) :
  (if b : bool then Some ns else put (in_dir "stdio" "stdin") (EFile NULL 0) ns) = Some ns' ->
  holds s kids ns -> sound s -> first_live s -> ends 5 -> stdin_open s kids ns b -> file_cost <= sys_room (rt_sys (fs_rt s)) ->
  ns !! at_root "stdio" = Some EDir -> node_at (files s) kids (at_root "stdio") = stdio_folder ->
  (forall s' kids', holds s' kids' ns' -> step file_cost s kids s' kids' -> stdin_open s' kids' ns' true -> others_open s s' ->
     Q 0 s') ->
  wp default_stdin Q s.
Proof.
  intros Hns H Hs Hfl Hz Hin Hroom Hdir Hat HQ. unfold default_stdin. apply wp_bind. unfold wp at 1, get_open. destruct b.
  - injection Hns as <-. pose proof file_cost_pos. destruct (leads_valid _ _ _ _ H Hin) as (o & Ho & Hb).
    rewrite Ho, (proj2 (Z.eqb_neq _ _)) by done. apply wp_ret, (HQ s kids); [done|by eapply step_mono; [apply rest_step|]|done|done].
  - destruct Hin as (o & Ho & Hb). rewrite Ho, Hb. apply put_spec in Hns as [Hnone ->].
    eapply (stream_spec s kids ns "stdin"); [done|done|done|done|by apply (bool_decide_eq_true_1 _); vm_compute|cbn; lia|done|exact Ho|done|done|done|done|].
    intros x s' kids' Hh Hst Hx Hop Hnew _. cbn. apply wp_ret, (HQ s' kids'); [done|done|..].
    + eexists _, (in_dir "stdio" "stdin"), _. rewrite Hop, lookup_insert_eq.
      split; [apply zlookup_insert_eq; by eapply zlookup_range|]. by split_and!; [apply (bool_decide_eq_true_1 _); vm_compute|..].
    + intros k Hk. rewrite Hop. apply zlookup_insert_ne; [done|by intros <-].
Qed.

(** * The arguments *)

Definition array_cost : Z := sys_cost sizeof_pointer.

(** An array of pointers that is empty: its end. *)
Definition empty_list_at s (p : Z) : Prop := p <> NULL /\ exists l, pointers s !! p = Some (NULL :: l).

Lemma array_cost_pos : 0 <= array_cost.
Proof. apply sys_cost_pos. unfold sizeof_pointer. lia. Qed.

Lemma empty_array_spec s (Q : Z -> fs M -> Prop) :
  sound s -> first_live s -> array_cost <= sys_room (rt_sys (fs_rt s)) ->
  (forall p s', keeps array_cost s s' -> files s' = files s -> chunks s' = chunks s -> open_files s' = open_files s ->
     (forall q, empty_list_at s q -> q ∈ (live s).*1 -> empty_list_at s' q) -> empty_list_at s' p -> p ∈ (live s').*1 -> Q p s') ->
  wp empty_array Q s.
Proof.
  intros Hs Hfl Hroom HQ. unfold empty_array, alloc_pointers.
  rewrite wrap64_small by (unfold sizeof_pointer; lia). change (local_size_of sizeof_pointer) with 1.
  apply wp_bind, wp_bind, wp_fs_alloc_room; [done|done|unfold sizeof_pointer; lia|unfold sizeof_pointer; lia|done|].
  intros p n m Hg Hk. pose proof (gr_pos _ _ _ _ Hg) as Hp. assert (Hp0 : p <> NULL) by (unfold NULL; lia).
  rewrite (proj2 (Z.eqb_neq _ _)) by done. apply wp_bind, wp_modify, wp_ret, wp_bind.
  eapply wp_store_pointer; [apply lookup_insert_eq|done|rewrite found_pointers_length; lia|]. apply wp_ret, HQ; try done.
  - by destruct Hk.
  - intros q [Hq [l Hl]] Hin. split; [done|]. exists l. cbn. rewrite !lookup_insert_ne; [done|..];
      intros ->; by apply (gr_fresh _ _ _ _ Hg).
  - split; [done|]. eexists. apply lookup_insert_eq.
  - by apply (grown_in _ _ _ _ Hg).
Qed.

(** Without the arguments that were set. *)
Definition without_args s : fs M := with_args 0 NULL NULL s.

Lemma default_args_spec s (Q : unit -> fs M -> Prop) :
  sound s -> first_live s -> argv s = NULL -> environ s = NULL -> argc s = 0 ->
  2 * array_cost <= sys_room (rt_sys (fs_rt s)) ->
  (forall s', keeps (2 * array_cost) s (without_args s') -> files s' = files s -> chunks s' = chunks s ->
     open_files s' = open_files s -> argc s' = 0 -> empty_list_at s' (argv s') -> empty_list_at s' (environ s') -> Q tt s') ->
  wp default_args Q s.
Proof.
  intros Hs Hfl Hv He Hc Hroom HQ. pose proof array_cost_pos. unfold default_args.
  apply wp_bind, wp_gets, wp_bind. rewrite Hv. change (NULL =? NULL) with true.
  apply wp_bind, empty_array_spec; [done|done|lia|].
  intros p s1 Hk1 Hf1 Hch1 Ho1 _ Hp1 Hin1. destruct (kp_args _ _ _ Hk1) as (Ec1 & _ & Ee1).
  apply wp_modify, wp_bind, wp_gets. cbn [environ with_args]. rewrite Ee1, He. change (NULL =? NULL) with true.
  apply wp_bind, empty_array_spec.
  - exact (sg_sound _ _ _ (kp_grows _ _ _ Hk1)).
  - exact (keeps_first _ _ _ Hk1 Hfl).
  - pose proof (sg_room _ _ _ (kp_grows _ _ _ Hk1)). cbn. lia.
  - intros q s2 Hk2 Hf2 Hch2 Ho2 Hkeep Hq2 _. destruct (kp_args _ _ _ Hk2) as (Ec2 & Ev2 & _). cbn in Ec2, Ev2.
    apply wp_modify, HQ; cbn [files chunks open_files argc argv environ with_args]; try (etransitivity; eassumption).
    + assert (E : keeps (array_cost + array_cost) s (without_args s2)); [|by replace (2 * array_cost) with (array_cost + array_cost) by lia].
      assert (K1 : keeps array_cost s (without_args s1)) by (destruct Hk1; split; try done; cbn; by rewrite Hv, He, Hc).
      assert (K2 : keeps array_cost (without_args s1) (without_args s2)) by by destruct Hk2.
      by eapply then_keeps.
    + congruence.
    + rewrite Ev2. by apply Hkeep.
    + done.
Qed.

(** * The whole set-up *)

Definition start_cost (sets : list input_set) (outs : list (list Z)) : Z :=
  3 * file_cost + sets_cost sets + names_cost outs + 2 * array_cost.

(** The names that the set-up gives to files end in the memory of new nodes. *)
Record names_end (sets : list input_set) : Prop := {
  ne_stdin : ends 5;
  ne_stdout : ends 6;
  ne_items : Forall (fun st : input_set => Forall (fun it : item => path_ends it.1) st.2) sets;
}.

(** What the set-up needs: the sound heap of an initialised runtime, whose sets
    show the given names, items and paths, names that end, and memory. *)
Record can_start s (ins outs : list view) (sets : list input_set) (names : list (list Z)) : Prop := {
  cs_sound : sound s;
  cs_first : first_live s;
  cs_ends : names_end sets;
  cs_inputs : inputs_at s ins;
  cs_outputs : outputs_at s outs;
  cs_sets : Forall2 (set_shown s) ins sets;
  cs_items : Forall input_ok sets;
  cs_names : Forall2 (name_shown s) outs names;
  cs_room : start_cost sets names <= sys_room (rt_sys (fs_rt s));
}.

Lemma add_sets_keeps sets : forall ns ns' cs e,
  add_sets sets ns = Some ns' -> ns !! cs = Some e -> ns' !! cs = Some e.
Proof.
  induction sets as [|st sets IH]; intros ns ns' cs e; cbn; [by intros [= ->]|].
  destruct (add_set st ns) as [n1|] eqn:E; [|done]. intros Hr Hcs. eapply IH; [exact Hr|]. by eapply add_set_keeps.
Qed.
Lemma add_outputs_keeps names : forall ns ns' cs e,
  add_outputs names ns = Some ns' -> ns !! cs = Some e -> ns' !! cs = Some e.
Proof.
  induction names as [|n names IH]; intros ns ns' cs e; cbn; [by intros [= ->]|].
  destruct (add_output n ns) as [n1|] eqn:E; [|done]. intros Hr Hcs. eapply IH; [exact Hr|]. by eapply add_output_keeps.
Qed.

(** The streams and what was found so far. *)
Record streams s kids : Prop := {
  sr_out : stream_at s kids STDOUT_FILENO "stdout";
  sr_err : stream_at s kids STDERR_FILENO "stderr";
  sr_dir : node_at (files s) kids (at_root "stdio") = stdio_folder;
}.

Lemma streams_step c s kids s' kids' : step c s kids s' kids' -> others_open s s' -> streams s kids -> streams s' kids'.
Proof.
  intros Hst Ho [Hout Herr Hdir].
  assert (Hs : Forall simple (in_dir "stdio" "stdout") /\ Forall simple (in_dir "stdio" "stderr") /\ Forall simple (at_root "stdio"))
    by (apply (bool_decide_eq_true_1 _); vm_compute; reflexivity).
  destruct Hs as (H1 & H2 & H3). split.
  - eapply stream_at_step; [done|done|by apply Ho|done].
  - eapply stream_at_step; [done|done|by apply Ho|done].
  - rewrite (st_stable _ _ _ _ _ Hst); [done|done|by rewrite Hdir].
Qed.

Lemma streams_same s s' kids : files s' = files s -> open_files s' = open_files s -> streams s kids -> streams s' kids.
Proof. intros Hf Ho []. by split; unfold stream_at; rewrite Hf, ?Ho. Qed.

(** The descriptors behind the streams are free. *)
Definition no_open : list open_file := replicate (Z.to_nat FS_MAX_FILES) (OpenFile NULL NULL 0 0).
Definition rest_free s : Prop := forall k, 2 < k -> zlookup k (open_files s) = zlookup k no_open.

Lemma rest_others s s' : others_open s s' -> rest_free s -> rest_free s'.
Proof. intros Ho H k Hk. rewrite Ho; [by apply H|unfold STDIN_FILENO; lia]. Qed.

Lemma open_streams_spec s kids (k : prog (fs M) Z) (Q : Z -> fs M -> Prop) :
  holds s kids device_space -> sound s -> first_live s -> ends 6 ->
  open_files s = replicate (Z.to_nat FS_MAX_FILES) (OpenFile NULL NULL 0 0) -> 2 * file_cost <= sys_room (rt_sys (fs_rt s)) ->
  node_at (files s) kids (at_root "stdio") = stdio_folder ->
  (forall s' kids', holds s' kids' stream_space -> step (2 * file_cost) s kids s' kids' -> stdin_open s' kids' stream_space false ->
     streams s' kids' -> rest_free s' -> wp k Q s') ->
  wp (open_stream (literal "stderr") STDERR_FILENO O_WRONLY S_IWUSR (fun stderr_file =>
    check (link_file_to_folder stdio_folder stderr_file) (
    open_stream (literal "stdout") STDOUT_FILENO O_WRONLY S_IWUSR (fun stdout_file =>
    check (link_file_to_folder stdio_folder stdout_file) k)))) Q s.
Proof.
  intros H Hs Hfl Hz Ho Hroom Hat HQ. pose proof file_cost_pos.
  assert (Hz2 : zlookup STDERR_FILENO (open_files s) = Some (OpenFile NULL NULL 0 0)) by by rewrite Ho.
  eapply (stream_spec s kids device_space "stderr"); [done|done|done|done|by apply (bool_decide_eq_true_1 _); vm_compute|
    cbn; lia|done|exact Hz2|lia|done|done|reflexivity|].
  intros x s1 kids1 Hh1 Hst1 Hx Ho1 Hat1 Hdir1. change (negb (0 =? 0)) with false. cbn [negb].
  set (ns1 := <[in_dir "stdio" "stderr" := EFile NULL 0]> device_space) in *.
  eapply (stream_spec s1 kids1 ns1 "stdout"); [done|by eapply step_sound|by eapply step_first|done|
    by apply (bool_decide_eq_true_1 _); vm_compute|cbn; lia|done|by rewrite Ho1, Ho| |done|done|reflexivity|].
  { pose proof (step_room _ _ _ _ _ Hst1). lia. }
  intros y s2 kids2 Hh2 Hst2 Hy Ho2 Hat2 Hdir2. change (negb (0 =? 0)) with false. cbn [negb].
  apply (HQ s2 kids2); [done|by eapply step_mono; [by eapply then_step|lia]|..].
  - exists (OpenFile NULL NULL 0 0). by rewrite Ho2, Ho1, Ho.
  - split; [| |done].
    + split; [|by rewrite Hat2]. by rewrite Ho2, Ho1, Ho, Hat2.
    + eapply (stream_at_step _ s1 kids1); [done|by apply (bool_decide_eq_true_1 _); vm_compute|by rewrite Ho2, Ho1, Ho|].
      split; [|by rewrite Hat1]. by rewrite Ho1, Ho, Hat1.
  - intros i Hi. rewrite Ho2, Ho1, !zlookup_insert_ne by (unfold STDOUT_FILENO, STDERR_FILENO; lia). by rewrite Ho.
Qed.

(** What the set-up leaves: the entries, the streams, no arguments, and the
    platform's bytes. *)
Record started (c : Z) s (ns : dirmap) s' kids : Prop := {
  sd_holds : holds s' kids ns;
  sd_keeps : keeps c s (without_args s');
  sd_stdin : stdin_open s' kids ns true;
  sd_streams : streams s' kids;
  sd_free : rest_free s';
  sd_argc : argc s' = 0;
  sd_argv : empty_list_at s' (argv s');
  sd_environ : empty_list_at s' (environ s');
}.

Lemma fs_initialize_spec r input_bytes ins outs sets names ns :
  let s := fs_start r input_bytes in
  can_start s ins outs sets names -> start_space sets names = Some ns ->
  wp fs_initialize (fun code s' => code = 0 /\ exists kids, started (start_cost sets names) s ns s' kids) s.
Proof.
  intros s [Hs Hfl [Hz5 Hz6 Hz] Hins Houts Hsets Hitems Hnames Hroom] Hsp. unfold start_space in Hsp.
  destruct (add_sets sets stream_space) as [ns1|] eqn:Hadd1; [|done].
  destruct (add_outputs names ns1) as [ns2|] eqn:Hadd2; [|done]. rename Hsp into Hns.
  unfold start_cost in *. pose proof (sets_cost_pos sets). pose proof (names_cost_pos names).
  pose proof file_cost_pos. pose proof array_cost_pos.
  apply link_static_spec; [done|]. intros s1 kids1 Hh1 Hst1 Ho1 Hat1.
  pose proof (step_room _ _ _ _ _ Hst1).
  eapply (open_streams_spec s1 kids1); [done|by eapply step_sound|by eapply step_first|done|done|unfold s in *; lia|done|].
  intros s2 kids2 Hh2 Hst2 Hin2 Hstr2 Hfree2. pose proof (then_step _ _ _ _ _ _ _ _ Hst1 Hst2) as Hst02.
  pose proof (st_keeps _ _ _ _ _ Hst02) as Hk2. pose proof (step_room _ _ _ _ _ Hst02).
  apply wp_bind, wp_modify.
  assert (with_args 0 NULL NULL s2 = s2) as ->.
  { destruct (kp_args _ _ _ Hk2) as (E1 & E2 & E3). destruct s2. cbn in *. by rewrite E1, E2, E3. }
  apply wp_bind, wp_zoom, wp_gets. rewrite with_rt_id, <-(in_len _ _ (inputs_keep _ _ _ _ Hk2 Hins)).
  apply wp_bind. unfold for_loop. rewrite Nat2Z.id, (Forall2_length _ _ _ Hsets).
  eapply (initialize_input_sets_spec ins sets [] ins s2 kids2 stream_space ns1 false);
    [done|by eapply step_sound|by eapply step_first|done|done|by eapply inputs_keep|done| |done|done|unfold s in *; lia|done|].
  { eapply Forall2_impl; [exact Hsets|]. intros v st. by eapply set_shown_keeps. }
  intros s3 kids3 Hh3 Hst3 Hin3 Hoth3. pose proof (then_step _ _ _ _ _ _ _ _ Hst02 Hst3) as Hst03.
  pose proof (st_keeps _ _ _ _ _ Hst03) as Hk3. pose proof (step_room _ _ _ _ _ Hst03).
  apply wp_bind, wp_zoom, wp_gets. rewrite with_rt_id, <-(out_len _ _ (outputs_keep _ _ _ _ Hk3 Houts)).
  apply wp_bind. rewrite Nat2Z.id, (Forall2_length _ _ _ Hnames).
  eapply (initialize_output_sets_spec outs names [] outs s3 kids3 ns1 ns2);
    [done|by eapply step_sound|by eapply step_first| |by eapply outputs_keep|done| |done|unfold s in *; lia|].
  { by eapply add_sets_keeps. }
  { eapply Forall2_impl; [exact Hnames|]. intros v nm. by eapply name_shown_keeps. }
  intros s4 kids4 Hh4 Hst4 Ho4. pose proof (then_step _ _ _ _ _ _ _ _ Hst03 Hst4) as Hst04.
  pose proof (step_room _ _ _ _ _ Hst04).
  assert (Hstr4 : streams s4 kids4).
  { eapply streams_step; [exact Hst4|intros k _; by rewrite Ho4|]. exact (streams_step _ _ _ _ _ Hst3 Hoth3 Hstr2). }
  apply wp_check. eapply (default_stdin_spec s4 kids4 ns2 ns (existsb gives_stdin sets));
    [done|done|by eapply step_sound|by eapply step_first|done| |unfold s in *; lia| |by apply sr_dir|].
  { eapply (stdin_step _ s3 kids3); [exact Hh3|exact Hst4| |done|exact Hin3]. apply files_grow. intros cs e Hcs. by eapply add_outputs_keeps. }
  { eapply add_outputs_keeps; [exact Hadd2|]. by eapply add_sets_keeps. }
  intros s5 kids5 Hh5 Hst5 Hin5 Hoth5. split; [done|].
  pose proof (then_step _ _ _ _ _ _ _ _ Hst04 Hst5) as Hst05. pose proof (step_room _ _ _ _ _ Hst05).
  pose proof (st_keeps _ _ _ _ _ Hst05) as Hk5. destruct (kp_args _ _ _ Hk5) as (E1 & E2 & E3).
  apply wp_bind, default_args_spec; [by eapply step_sound|by eapply step_first|done|done|done|unfold s in *; lia|].
  intros s6 Hk6 Hf6 Hch6 Ho6 Hc6 Hv6 He6. apply wp_ret. split; [done|]. exists kids5. split; [| | | | |done|done|done].
  - eapply (holds_same s5); [done| |done]. by destruct (keeps_memory _ _ _ Hk6).
  - eapply keeps_mono; [by eapply then_keeps|lia].
  - apply (leads_same s5); [done|by rewrite Ho6|exact Hin5].
  - apply (streams_same s5); [done|done|]. exact (streams_step _ _ _ _ _ Hst5 Hoth5 Hstr4).
  - intros k Hk. rewrite Ho6. apply (rest_others s4 s5 Hoth5); [|done]. intros j Hj. rewrite Ho4.
    by apply (rest_others s2 s3 Hoth3).
Qed.
End start.
