(* ===== verification/FsShape.v ===== *)
(** The tree of nodes as trees of names and contents: from the map of paths to
    what the export at the end of a program needs to know. *)
From Stdlib Require Import Sorting.Sorted.
From S2P Require Import Prelude Bytes Heap Alloc AllocSession AllocTheorems System RuntimeIO RuntimeTree RuntimeInit RuntimeOutput Paths PathSpec FsStore FileSystem FsImpl FsLemmas FsTree FsResolve FsData FsWrite FsExport FsExportNode FsTerminate FsNames FsSpace.

(** * What a path leads to *)

Inductive desc := Dir | Text (t : list Z) | Other.
Notation descmap := (gmap (list (list Z)) desc).

(** The names in a directory, in order. *)
Record listed (dm : descmap) (base : list (list Z)) (cs : list (list Z)) : Prop := {
  li_sorted : StronglySorted name_lt cs;
  li_simple : Forall simple cs;
  li_all c : simple c -> c ∈ cs <-> is_Some (dm !! (base ++ [c]));
}.

(** The tree [t] is what the map has in the directory [base]. *)
Fixpoint describes (dm : descmap) (base : list (list Z)) (t : tree) : Prop :=
  match t with
  | TFile label text => simple label /\ dm !! (base ++ [label]) = Some (Text text)
  | TDir label kids =>
      simple label /\ dm !! (base ++ [label]) = Some Dir /\ listed dm (base ++ [label]) (map label_of kids) /\
      foldr (fun t P => describes dm (base ++ [label]) t /\ P) True kids
  end.

(** All of them. *)
Definition describes_all (dm : descmap) (base : list (list Z)) (ts : list tree) : Prop :=
  listed dm base (map label_of ts) /\ Forall (describes dm base) ts.

Lemma describes_kids dm base ts : foldr (fun t P => describes dm base t /\ P) True ts <-> Forall (describes dm base) ts.
Proof. induction ts as [|t ts IH]; cbn; [by split|]. rewrite IH. by rewrite Forall_cons. Qed.

(** * Sorted lists of names *)

Lemma name_lt_irrefl c : ~ name_lt c c.
Proof. unfold name_lt. by rewrite lex_refl. Qed.

Lemma name_lt_asym a b : name_lt a b -> ~ name_lt b a.
Proof. unfold name_lt. rewrite (lex_antisym a b). by intros ->. Qed.

(** A sorted list is determined by its elements. *)
Lemma sorted_unique l : forall k, StronglySorted name_lt l -> StronglySorted name_lt k ->
  (forall c, c ∈ l <-> c ∈ k) -> l = k.
Proof.
  induction l as [|a l IH]; intros k Hl Hk He.
  - destruct k as [|b k]; [done|]. exfalso. apply (not_elem_of_nil b), He. constructor.
  - apply StronglySorted_inv in Hl as [Hl Ha]. destruct k as [|b k]; [exfalso; apply (not_elem_of_nil a), He; constructor|].
    apply StronglySorted_inv in Hk as [Hk Hb]. rewrite Forall_forall in Ha, Hb.
    assert (a = b) as ->.
    { pose proof (proj1 (He a) ltac:(constructor)) as [->|Hab]%elem_of_cons; [done|].
      pose proof (proj2 (He b) ltac:(constructor)) as [->|Hba]%elem_of_cons; [done|].
      by destruct (name_lt_asym _ _ (Hb a Hab) (Ha b Hba)). }
    f_equal. apply IH; [done|done|]. intros c. specialize (He c). rewrite !elem_of_cons in He. split; intros Hc.
    + destruct (proj1 He (or_intror Hc)) as [->|]; [|done]. by destruct (name_lt_irrefl b (Ha b Hc)).
    + destruct (proj2 He (or_intror Hc)) as [->|]; [|done]. by destruct (name_lt_irrefl b (Hb b Hc)).
Qed.

Lemma lex_neq_lt a b : lex a b <> Gt -> a <> b -> name_lt a b.
Proof. unfold name_lt. destruct (lex a b) eqn:E; [|done|done]. by apply lex_eq in E. Qed.

Lemma names_sorted m l : sorted_names m l -> NoDup (map (name_at m) l) -> StronglySorted name_lt (map (name_at m) l).
Proof.
  induction 1 as [|x l _ IH Hx]; cbn; intros Hnd; [constructor|]. apply NoDup_cons in Hnd as [Hni Hnd].
  constructor; [by apply IH|]. apply Forall_forall. intros c (y & <- & Hy)%list_elem_of_In%in_map_iff.
  apply list_elem_of_In in Hy. rewrite Forall_forall in Hx. specialize (Hx y Hy). apply name_le_lex in Hx.
  apply lex_neq_lt; [done|]. intros E. apply Hni. rewrite E. apply list_elem_of_In, in_map. by apply list_elem_of_In.
Qed.

Section shape.
Context {M : Type} {HS : System M} {HM : Machine}.
Implicit Types s : fs M.

(** ** The nodes *)

(** A file whose chunks hold [t], in memory that nobody takes away. *)
Definition file_text s (x : Z) (t : list Z) : Prop := exists f,
  files s !! x = Some f /\ ftype f = FILE /\ text_from s (content f) t.

Record shape s (kids : Z -> list Z) (dm : descmap) : Prop := {
  sp_names : names_ok (files s) kids;
  sp_tidy : tidy (files s) kids;
  sp_held x : is_Some (files s !! x) -> held s x;
  sp_paths cs : Forall simple cs ->
    let x := node_at (files s) kids cs in
    match dm !! cs with
    | Some Dir => exists f, files s !! x = Some f /\ ftype f = DIRECTORY
    | Some (Text t) => file_text s x t
    | Some Other => x <> NULL
    | None => x = NULL
    end;
}.

Lemma shape_none s kids dm cs : shape s kids dm -> Forall simple cs ->
  is_Some (dm !! cs) <-> node_at (files s) kids cs <> NULL.
Proof.
  intros H Hcs. pose proof (sp_paths _ _ _ H cs Hcs) as Hp. cbv zeta in Hp.
  pose proof (null_absent (files s) kids (sp_names _ _ _ H)) as H0.
  destruct (dm !! cs) as [[|t|]|]; (split; [intros [? ?]|]); try done; try (by eexists).
  - intros E. destruct Hp as (f & Hf & _). rewrite E in Hf. congruence.
  - intros E. destruct Hp as (f & Hf & _). rewrite E in Hf. congruence.
Qed.

Lemma shape_dir s kids dm cs : shape s kids dm -> Forall simple cs -> dm !! cs = Some Dir ->
  exists f, files s !! node_at (files s) kids cs = Some f /\ ftype f = DIRECTORY.
Proof. intros H Hcs E. pose proof (sp_paths _ _ _ H cs Hcs) as Hp. by rewrite E in Hp. Qed.

(** A child is found by its name. *)
Lemma kid_found s kids dm base y : shape s kids dm -> Forall simple base -> dm !! base = Some Dir ->
  y ∈ kids (node_at (files s) kids base) -> y = node_at (files s) kids (base ++ [name_at (files s) y]).
Proof.
  intros H Hb Hd Hy. pose proof (sp_names _ _ _ H) as Hok. destruct (shape_dir _ _ _ _ H Hb Hd) as (d & Hf & Ht).
  pose proof (td_clean _ _ (sp_tidy _ _ _ H) _ _ Hy) as Hc.
  rewrite (node_at_snoc (files s) kids Hok), Hf, Ht. cbn [is_directory]. rewrite enter_simple by done.
  set (l := kids _) in *. set (c := name_at (files s) y) in *.
  assert (Hnull : NULL ∉ l).
  { intros Hn. destruct (nk_parent _ _ Hok _ _ Hn) as (f & Hf0 & _). by rewrite (null_absent (files s) kids Hok) in Hf0. }
  destruct (decide (find_child (files s) c l = NULL)) as [E|E].
  - by destruct (find_child_none _ _ _ (nk_sorted _ _ Hok _) Hnull E y Hy).
  - destruct (find_child_sound _ _ _ E) as [Hin Hname].
    pose proof (td_distinct _ _ (sp_tidy _ _ _ H) (node_at (files s) kids base)) as Hnd. fold l in Hnd.
    apply list_elem_of_lookup in Hy as [i Hi]. apply list_elem_of_lookup in Hin as [j Hj].
    assert (i = j) as ->; [|congruence]. eapply NoDup_lookup; [exact Hnd| |].
    + rewrite list_lookup_fmap. by rewrite Hi.
    + rewrite list_lookup_fmap, Hj. cbn. by rewrite Hname.
Qed.

(** The children of a directory, in the order of the list. *)
Lemma kids_listed s kids dm base cs : shape s kids dm -> Forall simple base -> dm !! base = Some Dir ->
  listed dm base cs -> map (name_at (files s)) (kids (node_at (files s) kids base)) = cs.
Proof.
  intros H Hb Hd [Hsort Hsim Hall]. pose proof (sp_names _ _ _ H) as Hok. apply sorted_unique; [|done|].
  - apply names_sorted; [apply Hok|apply (sp_tidy _ _ _ H)].
  - intros c. split.
    + intros (y & <- & Hy)%list_elem_of_In%in_map_iff. apply list_elem_of_In in Hy.
      pose proof (td_clean _ _ (sp_tidy _ _ _ H) _ _ Hy) as Hc. apply Hall; [done|].
      apply (shape_none _ _ _ _ H); [by apply path_simple|]. rewrite <-(kid_found s kids dm base y H Hb Hd Hy).
      intros ->. destruct (nk_parent _ _ Hok _ _ Hy) as (f & Hf0 & _). by rewrite (null_absent (files s) kids Hok) in Hf0.
    + intros Hc. rewrite Forall_forall in Hsim. pose proof (Hsim c Hc) as Hcs.
      assert (Hn : node_at (files s) kids (base ++ [c]) <> NULL).
      { apply (shape_none _ _ _ _ H); [by apply path_simple|]. by apply Hall. }
      destruct (node_at_child (files s) kids Hok base c Hcs Hn) as [Hin <-].
      apply list_elem_of_In, in_map. by apply list_elem_of_In.
Qed.

Lemma kids_nodes s kids dm base cs : shape s kids dm -> Forall simple base -> dm !! base = Some Dir ->
  listed dm base cs -> kids (node_at (files s) kids base) = map (fun c => node_at (files s) kids (base ++ [c])) cs.
Proof.
  intros H Hb Hd Hl. rewrite <-(kids_listed s kids dm base cs H Hb Hd Hl), map_map.
  rewrite <-(map_id (kids _)) at 1. apply map_ext_in. intros y Hy%list_elem_of_In. by apply (kid_found s kids dm).
Qed.

(** * Trees *)

Lemma shape_node s kids dm base c f : shape s kids dm -> Forall simple base -> simple c ->
  let x := node_at (files s) kids (base ++ [c]) in
  files s !! x = Some f -> node_ok s x f /\ node_name f = c.
Proof.
  intros H Hb Hc x Hf. pose proof (sp_names _ _ _ H) as Hok.
  assert (Hx : x <> NULL) by (intros E; rewrite E, (null_absent (files s) kids Hok) in Hf; done).
  destruct (node_at_child (files s) kids Hok base c Hc Hx) as [_ Hn].
  fold x in Hn. rewrite (name_at_eq _ _ _ Hf) in Hn. split; [|done]. split; [done|done| | |].
  - apply (sp_held _ _ _ H). by exists f.
  - by apply (tk_named _ _ (nk_tree _ _ Hok) x).
  - rewrite Hn. apply Hc.
Qed.

Lemma describes_rep s kids dm t : shape s kids dm -> forall base, Forall simple base -> describes dm base t ->
  node_rep s [] (node_at (files s) kids (base ++ [label_of t])) t.
Proof.
  intros H. pose proof (sp_names _ _ _ H) as Hok.
  induction t as [label text|label kids0 IH] using tree_induction; intros base Hb; cbn [describes label_of].
  - intros [Hc Hd]. pose proof (path_simple _ _ Hb Hc) as Hcs. pose proof (sp_paths _ _ _ H _ Hcs) as Hp.
    rewrite Hd in Hp. destruct Hp as (f & Hf & Ht & l & Hst & Hsafe & Hone & <- & Hl).
    destruct (shape_node s kids dm base label f H Hb Hc Hf) as [Hno <-]. by apply rep_file.
  - intros (Hc & Hd & Hl & Hk%describes_kids). pose proof (path_simple _ _ Hb Hc) as Hcs.
    destruct (shape_dir _ _ _ _ H Hcs Hd) as (f & Hf & Ht).
    destruct (shape_node s kids dm base label f H Hb Hc Hf) as [Hno <-].
    apply (rep_dir s [] _ f (kids (node_at (files s) kids (base ++ [node_name f])))); [done|done| |].
    + by apply (tk_kids _ _ (nk_tree _ _ Hok)).
    + rewrite (kids_nodes s kids dm _ _ H Hcs Hd Hl), map_map. clear Hl.
      induction Hk as [|t ts Ht' _ IHk]; cbn [map]; constructor; apply Forall_cons in IH as [IHt IH].
      * by apply IHt.
      * by apply IHk.
Qed.

(** The trees that a set with the name [str] exports: none when the root has no
    directory of the whole name. *)
Inductive set_trees (dm : descmap) (str : list Z) : list tree -> Prop :=
| no_directory : simple (upto_nul str) -> dm !! [upto_nul str] = None -> set_trees dm str []
| no_name : ~ simple (upto_nul str) -> set_trees dm str []
| a_directory ts :
    simple (upto_nul str) -> dm !! [upto_nul str] = Some Dir -> describes_all dm [upto_nul str] ts ->
    set_trees dm str (chosen (upto_nul str) ts).

Lemma root_children s kids dm : shape s kids dm -> exists d, root_at s (kids fs_root) d /\ ftype d = DIRECTORY.
Proof.
  intros H. pose proof (sp_names _ _ _ H) as Hok. destruct (nk_root _ _ Hok) as (d & Hd & Ht & _). exists d.
  split; [|done]. split; [by apply (link_children (files s) kids fs_root d Hok)| |apply (tk_named _ _ (nk_tree _ _ Hok))].
  apply Forall_forall. intros y Hy. destruct (nk_parent _ _ Hok _ _ Hy) as (f & Hf & _).
  apply (sp_held _ _ _ H). by exists f.
Qed.

Lemma root_find s kids dm c : shape s kids dm -> simple c ->
  find_child (files s) c (kids fs_root) = node_at (files s) kids [c].
Proof.
  intros H Hc. destruct (nk_root _ _ (sp_names _ _ _ H)) as (d & Hd & Ht & _).
  change [c] with ([] ++ [c]). rewrite (node_at_snoc (files s) kids (sp_names _ _ _ H)).
  change (node_at _ _ []) with fs_root. rewrite Hd, Ht. cbn [is_directory]. by rewrite enter_simple.
Qed.

Lemma set_trees_rep s kids dm str ts : shape s kids dm -> set_trees dm str ts -> set_rep s (kids fs_root) (upto_nul str) ts.
Proof.
  intros H. pose proof (sp_names _ _ _ H) as Hok. intros [Hc Hn|Hc|ts' Hc Hd [Hl Hall]].
  - apply set_none. rewrite (root_find s kids dm) by done.
    pose proof (sp_paths _ _ _ H [upto_nul str] ltac:(by constructor)) as Hp. by rewrite Hn in Hp.
  - apply set_none. destruct (decide (find_child (files s) (upto_nul str) (kids fs_root) = NULL)) as [|E]; [done|].
    destruct (find_child_sound _ _ _ E) as [Hin Hname]. destruct Hc. rewrite <-Hname.
    by apply (td_clean _ _ (sp_tidy _ _ _ H) fs_root).
  - assert (Hcs : Forall simple [upto_nul str]) by by constructor.
    destruct (shape_dir _ _ _ _ H Hcs Hd) as (f & Hf & Ht).
    apply (set_dir s _ _ (node_at (files s) kids [upto_nul str]) f (kids (node_at (files s) kids [upto_nul str])));
      [by eapply root_find| |done|done| |].
    + intros E. by rewrite E, (null_absent (files s) kids Hok) in Hf.
    + by apply (tk_kids _ _ (nk_tree _ _ Hok)).
    + rewrite (kids_nodes s kids dm _ _ H Hcs Hd Hl), map_map. clear Hl.
      induction Hall as [|t us Ht' _ IHk]; cbn [map]; constructor; [|done]. by apply (describes_rep s kids dm).
Qed.
End shape.
