(* ===== verification/FsPrint.v ===== *)
(** Printing: writes through a descriptor to a file that had no content, with
    memory to spare, and what they leave of the rest of the file system. *)
From S2P Require Import Prelude Bytes Heap Alloc AllocSession AllocTheorems System RuntimeIO RuntimeTree RuntimeInit RuntimeOutput Paths PathSpec FsStore FileSystem FsImpl FsLemmas FsTree FsResolve FsData FsWrite FsExport FsExportNode FsTerminate FsNames FsSpace FsDirs FsInput FsShape.

Section print.
Context {M : Type} {HS : System M} {HM : Machine}.
Implicit Types s : fs M.

(** * Chunks, with room *)

Definition chunk_cost (n : Z) : Z := sys_cost (chunk_size_of n) + sys_cost sizeof_chunk.

Lemma chunk_cost_mono n k : 0 < n <= k -> k < 2 ^ 62 -> 0 <= chunk_cost n <= chunk_cost k.
Proof.
  intros Hn Hk. pose proof (sys_cost_pos sizeof_chunk ltac:(unfold sizeof_chunk; lia)).
  destruct (chunk_size_spec n ltac:(lia)) as [H1 [a Ha]], (chunk_size_spec k ltac:(lia)) as [H2 [b Hb]].
  unfold chunk_cost, FS_CHUNK_SIZE in *.
  pose proof (sys_cost_mono (chunk_size_of n) (chunk_size_of k) ltac:(lia) ltac:(lia)). lia.
Qed.

Lemma allocate_file_chunk_room n s (Q : Z -> fs M -> Prop) :
  sound s -> first_live s -> 0 < n < 2 ^ 62 -> chunk_cost n <= sys_room (rt_sys (fs_rt s)) ->
  (forall y s', new_chunk_at s s' y n -> keeps (chunk_cost n) s s' -> Q y s') ->
  wp (allocate_file_chunk n) Q s.
Proof.
  intros Hs Hf Hn Hroom HQ. destruct (chunk_size_spec n Hn) as [Hcs _]. unfold FS_CHUNK_SIZE, chunk_cost in *.
  pose proof (sys_cost_pos sizeof_chunk ltac:(unfold sizeof_chunk; lia)).
  pose proof (sys_cost_pos (chunk_size_of n) ltac:(lia)).
  apply wp_bind, wp_alloc_raw_grown; [done|done|lia|lia|lia|]. intros d k m Hk Hg Hgr.
  set (s1 := with_buffer _ _ _). pose proof (gr_pos _ _ _ _ Hg) as Hd.
  rewrite (proj2 (Z.eqb_neq _ _)) by (unfold NULL; lia).
  apply wp_bind, wp_bind, wp_fs_alloc_grown; [exact (gr_sound _ _ _ _ Hg)| |unfold sizeof_chunk; lia|lia| |].
  { unfold first_live in *. change (rt_sys (fs_rt s1)) with m. rewrite (sg_first _ _ _ Hgr).
    change (live s1) with (live (put_sys m s)). rewrite (gr_live _ _ _ _ Hg). by right. }
  { pose proof (sg_room _ _ _ Hgr). change (rt_sys (fs_rt s1)) with m. lia. }
  intros x v m' _ Hg' Hgr'. pose proof (gr_pos _ _ _ _ Hg') as Hx.
  apply wp_bind. rewrite (proj2 (Z.eqb_neq _ _)) by (unfold NULL; lia). apply wp_modify, wp_ret.
  rewrite (proj2 (Z.eqb_neq _ _)) by (unfold NULL; lia).
  apply wp_bind. eapply wp_update_chunk; [apply lookup_insert_eq|unfold NULL; lia|]. apply wp_ret, HQ.
  - by apply (new_chunk_grown s d k m x v m').
  - assert (Hxs : forall z, held s z -> z <> x).
    { intros z [Hz|Hz] ->; [lia|]. apply (gr_fresh _ _ _ _ Hg'). change (live s1) with (live (put_sys m s)).
      rewrite (gr_live _ _ _ _ Hg). by right. }
    split; [by eapply sys_grows_trans|done| | |done].
    + intros z Hz. cbn. by rewrite !lookup_insert_ne by (intros <-; by apply (Hxs x)).
    + intros a Ha. by apply (with_buffer_safe s m d k).
Qed.

(** * Chunks that are younger than a state

    The chunks of a file are younger than [s0]: neither they nor their buffers
    lie in memory that was taken then. *)
Definition younger s0 s (l : list (Z * list Z)) : Prop := forall z c, z ∈ l.*1 -> chunks s !! z = Some c ->
  ~ held s0 z /\ 1 <= capacity c /\ forall a, data c <= a < data c + capacity c -> ~ safe s0 [] a.

(** The invariant of the loop of a write: what was there in [s0] is still
    there, and of the budget there is enough left for [n] more bytes. *)
Definition within (budget : Z) s0 (n : Z) s (l : list (Z * list Z)) : Prop :=
  n < 2 ^ 62 /\ younger s0 s l /\
  exists c, keeps c s0 s /\ c + (if n =? 0 then 0 else chunk_cost n) <= budget.

Lemma younger_new c s0 s s1 y n :
  keeps c s0 s -> new_chunk_at s s1 y n -> 0 < n < 2 ^ 62 -> younger s0 s1 [(y, [])].
Proof.
  intros Hk [_ Hy0 Hf _ _ _ (d & k & v & Hcs & Hd & Hl & Hcap & Hin & Hap & _)] Hn z cz ->%list_elem_of_singleton.
  destruct (chunk_size_spec n Hn) as [Hsz _]. rewrite Hcs. change (y, []).1 with y.
  rewrite lookup_insert_eq. intros [= <-]. cbn [data capacity]. split_and!; [|lia|].
  - intros Hh. destruct (keeps_held _ _ _ _ Hk Hh) as [?|?]; [lia|done].
  - intros a Ha Hsafe. destruct (keeps_safe _ _ _ _ _ Hk Hsafe) as [(q & w & Hq & _ & Hr)|Ho]; [|lia].
    pose proof (Hap q w Hq). unfold apart in *. lia.
Qed.

Section loop.
Context (budget : Z) (s0 : fs M).

Lemma within_fewer n k s l : within budget s0 n s l -> 0 <= k <= n -> within budget s0 k s l.
Proof.
  intros (Hn & Hy & c & Hk & Hb) Hkn. split_and!; [lia|done|]. exists c. split; [done|].
  destruct (Z.eqb_spec k 0), (Z.eqb_spec n 0); try lia; pose proof (chunk_cost_mono k n); pose proof (chunk_cost_mono n n); lia.
Qed.

Lemma within_appended n s p l x t c u :
  within budget s0 n s (l ++ [(x, t)]) -> file_ok s p (l ++ [(x, t)]) -> chunks s !! x = Some c ->
  used c + Z.of_nat (length u) <= capacity c -> within budget s0 n (appended s x c u) (l ++ [(x, t ++ u)]).
Proof.
  intros (Hn & Hy & b & Hk & Hb) Hok Hc Hcap.
  destruct (stored_in _ _ _ _ x t (fo_stored _ _ _ Hok) ltac:(set_solver)) as (_ & c' & Hc' & Hu & _).
  cbv [fst snd] in *. assert (c' = c) as -> by congruence.
  assert (Hx : x ∈ (l ++ [(x, t)]).*1) by (rewrite fmap_app; set_solver). destruct (Hy x c Hx Hc) as (Hxh & Hc1 & Hd).
  split_and!; [done| |exists b; split; [|done]].
  - intros z cz. rewrite (fmap_replace l [] x t). intros Hz. cbn. rewrite lookup_insert_Some.
    intros [[<- <-]|[_ Hcz]]; [by split_and!|by apply Hy].
  - pose proof Hk as [H1 H2 H3 H4 H5]. split; [done|done| | |done].
    + intros z Hz. cbn. rewrite lookup_insert_ne by (intros <-; done). by apply H3.
    + intros a Ha. cbn. rewrite write_bytes_out; [by apply H4|].
      destruct (decide (data c <= a < data c + capacity c)) as [Hin|]; [by destruct (Hd a Hin)|lia].
Qed.

Hypotheses (Hfirst : first_live s0) (Hroom : budget <= sys_room (rt_sys (fs_rt s0))).

Lemma within_extended n s p l x t c :
  within budget s0 n s (l ++ [(x, t)]) -> file_ok s p (l ++ [(x, t)]) -> sound s ->
  chunks s !! x = Some c -> 0 < n < 2 ^ 62 ->
  wp (allocate_file_chunk n) (fun y s1 =>
    (y = NULL /\ False /\ forall z, z ∈ (live s).*1 -> chunks s1 !! z = chunks s !! z) \/
    (new_chunk_at s s1 y n /\ within budget s0 0 (extended s1 x y c) ((l ++ [(x, t)]) ++ [(y, [])]))) s.
Proof.
  intros (_ & Hy & b & Hk & Hb) Hok Hs Hc Hn. rewrite (proj2 (Z.eqb_neq n 0)) in Hb by lia.
  pose proof (sg_room _ _ _ (kp_grows _ _ _ Hk)).
  apply allocate_file_chunk_room; [done|by eapply keeps_first|done|lia|]. intros y s1 Hnew Hk1. right. split; [done|].
  assert (Hx : x ∈ (l ++ [(x, t)]).*1) by (rewrite fmap_app; set_solver). destruct (Hy x c Hx Hc) as (Hxh & _).
  pose proof (then_keeps _ _ _ _ _ Hk Hk1) as Hk2. pose proof (new_chunk_not_in _ _ _ _ _ _ Hok Hnew) as HyL.
  pose proof (younger_new _ _ _ _ _ _ Hk Hnew Hn) as Hyy.
  split_and!; [lia| |exists (b + chunk_cost n); split; [|cbn; lia]].
  - intros z cz. rewrite fmap_app. intros Hz. cbn. rewrite lookup_insert_Some. intros [[<- <-]|[Hzx Hcz]]; [by destruct (Hy x c Hx Hc)|].
    destruct (decide (z = y)) as [->|Hzy]; [apply Hyy; [set_solver|done]|]. apply elem_of_app in Hz as [Hz|Hz]; [|set_solver].
    destruct (nc_chunk _ _ _ _ Hnew) as (d & k & v & Hcs & _). rewrite Hcs, lookup_insert_ne in Hcz by done. by apply Hy.
  - destruct Hk2 as [H1 H2 H3 H4 H5]. split; [done|done| |done|done].
    intros z Hz. cbn. rewrite lookup_insert_ne by (intros <-; done). by apply H3.
Qed.
End loop.

(** * The text of a program *)

(** Memory that is the program's: outside the heap, or in an allocation. *)
Definition program_memory s (ptr n : Z) : Prop :=
  (exists b v, (b, v) ∈ live s /\ b <= ptr /\ ptr + n <= b + 8 * v) \/
  disjoint_range ptr n (area s).1 ((area s).2 - (area s).1).
(** Bytes that a program writes. *)
Record program_text s (ptr : Z) (buf : list Z) : Prop := {
  pt_region : region (bytes s) ptr buf;
  pt_pos : 0 < ptr;
  pt_some : buf <> [];
  pt_small : Z.of_nat (length buf) < 2 ^ 31 - 4096;
  pt_memory : program_memory s ptr (Z.of_nat (length buf));
}.

Lemma text_safe s ptr buf i : program_text s ptr buf -> 0 <= i < Z.of_nat (length buf) -> safe s [] (ptr + i).
Proof.
  intros [_ _ _ _ [(b & v & Hb & Hr)|Ho]] Hi; [left; exists b, v|right; unfold disjoint_range in Ho; lia].
  split_and!; [done|apply not_elem_of_nil|lia|lia].
Qed.

Lemma program_text_keeps c s s' ptr buf : keeps c s s' -> program_text s ptr buf -> program_text s' ptr buf.
Proof.
  intros Hk Ht. pose proof Ht as [Hr Hp Hne Hsm Ho]. split; [|done|done|done|].
  - intros i b Hi. rewrite (kp_bytes _ _ _ Hk); [by apply Hr|]. apply (text_safe s ptr buf); [done|by eapply zlookup_range].
  - destruct Ho as [(b & v & Hb & Hr2)|Ho]; [left; exists b, v; split; [by apply (keeps_live _ _ _ Hk)|done]|right].
    unfold area in *. by rewrite (sg_area _ _ _ (kp_grows _ _ _ Hk)).
Qed.

Lemma length_pos {A} (l : list A) : l <> [] -> 0 < Z.of_nat (length l).
Proof. destruct l; [done|cbn; lia]. Qed.

Lemma source_younger c s0 s ptr buf l :
  program_text s0 ptr buf -> keeps c s0 s -> younger s0 s l -> source_ok s ptr buf l.
Proof.
  intros Ht Hk Hy. pose proof Ht as [Hr Hp Hne _ Ho]. pose proof (length_pos _ Hne). split; [|done| |].
  - intros i b Hi. rewrite (kp_bytes _ _ _ Hk); [by apply Hr|]. apply (text_safe s0 ptr buf); [done|by eapply zlookup_range].
  - destruct Ho as [(b & v & Hb & Hr2)|Ho]; [left; exists b, v; split; [by apply (keeps_live _ _ _ Hk)|done]|right].
    unfold area in *. by rewrite (sg_area _ _ _ (kp_grows _ _ _ Hk)).
  - intros x cx Hx Hcx. destruct (Hy x cx Hx Hcx) as (_ & Hc1 & Hd). unfold disjoint_range.
    destruct (decide (ptr + Z.of_nat (length buf) <= data cx \/ data cx + capacity cx <= ptr)) as [|Hov]; [done|].
    destruct (Hd (ptr + (Z.max ptr (data cx) - ptr)) ltac:(lia)). by apply (text_safe s0 ptr buf); [|lia].
Qed.

(** * The content of the file *)

(** The chunks from [p] on hold the text; [y] is the last one. *)
Inductive stored_text s0 s : Z -> Z -> list Z -> Prop :=
| no_text : stored_text s0 s NULL NULL []
| some_text p l y u :
    file_ok s p (l ++ [(y, u)]) -> younger s0 s (l ++ [(y, u)]) -> stored_text s0 s p y (contents (l ++ [(y, u)])).

(** Since [s0], in which the node [x] was the empty file [f], the text [t] was
    written to it through the descriptor [fd], at the cost of at most [c]; the
    other descriptors are as they were. *)
Record printed (c : Z) s0 s (fd x flags : Z) (f : dfile) (t : list Z) : Prop := {
  pd_keeps : keeps c s0 s;
  pd_text : exists p y, files s = <[x := set_content p f]> (files s0) /\
    zlookup fd (open_files s) = Some (OpenFile x y 0 flags) /\
    open_files s = zinsert fd (OpenFile x y 0 flags) (open_files s0) /\ stored_text s0 s p y t;
}.

Lemma nothing_printed s fd x flags f : sound s -> zlookup fd (open_files s) = Some (OpenFile x NULL 0 flags) ->
  files s !! x = Some f -> content f = NULL -> printed 0 s s fd x flags f [].
Proof.
  intros Hs Ho Hf Hc. split; [by apply keeps_refl|]. exists NULL, NULL.
  split_and!; [|done|by rewrite zinsert_id|constructor]. rewrite insert_id; [done|]. rewrite Hf. by destruct f; cbn in Hc; subst.
Qed.

(** Enough for a chunk when the last one is full, and for the first one. *)
Definition print_cost (n : Z) : Z := 2 * chunk_cost n.
Lemma print_cost_pos n : 0 < n < 2 ^ 62 -> 0 <= print_cost n.
Proof. intros Hn. pose proof (chunk_cost_mono n n). unfold print_cost. lia. Qed.

Lemma new_file_ok s s1 y n : new_chunk_at s s1 y n -> 0 < n < 2 ^ 31 - 4096 -> file_ok s1 y [(y, [])].
Proof.
  intros [_ Hy0 _ _ _ _ (d & k & v & Hcs & Hd & Hl & Hcap & _ & _ & Hw & _)] Hn.
  destruct (chunk_size_spec n ltac:(lia)) as [Hsz _]. unfold FS_CHUNK_SIZE in *.
  assert (Hc : chunks s1 !! y = Some (FileChunk d (chunk_size_of n) 0 NULL)) by by rewrite Hcs, lookup_insert_eq.
  split.
  - split; [cbn; split_and!; [done|unfold NULL; lia|by eexists]|]. constructor; [|constructor]. eexists. split; [exact Hc|].
    cbn [fst snd data capacity used length]. split_and!; try (done || lia). intros i b Hi. apply zlookup_range in Hi. cbn in Hi. lia.
  - intros x c ->%list_elem_of_singleton. change (y, []).1 with y. rewrite Hc. intros [= <-]. cbn [data capacity].
    rewrite Hl. split_and!; [cbn; set_solver|exists k; split; [set_solver|done]|]. intros i Hi. apply Hw. lia.
  - intros x z cx cz ->%list_elem_of_singleton ->%list_elem_of_singleton. done.
Qed.

(** Writing text, wherever the file stands. *)
Lemma write_rest c s0 s fd x flags f t ptr buf p l y u y0 :
  let n := Z.of_nat (length buf) in
  sound s0 -> first_live s0 -> c + print_cost n <= sys_room (rt_sys (fs_rt s0)) ->
  program_text s0 ptr buf -> has flags O_APPEND = false -> zlookup fd (open_files s) = Some (OpenFile x y0 0 flags) ->
  open_files s = zinsert fd (OpenFile x y0 0 flags) (open_files s0) -> files s = <[x := set_content p f]> (files s0) -> keeps (c + chunk_cost n) s0 s -> sound s ->
  file_ok s p (l ++ [(y, u)]) -> younger s0 s (l ++ [(y, u)]) -> contents (l ++ [(y, u)]) = t ->
  wp (write_from fd (OpenFile x y0 0 flags) ptr n MOVE_OFFSET y 0) (fun r s2 => r = n /\
    printed (c + print_cost n) s0 s2 fd x flags f (t ++ buf)) s.
Proof.
  intros n Hs0 Hf0 Hroom Ht Hfl Ho Hall Hfs Hk Hs Hok Hy <-.
  pose proof (pt_small _ _ _ Ht) as Hsm. pose proof (length_pos _ (pt_some _ _ _ Ht)). fold n in Hsm, H.
  apply wpx_none. eapply wpx_mono.
  { eapply (write_rest_spec (fun _ => False) (within (c + print_cost n) s0)).
    - apply within_fewer.
    - apply within_appended.
    - intros. by eapply within_extended.
    - exact Ho.
    - exact Hfl.
    - exact Hok.
    - by eapply source_younger.
    - exact Hs.
    - exact Hsm.
    - split_and!; [unfold n in *; lia|done|]. exists (c + chunk_cost n). split; [done|]. fold n.
      rewrite (proj2 (Z.eqb_neq n 0)) by lia. unfold print_cost. lia. }
  intros r s2 (-> & s1 & l' & z & v & -> & [Hfi Hop _ _] & Hok' & Ec & _ & Hy' & b & Hk' & Hb). split; [done|].
  change (moved MOVE_OFFSET fd _ z 0 s1) with (with_open_files (zinsert fd (OpenFile x z 0 flags) (open_files s1)) s1).
  rewrite <-Ec. split; [apply keeps_open; eapply keeps_mono; [exact Hk'|cbn in Hb; lia]|]. exists p, z. split_and!.
  - cbn. congruence.
  - cbn. rewrite zlookup_insert_eq; [done|]. rewrite Hop. by eapply zlookup_range.
  - cbn. by rewrite Hop, Hall, zinsert_insert.
  - constructor; [by destruct Hok'|exact Hy'].
Qed.

(** A print: the buffer goes behind the text. *)
Lemma print_text_spec c s0 s fd x flags f t ptr buf :
  let n := Z.of_nat (length buf) in
  sound s0 -> first_live s0 -> c + print_cost n <= sys_room (rt_sys (fs_rt s0)) ->
  ftype f = FILE -> x <> NULL -> has flags O_APPEND = false -> program_text s0 ptr buf ->
  printed c s0 s fd x flags f t ->
  wp (dandelion_write fd ptr n 0 MOVE_OFFSET) (fun r s' => r = n /\
    printed (c + print_cost n) s0 s' fd x flags f (t ++ buf)) s.
Proof.
  intros n Hs0 Hf0 Hroom Hft Hx Hfl Ht [Hk (p & y & Hfs & Ho & Hall & Hst)].
  pose proof (pt_small _ _ _ Ht) as Hsm. pose proof (length_pos _ (pt_some _ _ _ Ht)). fold n in Hsm, H.
  pose proof (chunk_cost_mono n n ltac:(lia) ltac:(lia)) as Hc. pose proof (sg_sound _ _ _ (kp_grows _ _ _ Hk)) as Hs.
  assert (Hfx : files s !! x = Some (set_content p f)) by by rewrite Hfs, lookup_insert_eq.
  apply wpx_none. inversion Hst as [E1 E2 E3|p' l y' u Hok Hy E1 E2 E3]; subst.
  - eapply write_at_start; [exact Ho|exact Hx|exact Hfx|exact Hft|done|done|]. cbn [of_file].
    apply allocate_file_chunk_room; [done|by eapply keeps_first|lia| |].
    { pose proof (sg_room _ _ _ (kp_grows _ _ _ Hk)). unfold print_cost in Hroom. lia. }
    intros y s1 Hnew Hk1. split; [by rewrite (nc_files _ _ _ _ Hnew)|].
    eapply (write_rest c s0 (with_files _ s1) fd x flags f [] ptr buf y [] y [] NULL); try done.
    + cbn. by rewrite (nc_open _ _ _ _ Hnew).
    + cbn. by rewrite (nc_open _ _ _ _ Hnew).
    + cbn. rewrite (nc_files _ _ _ _ Hnew), Hfs, insert_insert_eq. by destruct f.
    + by apply keeps_files, (then_keeps _ _ s0 s s1).
    + exact (nc_sound _ _ _ _ Hnew).
    + destruct (new_file_ok _ _ _ _ Hnew ltac:(lia)). by split.
    + intros z cz. by apply (younger_new c s0 s s1 y n Hk Hnew ltac:(lia)).
  - destruct (chain_ends _ _ _ _ _ (proj1 (fo_stored _ _ _ Hok))) as (Hy0 & Hp0 & _).
    eapply write_at_chunk; [exact Ho|exact Hx|exact Hfx|exact Hft|done|done| |].
    { cbn [current_chunk]. by rewrite (proj2 (Z.eqb_neq y NULL)). }
    eapply (write_rest c s0 s fd x flags f _ ptr buf p l y u y); try done. eapply keeps_mono; [exact Hk|fold n; lia].
Qed.
(** * The file that was written to *)

Lemma printed_text s0 s p y t :
  stored_text s0 s p y t -> t <> [] -> Z.of_nat (length t) < 2 ^ 62 -> text_from s p t.
Proof.
  intros [|p' l y' u Hok Hy] Hne Hlen; [done|].
  exists (l ++ [(y', u)]). split_and!; [apply (fo_stored _ _ _ Hok)| |by right|done|done].
  apply Forall_forall. intros [z v] Hz.
  destruct (stored_in _ _ _ _ z v (fo_stored _ _ _ Hok) Hz) as (_ & cz & Hcz & Hu & Hcap & _). cbv [fst snd] in *.
  assert (Hzin : z ∈ (l ++ [(y', u)]).*1) by (apply list_elem_of_fmap; by exists (z, v)).
  destruct (fo_owned _ _ _ Hok z cz Hzin Hcz) as (Hl & (k & Hd & Hc) & _), (Hy z cz Hzin Hcz) as (_ & H1 & _).
  split; [by right|]. cbn [fst snd]. intros c' Hc'. assert (c' = cz) as -> by congruence. intros i Hi. left. exists (data cz), k.
  split_and!; [done|apply not_elem_of_nil|lia|lia].
Qed.

(** After the prints the map has the text at the path of the file. *)
Lemma holds_printed c s0 s kids ns path x fd flags f t :
  holds s0 kids ns -> Forall simple path -> node_at (files s0) kids path = x -> files s0 !! x = Some f -> ftype f = FILE ->
  printed c s0 s fd x flags f t -> t <> [] -> Z.of_nat (length t) < 2 ^ 62 ->
  holds s kids (<[path := EText t]> ns) /\ step c s0 kids s kids.
Proof.
  intros H Hsim Hat Hf Hft [Hk (p & y & Hfs & _ & _ & Hst)] Hne Hlen. pose proof (ho_names _ _ _ H) as Hn.
  pose proof (printed_text _ _ _ _ _ Hst Hne Hlen) as Htext.
  assert (Hsame : same_shape f (set_content p f)) by (split_and!; try done; congruence).
  destruct (update_names (files s0) kids Hn x f _ Hf Hsame) as [Hok Hnode]. rewrite <-Hfs in Hok, Hnode.
  assert (Hx0 : x <> NULL) by (intros ->; by rewrite (null_absent _ _ Hn) in Hf).
  split; [split; [done| | | |]|split; [done|by intros cs _ _; rewrite Hnode]].
  - intros cs Hcs. rewrite Hnode. destruct (decide (cs = path)) as [->|Hcp].
    { rewrite lookup_insert_eq, Hat. exists (set_content p f). by rewrite Hfs, lookup_insert_eq. }
    rewrite lookup_insert_ne by done. pose proof (ho_paths _ _ _ H cs Hcs) as Hp. destruct (ns !! cs) as [e|] eqn:E; [|done].
    eapply entry_frame; [|by eapply keeps_memory|exact Hp]. intros g Hg. exists g. rewrite Hfs, lookup_insert_ne; [done|].
    intros Ex. apply Hcp. pose proof (entry_valid _ _ _ _ _ H Hp). apply (node_at_inj (files s0) kids Hn); [done|done|done|congruence].
  - intros z Hz. eapply keeps_held; [exact Hk|]. apply (ho_held _ _ _ H). rewrite Hfs in Hz.
    destruct (decide (x = z)) as [<-|]; [by exists f|]. by rewrite lookup_insert_ne in Hz.
  - apply (tidy_frame (files s0)); [|apply H]. intros _ z _. unfold name_at. rewrite Hfs. destruct (decide (x = z)) as [<-|].
    + by rewrite lookup_insert_eq, Hf.
    + by rewrite lookup_insert_ne.
  - intros cs g Hcs. rewrite Hnode, Hfs. destruct (decide (x = node_at (files s0) kids cs)) as [E|].
    + rewrite <-E, lookup_insert_eq. intros [= <-] _. apply (ho_linked _ _ _ H cs f); [done|by rewrite <-E|done].
    + rewrite lookup_insert_ne by done. by apply (ho_linked _ _ _ H).
Qed.
End print.
