(* ===== verification/InputTheorems.v ===== *)
(** Theorems on what a program finds when it starts: [fs_initialize] of
    src/file_system/file_system.c makes the items of the input sets files, the
    names of the output sets directories, and opens the standard streams. *)
From S2P Require Import Prelude Bytes Heap Alloc AllocSession AllocTheorems System RuntimeIO RuntimeTree RuntimeInit RuntimeOutput Paths PathSpec FsStore FileSystem FsImpl FsLemmas FsTree FsResolve FsData FsWrite FsSeek FsExport FsExportNode FsTerminate FsNames FsSpace FsDirs FsInput FsInit FsArgs FsStart FsDemo FsNodeTheorems FsFileTheorems.

(** * What the map holds *)

(** Where an item is found. *)
Definition item_path (st : input_set) (it : item) : list (list Z) := components st.1 ++ components it.1.
Definition item_of (sets : list input_set) (st : input_set) (it : item) : Prop :=
  st ∈ sets /\ it ∈ st.2 /\ st.1 <> [] /\ it.1 <> [].

(** Every item has its file, and every file is a stream or an item. *)
Record exactly (sets : list input_set) (ns : dirmap) : Prop := {
  ex_all st it : item_of sets st it -> ns !! item_path st it = Some (EFile (ib_data it.2) (ib_data_len it.2));
  ex_only cs d n : ns !! cs = Some (EFile d n) ->
    (d = NULL /\ n = 0 /\ cs ∈ [in_dir "stdio" "stdin"; in_dir "stdio" "stdout"; in_dir "stdio" "stderr"]) \/
    exists st it, item_of sets st it /\ cs = item_path st it /\ d = ib_data it.2 /\ n = ib_data_len it.2;
}.

Lemma insert_file (path : list (list Z)) (e : entry) (ns : dirmap) cs d n :
  <[path := e]> ns !! cs = Some (EFile d n) -> ns !! cs = Some (EFile d n) \/ cs = path /\ e = EFile d n.
Proof. intros [[-> ->]|[_ H]]%lookup_insert_Some; [by right|by left]. Qed.

Lemma mkdirs_file ds : forall base ns ns' cs d n,
  mkdirs base ds ns = Some ns' -> ns' !! cs = Some (EFile d n) -> ns !! cs = Some (EFile d n).
Proof.
  induction ds as [|c ds IH]; intros base ns ns' cs d n; cbn; [by intros [= ->]|].
  destruct (ns !! (base ++ [c])) as [[]|] eqn:E; [apply IH|done..|].
  intros Hm Hcs. pose proof (IH _ _ _ _ _ _ Hm Hcs) as H. destruct (decide (cs = base ++ [c])) as [->|].
  - by rewrite lookup_insert_eq in H.
  - by rewrite lookup_insert_ne in H.
Qed.

Lemma add_file_in base it ns ns' : add_file base it ns = Some ns' -> it.1 <> [] ->
  ns' !! (base ++ components it.1) = Some (EFile (ib_data it.2) (ib_data_len it.2)).
Proof.
  unfold add_file. intros H Hne. rewrite decide_False in H by done. destruct (mkdirs _ _ _); [|done].
  apply put_spec in H as [_ ->]. apply lookup_insert_eq.
Qed.

Lemma add_file_from base it ns ns' cs d n : add_file base it ns = Some ns' -> ns' !! cs = Some (EFile d n) ->
  ns !! cs = Some (EFile d n) \/ it.1 <> [] /\ cs = base ++ components it.1 /\ d = ib_data it.2 /\ n = ib_data_len it.2.
Proof.
  unfold add_file. destruct (decide (it.1 = [])) as [|Hne]; [intros [= ->]; by left|].
  destruct (mkdirs _ _ _) as [n1|] eqn:Hm; [|done]. intros [_ ->]%put_spec [H|[-> [= <- <-]]]%insert_file; [left|by right].
  by eapply mkdirs_file.
Qed.

Lemma add_files_in base items : forall ns ns' it, add_files base items ns = Some ns' -> it ∈ items -> it.1 <> [] ->
  ns' !! (base ++ components it.1) = Some (EFile (ib_data it.2) (ib_data_len it.2)).
Proof.
  induction items as [|i items IH]; intros ns ns' it; [by intros _ ?%elem_of_nil|]. cbn.
  destruct (add_file base i ns) as [n1|] eqn:E; [|done]. intros Hr [->|Hin]%elem_of_cons Hne; [|by eapply IH].
  pose proof (add_file_in _ _ _ _ E Hne). by eapply add_files_keeps.
Qed.

Lemma add_files_from base items : forall ns ns' cs d n,
  add_files base items ns = Some ns' -> ns' !! cs = Some (EFile d n) -> ns !! cs = Some (EFile d n) \/
  exists it, it ∈ items /\ it.1 <> [] /\ cs = base ++ components it.1 /\ d = ib_data it.2 /\ n = ib_data_len it.2.
Proof.
  induction items as [|i items IH]; intros ns ns' cs d n; cbn; [intros [= ->]; by left|].
  destruct (add_file base i ns) as [n1|] eqn:E; [|done]. intros Hr Hcs.
  destruct (IH _ _ _ _ _ Hr Hcs) as [H|(it & Hin & H)].
  - destruct (add_file_from _ _ _ _ _ _ _ E H) as [?|H']; [by left|right]. exists i. split; [constructor|done].
  - right. exists it. split; [by constructor|done].
Qed.

Lemma add_sets_in sets : forall ns ns' st it, add_sets sets ns = Some ns' -> item_of sets st it ->
  ns' !! item_path st it = Some (EFile (ib_data it.2) (ib_data_len it.2)).
Proof.
  induction sets as [|s0 sets IH]; intros ns ns' st it; [by intros _ (?%elem_of_nil & _)|]. cbn.
  destruct (add_set s0 ns) as [n1|] eqn:E; [|done]. intros Hr ([->|Hin]%elem_of_cons & Hit & Hs & Hi); [|by eapply IH].
  unfold add_set in E. rewrite decide_False in E by done. destruct (mkdirs _ _ _) as [n0|]; [|done].
  pose proof (add_files_in _ _ _ _ _ E Hit Hi). by eapply add_sets_keeps.
Qed.

Lemma add_sets_from sets : forall ns ns' cs d n,
  add_sets sets ns = Some ns' -> ns' !! cs = Some (EFile d n) -> ns !! cs = Some (EFile d n) \/
  exists st it, item_of sets st it /\ cs = item_path st it /\ d = ib_data it.2 /\ n = ib_data_len it.2.
Proof.
  induction sets as [|s0 sets IH]; intros ns ns' cs d n; cbn; [intros [= ->]; by left|].
  destruct (add_set s0 ns) as [n1|] eqn:E; [|done]. intros Hr Hcs.
  destruct (IH _ _ _ _ _ Hr Hcs) as [H|(st & it & (Hin & Ho) & H)].
  - unfold add_set in E. destruct (decide (s0.1 = [])) as [|Hs0]; [injection E as ->; by left|].
    destruct (mkdirs _ _ _) as [n0|] eqn:Hm; [|done].
    destruct (add_files_from _ _ _ _ _ _ _ E H) as [H'|(it & Hit & Hne & H')]; [left; by eapply mkdirs_file|right].
    exists s0, it. split; [|done]. split_and!; [constructor|done..].
  - right. exists st, it. split; [|done]. split; [by constructor|done].
Qed.

Lemma add_outputs_file names : forall ns ns' cs d n,
  add_outputs names ns = Some ns' -> ns' !! cs = Some (EFile d n) -> ns !! cs = Some (EFile d n).
Proof.
  induction names as [|nm names IH]; intros ns ns' cs d n; cbn; [by intros [= ->]|].
  destruct (add_output nm ns) as [n1|] eqn:E; [|done]. intros Hr Hcs. pose proof (IH _ _ _ _ _ Hr Hcs) as H.
  unfold add_output in E. destruct (decide _); [by injection E as ->|]. by eapply mkdirs_file.
Qed.

Lemma start_space_exact sets names ns : start_space sets names = Some ns -> exactly sets ns.
Proof.
  unfold start_space. destruct (add_sets sets stream_space) as [n1|] eqn:E1; [|done].
  destruct (add_outputs names n1) as [n2|] eqn:E2; [|done]. intros Hlast. split.
  - intros st it Hit. pose proof (add_outputs_keeps _ _ _ _ _ E2 (add_sets_in _ _ _ _ _ E1 Hit)) as H2.
    destruct (existsb _ _); [by injection Hlast as <-|]. by eapply put_keeps.
  - intros cs d n Hcs.
    assert (H2 : n2 !! cs = Some (EFile d n) \/ cs = in_dir "stdio" "stdin" /\ d = NULL /\ n = 0).
    { destruct (existsb _ _); [injection Hlast as ->; by left|]. apply put_spec in Hlast as [_ ->].
      apply insert_file in Hcs as [?|[-> [= <- <-]]]; [by left|by right]. }
    destruct H2 as [H2|(-> & -> & ->)]; [|left; split_and!; [done|done|constructor]].
    pose proof (add_outputs_file _ _ _ _ _ _ E2 H2) as H1.
    destruct (add_sets_from _ _ _ _ _ _ E1 H1) as [H|H]; [left|by right].
    unfold stream_space, device_space, root_space in H.
    apply insert_file in H as [H|[-> [= <- <-]]]; [|split_and!; [done|done|set_solver]].
    apply insert_file in H as [H|[-> [= <- <-]]]; [|split_and!; [done|done|set_solver]].
    do 3 (apply insert_file in H as [H|[_ ?]]; [|done]).
    apply lookup_singleton_Some in H as [_ ?]. done.
Qed.

Section start.
Context {M : Type} {HS : System M} {HM : Machine}.
Implicit Types s : fs M.

(** * Finding entries *)

Lemma find_entry s kids ns str t :
  holds s kids ns -> c_string str t -> Forall simple (components t) ->
  exists x, find_file str s = Ret x s /\ match ns !! components t with Some e => entry_at s x e | None => x = NULL end.
Proof.
  intros H Hstr Hsim. eexists. split.
  - apply (find_file_spec s kids); [apply (ho_names _ _ _ H)|done].
  - exact (ho_paths _ _ _ H _ Hsim).
Qed.

Lemma find_stream s kids ns fd str :
  holds s kids ns -> stream_at s kids fd str -> (length (chars str) < 64)%nat ->
  Forall (fun b => b <> NUL) (chars str) -> components (chars "/stdio/" ++ chars str) = in_dir "stdio" str ->
  exists o, zlookup fd (open_files s) = Some o /\ offset o = 0 /\
    find_file (chars "/stdio/" ++ literal str) s = Ret (of_file o) s.
Proof.
  intros H [Ho _] Hl Hnz Hc. eexists. split_and!; [exact Ho|done|]. cbn [of_file].
  change (node_at (files s) kids (in_dir "stdio" str)) with (resolve (files s) kids fs_root (in_dir "stdio" str)).
  rewrite <-Hc. apply find_file_spec; [apply (ho_names _ _ _ H)|]. split.
  - exists []. unfold literal. by rewrite app_assoc.
  - apply Forall_app. split; [|done]. by apply (bool_decide_eq_true_1 _); vm_compute.
  - rewrite length_app. change (length (chars "/stdio/")) with 7%nat. unfold FS_PATH_LENGTH. lia.
Qed.

(** C12: The inputs of a function are its files.  The sets have no arguments and
    environment in [stdio], and no two items the same path; because [create_file]
    writes no terminator, the byte behind each file name (the items' and [stdin],
    [stdout], [stderr]) must be zero in the memory that the allocator returns, or
    the name fill its field ([names_end]; [FsNodeTheorems.create_file_name] says what
    happens otherwise).  Then with enough memory [fs_initialize] returns 0, and then every path without dots leads to what the
    map [ns] has there: [find_file] gives a directory, a device, or a file whose
    one chunk is the platform's buffer of an input item, and [NULL] where the map
    has nothing.  The map has every item of a named input set at its path, and
    every file of the map is an item or one of the streams.  The descriptors 0, 1
    and 2 are open, 1 and 2 at the start of [/stdio/stdout] and [/stdio/stderr],
    the arguments and the environment are empty lists, the bytes of the platform
    stay as they were, and no more memory is gone than the cost of the set-up. *)
Theorem inputs_become_files r input_bytes ins outs sets names ns :
  let s := fs_start r input_bytes in
  can_start s ins outs sets names -> start_space sets names = Some ns ->
  exactly sets ns /\ wp fs_initialize (fun code s' => code = 0 /\
    (forall str t, c_string str t -> Forall simple (components t) -> exists x, find_file str s' = Ret x s' /\
       match ns !! components t with Some e => entry_at s' x e | None => x = NULL end) /\
    (forall a, safe s [] a -> bytes s' !! a = bytes s !! a) /\
    (exists o, zlookup STDIN_FILENO (open_files s') = Some o /\ of_file o <> NULL) /\
    (exists o, zlookup STDOUT_FILENO (open_files s') = Some o /\ offset o = 0 /\
       find_file (literal "/stdio/stdout") s' = Ret (of_file o) s') /\
    (exists o, zlookup STDERR_FILENO (open_files s') = Some o /\ offset o = 0 /\
       find_file (literal "/stdio/stderr") s' = Ret (of_file o) s') /\
    argc s' = 0 /\ empty_list_at s' (argv s') /\ empty_list_at s' (environ s') /\
    sys_room (rt_sys (fs_rt s)) - start_cost sets names <= sys_room (rt_sys (fs_rt s'))) s.
Proof.
  intros s Hcan Hns. split; [by eapply start_space_exact|]. eapply wp_mono; [by eapply fs_initialize_spec|].
  intros code s' (-> & kids & [Hh Hk Hin [Hout Herr _] _ Hc Hv He]). split_and!; try done.
  - intros str t. by apply (find_entry s' kids).
  - apply (kp_bytes _ _ _ Hk).
  - by apply (leads_valid s' kids ns).
  - eapply (find_stream s' kids ns); [done|exact Hout|cbn; lia| |by vm_compute].
    by apply (bool_decide_eq_true_1 _); vm_compute.
  - eapply (find_stream s' kids ns); [done|exact Herr|cbn; lia| |by vm_compute].
    by apply (bool_decide_eq_true_1 _); vm_compute.
  - apply (sg_room _ _ _ (kp_grows _ _ _ Hk)).
Qed.

(** * Reading an input *)

Lemma lowest_free_third s : (exists o, zlookup STDIN_FILENO (open_files s) = Some o /\ of_file o <> NULL) ->
  (forall fd, fd = STDOUT_FILENO \/ fd = STDERR_FILENO ->
    exists o, zlookup fd (open_files s) = Some o /\ of_file o <> NULL) -> rest_free s ->
  lowest_free 0 (open_files s) = Some 3 /\ Z.of_nat (length (open_files s)) = FS_MAX_FILES.
Proof.
  intros (o0 & H0 & E0) Hstd Hrest. destruct (Hstd 1 ltac:(by left)) as (o1 & H1 & E1).
  destruct (Hstd 2 ltac:(by right)) as (o2 & H2 & E2).
  pose proof (Hrest 3 ltac:(lia)) as H3. pose proof (Hrest FS_MAX_FILES ltac:(unfold FS_MAX_FILES; lia)) as Hend.
  pose proof (Hrest (FS_MAX_FILES - 1) ltac:(unfold FS_MAX_FILES; lia)) as Hlast.
  assert (Hno : zlookup FS_MAX_FILES no_open = None) by reflexivity. rewrite Hno in Hend.
  assert (Hlo : zlookup (FS_MAX_FILES - 1) no_open = Some (OpenFile NULL NULL 0 0)) by reflexivity. rewrite Hlo in Hlast.
  apply zlookup_range in Hlast. split.
  - destruct (open_files s) as [|a0 [|a1 [|a2 [|a3 l]]]]; try done.
    injection H0 as ->. injection H1 as ->. injection H2 as ->. injection H3 as ->. cbn [lowest_free].
    by rewrite !(proj2 (Z.eqb_neq _ _)) by done.
  - destruct (decide (FS_MAX_FILES < Z.of_nat (length (open_files s)))) as [Hlt|]; [|lia].
    destruct (zlookup_lt FS_MAX_FILES (open_files s)) as [x Hx]; [unfold FS_MAX_FILES in *; lia|congruence].
Qed.

(** The content of a file that is a buffer of the platform. *)
Lemma entry_stored s x buf l :
  entry_at s x (EFile buf (Z.of_nat (length l))) -> 0 < buf -> Z.of_nat (length l) < 2 ^ 31 ->
  region (bytes s) buf l -> exists f c, files s !! x = Some f /\ ftype f = FILE /\
    chunks s !! content f = Some c /\ data c = buf /\
    stored (chunks s) (bytes s) (content f) [(content f, l)].
Proof.
  intros (f & Hf & Ht & He) Hd Hl Hr. rewrite (proj2 (Z.eqb_neq _ _)) in He by (unfold NULL; lia).
  destruct He as (Hn & _ & Hc). eexists f, _. split_and!; [done|done|exact Hc|done|]. split.
  - split; [done|]. split; [done|]. by eexists.
  - constructor; [|constructor]. eexists. split; [exact Hc|]. by split_and!; cbn; try lia.
Qed.

Lemma region_same (m m' : gmap Z Z) a l :
  (forall i, 0 <= i < Z.of_nat (length l) -> m' !! (a + i) = m !! (a + i)) -> region m a l -> region m' a l.
Proof. intros H Hr i b Hi. rewrite H by by eapply zlookup_range. by apply Hr. Qed.

(** Opening a file of the tree and reading from its only chunk. *)
Lemma open_read_spec s str x buf l dst want :
  lowest_free 0 (open_files s) = Some 3 -> Z.of_nat (length (open_files s)) = FS_MAX_FILES ->
  find_file str s = Ret x s -> entry_at s x (EFile buf (Z.of_nat (length l))) -> x <> NULL ->
  0 < buf -> Z.of_nat (length l) < 2 ^ 31 -> region (bytes s) buf l ->
  0 < want < 2 ^ 31 -> 0 < dst -> let n := Z.min want (Z.of_nat (length l)) in
  writable (bytes s) dst n -> disjoint_range dst n buf (Z.of_nat (length l)) ->
  wp (let! fd := dandelion_open str O_RDONLY 0 in let! got := dandelion_read fd dst want 0 MOVE_OFFSET in ret (fd, got))
    (fun p s' => p = (3, n) /\ region (bytes s') dst (take (Z.to_nat n) l)) s.
Proof.
  intros Hlow Hlen Hfind He Hx Hd Hsm Hr Hwant Hdst n Hw Hdis.
  destruct (entry_stored s x buf l He Hd Hsm Hr) as (f & c & Hf & Ht & Hc & Hcd & Hst).
  apply wp_bind. eapply wp_mono; [by apply (open_lowest_descriptor s str O_RDONLY 0 x f)|].
  rewrite Hlow, Ht. cbn [is_file]. intros r s' [-> ->].
  destruct (lowest_free_spec 0 _ _ ltac:(lia) Hlow) as (Hrange & (o & Ho & _) & _). rewrite Z.sub_0_r in Ho.
  match goal with |- context [zinsert 3 ?o0 _] => set (o1 := o0) end.
  match goal with |- context [<[x := ?g]> _] => set (f1 := g) end.
  apply wp_bind. eapply wp_mono.
  { apply (read_last_run _ 3 o1 f1 dst want 0 (content f) l); [|done|done|exact Hst|cbn; lia|done|done| |].
    - split; [apply zlookup_insert_eq; lia|done|apply lookup_insert_eq|done].
    - cbn [offset o1]. by rewrite Z.sub_0_r.
    - cbn [offset o1]. rewrite Z.sub_0_r. constructor; [|constructor]. intros c' Hc'. cbn in Hc'.
      rewrite Hc in Hc'. injection Hc' as <-. by rewrite Hcd. }
  cbn [offset o1]. rewrite Z.sub_0_r, drop_0. intros r s' [-> ->]. apply wp_ret. split; [done|].
  apply region_write.
Qed.

(** What a program that reads an input brings along: the path of a file, whose
    bytes [l] the platform keeps at [buf], and a buffer at [dst]. *)
Record can_read s (ns : dirmap) (str : list Z) (buf : Z) (l : list Z) (dst want : Z) : Prop := {
  cr_path : exists t, c_string str t /\ Forall simple (components t) /\
    ns !! components t = Some (EFile buf (Z.of_nat (length l)));
  cr_data : 0 < buf /\ region (bytes s) buf l /\ safe_range s [] buf (Z.of_nat (length l));
  cr_len : Z.of_nat (length l) < 2 ^ 31 /\ 0 < want < 2 ^ 31;
  cr_dst : 0 < dst /\ writable (bytes s) dst (Z.min want (Z.of_nat (length l))) /\
    safe_range s [] dst (Z.min want (Z.of_nat (length l))) /\
    disjoint_range dst (Z.min want (Z.of_nat (length l))) buf (Z.of_nat (length l));
}.

(** C14: A program reads its inputs.  After a set-up like that of
    [inputs_become_files], with names that end in the memory of their nodes
    ([can_start]), opening the path of an
    input item gives descriptor 3, the first behind the streams, and a read of
    [want] bytes from it copies the first bytes of the item, as many as were
    asked for and are there, into the buffer of the program. *)
Theorem program_reads_input r input_bytes ins outs sets names ns str buf l dst want :
  let s := fs_start r input_bytes in let n := Z.min want (Z.of_nat (length l)) in
  can_start s ins outs sets names -> start_space sets names = Some ns -> can_read s ns str buf l dst want ->
  wp (let! error := fs_initialize in
      if negb (error =? 0) then ret (-1, error) else
      let! fd := dandelion_open str O_RDONLY 0 in
      let! got := dandelion_read fd dst want 0 MOVE_OFFSET in ret (fd, got))
    (fun p s' => p = (3, n) /\ region (bytes s') dst (take (Z.to_nat n) l)) s.
Proof.
  intros s n Hcan Hns [(t & Hstr & Hsim & Hent) (Hbuf & Hr & Hsafe) [Hl Hw] (Hd & Hwr & Hds & Hdis)].
  apply wp_bind. eapply wp_mono; [by eapply fs_initialize_spec|].
  intros code s' (-> & kids & [Hh Hk Hin [Hout Herr _] Hfree _ _ _]). cbn [Z.eqb negb].
  destruct (find_entry s' kids ns str t Hh Hstr Hsim) as (x & Hfind & He). rewrite Hent in He.
  pose proof (kp_bytes _ _ _ Hk) as Hb. cbn [bytes without_args with_args] in Hb.
  destruct (lowest_free_third s' (leads_valid _ _ _ _ Hh Hin)) as [Hlow Hlen]; [|done|].
  { intros fd [-> | ->]; [destruct Hout|destruct Herr]; by eexists. }
  apply (open_read_spec s' str x buf l dst want); try done.
  - by eapply entry_valid.
  - eapply region_same; [|exact Hr]. intros i Hi. by apply Hb, Hsafe.
  - intros i Hi. rewrite Hb by by apply Hds. by apply Hwr.
Qed.
End start.

(** * A function with two input sets

    The set [in] has the item [cfg/host] and an item [log]; the set [stdio] has
    the standard input; there is one output set, [out/a].  The memory of the
    machine was used before: only the first bytes of an allocation are found zero,
    so that short names end. *)
Module InputDemo.
#[export] Instance used_machine : Machine := {|
  found := fun k i => if i <? 16 then 0 else (Z.of_nat k + i) mod 256;
  junk_set := IoSet 0 0 0 0 0;
  junk_buf := IoBuffer 0 0 0 0 0;
  random_value := fun seed n => seed + n;
  to_char := fun z => z mod 256;
|}.

Definition requests : list Z := [80; 80; 40; 40].
Definition start : session := Session (init_heap 4096 (4096 + 2 ^ 20) ∅) [].
Definition memory : session := match allocs requests start with Ret _ m => m | Fault _ => start end.
Lemma memory_run : exists ps, allocs requests start = Ret ps memory.
Proof. eexists. vm_compute. reflexivity. Qed.

Definition host : io_buffer := IoBuffer 200 8 300 9 0.
Definition log : io_buffer := IoBuffer 210 3 320 4 0.
Definition stdin : io_buffer := IoBuffer 220 5 340 2 0.
Definition sets : list input_set :=
  [(chars "in", [(chars "cfg/host", host); (chars "log", log)]); (chars "stdio", [(chars "stdin", stdin)])].
Definition names : list (list Z) := [chars "out/a"].
Definition ins : list view := [(100, 2, [host; log]); (110, 5, [stdin])].
Definition outs : list view := [(120, 5, [])].
Definition platform_bytes : gmap Z Z :=
  buffer 100 (chars "in") (buffer 110 (chars "stdio") (buffer 120 (chars "out/a") (
  buffer 200 (chars "cfg/host") (buffer 210 (chars "log") (buffer 220 (chars "stdin") (
  buffer 300 (chars "localhost") (buffer 320 (chars "1234") (buffer 340 (chars "ok") (
  buffer 400 (replicate 16 0) ∅))))))))).
Definition rt : runtime session :=
  Runtime memory 2 [IoSetInfo 100 2 0; IoSetInfo 110 5 2; IoSetInfo NULL 0 3] 1 [IoSetInfo 120 5 0; IoSetInfo NULL 0 0]
    [host; log; stdin] NULL 4104 4352
    (<[4104 := [IoSet 100 2 4200 2 2; IoSet 110 5 4296 1 1]]> {[4352 := [IoSet 120 5 NULL 0 0]]})
    (<[4200 := [host; log]]> {[4296 := [stdin]]}).
Definition fs0 : fs session := fs_start rt platform_bytes.
Definition space : dirmap := default ∅ (start_space sets names).

Lemma space_run : start_space sets names = Some space.
Proof.
  assert (H : (if start_space sets names is Some _ then true else false) = true) by (vm_compute; reflexivity).
  unfold space. by destruct (start_space sets names).
Qed.

(** ** Facts *)

Lemma memory_sound : sys_sound memory.
Proof.
  destruct memory_run as [ps Hrun]. eapply (wp_from_run _ (fun _ m => sys_sound m)); [exact Hrun|].
  apply allocs_sound; [exists []; apply inv_init; lia|]. repeat constructor; lia.
Qed.

(** The platform's memory lies outside the heap. *)
Definition low_heap (s : fs session) : Prop := area s = (4096, 4096 + 2 ^ 20).
Lemma outside_safe s a n : low_heap s -> a + n <= 4096 -> safe_range s [] a n.
Proof. intros Hs Ha i Hi. right. rewrite Hs. cbn. lia. Qed.

Lemma name_by s a str : low_heap s -> region (bytes s) a str -> 0 < a -> a + Z.of_nat (length str) <= 4096 -> path_at s a str.
Proof. intros Hs Hr Ha Hl. split; [done| |by right]. by apply outside_safe. Qed.
Ltac a_name := apply name_by; [reflexivity|solve_region|cbn; lia|cbn; lia].
Ltac decided := apply (bool_decide_eq_true_1 _); vm_compute; reflexivity.

Lemma item_by (s : fs session) (it : item) : path_at s (ib_ident it.2) it.1 ->
  (ib_ident_len it.2 =? Z.of_nat (length it.1)) && (Z.of_nat (length it.1) <? 2 ^ 31) = true -> item_shown s it.
Proof. intros Hp [H1%Z.eqb_eq H2%Z.ltb_lt]%andb_prop. by split. Qed.
Ltac an_item := apply item_by; [a_name|reflexivity].

Lemma item_fits b str : file_path (chars str) -> Forall dir_name (components (chars str)) ->
  negb (bool_decide (called (chars str) (chars "argv"))) && negb (bool_decide (called (chars str) (chars "environ"))) = true ->
  item_ok b (chars str).
Proof.
  intros Hf Hd [H1%negb_true_iff%bool_decide_eq_false H2%negb_true_iff%bool_decide_eq_false]%andb_prop. right. by split_and!.
Qed.
Ltac fits := apply item_fits; [decided|decided|vm_compute; reflexivity].

Lemma full_view (r : runtime session) a n p l : owned r p -> buf_arrays r !! p = Some l -> l <> [] -> p <> NULL ->
  set_view r (IoSet a n p (Z.of_nat (length l)) (Z.of_nat (length l))) (a, n, l).
Proof.
  intros Ho Hl Hne Hp. split; cbn; try done. exists l. split_and!; [|done|by rewrite take_ge].
  unfold arr_of. cbn. by rewrite !(proj2 (Z.eqb_neq _ _)) by (destruct l; cbn in *; [done|lia] || done).
Qed.
Lemma empty_view (r : runtime session) a n : set_view r (IoSet a n NULL 0 0) (a, n, []).
Proof. split; cbn; try done. by exists []. Qed.

Lemma arrays : inputs_at fs0 ins /\ outputs_at fs0 outs.
Proof.
  assert (Hown : Forall (fun x => x ∈ (sys_live memory).*1) [4104; 4200; 4296; 4352]) by decided.
  repeat (apply Forall_cons in Hown as [? Hown]).
  split; (split; [|reflexivity]); (eexists; split; [right; split_and!; [|done|reflexivity]; discriminate|]).
  - constructor; [by apply (full_view rt 100 2 4200 [host; log])|].
    constructor; [by apply (full_view rt 110 5 4296 [stdin])|constructor].
  - constructor; [apply empty_view|constructor].
Qed.

Lemma shown : Forall2 (set_shown fs0) ins sets /\ Forall2 (name_shown fs0) outs names.
Proof.
  split.
  - apply Forall2_cons. split; [|apply Forall2_cons; split; [|constructor]].
    + split; [a_name|done|done|done|]. apply Forall_cons_2; [an_item|]. apply Forall_cons_2; [an_item|constructor].
    + split; [a_name|done|done|done|]. apply Forall_cons_2; [an_item|constructor].
  - apply Forall2_cons. split; [|constructor]. split; [a_name|done|done|decided].
Qed.

Lemma fitting : Forall input_ok sets.
Proof.
  apply Forall_cons_2; [|apply Forall_cons_2; [|constructor]].
  - split; [decided|]. apply Forall_cons_2; [fits|]. apply Forall_cons_2; [fits|constructor].
  - split; [decided|]. apply Forall_cons_2; [fits|constructor].
Qed.

(** A name of less than 16 characters ends. *)
Lemma short_ends n : (n < 16)%nat -> ends n.
Proof. intros Hn _ k. cbn. by rewrite (proj2 (Z.ltb_lt _ _)) by lia. Qed.
Lemma path_ends_by t : (match last (components t) with Some nm => length nm <? 16 | None => true end)%nat = true -> path_ends t.
Proof. intros H nm E. unfold called in E. rewrite E in H. apply short_ends. by apply Nat.ltb_lt. Qed.
Lemma names_end_by (sets : list input_set) :
  forallb (fun st : input_set => forallb (fun it : item =>
    match last (components it.1) with Some nm => length nm <? 16 | None => true end)%nat st.2) sets = true -> names_end sets.
Proof.
  intros H. split; [apply short_ends; lia..|]. rewrite forallb_forall in H. apply Forall_forall. intros st Hst%list_elem_of_In.
  specialize (H st Hst). rewrite forallb_forall in H. apply Forall_forall. intros it Hit%list_elem_of_In. by apply path_ends_by, H.
Qed.
Lemma names_ended : names_end sets.
Proof. apply names_end_by. vm_compute. reflexivity. Qed.

Lemma ready_to_start : can_start fs0 ins outs sets names.
Proof.
  split.
  - exact memory_sound.
  - unfold first_live. decided.
  - exact names_ended.
  - apply arrays.
  - apply arrays.
  - apply shown.
  - exact fitting.
  - apply shown.
  - vm_compute. done.
Qed.

Lemma host_path : c_string (literal "/in/cfg/host") (chars "/in/cfg/host") /\ Forall simple (components (chars "/in/cfg/host")).
Proof. split; [split; [by exists []|decided|vm_compute; done]|decided]. Qed.

Lemma reads_host : can_read fs0 space (literal "/in/cfg/host") 300 (chars "localhost") 400 16.
Proof.
  split.
  - exists (chars "/in/cfg/host"). destruct host_path. split_and!; [done|done|]. vm_compute. reflexivity.
  - split_and!; [lia|solve_region|apply outside_safe; [reflexivity|cbn; lia]].
  - cbn. lia.
  - split_and!; [lia| |apply outside_safe; [reflexivity|cbn; lia]|unfold disjoint_range; cbn; lia].
    assert (Hr : region platform_bytes 400 (replicate 9 0)) by solve_region. exact (region_writable _ _ _ Hr).
Qed.
End InputDemo.
#[local] Existing Instance InputDemo.used_machine.

Lemma inputs_become_files_witness :
  InputDemo.space !! [chars "in"; chars "cfg"; chars "host"] = Some (EFile 300 9) /\
  wp fs_initialize (fun code s' => code = 0 /\ exists x f c,
    find_file (literal "/in/cfg/host") s' = Ret x s' /\ files s' !! x = Some f /\ ftype f = FILE /\
    chunks s' !! content f = Some c /\ data c = 300 /\ used c = 9) InputDemo.fs0.
Proof.
  assert (E : InputDemo.space !! [chars "in"; chars "cfg"; chars "host"] = Some (EFile 300 9)) by (vm_compute; reflexivity).
  split; [exact E|]. destruct InputDemo.host_path as [Hstr Hsim].
  destruct (inputs_become_files InputDemo.rt InputDemo.platform_bytes InputDemo.ins InputDemo.outs InputDemo.sets
    InputDemo.names InputDemo.space InputDemo.ready_to_start InputDemo.space_run) as [_ Hwp].
  eapply wp_mono; [exact Hwp|]. intros code s' (-> & Hfind & _). split; [reflexivity|].
  destruct (Hfind (literal "/in/cfg/host") _ Hstr Hsim) as (x & Hx & He).
  change (components (chars "/in/cfg/host")) with [chars "in"; chars "cfg"; chars "host"] in He. rewrite E in He.
  destruct He as (f & Hf & Ht & _ & _ & Hc). exists x, f, (FileChunk 300 9 9 NULL). split_and!; done.
Defined.

Lemma program_reads_input_witness :
  wp (let! error := fs_initialize in
      if negb (error =? 0) then ret (-1, error) else
      let! fd := dandelion_open (literal "/in/cfg/host") O_RDONLY 0 in
      let! got := dandelion_read fd 400 16 0 MOVE_OFFSET in ret (fd, got))
    (fun p s' => p = (3, 9) /\ region (bytes s') 400 (chars "localhost")) InputDemo.fs0.
Proof.
  exact (program_reads_input InputDemo.rt InputDemo.platform_bytes InputDemo.ins InputDemo.outs InputDemo.sets
    InputDemo.names InputDemo.space (literal "/in/cfg/host") 300 (chars "localhost") 400 16 InputDemo.ready_to_start
    InputDemo.space_run InputDemo.reads_host).
Defined.
