(* ===== verification/LifeTheorems.v ===== *)
(** The whole life of a program: the inputs become files, the program runs, and
    the files below the directories of the output sets go to the platform
    ([__initialization] and the entry of src/newlib_shim/shim.c, with
    [fs_initialize] and [fs_terminate] of src/file_system/file_system.c). *)
From Stdlib Require Import Sorting.Sorted.
From stdpp Require Import sorting.
From S2P Require Import Prelude Bytes Heap Alloc AllocSession AllocTheorems System RuntimeIO RuntimeTree RuntimeInit RuntimeOutput RuntimeExit Paths PathSpec FsStore FileSystem FsImpl FsLemmas FsTree FsResolve FsData FsWrite FsSeek FsExport FsExportNode FsTerminate FsNames FsSpace FsDirs FsInput FsClose FsInit FsArgs FsStart FsShape FsDemo Shim ExportTheorems InputTheorems.

(** * From the map of the set-up to names and contents *)

(** The bytes of the platform at [d]. *)
Definition text_at (m : gmap Z Z) (d n : Z) : list Z := map (fun i => default 0 (m !! (d + i))) (seqZ 0 n).
Definition describe (m : gmap Z Z) (e : entry) : desc :=
  match e with EDir => Dir | EFile d n => Text (text_at m d n) | EText t => Text t | EDevice => Other end.
Definition descriptions (m : gmap Z Z) (ns : dirmap) : descmap := describe m <$> ns.

Lemma text_at_length m d n : 0 <= n -> Z.of_nat (length (text_at m d n)) = n.
Proof. intros Hn. unfold text_at. rewrite length_map, length_seqZ. lia. Qed.

Lemma text_at_region m d n : writable m d n -> region m d (text_at m d n).
Proof.
  intros Hw i b Hi. pose proof (zlookup_range _ _ _ Hi) as Hr. unfold zlookup in Hi.
  rewrite (proj2 (Z.leb_le 0 i)) in Hi by lia. unfold text_at in Hi. rewrite list_lookup_fmap in Hi.
  unfold text_at in Hr. rewrite length_map, length_seqZ in Hr.
  rewrite lookup_seqZ_lt in Hi by lia. cbn in Hi. injection Hi as <-. rewrite Z2Nat.id by lia.
  rewrite Z.add_0_l. destruct (Hw i) as [b Hb]; [lia|]. by rewrite Hb.
Qed.

Lemma text_at_same m m' d n :
  (forall i, 0 <= i < n -> m' !! (d + i) = m !! (d + i)) -> text_at m' d n = text_at m d n.
Proof.
  intros H. unfold text_at. apply map_ext_in. intros i Hi%list_elem_of_In%elem_of_seqZ. by rewrite H by lia.
Qed.

Section life.
Context {M : Type} {HS : System M} {HM : Machine}.
Implicit Types s : fs M.

(** The data of an item: none, or bytes of the platform. *)
Definition data_ok s (d n : Z) : Prop :=
  d = NULL /\ n = 0 \/
  0 < d /\ 0 <= n < 2 ^ 31 /\ writable (bytes s) d n /\ safe_range s [] d (Z.max 1 n).

Lemma entry_text s x d n : entry_at s x (EFile d n) -> data_ok s d n -> file_text s x (text_at (bytes s) d n).
Proof.
  intros (f & Hf & Ht & He) [[-> ->]|(Hd & Hn & Hw & Hsafe)].
  - rewrite Z.eqb_refl in He. exists f. rewrite He. split_and!; try done. exists []. split_and!; try done. left. cbn. lia.
  - rewrite (proj2 (Z.eqb_neq _ _)) in He by (unfold NULL; lia). destruct He as (Hc0 & Hlive & Hc).
    pose proof (text_at_length (bytes s) d n ltac:(lia)) as Hlen. set (t := text_at (bytes s) d n) in *.
    exists f. split_and!; try done. exists [(content f, t)]. split_and!; try done.
    + split; [split; [done|]; split; [done|]; by eexists|]. constructor; [|constructor]. eexists. split; [exact Hc|].
      cbn [used capacity data snd]. split_and!; try lia. by apply text_at_region.
    + constructor; [|constructor]. split; [by right|]. intros c Hc'. cbn [fst] in Hc'. rewrite Hc in Hc'. injection Hc' as <-.
      cbn [data snd]. by rewrite Hlen.
    + left. cbn. lia.
    + unfold contents. cbn. apply app_nil_r.
    + lia.
Qed.

Lemma holds_shape s kids ns :
  holds s kids ns -> (forall cs d n, ns !! cs = Some (EFile d n) -> data_ok s d n) ->
  shape s kids (descriptions (bytes s) ns).
Proof.
  intros H Hd. split; [apply H|apply H|apply H|]. intros cs Hcs x. pose proof (ho_paths _ _ _ H cs Hcs) as Hp.
  unfold descriptions. rewrite lookup_fmap. destruct (ns !! cs) as [[|d n|t|]|] eqn:E; cbn; [done| |done| |done].
  - apply entry_text; [done|]. by eapply Hd.
  - by eapply (entry_valid s kids ns).
Qed.

(** ** What the set-up kept *)

Lemma ready_keeps c s s' views : keeps c s s' -> ready s [] views -> ready s' [] views.
Proof.
  intros H [Hs Hf Ho _ Hl].
  assert (E : fs_rt s' = set_sys (rt_sys (fs_rt s')) (fs_rt s)) by apply (kp_only _ _ _ H). split.
  - apply (sg_sound _ _ _ (kp_grows _ _ _ H)).
  - by eapply keeps_first.
  - rewrite E. apply (out_avoiding_sys _ _ []); [|done]. intros x Hx _. split; [|apply not_elem_of_nil].
    apply list_elem_of_fmap in Hx as (y & -> & Hy). apply list_elem_of_fmap. exists y. split; [done|].
    by apply (keeps_live _ _ _ H).
  - constructor.
  - rewrite E. exact Hl.
Qed.

Lemma data_keeps c s s' d n : keeps c s s' -> data_ok s d n -> data_ok s' d n.
Proof.
  intros H [?|(Hd & Hn & Hw & Hs)]; [by left|right]. split_and!; try lia.
  - intros i Hi. rewrite (kp_bytes _ _ _ H); [by apply Hw|]. apply Hs. lia.
  - intros i Hi. eapply keeps_safe; [done|]. by apply Hs.
Qed.

Lemma text_keeps c s s' d n : keeps c s s' -> data_ok s d n -> text_at (bytes s') d n = text_at (bytes s) d n.
Proof.
  intros H [[-> ->]|(Hd & Hn & Hw & Hs)]; [done|]. apply text_at_same. intros i Hi.
  apply (kp_bytes _ _ _ H), Hs. lia.
Qed.

Lemma descriptions_keep c s s' ns : keeps c s s' ->
  (forall cs d n, ns !! cs = Some (EFile d n) -> data_ok s d n) ->
  descriptions (bytes s') ns = descriptions (bytes s) ns.
Proof.
  intros H Hd. apply map_eq. intros cs. unfold descriptions. rewrite !lookup_fmap.
  destruct (ns !! cs) as [[|d n|t|]|] eqn:E; cbn; try done. do 2 f_equal. eapply text_keeps; [done|by eapply Hd].
Qed.

(** * From the set-up to the export

    What the end of the program needs of the inputs: the output tree of the
    runtime, the data of the items in the platform's memory, the trees [trees] of
    the output sets in the map [after] of the files when [main] returns, and memory:
    [budget] up to that point, then some for the export and for the flat list of
    [n] buffers. *)
Record can_pass (n budget : Z) s (outs : list view) (sets : list input_set) (names : list (list Z)) (after : dirmap)
    (trees : list (list tree)) : Prop := {
  pa_bound : 0 <= n < 2 ^ 56;
  pa_ready : ready s [] outs;
  pa_data st it : item_of sets st it -> data_ok s (ib_data it.2) (ib_data_len it.2);
  pa_trees : Forall2 (set_trees (descriptions (bytes s) after)) names trees;
  pa_fits : Forall2 (set_fits n) outs trees;
  pa_exit : can_exit n s outs trees;
  pa_room : budget + total_cost n trees +
    sys_cost ((Z.of_nat (length (flat_bufs outs)) + sum_items trees) * sizeof_io) <= sys_room (rt_sys (fs_rt s));
}.

(** The data of every file of the set-up. *)
Lemma space_data s sets names ns :
  start_space sets names = Some ns -> (forall st it, item_of sets st it -> data_ok s (ib_data it.2) (ib_data_len it.2)) ->
  forall cs d k, ns !! cs = Some (EFile d k) -> data_ok s d k.
Proof.
  intros Hns Hp cs d k Hcs. destruct (ex_only _ _ (start_space_exact _ _ _ Hns) _ _ _ Hcs) as [(-> & -> & _)|(st & it & Hit & _ & -> & ->)].
  - by left.
  - by apply (Hp st).
Qed.

Lemma plain_name name : Forall dir_name (components name) -> name <> [dot] /\ name <> [dot; dot].
Proof.
  intros H. split; intros ->; apply Forall_inv in H as [(H1 & H2 & _) _]; [by apply H1|by apply H2].
Qed.

Lemma set_ok_started s kids dm v name ts : shape s kids dm -> name_shown s v name -> set_trees dm name ts ->
  set_ok s (kids fs_root) v name ts.
Proof.
  intros H [Hp Hl Hs Hn] Ht. split; [done|done|done|by apply plain_name|by eapply set_trees_rep].
Qed.

Lemma name_without s v name : name_shown (without_args s) v name -> name_shown s v name.
Proof. intros [[] ? ? ?]. by split. Qed.
Lemma ready_without s views : ready (without_args s) [] views -> ready s [] views.
Proof. intros []. by split. Qed.

(** What the export and the exit may take. *)
Lemma pass_cost_pos n budget s outs sets names after trees : can_pass n budget s outs sets names after trees ->
  0 <= total_cost n trees /\ 0 <= sys_cost ((Z.of_nat (length (flat_bufs outs)) + sum_items trees) * sizeof_io).
Proof.
  intros [Hn _ _ _ Hfits [_ _ _ Hsz _] _]. split; [by eapply total_cost_nonneg|].
  assert (0 <= sum_items trees).
  { clear. induction trees as [|ts trees IH]; cbn; [lia|]. pose proof (sum_files_nonneg ts). unfold sum_items in IH. lia. }
  apply sys_cost_nonneg. unfold sizeof_io in *. lia.
Qed.

(** Files that a map describes. *)
Lemma reached_shape c s after s' kids :
  (forall cs d k, after !! cs = Some (EFile d k) -> data_ok s d k) ->
  holds s' kids after -> keeps c s (without_args s') -> shape s' kids (descriptions (bytes s) after).
Proof.
  intros Hdata Hh Hk. rewrite <-(descriptions_keep _ _ _ _ Hk Hdata). apply (holds_shape s'); [done|].
  intros cs d k Hcs. exact (data_keeps _ _ _ _ _ Hk (Hdata _ _ _ Hcs)).
Qed.

(** ** The standard streams *)

(** The file of the standard output after the set-up. *)
Definition stdout_path : list (list Z) := in_dir "stdio" "stdout".

Lemma start_space_keeps sets names ns cs e : start_space sets names = Some ns -> stream_space !! cs = Some e -> ns !! cs = Some e.
Proof.
  unfold start_space. intros H Hcs. destruct (add_sets sets stream_space) as [ns1|] eqn:E1; [|done].
  destruct (add_outputs names ns1) as [ns2|] eqn:E2; [|done].
  assert (H2 : ns2 !! cs = Some e) by (eapply add_outputs_keeps; [exact E2|]; by eapply add_sets_keeps).
  destruct (existsb _ _); [by injection H as <-|by eapply put_keeps].
Qed.
(** After the set-up the standard streams are open on files. *)
Lemma started_closable c s sets names ns s' kids :
  start_space sets names = Some ns -> started c s ns s' kids -> closable s' kids ns.
Proof.
  intros Hns Hst. pose proof (sd_streams _ _ _ _ _ Hst) as [[Ho _] [He _] _].
  assert (Hsim : Forall simple (in_dir "stdio" "stdout") /\ Forall simple (in_dir "stdio" "stderr")) by (split; apply (bool_decide_eq_true_1 _); vm_compute; reflexivity).
  unfold closable, standard_streams. apply Forall_cons_2; [|apply Forall_cons_2; [|apply Forall_cons_2; [|constructor]]]; right.
  - exact (sd_stdin _ _ _ _ _ Hst).
  - eexists _, (in_dir "stdio" "stdout"), (EFile NULL 0). split_and!; [exact Ho|apply Hsim| |done|done].
    by apply (start_space_keeps sets names).
  - eexists _, (in_dir "stdio" "stderr"), (EFile NULL 0). split_and!; [exact He|apply Hsim| |done|done].
    by apply (start_space_keeps sets names).
Qed.

(** When [main] returns the files are as [after] says: the export and the exit
    can go on. *)
Lemma reached_terminates (n budget : Z) s ins outs sets names after trees s' kids :
  can_start s ins outs sets names -> can_pass n budget s outs sets names after trees ->
  shape s' kids (descriptions (bytes s) after) -> keeps budget s (without_args s') ->
  can_terminate n s' outs names trees /\ can_exit n s' outs trees.
Proof.
  intros Hcan Hp Hshape Hk.
  assert (Hroom : total_cost n trees + sys_cost ((Z.of_nat (length (flat_bufs outs)) + sum_items trees) * sizeof_io) <=
    sys_room (rt_sys (fs_rt s'))).
  { pose proof (sg_room _ _ _ (kp_grows _ _ _ Hk)) as Hg. pose proof (pa_room _ _ _ _ _ _ _ _ Hp). cbn in Hg. lia. }
  destruct (pa_exit _ _ _ _ _ _ _ _ Hp) as [He1 He2 He3 He4 He5].
  assert (E : output_sets (fs_rt s') = output_sets (fs_rt s)).
  { change (fs_rt s') with (fs_rt (without_args s')). by rewrite (kp_only _ _ _ Hk). }
  split.
  - split.
    + apply (pa_bound _ _ _ _ _ _ _ _ Hp).
    + destruct (root_children s' kids _ Hshape) as (d & Hroot & _). exists (kids fs_root), d. split; [exact Hroot|].
      assert (Hn : Forall2 (name_shown s') outs names).
      { eapply Forall2_impl; [apply (cs_names _ _ _ _ _ Hcan)|]. intros v nm Hv. apply name_without. by eapply name_shown_keeps. }
      pose proof (pa_trees _ _ _ _ _ _ _ _ Hp) as Ht. clear -Hn Ht Hshape. revert trees Ht.
      induction Hn as [|v nm outs names Hv Hn IH]; intros trees Ht; inversion Ht; subst; constructor; [|by apply IH].
      by eapply (set_ok_started s').
    + exact (ready_without _ _ (ready_keeps _ _ _ _ Hk (pa_ready _ _ _ _ _ _ _ _ Hp))).
    + apply (pa_fits _ _ _ _ _ _ _ _ Hp).
    + pose proof (pass_cost_pos _ _ _ _ _ _ _ _ Hp). lia.
  - split; [by rewrite E|by rewrite E|done|done|done].
Qed.

(** * The program

    Code of the C library and of the program that does not touch the file
    system: it computes, or calls functions without an implementation. *)
Definition quiet {A} (c : prog (shim M) A) (P : A -> Prop) : Prop :=
  forall w, wp c (fun a w' => P a /\ sh_fs w' = sh_fs w) w.

(** [fcloseall] closes streams of the C library.  The programs below write to
    descriptors only, so that no stream has data left in a buffer; what it does to
    the file system is to close some of the descriptors of the standard streams. *)
Definition closes_streams (c : prog (shim M) unit) : Prop :=
  forall w, exists fds, Forall (fun fd => fd ∈ standard_streams) fds /\
    forall s', close_all fds (sh_fs w) = Ret tt s' -> exists w', c w = Ret tt w' /\ sh_fs w' = s'.

Context (libc_init_array libc_fini_array fcloseall : prog (shim M) unit) (main : Z -> Z -> prog (shim M) Z).

(** The entry of the program behind [dandelion_init]. *)
Definition run : prog (shim M) unit :=
  let! code := initialization libc_init_array libc_fini_array fcloseall main in on_fs (fs_exit code).

Lemma wp_quiet {A B} (c : prog (shim M) A) P (k : A -> prog (shim M) B) (Q : B -> shim M -> Prop) w :
  quiet c P -> (forall a w', P a -> sh_fs w' = sh_fs w -> wp (k a) Q w') -> wp (Prelude.bind c k) Q w.
Proof. intros Hc HQ. apply wp_bind. eapply wp_mono; [apply Hc|]. intros a w' [Ha Hw]. by apply HQ. Qed.

Lemma wp_closes {B} (c : prog (shim M) unit) (k : unit -> prog (shim M) B) (Q : B -> shim M -> Prop) w kids ns :
  closes_streams c -> holds (sh_fs w) kids ns -> sound (sh_fs w) -> closable (sh_fs w) kids ns ->
  (forall w', holds (sh_fs w') kids ns -> step 0 (sh_fs w) kids (sh_fs w') kids -> wp (k tt) Q w') ->
  wp (Prelude.bind c k) Q w.
Proof.
  intros Hc Hh Hs Hcl HQ. destruct (Hc w) as (fds & Hfds & Hrun).
  pose proof (close_all_spec fds _ kids ns (fun _ s' => holds s' kids ns /\ step 0 (sh_fs w) kids s' kids) Hh Hs Hcl Hfds) as Hall.
  unfold wp in Hall. destruct (close_all fds (sh_fs w)) as [[] s'|]; [|by destruct Hall].
  destruct Hall as [Hh' Hst']; [done|]. destruct (Hrun s' eq_refl) as (w' & Ew & <-).
  apply wp_bind. unfold wp at 1. rewrite Ew. by apply HQ.
Qed.

(** Everything before and after [main]. *)
Lemma whole_run_spec r input_bytes ins outs sets names ns n budget after trees code w :
  let s := fs_start r input_bytes in
  quiet libc_init_array (fun _ => True) -> quiet libc_fini_array (fun _ => True) -> closes_streams fcloseall ->
  (forall c v w1 kids, started (start_cost sets names) s ns (sh_fs w1) kids ->
     wp (main c v) (fun r w2 => r = code /\ (exists kids2, holds (sh_fs w2) kids2 after /\ closable (sh_fs w2) kids2 after) /\
       keeps budget s (without_args (sh_fs w2))) w1) ->
  (forall cs d k, after !! cs = Some (EFile d k) -> ns !! cs = Some (EFile d k)) ->
  sh_fs w = s -> can_start s ins outs sets names -> start_space sets names = Some ns ->
  can_pass n budget s outs sets names after trees ->
  wp run (fun _ w' => sys_exited (rt_sys (fs_rt (sh_fs w'))) = true /\ sys_code (rt_sys (fs_rt (sh_fs w'))) = code /\
    exists bufss, handed_over (sh_fs w') outs bufss trees) w.
Proof.
  intros s Hinit Hfini Hclose Hmain Hafter Hw Hcan Hns Hp. apply wp_bind, wp_bind, wp_zoom. rewrite Hw.
  eapply wp_mono; [by eapply fs_initialize_spec|]. intros error s' (-> & kids & Hst).
  change (negb (0 =? 0)) with false. cbn iota.
  eapply wp_quiet; [exact Hinit|]. intros _ w1 _ E1. apply wp_bind, wp_gets, wp_bind, wp_gets.
  change (sh_fs w1 = s') in E1. rewrite <-E1 in Hst.
  apply wp_bind. eapply wp_mono; [by apply (Hmain _ _ _ kids)|]. intros c2 w2 (-> & (kids2 & Hh & Hcl) & Hk).
  eapply wp_quiet; [exact Hfini|]. intros _ w3 _ E3. rewrite <-E3 in Hh, Hcl, Hk.
  eapply (wp_closes _ _ _ w3); [exact Hclose|exact Hh|exact (sg_sound _ _ _ (kp_grows _ _ _ Hk))|exact Hcl|].
  intros w4 Hh4 Hst4. assert (Hk4 : keeps budget s (without_args (sh_fs w4))).
  { rewrite <-(Z.add_0_r budget). eapply then_keeps; [exact Hk|]. by destruct Hst4 as [[] _]. }
  pose proof (reached_shape _ _ _ _ _ (fun cs d k E => space_data _ _ _ _ Hns (pa_data _ _ _ _ _ _ _ _ Hp) cs d k (Hafter cs d k E)) Hh4 Hk4) as Hshape.
  destruct (reached_terminates _ _ _ _ _ _ _ _ _ _ _ Hcan Hp Hshape Hk4) as [Hterm Hexit].
  apply wp_bind, wp_zoom.
  eapply wp_mono; [by eapply terminate_spec|]. intros c f (-> & bufss & Hall). apply wp_ret, wp_zoom.
  eapply wp_mono; [by eapply hand_over_spec|]. intros _ f' (H1 & H2 & H3). split_and!; [done|done|by exists bufss].
Qed.

(** C11: Inputs pass through a program that does nothing.  The constructors and
    destructors of the C library and [main] leave the files alone, [fcloseall]
    closes descriptors of the standard streams, there is enough memory, and the
    names of files end in the memory of their nodes, which [create_file] does not see
    to ([can_start]).  When a set is an input
    and an output, the platform gets back what it gave: the program starts with
    the inputs as files, returns [code] from [main], and the process ends with
    that code; for every output set the platform finds the files that are below
    the directory of the set's name, each with its path and content, and nothing
    for a set whose name has a slash, because only the children of the root are
    searched for it. *)
Theorem inputs_pass_through r input_bytes ins outs sets names ns n trees code w :
  let s := fs_start r input_bytes in
  quiet libc_init_array (fun _ => True) -> quiet libc_fini_array (fun _ => True) -> closes_streams fcloseall ->
  (forall c v, quiet (main c v) (eq code)) -> sh_fs w = s ->
  can_start s ins outs sets names -> start_space sets names = Some ns ->
  can_pass n (start_cost sets names) s outs sets names ns trees ->
  wp run (fun _ w' => sys_exited (rt_sys (fs_rt (sh_fs w'))) = true /\ sys_code (rt_sys (fs_rt (sh_fs w'))) = code /\
    exists bufss, handed_over (sh_fs w') outs bufss trees) w.
Proof.
  intros s Hinit Hfini Hclose Hmain Hw Hcan Hns Hp. eapply whole_run_spec; try done.
  intros c v w1 kids Hst. eapply wp_mono; [apply Hmain|]. intros ? w2 [<- ->]. split_and!; [done| |apply Hst].
  exists kids. split; [apply Hst|by eapply started_closable].
Qed.
End life.

(** * Directories of a given map *)

Definition listed_in (dm : descmap) (base cs : list (list Z)) : bool :=
  bool_decide (StronglySorted name_lt cs) && bool_decide (Forall simple cs) &&
  forallb (fun c => bool_decide (is_Some (dm !! (base ++ [c])))) cs &&
  forallb (fun kd : list (list Z) * desc =>
    bool_decide (kd.1 = [] \/ removelast kd.1 <> base) || bool_decide (last kd.1 ∈ map Some cs)) (map_to_list dm).

Lemma listed_by dm base cs : listed_in dm base cs = true -> listed dm base cs.
Proof.
  unfold listed_in. rewrite !andb_true_iff, !forallb_forall, !bool_decide_eq_true.
  intros [[[Hs Hsim] Hin] Hall]. split; [done|done|]. intros c _. split.
  - intros Hc%list_elem_of_In. specialize (Hin c Hc). by apply bool_decide_eq_true in Hin.
  - intros [d Hd]. apply elem_of_map_to_list, list_elem_of_In in Hd. specialize (Hall _ Hd). cbn [fst] in Hall.
    rewrite last_snoc, removelast_snoc in Hall. apply orb_true_iff in Hall as [H|H]; apply bool_decide_eq_true in H.
    + destruct H as [H|H]; [by destruct base|done].
    + apply list_elem_of_In, in_map_iff in H as (c' & [= ->] & Hc). by apply list_elem_of_In.
Qed.

(** * A program between two machines

    The set [data], with the items [a/x] and [b], is an input and an output; the
    second output set has the name [log/all], the third one [stdio].  The program
    has two texts of its own, which it may print. *)
Module PassDemo.
Import InputDemo.

Definition item_x : io_buffer := IoBuffer 200 3 300 4 0.
Definition item_b : io_buffer := IoBuffer 210 1 320 2 0.
Definition sets : list input_set := [(chars "data", [(chars "a/x", item_x); (chars "b", item_b)])].
Definition names : list (list Z) := [chars "data"; chars "log/all"; chars "stdio"].
Definition ins : list view := [(100, 4, [item_x; item_b])].
Definition outs : list view := [(110, 4, []); (120, 7, []); (130, 5, [])].
Definition texts : list (Z * list Z) := [(340, chars "Hello, "); (350, chars "world" ++ [10])].
Definition platform_bytes : gmap Z Z :=
  buffer 100 (chars "data") (buffer 110 (chars "data") (buffer 120 (chars "log/all") (
  buffer 130 (chars "stdio") (buffer 340 (chars "Hello, ") (buffer 350 (chars "world" ++ [10]) (
  buffer 200 (chars "a/x") (buffer 210 (chars "b") (buffer 300 (chars "1234") (buffer 320 (chars "ok") ∅))))))))).

(** The arrays of the runtime: one input set with two buffers, three output sets. *)
Definition requests : list Z := [40; 80; 120].
Definition memory : session := match allocs requests start with Ret _ m => m | Fault _ => start end.
Definition out_sets : list io_set := [IoSet 110 4 NULL 0 0; IoSet 120 7 NULL 0 0; IoSet 130 5 NULL 0 0].
Definition rt : runtime session :=
  Runtime memory 1 [IoSetInfo 100 4 0; IoSetInfo NULL 0 2] 3 [IoSetInfo 110 4 0; IoSetInfo 120 7 0; IoSetInfo 130 5 0; IoSetInfo NULL 0 0]
    [item_x; item_b] NULL 4104 4256
    (<[4104 := [IoSet 100 4 4160 2 2]]> {[4256 := out_sets]}) {[4160 := [item_x; item_b]]}.
Definition fs0 : fs session := fs_start rt platform_bytes.
Definition program : shim session := Shim fs0 0 0 0 0.
Definition space : dirmap := default ∅ (start_space sets names).
Definition data_trees : list tree := [TDir (chars "a") [TFile (chars "x") (chars "1234")]; TFile (chars "b") (chars "ok")].
(** The streams, with what was printed. *)
Definition stdio_trees (out : list Z) : list tree :=
  [TFile (chars "stderr") []; TFile (chars "stdin") []; TFile (chars "stdout") out].
Definition trees (out : list Z) : list (list tree) :=
  [chosen (chars "data") data_trees; []; chosen (chars "stdio") (stdio_trees out)].

(** ** Facts *)

Lemma pass_space_run : start_space sets names = Some space.
Proof.
  assert (H : (if start_space sets names is Some _ then true else false) = true) by (vm_compute; reflexivity).
  unfold space. by destruct (start_space sets names).
Qed.

Lemma pass_memory_sound : sys_sound memory.
Proof.
  assert (H : exists ps, allocs requests start = Ret ps memory) by (eexists; vm_compute; reflexivity).
  destruct H as [ps Hrun]. eapply (wp_from_run _ (fun _ m => sys_sound m)); [exact Hrun|].
  apply allocs_sound; [exists []; apply inv_init; lia|]. repeat constructor; lia.
Qed.

Lemma owned_arrays : owned rt 4104 /\ owned rt 4160 /\ owned rt 4256.
Proof. unfold owned. split_and!; decided. Qed.

Lemma pass_arrays : inputs_at fs0 ins /\ outputs_at fs0 outs.
Proof.
  destruct owned_arrays as (H1 & H2 & H3).
  split; (split; [|reflexivity]); (eexists; split; [right; split_and!; [|done|reflexivity]; discriminate|]).
  - constructor; [by apply (full_view rt 100 4 4160 [item_x; item_b])|constructor].
  - repeat (constructor; [apply empty_view|]). constructor.
Qed.

Lemma item_shown_x : item_shown fs0 (chars "a/x", item_x).
Proof. an_item. Qed.
Lemma item_shown_b : item_shown fs0 (chars "b", item_b).
Proof. an_item. Qed.

Lemma pass_ready_to_start : can_start fs0 ins outs sets names.
Proof.
  split.
  - exact pass_memory_sound.
  - unfold first_live. decided.
  - apply names_end_by. vm_compute. reflexivity.
  - apply pass_arrays.
  - apply pass_arrays.
  - apply Forall2_cons. split; [|constructor]. split; [a_name|done|done|done|].
    apply Forall_cons_2; [apply item_shown_x|]. apply Forall_cons_2; [apply item_shown_b|constructor].
  - apply Forall_cons_2; [|constructor]. split; [decided|]. apply Forall_cons_2; [fits|]. apply Forall_cons_2; [fits|constructor].
  - do 3 (apply Forall2_cons; split; [split; [a_name|done|done|decided]|]). constructor.
  - vm_compute. done.
Qed.

Lemma runtime_ready : ready fs0 [] outs.
Proof.
  split; [apply pass_memory_sound|unfold first_live; decided| |constructor|done].
  exists out_sets. split_and!.
  - split; [right; split_and!; [done|apply owned_arrays|reflexivity]|].
    repeat (constructor; [apply empty_view|]). constructor.
  - intros i j a b _ Ha _ Hc. unfold zlookup in Ha. destruct (0 <=? i); [|done].
    destruct (Z.to_nat i) as [|[|[|k]]]; [injection Ha as <-; done..|done].
  - repeat (constructor; [done|]). constructor.
  - intros _. apply not_elem_of_nil.
Qed.

Lemma data_by d n : 0 < d -> 0 < n < 2 ^ 31 -> d + n <= 4096 -> writable platform_bytes d n -> data_ok fs0 d n.
Proof. intros Hd Hn Hl Hw. right. split_and!; [done|lia|lia|done|]. apply outside_safe; [reflexivity|lia]. Qed.

Lemma items_data st it : item_of sets st it -> data_ok fs0 (ib_data it.2) (ib_data_len it.2).
Proof.
  intros (->%list_elem_of_singleton & Hit & _). unfold sets in Hit. cbn [snd] in Hit.
  assert (region platform_bytes 300 (chars "1234") /\ region platform_bytes 320 (chars "ok")) as [Hx Hb] by (split; solve_region).
  apply elem_of_cons in Hit as [-> | ->%list_elem_of_singleton]; apply data_by; try (cbn; lia).
  - exact (region_writable _ _ _ Hx).
  - exact (region_writable _ _ _ Hb).
Qed.

(** The trees of a map, and the rest of what the end of the program needs. *)
Ltac a_listing := apply listed_by; vm_compute; reflexivity.
Ltac finds_trees :=
  apply Forall2_cons; split; [|apply Forall2_cons; split; [|apply Forall2_cons; split; [|constructor]]];
  [ apply (a_directory _ (chars "data")); [decided|vm_compute; reflexivity|]; split; [a_listing|];
    apply Forall_cons_2; [|apply Forall_cons_2; [|constructor]];
    [ split; [decided|]; split; [vm_compute; reflexivity|]; split; [a_listing|]; split; [|done];
      split; [decided|vm_compute; reflexivity]
    | split; [decided|vm_compute; reflexivity] ]
  | apply no_name; apply (bool_decide_eq_false_1 _); vm_compute; reflexivity
  | apply (a_directory _ (chars "stdio")); [decided|vm_compute; reflexivity|]; split; [a_listing|];
    repeat (apply Forall_cons_2; [split; [decided|vm_compute; reflexivity]|]); constructor ].
Ltac passes found :=
  split;
  [ lia | exact runtime_ready | exact items_data | exact found
  | repeat (constructor; [vm_compute; split_and!; done|]); constructor
  | split;
    [ reflexivity
    | intros i v info Hv Hi; unfold zlookup in Hv, Hi; destruct (0 <=? i); [|done];
      destruct (Z.to_nat i) as [|[|[|k]]]; [injection Hv as <-; injection Hi as <-; done..|done]
    | done | vm_compute; reflexivity | vm_compute; done ]
  | vm_compute; done ].

Lemma trees_found : Forall2 (set_trees (descriptions (bytes fs0) space)) names (trees []).
Proof. finds_trees. Qed.
Lemma ready_to_pass : can_pass 4 (start_cost sets names) fs0 outs sets names space (trees []).
Proof. passes trees_found. Qed.

Definition nothing : prog (shim session) unit := ret tt.
Definition idle_main (_ _ : Z) : prog (shim session) Z := ret 7.
Lemma nothing_quiet : quiet nothing (fun _ => True).
Proof. intros w. by apply wp_ret. Qed.
(** [fcloseall] when the standard streams were used. *)
Definition close_standard : prog (shim session) unit := on_fs (close_all standard_streams).
Lemma standard_closed : closes_streams close_standard.
Proof.
  intros w. exists standard_streams. split; [apply Forall_forall; by intros|]. intros s' Hs'.
  exists (set_fs s' w). split; [|done]. unfold close_standard, on_fs, zoom. by rewrite Hs'.
Qed.
Lemma main_quiet c v : quiet (idle_main c v) (eq 7).
Proof. intros w. by apply wp_ret. Qed.
End PassDemo.
#[local] Existing Instance InputDemo.used_machine.

Lemma inputs_pass_through_witness :
  wp (run PassDemo.nothing PassDemo.nothing PassDemo.close_standard PassDemo.idle_main) (fun _ w' =>
    sys_exited (rt_sys (fs_rt (sh_fs w'))) = true /\ sys_code (rt_sys (fs_rt (sh_fs w'))) = 7 /\
    exists bufss, Forall2 (shows (sh_fs w')) bufss
        [[(chars "a/x", chars "1234"); (chars "b", chars "ok")]; []; [(chars "stderr", []); (chars "stdout", [])]] /\
      raw_output (fs_rt (sh_fs w')) = flat_bufs (zip_with add_bufs PassDemo.outs bufss)) PassDemo.program.
Proof.
  assert (E : map items_of (PassDemo.trees []) =
    [[(chars "a/x", chars "1234"); (chars "b", chars "ok")]; []; [(chars "stderr", []); (chars "stdout", [])]]) by (vm_compute; reflexivity).
  rewrite <-E. eapply wp_mono.
  { exact (inputs_pass_through PassDemo.nothing PassDemo.nothing PassDemo.close_standard PassDemo.idle_main PassDemo.rt
      PassDemo.platform_bytes PassDemo.ins PassDemo.outs PassDemo.sets PassDemo.names PassDemo.space 4 (PassDemo.trees []) 7
      PassDemo.program PassDemo.nothing_quiet PassDemo.nothing_quiet PassDemo.standard_closed PassDemo.main_quiet eq_refl
      PassDemo.pass_ready_to_start PassDemo.pass_space_run PassDemo.ready_to_pass). }
  intros _ w' (H1 & H2 & bufss & Hs & _ & Hraw). split_and!; [done|done|]. exists bufss. by split.
Defined.
