(* ===== verification/ArgTheorems.v ===== *)
(** What the argument and environment strings promise: the words of the text,
    and that a list of words comes back from its quoted form. *)
From S2P Require Import Prelude Bytes Heap Alloc AllocSession AllocTheorems System RuntimeIO Paths PathSpec FsStore FileSystem FsImpl FsLemmas FsTree FsResolve FsData FsWrite FsDemo FsArgs.

(** * Quoting *)

Definition quote_word (w : list Z) : list Z := single_quote :: w ++ [single_quote].
Definition command (ws : list (list Z)) : list Z := concat (map (fun w => quote_word w ++ [space]) ws).

Lemma argument_quote w r :
  single_quote ∉ w ->
  argument (Some single_quote) (w ++ single_quote :: r) = (w ++ (argument None r).1, (argument None r).2).
Proof.
  induction w as [|c w IH]; cbn; [by destruct (argument None r)|]. intros Hw.
  rewrite (proj2 (Z.eqb_neq _ _)) by set_solver. by rewrite IH by set_solver.
Qed.

Lemma closed_quote w r :
  single_quote ∉ w -> closed (Some single_quote) (w ++ single_quote :: r) = closed None r.
Proof.
  induction w as [|c w IH]; cbn; [done|]. intros Hw.
  rewrite (proj2 (Z.eqb_neq _ _)) by set_solver. apply IH. set_solver.
Qed.

Lemma command_cons w ws : command (w :: ws) = single_quote :: w ++ single_quote :: space :: command ws.
Proof. unfold command. cbn. by rewrite <-!app_assoc. Qed.

Lemma argument_command w ws :
  single_quote ∉ w -> argument None (command (w :: ws)) = (w, space :: command ws).
Proof.
  intros Hw. rewrite command_cons.
  transitivity (argument (Some single_quote) (w ++ single_quote :: space :: command ws)); [done|].
  rewrite argument_quote by done. cbn. by rewrite app_nil_r.
Qed.

Lemma closed_command ws :
  Forall (fun w => single_quote ∉ w) ws -> closed None (command ws) = true.
Proof.
  induction 1 as [|w ws Hw _ IH]; [done|]. rewrite command_cons.
  transitivity (closed (Some single_quote) (w ++ single_quote :: space :: command ws)); [done|].
  by rewrite closed_quote.
Qed.

Lemma words_command ws k :
  Forall (fun w => single_quote ∉ w) ws -> (length (command ws) < k)%nat ->
  words_from k (command ws) = ws.
Proof.
  intros Hws. revert k. induction Hws as [|w ws Hw Hws IH]; intros [|k] Hk; [cbn in Hk; lia|done|lia|].
  cbn [words_from]. assert (Hd : drop_while is_space (command (w :: ws)) = command (w :: ws)).
  { by rewrite command_cons. }
  rewrite Hd. pose proof (argument_command w ws Hw) as Ha.
  destruct (command (w :: ws)) as [|c r] eqn:E; [by rewrite command_cons in E|]. rewrite Ha. cbn [fst snd].
  f_equal. rewrite command_cons in E. injection E as <- <-. cbn [length] in Hk.
  rewrite length_app in Hk. cbn [length] in Hk.
  rewrite <-(IH k) at 2 by lia. by destruct k.
Qed.

Section arguments.
Context {M : Type} {HS : System M} {HM : Machine}.
Implicit Types s : fs M.

(** C25: For a text whose quotes are closed, [setup_charpparray] counts the words
    of the text and builds an array of as many strings and a final [NULL]: each
    string is a new allocation with the characters of its word, without the
    quotes, and a terminator; what was in memory before stays.  The only other
    outcome is the use of [NULL] when memory runs out. *)
Theorem arguments_split text t s :
  0 < text -> sound s -> region (bytes s) text t ->
  outside (area s) text (Z.of_nat (length t)) ->
  0 < Z.of_nat (length t) < 2 ^ 31 -> closed None t = true ->
  wpf (setup_charpparray text (Z.of_nat (length t))) (fun r s' =>
    r.1 = Z.of_nat (length (words t)) /\
    (exists ps arr, pointers s' !! r.2 = Some arr /\ take (length ps) arr = ps /\
      arr !! length (words t) = Some NULL /\ Forall2 (string_at s') ps (words t)) /\
    region (bytes s') text t /\ files s' = files s /\ chunks s' = chunks s) NullDeref s.
Proof.
  intros Htext Hs Hreg Hout Hn Hcl.
  eapply wpf_mono; [by apply setup_charpparray_spec|].
  intros r s' (Hr & ps & [Hs' _ Hreg' (arr & Ha & _ & _ & Hnull & Htake) Hstr (Hf & Hc & _)]).
  split_and!; [done| |done|done|done]. exists ps, arr. split_and!; try done.
  by rewrite Hr, zlookup_nat in Hnull.
Qed.

(** C26: Quoting round trip: a list of words without single quotes, each written
    between single quotes and followed by a space, is split by
    [setup_charpparray] into exactly these words, spaces and double quotes in
    them included. *)
Theorem quoted_words_roundtrip text ws s :
  0 < text -> sound s -> region (bytes s) text (command ws) ->
  outside (area s) text (Z.of_nat (length (command ws))) ->
  0 < Z.of_nat (length (command ws)) < 2 ^ 31 -> Forall (fun w => single_quote ∉ w) ws ->
  wpf (setup_charpparray text (Z.of_nat (length (command ws)))) (fun r s' =>
    r.1 = Z.of_nat (length ws) /\ exists ps arr, pointers s' !! r.2 = Some arr /\
      take (length ps) arr = ps /\ Forall2 (string_at s') ps ws) NullDeref s.
Proof.
  intros Htext Hs Hreg Hout Hn Hws.
  pose proof (words_command ws (S (length (command ws))) Hws ltac:(lia)) as Hw. fold (words (command ws)) in Hw.
  pose proof (closed_command ws Hws) as Hcl.
  eapply wpf_mono; [by apply setup_charpparray_spec|]. rewrite Hw.
  intros r s' (Hr & ps & [_ _ _ (arr & Ha & _ & _ & _ & Htake) Hstr _]). split; [done|]. by exists ps, arr.
Qed.
End arguments.

(** * Instances *)

Definition demo_text : list Z := chars "prog 'a b' x=" ++ [double_quote; 49; double_quote; space].
Definition demo_argv : fs session := demo_state demo_chunks (buffer 200000 demo_text demo_bytes).

Lemma arguments_split_witness :
  words demo_text = [chars "prog"; chars "a b"; chars "x=1"] /\
  wpf (setup_charpparray 200000 17) (fun r s' => r.1 = 3) NullDeref demo_argv.
Proof.
  split; [vm_compute; reflexivity|].
  eapply wpf_mono; [apply (arguments_split 200000 demo_text demo_argv)|].
  - lia.
  - exact demo_session_sound.
  - apply region_write.
  - right. vm_compute. discriminate.
  - split; vm_compute; reflexivity.
  - vm_compute. reflexivity.
  - intros r s' [Hr _]. exact Hr.
Defined.

Lemma quoted_words_roundtrip_witness :
  wpf (setup_charpparray 200000 11) (fun r s' => r.1 = 2)
    NullDeref (demo_state demo_chunks (buffer 200000 (command [chars "a b"; [99; double_quote]]) demo_bytes)).
Proof.
  eapply wpf_mono; [apply (quoted_words_roundtrip 200000 [chars "a b"; [99; double_quote]]
    (demo_state demo_chunks (buffer 200000 (command [chars "a b"; [99; double_quote]]) demo_bytes)))|].
  - lia.
  - exact demo_session_sound.
  - apply region_write.
  - right. vm_compute. discriminate.
  - split; vm_compute; reflexivity.
  - repeat constructor; vm_compute; intros H; repeat (apply elem_of_cons in H as [H|H]; [discriminate|]);
      by apply elem_of_nil in H.
  - intros r s' [Hr _]. exact Hr.
Defined.
