(* ===== verification/RemoveTheorems.v ===== *)
(** What removing, closing and truncating promise, and what a cut leaves
    behind. *)
From Stdlib Require Import Sorting.Sorted.
From S2P Require Import Prelude Bytes Heap Alloc AllocSession AllocTheorems System RuntimeIO Paths PathSpec FsStore FileSystem FsImpl FsLemmas FsTree FsResolve FsData FsWrite FsSeek FsDemo FsRemove.

Section removal.
Context {M : Type} {HS : System M} {HM : Machine}.
Implicit Types s : fs M.

(** What is left of a file: it is gone with its chunks and buffers, or it
    stays with the counters of [g]. *)
Definition gone s s' (file : Z) (xs : list Z) : Prop :=
  files s' !! file = None /\ (forall x, x ∈ xs -> chunks s' !! x = None) /\
  exists freed, live s ≡ₚ freed ++ live s' /\ freed.*1 ≡ₚ chunk_memory (chunks s) xs ++ [file].
Definition stays_as s s' (file : Z) (g : dfile) : Prop :=
  files s' !! file = Some g /\ chunks s' = chunks s /\ live s' = live s.

Lemma given_back_gone s s' file xs :
  given_back s s' (chunk_memory (chunks s) xs ++ [file]) -> gone s s' file xs.
Proof.
  intros H. split_and!; [| |apply H].
  - rewrite (gb_files _ _ _ H), decide_True by set_solver. done.
  - intros x Hx. apply (chunk_memory_in (chunks s)) in Hx.
    rewrite (gb_chunks _ _ _ H), decide_True by set_solver. done.
Qed.

(** A list of children none of which is among the released objects stays. *)
Lemma children_given_back s s' ps folder d l :
  children (files s) folder d l -> given_back s s' ps ->
  (forall q, q = folder \/ q ∈ l -> (q ∉ ps)) -> children (files s') folder d l.
Proof.
  intros [Hd Hd0 Ht Hl Hself] H Hps.
  assert (Hkeep : forall q g, files s !! q = Some g -> q = folder \/ q ∈ l -> files s' !! q = Some g).
  { intros q g Hg Hq. by rewrite (gb_files _ _ _ H), decide_False by by apply Hps. }
  split; [apply Hkeep; [done|by left]|done|done| |done].
  eapply chain_agree; [|exact Hl]. intros x a Hx Ha. exists a. split; [|done]. apply Hkeep; [done|by right].
Qed.

(** C28: Unlinking a file takes exactly this node out of the list of its
    directory and counts one link less.  If that was the last link and no
    descriptor is open, the node, its chunks and their buffers are released, and
    nothing else is; otherwise the file stays as it is. *)
Theorem unlink_removes s str file f folder d l1 l2 xs :
  find_file str s = Ret file s -> sound s -> file_owned s file f xs -> parent f = folder ->
  children (files s) folder d (l1 ++ file :: l2) ->
  (forall q, q ∈ chunk_memory (chunks s) xs -> files s !! q = None) ->
  1 <= hard_links f < 2 ^ 16 ->
  wp (dandelion_unlink str) (fun r s' => r = 0 /\
    (exists d', children (files s') folder d' (l1 ++ l2)) /\
    if decide (hard_links f = 1 /\ open_descripotors f = 0) then gone s s' file xs
    else stays_as s s' file (set_hard_links (hard_links f - 1) f)) s.
Proof.
  intros Hrun Hs Hown Hpar Hch Hnodes Hlinks. pose proof Hown as [Hf Hf0 Ht _ _ _].
  pose proof Hch as [Hd Hd0 Htd Hl Hself].
  apply wp_bind. unfold wp at 1. rewrite Hrun. rewrite (proj2 (Z.eqb_neq _ _)) by done.
  apply wp_bind. eapply wp_get_file; [done..|]. rewrite Hpar. apply wp_bind.
  eapply wp_get_file; [done..|]. apply wp_bind. eapply unlink_child_spec; [done..|].
  intros m' [(d' & Hd' & Ht' & Hl') Hfile Hkept].
  apply wp_bind. eapply wp_update_file; [cbn; by rewrite Hfile|done|]. cbn [files with_files].
  unfold wrap16. rewrite Z.mod_small by lia. rewrite with_files_twice.
  set (g := set_hard_links (hard_links f - 1) f). set (s1 := with_files (<[file := g]> m') s).
  pose proof (chain_nodup _ _ _ _ Hl) as Hnd.
  assert (Hne : folder <> file) by (intros ->; apply Hself; set_solver).
  assert (Hni : file ∉ l1 ++ l2).
  { apply NoDup_app in Hnd as (_ & Hx & [Hy _]%NoDup_cons). specialize (Hx file). set_solver. }
  assert (Hch1 : children (files s1) folder d' (l1 ++ l2)).
  { split; [cbn; by rewrite lookup_insert_ne|done|done|by apply chain_insert_ne|set_solver]. }
  apply wp_bind. destruct (decide _) as [[Hh1 Ho1]|Hno].
  - assert (Hown1 : file_owned s1 file g xs).
    { eapply file_owned_update; [done|apply lookup_insert_eq|done|done]. }
    eapply free_data_released; [done|exact Hown1|cbn; lia|done|]. intros s2 H2. apply wp_ret.
    split_and!; [done| |exact (given_back_gone _ _ _ _ H2)]. exists d'.
    eapply children_given_back; [exact Hch1|exact H2|]. intros q Hq [Hqm|Hqf]%elem_of_app; [|set_solver].
    pose proof (Hnodes q Hqm) as Hnone. destruct Hq as [->|Hin]; [congruence|].
    destruct (chain_in _ _ _ _ q Hl) as [_ [? ?]]; [set_solver|congruence].
  - eapply free_data_kept; [apply lookup_insert_eq|done|cbn; lia|]. apply wp_ret. unfold stays_as.
    split_and!; [done|by exists d'| |done|done].
    apply lookup_insert_eq.
Qed.

(** C30: Unlinking a file whose content is memory of somebody else ends in a
    release of that memory.  The last link of a closed file, whose first chunk is
    a buffer that the allocator did not give, as the chunk of every input file
    is: the call passes the address of the buffer to [dandelion_free]. *)
Theorem unlink_foreign_faults s str file f folder d l1 l2 c :
  find_file str s = Ret file s -> files s !! file = Some f -> file <> NULL -> ftype f = FILE ->
  parent f = folder -> children (files s) folder d (l1 ++ file :: l2) ->
  content f <> NULL -> chunks s !! content f = Some c -> data c ∉ (live s).*1 ->
  hard_links f = 1 -> open_descripotors f = 0 ->
  dandelion_unlink str s = Fault InvalidFree.
Proof.
  intros Hrun Hf Hf0 Ht Hpar Hch Hc0 Hc Hnot Hlinks Hopen. pose proof Hch as [Hd Hd0 _ _ _].
  enough (H : wpf (dandelion_unlink str) (fun _ _ => False) InvalidFree s).
  { unfold wpf in H. by destruct (dandelion_unlink str s) as [|e]; [|rewrite H]. }
  apply wpf_wp_bind. unfold wp. rewrite Hrun. rewrite (proj2 (Z.eqb_neq _ _)) by done.
  apply wpf_wp_bind. eapply wp_get_file; [done..|]. rewrite Hpar.
  apply wpf_wp_bind. eapply wp_get_file; [done..|]. apply wpf_wp_bind. eapply unlink_child_spec; [done..|].
  intros m' [_ Hfile _]. apply wpf_wp_bind. eapply wp_update_file; [cbn; by rewrite Hfile|done|].
  cbn [files with_files]. rewrite Hlinks, with_files_twice. change (wrap16 (1 - 1)) with 0. set (s1 := with_files _ s).
  apply wpf_bind, (wpf_mono _ (fun _ _ => False)); [|by intros ? ? []]. apply wpf_wp_bind, wp_gets. unfold file_fuel. cbn [free_data].
  apply wpf_wp_bind. eapply wp_get_file; [apply lookup_insert_eq|done|]. cbn [hard_links open_descripotors ftype content set_hard_links].
  rewrite Hopen, Ht. change (negb (0 =? 0) || negb (0 =? 0)) with false. cbn iota.
  apply wpf_bind, (wpf_mono _ (fun _ _ => False)); [|by intros ? ? []]. apply wpf_wp_bind, wp_gets. unfold chunk_fuel. apply wpf_loop_step.
  rewrite (proj2 (Z.eqb_neq _ _)) by done. apply wpf_wp_bind. eapply wp_get_chunk; [exact Hc|done|].
  apply wpf_bind. unfold fs_free. apply wpf_wp_bind, wp_gets. unfold allocated. by rewrite bool_decide_eq_false_2.
Qed.

(** C29: Closing a descriptor makes it free, counts one opening less, and leaves
    the other descriptors as they are; the file is released with its memory
    exactly when this was its last descriptor and it has no link any more. *)
Theorem close_releases s fd o f xs :
  zlookup fd (open_files s) = Some o -> sound s -> file_owned s (of_file o) f xs ->
  1 <= open_descripotors f < 2 ^ 16 ->
  wp (dandelion_close fd) (fun r s' => r = 0 /\
    open_files s' = zinsert fd (set_of_file NULL o) (open_files s) /\
    if decide (hard_links f = 0 /\ open_descripotors f = 1) then gone s s' (of_file o) xs
    else stays_as s s' (of_file o) (set_open_descripotors (open_descripotors f - 1) f)) s.
Proof.
  intros Ho Hs Hown Hopen. pose proof Hown as [Hf Hf0 Ht _ _ _].
  apply wp_bind. eapply wp_get_open; [done|]. cbv zeta. rewrite (proj2 (Z.eqb_neq _ _)) by done.
  apply wp_bind. eapply wp_update_file; [done..|]. unfold wrap16. rewrite Z.mod_small by lia.
  set (g := set_open_descripotors (open_descripotors f - 1) f).
  set (s1 := with_files (<[of_file o := g]> (files s)) s).
  apply wp_bind. destruct (decide _) as [[Hh Ho1]|Hno].
  - assert (Hown1 : file_owned s1 (of_file o) g xs).
    { eapply file_owned_update; [done|apply lookup_insert_eq|done|done]. }
    eapply free_data_released; [done|exact Hown1|done|cbn; lia|]. intros s2 H2.
    pose proof (gb_open _ _ _ H2) as Ho2. change (open_files s1) with (open_files s) in Ho2.
    apply wp_bind. eapply wp_update_open; [by rewrite Ho2|]. apply wp_ret. rewrite Ho2.
    split_and!; [done|done|exact (given_back_gone _ _ _ _ H2)].
  - eapply free_data_kept; [apply lookup_insert_eq|done|cbn; lia|].
    apply wp_bind. eapply wp_update_open; [done|]. apply wp_ret. unfold stays_as.
    split_and!; [done|done| |done|done].
    apply lookup_insert_eq.
Qed.

(** C34: Cutting a file in its last chunk leaves exactly its first [length] bytes,
    and neither its memory nor another chunk is touched. *)
Theorem truncate_cuts s fd length o f l1 x t c k :
  sound s -> truncates s fd length o f l1 x t [] c k ->
  wp (dandelion_ftruncate fd length) (fun r s' => r = 0 /\
    s' = with_chunks (<[x := set_used k c]> (chunks s)) s /\
    exists l', stored (chunks s') (bytes s') (content f) l' /\
      contents l' = take (Z.to_nat length) (contents (l1 ++ [(x, t)]))) s.
Proof.
  intros Hs Htr. eapply wp_mono; [by eapply ftruncate_spec|]. intros r s' [-> Hg].
  pose proof (gb_none _ _ _ Hg eq_refl) as ->. split_and!; [done|done|]. exists (l1 ++ [(x, take (Z.to_nat k) t)]).
  destruct Htr as [_ _ _ Hst Hc Hlen [Hk Hmax] _]. split.
  - by apply stored_cut.
  - rewrite !contents_snoc, Hlen. rewrite take_app_ge by lia. do 2 f_equal. lia.
Qed.

(** C37: Cutting a file in front of its last chunk releases the chunks behind the
    cut but leaves the link to them: the next walk along the file, here for its
    status, follows the link to memory that was given back. *)
Theorem truncate_dangles s fd length o f l1 x t y u l2 c k :
  sound s -> truncates s fd length o f l1 x t ((y, u) :: l2) c k ->
  exists s', dandelion_ftruncate fd length s = Ret 0 s' /\ chunks s' !! y = None /\
    (exists c', chunks s' !! x = Some c' /\ next_chunk c' = y) /\
    dandelion_fstat fd s' = Fault OutOfBounds.
Proof.
  intros Hs Htr. destruct (wp_run _ _ _ (ftruncate_spec _ _ _ _ _ _ _ _ _ _ _ Hs Htr)) as (r & s' & E & -> & Hg).
  exists s'. split; [done|]. destruct Htr as [Ho _ [Hf Hf0 Ht Hch _ Hap] Hst Hc _ _ _].
  pose proof (proj1 Hst) as Hchain. rewrite fmap_app in Hchain, Hap, Hch. cbn [fmap list_fmap fst] in Hchain, Hap, Hch.
  pose proof (chain_split _ _ _ _ _ _ Hchain) as (_ & Hx0 & a & Ha & Hxy & Hy0 & _).
  assert (a = c) as -> by congruence. set (ps := chunk_memory (chunks s) (y :: l2.*1)) in *.
  assert (Hkeep : forall z, z ∈ l1.*1 ++ [x] -> z ∉ ps).
  { apply (front_not_behind _ _ _ _ _ Hch). }
  assert (Hy : chunks s' !! y = None).
  { rewrite (gb_chunks _ _ _ Hg), decide_True; [done|]. apply chunk_memory_in. constructor. }
  assert (Hx : chunks s' !! x = Some (set_used k c)).
  { rewrite (gb_chunks _ _ _ Hg), decide_False by (apply Hkeep; set_solver). apply lookup_insert_eq. }
  split_and!; [done|by exists (set_used k c)|].
  assert (Hf' : files s' !! of_file o = Some f).
  { rewrite (gb_files _ _ _ Hg), decide_False; [done|]. intros Hin. apply Hap.
    rewrite chunk_memory_app, (chunk_memory_cons _ _ _ _ Hc). set_solver. }
  unfold dandelion_fstat, bind at 1, get_open. rewrite (gb_open _ _ _ Hg). cbn [open_files with_chunks]. rewrite Ho.
  rewrite (proj2 (Z.eqb_neq _ _)) by done. unfold stat_node, bind at 1, get_file_node, deref.
  rewrite (proj2 (Z.eqb_neq _ _)), Hf', Ht by done. cbn [is_file]. unfold bind at 1.
  rewrite (content_chunks_dangling _ (l1.*1 ++ [x]) y _ _ (fun c acc => wrap64 (acc + used c))); [done| | |done|done|done].
  - assert (Hl : leads (chunks s) (content f) (l1.*1 ++ [x]) y).
    { apply (chain_leads _ _ _ _ l2.*1). rewrite <-app_assoc. exact Hchain. }
    eapply leads_agree; [|exact Hl]. intros z b Hz Hb. rewrite (gb_chunks _ _ _ Hg), decide_False by by apply Hkeep.
    cbn [chunks with_chunks]. destruct (decide (z = x)) as [->|].
    + rewrite lookup_insert_eq. assert (b = c) as -> by congruence. by eexists.
    + rewrite lookup_insert_ne by done. by exists b.
  - assert (Hnd : NoDup ((l1.*1 ++ [x]) ++ y :: l2.*1)) by (rewrite <-app_assoc; by eapply chain_nodup).
    by apply NoDup_app in Hnd as [? _].
Qed.
End removal.

(** * Instances *)

(** The file [data] in [in] has its node in allocated memory. *)
Definition owned_node (links opened : Z) : dfile :=
  DFile (static_name (chars "data")) NULL 500 FILE 4104 links opened (Z.lor S_IRUSR S_IWUSR).
Definition owned_files (links opened : Z) : gmap Z dfile :=
  <[fs_root := node "/" NULL NULL DIRECTORY 500]> (
  <[500 := node "in" NULL fs_root DIRECTORY 4176]> (
  <[4176 := owned_node links opened]> ∅)).
Definition owned_open : list open_file :=
  OpenFile 4176 4104 0 O_WRONLY :: replicate 1023 (OpenFile NULL NULL 0 0).
Definition owned_state (links opened : Z) (cs : gmap Z file_chunk) (m : gmap Z Z) : fs session :=
  Fs demo_runtime (owned_files links opened) cs m ∅ ∅ owned_open 0 0 0 NULL NULL 0%nat.

Ltac live_demo := unfold live; cbn [fs_rt owned_state rt_sys demo_runtime]; rewrite demo_session_live; cbn; set_solver.

Lemma owned_one links opened :
  file_owned (owned_state links opened demo_chunks demo_bytes) 4176 (owned_node links opened) [4104].
Proof.
  split; [reflexivity|discriminate|reflexivity| |live_demo|set_solver]. split.
  - split_and!; [done|done|]. by eexists.
  - intros q Hq. change (q ∈ [4152; 4104]) in Hq. live_demo.
  - change (NoDup [4152; 4104]). repeat constructor; set_solver.
Qed.

Lemma owned_two links opened :
  file_owned (owned_state links opened demo_two_chunks demo_two_bytes) 4176 (owned_node links opened) [4104; 4200].
Proof.
  split; [reflexivity|discriminate|reflexivity| |live_demo|].
  2: { change (4176 ∉ [4152; 4104; 4248; 4200]). set_solver. }
  split.
  - split_and!; [done|done|]. eexists. split; [vm_compute; reflexivity|]. split_and!; [done|done|]. by eexists.
  - intros q Hq. change (q ∈ [4152; 4104; 4248; 4200]) in Hq. live_demo.
  - change (NoDup [4152; 4104; 4248; 4200]). repeat constructor; set_solver.
Qed.

Lemma unlink_removes_witness :
  wp (dandelion_unlink (literal "/in/data")) (fun r s' => r = 0 /\ files s' !! 4176 = None /\ chunks s' !! 4104 = None)
    (owned_state 1 0 demo_chunks demo_bytes).
Proof.
  eapply wp_mono; [apply (unlink_removes _ _ 4176 (owned_node 1 0) 500 (node "in" NULL fs_root DIRECTORY 4176) [] [] [4104]);
    [vm_compute; reflexivity|exact demo_session_sound|exact (owned_one 1 0)|reflexivity| | |cbn; lia]|].
  - split; [reflexivity|discriminate|reflexivity| |set_solver]. split_and!; [done|done|]. by eexists.
  - intros q Hq. change (q ∈ [4152; 4104]) in Hq. apply elem_of_cons in Hq as [->|Hq]; [reflexivity|].
    apply list_elem_of_singleton in Hq as ->. reflexivity.
  - intros r s' (Hr & _ & H). rewrite decide_True in H by done. destruct H as (H1 & H2 & _).
    split_and!; [exact Hr|exact H1|apply H2; constructor].
Defined.

(** The chunk of the file is the buffer of three bytes at 300, below the heap. *)
Definition foreign_chunks : gmap Z file_chunk := {[4104 := FileChunk 300 3 3 NULL]}.

Lemma unlink_foreign_faults_witness :
  dandelion_unlink (literal "/in/data") (owned_state 1 0 foreign_chunks demo_bytes) = Fault InvalidFree.
Proof.
  apply (unlink_foreign_faults _ _ 4176 (owned_node 1 0) 500 (node "in" NULL fs_root DIRECTORY 4176) [] [] (FileChunk 300 3 3 NULL));
    try (reflexivity || discriminate).
  - split; [reflexivity|discriminate|reflexivity| |set_solver]. split_and!; [done|done|]. by eexists.
  - live_demo.
Defined.

Lemma close_releases_witness :
  wp (dandelion_close 0) (fun r s' => r = 0 /\ files s' !! 4176 = None) (owned_state 0 1 demo_chunks demo_bytes) /\
  wp (dandelion_close 0) (fun r s' => files s' !! 4176 = Some (owned_node 1 1)) (owned_state 1 2 demo_chunks demo_bytes).
Proof.
  split.
  - eapply wp_mono; [apply (close_releases _ 0 (OpenFile 4176 4104 0 O_WRONLY) (owned_node 0 1) [4104]);
      [reflexivity|exact demo_session_sound|exact (owned_one 0 1)|cbn; lia]|].
    intros r s' (Hr & _ & H). rewrite decide_True in H by done. split; [exact Hr|apply H].
  - eapply wp_mono; [apply (close_releases _ 0 (OpenFile 4176 4104 0 O_WRONLY) (owned_node 1 2) [4104]);
      [reflexivity|exact demo_session_sound|exact (owned_one 1 2)|cbn; lia]|].
    intros r s' (Hr & _ & H). rewrite decide_False in H by (cbn; lia). apply H.
Defined.

Lemma truncate_cuts_witness :
  wp (dandelion_ftruncate 0 2) (fun r s' => r = 0 /\ exists l', stored (chunks s') (bytes s') 4104 l' /\
    contents l' = chars "ab") (owned_state 1 1 demo_chunks demo_bytes).
Proof.
  eapply wp_mono; [apply (truncate_cuts _ 0 2 (OpenFile 4176 4104 0 O_WRONLY) (owned_node 1 1) [] 4104 (chars "abc")
    (FileChunk 4152 8 3 NULL) 2); [exact demo_session_sound|]|].
  - split; [reflexivity|reflexivity|exact (owned_one 1 1)|exact demo_stored|reflexivity|reflexivity|cbn; lia|by left].
  - intros r s' (Hr & _ & l' & Hl & E). split; [exact Hr|]. exists l'. split; [exact Hl|exact E].
Defined.

Lemma truncate_dangles_witness : exists s',
  dandelion_ftruncate 0 2 (owned_state 1 1 demo_two_chunks demo_two_bytes) = Ret 0 s' /\
  dandelion_fstat 0 s' = Fault OutOfBounds.
Proof.
  destruct (truncate_dangles (owned_state 1 1 demo_two_chunks demo_two_bytes) 0 2 (OpenFile 4176 4104 0 O_WRONLY)
    (owned_node 1 1) [] 4104 (chars "abc") 4200 (chars "xyz") [] (FileChunk 4152 8 3 4200) 2) as (s' & H1 & _ & _ & H2).
  - exact demo_session_sound.
  - split; [reflexivity|reflexivity|exact (owned_two 1 1)|exact demo_two_stored|reflexivity|reflexivity|cbn; lia|by left].
  - exists s'. split; [exact H1|exact H2].
Defined.
