(* ===== verification/FsCalls.v ===== *)
(** The calls that make files and directories ([dandelion_open],
    [dandelion_close], [dandelion_mkdir] of
    src/file_system/fs_implementation.c), on the map from paths to entries. *)
From S2P Require Import Prelude Bytes Heap Alloc AllocSession AllocTheorems System RuntimeIO RuntimeTree RuntimeInit RuntimeOutput Paths PathSpec FsStore FileSystem FsImpl FsLemmas FsTree FsResolve FsData FsWrite FsExport FsExportNode FsTerminate FsNames FsSpace FsDirs FsInput FsClose FsShape FsPrint FsDemo FsNodeTheorems InputTheorems FsRemove.

#[export] Instance entry_eq_dec : EqDecision entry.
Proof. solve_decision. Defined.

(** The map with a new entry at the path [t], the missing directories made. *)
Definition create (t : list Z) (e : entry) (ns : dirmap) : option dirmap :=
  match mkdirs [] (removelast (components t)) ns with
  | Some ns1 => put (components t) e ns1
  | None => None
  end.

(** [mkdir] of the path [t]: the result, and the map afterwards.  The directory
    above must be there. *)
Definition make_dir (t : list Z) (ns : dirmap) : Z * dirmap :=
  match ns !! removelast (components t) with
  | None => (- ENOENT, ns)
  | Some EDir =>
      match ns !! components t with
      | Some _ => (- EEXIST, ns)
      | None => (0, <[components t := EDir]> ns)
      end
  | Some _ => (- ENOTDIR, ns)
  end.

Section calls.
Context {M : Type} {HS : System M} {HM : Machine}.
Implicit Types s : fs M.

(** A path whose components fit into the name of a node. *)
Record call_path (str t : list Z) : Prop := {
  cp_string : c_string str t;
  cp_file : file_path t;
  cp_names : Forall dir_name (components t);
}.

Lemma dir_simple cs : Forall dir_name cs -> Forall simple cs.
Proof. intros H. eapply Forall_impl; [exact H|]. by intros c []. Qed.

Definition create_cost (t : list Z) : Z := Z.of_nat (length (removelast (components t))) * dir_cost + file_cost.

(** A path is the path of its directory and a name. *)
Lemma call_path_split str t s : call_path str t -> exists p d f pd pf,
  path_from_string fs_exit str s = Ret p s /\ get_directories p s = Ret pd s /\ get_file p s = Ret pf s /\
  path_ok pd /\ path_ok pf /\ text pd = d /\ text pf = f /\ components t = components d ++ [f] /\
  Forall dir_name (components d) /\ dir_name f.
Proof.
  intros [Hstr Hfp Hnames]. destruct (path_from_string_spec fs_exit str t s Hstr) as (Hrun & Hp & Et).
  destruct (file_path_split _ Hfp) as (d & f & Hf0 & Hfs & Htext & Hcomp). rewrite Hcomp in *.
  apply Forall_app in Hnames as [Hdirs Hf%Forall_inv].
  destruct (split_path_spec (Path str 0 (Z.of_nat (length t))) s f d) as (pd & pf & Hd & Hfile & Hpd & Hpf & Etd & Etf);
    [done|done| |by rewrite Et|].
  { eapply Forall_impl; [exact Hfs|]. intros c Hc. unfold is_slash. by apply Z.eqb_neq. }
  by exists (Path str 0 (Z.of_nat (length t))), d, f, pd, pf.
Qed.

Lemma open_create_spec s kids ns ns' str t omode (Q : Z + Z -> fs M -> Prop) :
  holds s kids ns -> sound s -> first_live s -> path_ends t -> ns !! [] = Some EDir -> call_path str t ->
  create t (EFile NULL 0) ns = Some ns' -> create_cost t <= sys_room (rt_sys (fs_rt s)) ->
  (forall s' kids' x f, step (create_cost t) s kids s' kids' -> holds s' kids' ns' -> open_files s' = open_files s ->
     node_at (files s') kids' (components t) = x -> x <> NULL -> files s' !! x = Some f -> ftype f = FILE ->
     content f = NULL -> mode f = omode -> hard_links f = 1 -> Q (inl x) s') ->
  wp (open_create str omode) Q s.
Proof.
  intros H Hs Hfl Hz Hroot Hpath Hcr Hroom HQ. unfold create, create_cost in *.
  destruct (call_path_split str t s Hpath) as (p & d & f & pd & pf & Hrun & Hd & Hfile & Hpd & Hpf & Etd & Etf & Hcomp & Hdirs & Hf).
  assert (Hz1 : ends (length (text pf))) by (rewrite Etf; apply Hz; unfold called; by rewrite Hcomp, last_snoc).
  rewrite Hcomp, removelast_snoc in *.
  unfold open_create. apply wp_bind. unfold wp at 1. rewrite Hrun. apply wp_bind. unfold wp at 1. rewrite Hd.
  apply wp_bind. unfold wp at 1. rewrite Hfile. destruct Hf as [Hfsim Hflen]. pose proof (text_length pf Hpf) as Htl. rewrite Etf in Htl.
  rewrite (proj2 (Z.leb_gt _ _)) by (unfold FS_NAME_LENGTH; lia). apply wp_bind.
  destruct (mkdirs [] (components d) ns) as [ns1|] eqn:Hmk; [|done]. apply put_spec in Hcr as [Hnone ->].
  pose proof file_cost_pos. pose proof dir_cost_pos. assert (0 <= Z.of_nat (length (components d)) * dir_cost) by lia.
  change fs_root with (node_at (files s) kids []).
  eapply (create_directories_spec false (components d)); [done|done|done|constructor|done|done|by rewrite Etd|done|done|lia|].
  intros s1 kids1 Hst1 Hh1 Ho1. pose proof (mkdirs_dir _ _ _ _ Hroot Hmk) as Hdir1. rewrite app_nil_l in *.
  pose proof (dir_simple _ Hdirs) as HP. pose proof (holds_node _ _ _ _ _ Hh1 HP Hdir1) as Hent1.
  pose proof (entry_valid _ _ _ _ _ Hh1 Hent1) as Hnn. pose proof (step_room _ _ _ _ _ Hst1) as Hroom1.
  rewrite (proj2 (Z.eqb_neq _ _)) by done.
  apply wp_bind. eapply create_file_spec; [exact Hh1|by eapply step_sound|by eapply step_first|exact Hz1|done|by rewrite Etf|
    unfold FS_NAME_LENGTH; lia|lia|].
  intros x s2 g Hst2 Hh2 Hlo Hname Hft _ Hhl Hent Ho2. rewrite Etf in Hname. pose proof (lo_valid _ _ _ _ Hlo) as Hx.
  rewrite (proj2 (Z.eqb_neq x NULL)) by done. pose proof (lo_node _ _ _ _ Hlo) as Hg.
  destruct (update_holds s2 kids1 ns1 x g (set_mode omode g)) as (Hh3 & Hst3 & Hent3 & Hat3 & Hlo3);
    [done|by eapply step_sound|done|done|by split_and!|done|done|].
  apply wp_bind. eapply wp_update_file; [done|done|]. set (s3 := with_files (<[x := set_mode omode g]> (files s2)) s2) in *.
  pose proof (st_stable _ _ _ _ _ Hst2 _ HP Hnn) as Hat2. rewrite <-Hat2, <-Hat3.
  apply wp_bind. eapply (link_holds s3 kids1 ns1 (components d) x (set_mode omode g));
    [done|by eapply step_sound|done|done|by eapply Hlo3|by rewrite <-Hname in Hfsim|by apply Hent3|by rewrite <-Hname in Hnone|cbn; by rewrite Hhl|].
  intros m' kids4 Hh4 Hst4 Hnew _ (g' & Hg' & (_ & Egt & Egm & _) & Egc & Egh). change (negb (0 =? 0)) with false. cbn iota.
  change (node_name (set_mode omode g)) with (node_name g) in Hh4, Hnew. rewrite Hname in Hh4, Hnew.
  apply wp_ret. eapply (HQ (with_files m' s3) kids4 x g'); try done; try congruence.
  - eapply step_mono; [eapply then_step; [exact Hst1|eapply then_step; [exact Hst2|eapply then_step; [exact Hst3|exact Hst4]]]|lia].
  - unfold s3. cbn. congruence.
  - rewrite Egt. exact Hft.
  - rewrite Egc by done. destruct Hent as (g2 & Hg2 & _ & Hc2). rewrite Hg in Hg2. injection Hg2 as <-. exact Hc2.
  - rewrite Egh. cbn. by rewrite Hhl.
Qed.

Lemma create_other t e e' ns ns' : create t e ns = Some ns' -> create t e' ns = Some (<[components t := e']> ns').
Proof.
  unfold create. destruct (mkdirs _ _ _) as [ns1|]; [|done]. unfold put. destruct (ns1 !! components t); [done|].
  intros [= <-]. by rewrite insert_insert_eq.
Qed.
Lemma create_here t e ns ns' : create t e ns = Some ns' -> ns' !! components t = Some e.
Proof. unfold create. destruct (mkdirs _ _ _) as [ns1|]; [|done]. intros [_ ->]%put_spec. apply lookup_insert_eq. Qed.
Lemma create_new t e ns ns' : create t e ns = Some ns' -> ns !! components t = None.
Proof.
  unfold create. destruct (mkdirs _ _ _) as [ns1|] eqn:E; [|done]. intros [Hn _]%put_spec.
  destruct (ns !! components t) as [e'|] eqn:Et; [|done]. by rewrite (mkdirs_base _ _ _ _ _ E _ Et) in Hn.
Qed.
Lemma create_keeps t e ns ns' cs e' : create t e ns = Some ns' -> ns !! cs = Some e' -> ns' !! cs = Some e'.
Proof.
  unfold create. destruct (mkdirs _ _ _) as [ns1|] eqn:E; [|done]. intros Hp Hcs.
  eapply put_keeps; [exact Hp|]. by eapply mkdirs_base.
Qed.

(** * Opening a new file, and closing it *)

(** What the flags and the mode of a call must say so that it makes a file that
    can be written to from its beginning. *)
Record new_file_flags (flags omode : Z) : Prop := {
  nf_create : has flags O_CREAT = true;
  nf_keep : has flags O_TRUNC = false;
  nf_mode : has omode S_IWUSR = true;
}.

Lemma open_new_spec s kids ns ns' str t flags omode fd (Q : Z -> fs M -> Prop) :
  holds s kids ns -> sound s -> first_live s -> path_ends t -> ns !! [] = Some EDir -> call_path str t ->
  new_file_flags flags omode -> create t (EFile NULL 0) ns = Some ns' -> create_cost t <= sys_room (rt_sys (fs_rt s)) ->
  Z.of_nat (length (open_files s)) = FS_MAX_FILES -> lowest_free 0 (open_files s) = Some fd ->
  (forall s' kids' x f, step (create_cost t) s kids s' kids' -> holds s' kids' ns' ->
     open_files s' = zinsert fd (OpenFile x NULL 0 (access_of flags)) (open_files s) ->
     node_at (files s') kids' (components t) = x -> x <> NULL -> files s' !! x = Some f -> ftype f = FILE ->
     content f = NULL -> hard_links f = 1 -> Q fd s') ->
  wp (dandelion_open str flags omode) Q s.
Proof.
  intros H Hs Hfl Hz Hroot Hpath [Hcr Htr Hmode] Hcreate Hroom Hlen Hfd HQ. unfold dandelion_open.
  pose proof (dir_simple _ (cp_names _ _ Hpath)) as Hsim.
  destruct (find_entry s kids ns str t H (cp_string _ _ Hpath) Hsim) as (x0 & Hfind & Hx0).
  rewrite (create_new _ _ _ _ Hcreate) in Hx0. subst x0.
  apply wp_bind. unfold wp at 1. rewrite Hfind, Hcr, Z.eqb_refl. rewrite andb_false_r. cbn [negb].
  apply wp_bind. eapply open_create_spec; [done..|].
  intros s1 kids1 x f Hst1 Hh1 Ho1 Hat Hx Hf Hft Hc Hm Hhl. apply wp_bind. unfold wp at 1.
  rewrite free_descriptor_spec by by rewrite Ho1. rewrite Ho1, Hfd.
  destruct (lowest_free_spec 0 _ _ ltac:(lia) Hfd) as (Hr & (o & Hoo & _) & _). rewrite Z.sub_0_r in Hoo.
  apply wp_bind. eapply (open_existing_spec s1 kids1 ns' fd x f flags omode true o); [done|by eapply step_sound|done|done|done|by rewrite Ho1|congruence|].
  intros s2 Hh2 Hst2 Ho2 _ _ Hf2. rewrite Hft, Hc in Ho2. change (0 <? 0) with false. cbn iota. apply wp_ret.
  assert (Hnn : node_at (files s1) kids1 (components t) <> NULL) by by rewrite Hat.
  apply (HQ s2 kids1 x (opened_node f)); try done.
  - eapply step_mono; [by eapply then_step|lia].
  - by rewrite Ho2, Ho1.
  - by rewrite (st_stable _ _ _ _ _ Hst2 _ Hsim Hnn).
Qed.

(** * Directories *)

Lemma mkdir_spec s kids ns str t omode (Q : Z -> fs M -> Prop) :
  holds s kids ns -> sound s -> first_live s -> call_path str t -> dir_cost <= sys_room (rt_sys (fs_rt s)) ->
  (forall s' kids', step dir_cost s kids s' kids' -> holds s' kids' (make_dir t ns).2 -> open_files s' = open_files s ->
     ((make_dir t ns).1 = 0 -> exists f, files s' !! node_at (files s') kids' (components t) = Some f /\ mode f = omode) ->
     Q (make_dir t ns).1 s') ->
  wp (dandelion_mkdir str omode) Q s.
Proof.
  intros H Hs Hfl Hpath Hroom HQ. unfold make_dir in HQ.
  destruct (call_path_split str t s Hpath) as (p & d & f & pd & pf & Hrun & Hd & Hfile & Hpd & Hpf & Etd & Etf & Hcomp & Hdirs & Hf).
  rewrite Hcomp, removelast_snoc in HQ. pose proof (dir_simple _ Hdirs) as Hsim. pose proof dir_cost_pos as Hpos.
  assert (Hsame : step dir_cost s kids s kids) by (eapply step_mono; [by apply rest_step|done]).
  unfold dandelion_mkdir. apply wp_bind. unfold wp at 1. rewrite Hrun. apply wp_bind. unfold wp at 1. rewrite Hd.
  apply wp_bind. unfold wp at 1. rewrite Hfile. pose proof (ho_names _ _ _ H) as Hok.
  apply wp_bind. unfold wp at 1. rewrite (find_file_path_spec s kids) by (done || apply Hok). rewrite Etd.
  fold (node_at (files s) kids (components d)).
  pose proof (ho_paths _ _ _ H _ Hsim) as Hpar. destruct (ns !! components d) as [e|] eqn:Ed.
  2: { rewrite Hpar, Z.eqb_refl. by apply wp_ret, (HQ s kids). }
  pose proof (entry_valid _ _ _ _ _ H Hpar) as Hnn. rewrite (proj2 (Z.eqb_neq _ _)) by done.
  destruct Hpar as (g & Hg & He). apply wp_bind. eapply wp_get_file; [done..|].
  destruct (decide (e = EDir)) as [->|Hne].
  2: { assert (is_directory (ftype g) = false) as ->.
       { destruct e as [|data len|u|]; [done| | |by rewrite He]; by destruct He as [-> _]. }
       apply wp_ret. destruct e; [done|..]; by apply (HQ s kids). }
  rewrite He. cbn [is_directory negb].
  pose proof (path_simple _ _ Hsim (proj1 Hf)) as Hsp.
  apply wp_bind. unfold wp at 1. rewrite (find_in_dir_enter s kids _ g pf (nk_tree _ _ Hok) Hg He Hpf).
  assert (Hat : enter (files s) kids (node_at (files s) kids (components d)) (text pf) = node_at (files s) kids (components d ++ [f])).
  { rewrite node_at_snoc, Hg, He, Etf by done. done. }
  rewrite Hat. pose proof (ho_paths _ _ _ H _ Hsp) as Hent. destruct (ns !! (components d ++ [f])) as [e|] eqn:Ef.
  - rewrite (proj2 (Z.eqb_neq _ _)) by by eapply entry_valid. by apply wp_ret, (HQ s kids).
  - rewrite Hent, Z.eqb_refl. cbn [negb]. apply wp_bind.
    assert (Hcf : components (text pf) = [f]).
    { rewrite Etf. apply components_name; apply Hf. }
    eapply (create_directories_spec false [f]); [done..|by constructor| |rewrite Z.mul_1_l; exact Hroom|].
    { cbn. by rewrite Ef. }
    intros s1 kids1 Hst1 Hh1 Ho1. rewrite Z.mul_1_l in Hst1.
    pose proof (holds_node _ _ _ _ EDir Hh1 Hsp (lookup_insert_eq _ _ _)) as Hx1. pose proof (entry_valid _ _ _ _ _ Hh1 Hx1) as Hx.
    rewrite (proj2 (Z.eqb_neq _ _)) by done. destruct Hx1 as (g1 & Hg1 & Ht1).
    apply wp_bind. eapply wp_update_file; [done..|].
    destruct (update_holds s1 kids1 _ (node_at (files s1) kids1 (components d ++ [f])) g1 (set_mode omode g1) Hh1) as (Hh2 & Hst2 & _ & Hat2 & _);
      [by eapply step_sound|done|done|by split_and!|done|done|].
    apply wp_ret. eapply (HQ (with_files _ s1) kids1); [|done|done|].
    + eapply step_mono; [by eapply then_step|lia].
    + intros _. exists (set_mode omode g1). rewrite Hat2. split; [apply lookup_insert_eq|done].
Qed.
End calls.
