(* ===== verification/FsFetch.v ===== *)
(** Fetching a file: opening it, reading it into fresh memory and closing it
    ([dandelion_open], [dandelion_read], [dandelion_close] of
    src/file_system/fs_implementation.c behind the calls of
    src/newlib_shim/shim.c, with [dandelion_alloc]), on the map from
    paths to entries. *)
From S2P Require Import Prelude Bytes Heap Alloc AllocSession AllocTheorems System RuntimeIO RuntimeTree RuntimeInit RuntimeOutput Paths PathSpec FsStore FileSystem FsImpl FsLemmas FsTree FsResolve FsData FsWrite FsSeek FsExport FsExportNode FsTerminate FsNames FsSpace FsDirs FsInput FsClose FsShape FsPrint FsDemo FsNodeTheorems FsFileTheorems InputTheorems FsCalls LifeTheorems Shim.

Lemma region_text_at m p l : region m p l -> text_at m p (Z.of_nat (length l)) = l.
Proof.
  intros Hr. apply list_eq. intros i. unfold text_at. rewrite list_lookup_fmap.
  destruct (decide (i < length l)%nat) as [Hi|Hi].
  - rewrite lookup_seqZ_lt by lia. cbn. destruct (l !! i) as [b|] eqn:E; [|apply lookup_ge_None in E; lia].
    rewrite Z.add_0_l, (Hr (Z.of_nat i) b); [done|]. by rewrite zlookup_nat.
  - rewrite lookup_seqZ_ge, (lookup_ge_None_2 l) by lia. done.
Qed.

Section fetch.
Context {M : Type} {HS : System M} {HM : Machine}.
Implicit Types s : fs M.

(** * What is in a file *)

Definition contents_of s (e : entry) (l : list Z) : Prop :=
  match e with
  | EFile d n => data_ok s d n /\ l = text_at (bytes s) d n
  | EText u => l = u
  | _ => False
  end.

Lemma contents_text s x e l : entry_at s x e -> contents_of s e l -> file_text s x l.
Proof. destruct e as [|d n|u|]; cbn [contents_of]; try done; [intros He [Hd ->]; by apply entry_text|by intros He ->]. Qed.
Lemma contents_keep c s s' e l : keeps c s s' -> contents_of s e l -> contents_of s' e l.
Proof.
  intros Hk. destruct e as [|d n|u|]; cbn [contents_of]; try done. intros [Hd ->]. split; [by eapply data_keeps|].
  symmetry. by eapply text_keeps.
Qed.

(** * Opening a file that is there *)

Lemma open_file_spec s kids ns str t e l fd (Q : Z -> fs M -> Prop) :
  holds s kids ns -> sound s -> c_string str t -> Forall simple (components t) ->
  ns !! components t = Some e -> contents_of s e l -> Z.of_nat (length (open_files s)) = FS_MAX_FILES ->
  lowest_free 0 (open_files s) = Some fd ->
  (forall s' x f, holds s' kids ns -> step 0 s kids s' kids -> node_at (files s) kids (components t) = x -> x <> NULL ->
     files s' !! x = Some f -> ftype f = FILE -> hard_links f <> 0 -> file_text s' x l ->
     open_files s' = zinsert fd (OpenFile x (content f) 0 0) (open_files s) -> Q fd s') ->
  wp (dandelion_open str O_RDONLY 0) Q s.
Proof.
  intros H Hs Hstr Hsim Hent Hl Hlen Hfd HQ. unfold dandelion_open.
  destruct (find_entry s kids ns str t H Hstr Hsim) as (x & Hfind & _).
  pose proof (find_file_spec s kids str t (nk_tree _ _ (ho_names _ _ _ H)) Hstr) as Hfind2. rewrite Hfind in Hfind2.
  assert (x = node_at (files s) kids (components t)) as -> by (by injection Hfind2 as ->).
  pose proof (holds_node _ _ _ _ _ H Hsim Hent) as He. pose proof (entry_valid _ _ _ _ _ H He) as Hx.
  destruct (contents_text _ _ _ _ He Hl) as (f & Hf & Hft & _).
  apply wp_bind. unfold wp at 1. rewrite Hfind. change (has O_RDONLY O_EXCL) with false. cbn [andb].
  rewrite (proj2 (Z.eqb_neq _ _)) by done. apply wp_bind, wp_ret, wp_bind. unfold wp at 1. rewrite free_descriptor_spec by done.
  rewrite Hfd. destruct (lowest_free_spec 0 _ _ ltac:(lia) Hfd) as (Hr & (o & Ho & _) & _). rewrite Z.sub_0_r in Ho.
  apply wp_bind. eapply (open_existing_spec s kids ns fd _ f O_RDONLY 0 true o); [done..|].
  intros s' Hh Hst Hop Hkeep _ Hf'. rewrite Hft in Hop. change (0 <? 0) with false. cbn iota. apply wp_ret.
  apply (HQ s' (node_at (files s) kids (components t)) (opened_node f)); try done.
  - by apply (ho_linked _ _ _ H (components t) f).
  - eapply contents_text; [by apply Hkeep|]. by eapply contents_keep; [apply Hst|].
Qed.

(** * Reading into fresh memory *)

(** The buffer is apart from everything that was there. *)
Lemma fresh_apart s p k m d n : grown s (put_sys m s) p k -> safe_range s [] d n -> 0 < n -> 0 < k ->
  disjoint_range p (8 * k) d n.
Proof.
  intros Hg Hsafe Hn Hk. unfold disjoint_range. destruct (decide (p + 8 * k <= d \/ d + n <= p)) as [|Hov]; [lia|].
  destruct (grown_outside _ _ _ _ _ Hg (Hsafe (Z.max d p - d) ltac:(lia))); lia.
Qed.

Lemma stored_bytes s m' p l : stored (chunks s) (bytes s) p l -> Forall (chunk_safe s []) l ->
  (forall a, safe s [] a -> m' !! a = bytes s !! a) -> stored (chunks s) m' p l.
Proof.
  intros [Hc Hl] Hsafe Hm. split; [done|]. rewrite Forall_forall in *. intros [z u] Hz.
  destruct (Hl _ Hz) as (c & Hcz & Hu & Hcap & Hd & Hr). exists c. split_and!; try done; [lia|lia|].
  intros i b Hi. cbn [fst snd] in *. rewrite Hm; [by apply Hr|]. destruct (Hsafe _ Hz) as [_ Hs]. apply (Hs c Hcz).
  apply zlookup_range in Hi. cbn [snd]. lia.
Qed.

Lemma read_out_all l : forall want, Z.of_nat (length (contents l)) <= want -> read_out want 0 l = contents l.
Proof.
  induction l as [|[x t] l IH]; intros want Hw; [done|]. cbn [read_out]. rewrite contents_cons, length_app in *.
  change (drop (Z.to_nat 0) t) with t. rewrite (proj2 (Z.ltb_ge _ _)), IH; [done|lia..].
Qed.

Lemma fresh_apart_chunks s p k m l : grown s (put_sys m s) p k -> 0 < k -> Forall (chunk_safe s []) l ->
  apart_from (chunks s) p (8 * k) l.
Proof.
  intros Hg Hk Hl. eapply Forall_impl; [exact Hl|]. intros [z u] [_ Hs] c Hc. specialize (Hs c Hc).
  pose proof (fresh_apart s p k m _ _ Hg Hs ltac:(lia) Hk) as Hap. unfold disjoint_range in *. cbn [snd] in *. lia.
Qed.

Lemma read_fresh_spec s kids ns fd x f l want (Q : Z -> fs M -> Prop) :
  holds s kids ns -> sound s -> first_live s -> files s !! x = Some f -> x <> NULL -> file_text s x l -> l <> [] ->
  Z.of_nat (length l) <= want -> want < 2 ^ 31 - 4096 -> zlookup fd (open_files s) = Some (OpenFile x (content f) 0 0) ->
  sys_cost want <= sys_room (rt_sys (fs_rt s)) ->
  (forall p s' o, holds s' kids ns -> step (sys_cost want) s kids s' kids -> files s' = files s ->
     of_file o = x -> open_files s' = zinsert fd o (open_files s) -> program_text s' p l -> Q p s') ->
  wp (alloc_raw want 16) (fun p s1 => wp (dandelion_read fd p want 0 MOVE_OFFSET)
    (fun r s2 => r = Z.of_nat (length l) /\ Q p s2) s1) s.
Proof.
  intros H Hs Hfl Hf Hx (f' & Hf' & Hft & tl & Hst & Hsafe & _ & <- & _) Hne Hn Hwant Ho Hroom HQ.
  assert (f' = f) as -> by congruence. pose proof (length_pos _ Hne) as Hpos. set (n := Z.of_nat (length (contents tl))) in *.
  apply wp_alloc_raw_grown; [done|done|lia|lia|done|]. intros p k m Hk Hg Hgr.
  pose proof (local_size_small want ltac:(lia)) as Hls. pose proof (gr_pos _ _ _ _ Hg) as Hp.
  set (s1 := with_buffer _ _ _). pose proof (fun a => with_buffer_safe s m p k want a Hk Hg) as Hbytes. fold s1 in Hbytes.
  pose proof (stored_bytes s (bytes s1) _ _ Hst Hsafe Hbytes) as Hst1.
  pose proof (fresh_apart_chunks _ _ _ _ _ Hg ltac:(lia) Hsafe) as Hap.
  destruct tl as [|[y u] tl]; [done|]. pose proof Hst1 as (E & _)%stored_cons. rewrite E in Ho.
  pose proof (read_out_all _ _ Hn) as Hout.
  eapply wp_mono.
  { apply (dandelion_read_spec s1 fd (OpenFile x y 0 0) f p want 0 MOVE_OFFSET y u tl);
      [by split|done|done|by rewrite E in Hst1|cbn; lia|lia|lia|done|cbn [offset]; rewrite Hout; fold n..]; [lia| |].
    - intros i Hi. cbn. rewrite fill_bytes_spec, decide_True by lia. by eexists.
    - eapply Forall_impl; [exact Hap|]. intros [z v] Hz c Hc. specialize (Hz c Hc). unfold disjoint_range in *. lia. }
  cbn [offset of_file open_flags]. rewrite Hout. fold n. intros r s2 [-> ->]. split; [done|].
  set (s2 := with_open_files _ _).
  assert (Hk2 : keeps (sys_cost want) s s2).
  { split; [exact Hgr|by destruct s as [[]]|done| |done]. intros a Ha. change (bytes s2) with (write_bytes p (contents ((y, u) :: tl)) (bytes s1)).
    rewrite write_bytes_out; [by apply Hbytes|]. pose proof (grown_outside _ _ _ _ _ Hg Ha). fold n. lia. }
  apply (HQ p s2 (OpenFile x (read_end want 0 ((y, u) :: tl)).1 (read_end want 0 ((y, u) :: tl)).2 0)).
  - eapply (holds_same s); [done|by eapply keeps_memory|done].
  - by split.
  - done.
  - reflexivity.
  - reflexivity.
  - split; [apply region_write|done|done|fold n; lia|]. left. exists p, k. change (live s2) with (live (put_sys m s)).
    rewrite (gr_live _ _ _ _ Hg). fold n. split_and!; [left|lia|lia].
Qed.

(** A path with nothing behind it. *)
Lemma open_missing_spec s kids ns str t (Q : Z -> fs M -> Prop) :
  holds s kids ns -> c_string str t -> Forall simple (components t) -> ns !! components t = None ->
  Q (- ENOENT) s -> wp (dandelion_open str O_RDONLY 0) Q s.
Proof.
  intros H Hstr Hsim Hnone HQ. destruct (find_entry s kids ns str t H Hstr Hsim) as (x & Hfind & Hx). rewrite Hnone in Hx. subst x.
  unfold dandelion_open. apply wp_bind. unfold wp at 1. rewrite Hfind. change (has O_RDONLY O_EXCL) with false. cbn [andb].
  rewrite Z.eqb_refl. by apply wp_bind, wp_ret, wp_ret.
Qed.

(** * Opening, reading and closing, as system calls *)

Lemma wp_process v (Q : Z -> shim M -> Prop) w : 0 <= v < 2 ^ 31 -> Q v w -> wp (process_error v) Q w.
Proof. intros Hv HQ. unfold process_error. by rewrite int32_small, (proj2 (Z.ltb_ge _ _)) by lia. Qed.

(** [fd = open(str, O_RDONLY); p = dandelion_alloc(want, 16);
    n = read(fd, p, want); close(fd);] and a look at the bytes that were read. *)
Definition fetch (str : list Z) (want : Z) : prog (shim M) (option (Z * list Z)) :=
  let! fd := open str O_RDONLY 0 in
  if fd <? 0 then ret None else
  let! p := on_fs (alloc_raw want 16) in
  let! n := read fd p want in
  let! _ := close fd in
  let! l := gets (fun w => text_at (bytes (sh_fs w)) p n) in
  ret (Some (p, l)).

Lemma fetch_spec w kids ns str t e l want fd (Q : option (Z * list Z) -> shim M -> Prop) :
  let s := sh_fs w in
  holds s kids ns -> sound s -> first_live s -> c_string str t -> Forall simple (components t) ->
  ns !! components t = Some e -> contents_of s e l -> l <> [] -> Z.of_nat (length l) <= want -> want < 2 ^ 31 - 4096 ->
  Z.of_nat (length (open_files s)) = FS_MAX_FILES -> lowest_free 0 (open_files s) = Some fd ->
  sys_cost want <= sys_room (rt_sys (fs_rt s)) ->
  (forall p w', errno w' = errno w -> holds (sh_fs w') kids ns -> step (sys_cost want) s kids (sh_fs w') kids ->
     (exists o, of_file o = NULL /\ open_files (sh_fs w') = zinsert fd o (open_files s)) ->
     program_text (sh_fs w') p l -> Q (Some (p, l)) w') ->
  wp (fetch str want) Q w.
Proof.
  intros s H Hs Hfl Hstr Hsim Hent Hl Hne Hn Hwant Hlen Hfd Hroom HQ.
  destruct (lowest_free_spec 0 _ _ ltac:(lia) Hfd) as (Hr & _ & _). rewrite Hlen in Hr. unfold FS_MAX_FILES in Hr.
  apply wp_bind, wp_bind, wp_zoom.
  eapply (open_file_spec s kids ns); [done..|]. intros s1 x f Hh1 Hst1 Hat Hx Hf Hft Hhl He Ho1.
  apply wp_process; [lia|]. rewrite (proj2 (Z.ltb_ge _ _)) by lia.
  pose proof (st_keeps _ _ _ _ _ Hst1) as Hk1. pose proof (sg_room _ _ _ (kp_grows _ _ _ Hk1)) as Hr1.
  apply wp_bind, wp_zoom. change (sh_fs (set_fs s1 w)) with s1. eapply wp_mono.
  { eapply (read_fresh_spec s1 kids ns fd x f l want (fun p s2 => holds s2 kids ns /\ step (sys_cost want) s1 kids s2 kids /\
      files s2 = files s1 /\ (exists o, of_file o = x /\ open_files s2 = zinsert fd o (open_files s1)) /\ program_text s2 p l));
      [done|by eapply step_sound|by eapply step_first|done|done|done|done|done|done| |lia|].
    - rewrite Ho1. apply zlookup_insert_eq. rewrite Hlen. unfold FS_MAX_FILES. lia.
    - intros p s2 o H1 H2 H3 H4 H5 H6. split_and!; try done. by exists o. }
  intros p s1' Hread. apply wp_bind, wp_bind, wp_zoom. eapply wp_mono; [exact Hread|].
  intros r s2 (-> & Hh2 & Hst2 & Hf2 & (o & Hox & Ho2) & Htext). apply wp_process; [lia|].
  apply wp_bind, wp_bind, wp_zoom.
  eapply (close_spec s2 kids ns fd o x f); [done|by eapply step_sound| |done|done|by rewrite Hf2|done|].
  { rewrite Ho2. apply zlookup_insert_eq. rewrite Ho1, zinsert_length, Hlen. unfold FS_MAX_FILES. lia. }
  intros s3 Hh3 Hst3 Ho3. apply wp_process; [lia|].
  apply wp_bind, wp_gets, wp_ret.
  pose proof (program_text_keeps _ _ _ _ _ (st_keeps _ _ _ _ _ Hst3) Htext) as Htext3.
  change (bytes (sh_fs _)) with (bytes s3). rewrite (region_text_at _ _ _ (pt_region _ _ _ Htext3)). apply HQ.
  - done.
  - exact Hh3.
  - eapply step_mono; [eapply then_step; [exact Hst1|eapply then_step; [exact Hst2|exact Hst3]]|lia].
  - eexists. split; [|cbn; by rewrite Ho3, Ho2, Ho1, !zinsert_insert]. done.
  - exact Htext3.
Qed.
End fetch.
