(* ===== verification/PrintTheorems.v ===== *)
(** A program that prints: [write] of src/newlib_shim/shim.c on the standard
    output, from the set-up to the items that the platform finds at the end. *)
From S2P Require Import Prelude Bytes Heap Alloc AllocSession AllocTheorems System RuntimeIO RuntimeTree RuntimeInit RuntimeOutput RuntimeExit Paths PathSpec FsStore FileSystem FsImpl FsLemmas FsTree FsResolve FsData FsWrite FsSeek FsExport FsExportNode FsTerminate FsNames FsSpace FsDirs FsInput FsClose FsInit FsArgs FsStart FsShape FsPrint FsDemo Shim ExportTheorems InputTheorems LifeTheorems.

Section printing.
Context {M : Type} {HS : System M} {HM : Machine}.
Implicit Types s : fs M.

(** * The program *)

(** [write(fd, ptr, len)] for each of the texts. *)
Fixpoint print_all (fd : Z) (texts : list (Z * list Z)) : prog (shim M) unit :=
  match texts with
  | [] => ret tt
  | (ptr, buf) :: texts =>
      let! _ := write fd ptr (Z.of_nat (length buf)) in print_all fd texts
  end.

Definition output_of (texts : list (Z * list Z)) : list Z := concat (map snd texts).
Definition prints_cost (texts : list (Z * list Z)) : Z :=
  foldr (fun t c => print_cost (Z.of_nat (length t.2)) + c) 0 texts.

Lemma prints_cost_pos texts s : Forall (fun t => program_text s t.1 t.2) texts -> 0 <= prints_cost texts.
Proof.
  induction 1 as [|[ptr buf] texts [_ _ Hne Hsm _] _ IH]; cbn [prints_cost foldr snd] in *; [lia|].
  pose proof (length_pos _ Hne). pose proof (print_cost_pos (Z.of_nat (length buf)) ltac:(lia)).
  unfold prints_cost in IH. lia.
Qed.

Lemma print_all_spec s0 fd x flags f : sound s0 -> first_live s0 -> ftype f = FILE -> x <> NULL -> has flags O_APPEND = false ->
  forall texts c t w, Forall (fun t => program_text s0 t.1 t.2) texts ->
  c + prints_cost texts <= sys_room (rt_sys (fs_rt s0)) -> printed c s0 (sh_fs w) fd x flags f t ->
  wp (print_all fd texts) (fun _ w' => errno w' = errno w /\
    printed (c + prints_cost texts) s0 (sh_fs w') fd x flags f (t ++ output_of texts)) w.
Proof.
  intros Hs0 Hf0 Hft Hx Hfl. induction texts as [|[ptr buf] texts IH]; intros c t w Ht Hroom Hpr; cbn [print_all].
  - apply wp_ret. split; [done|]. change (output_of []) with (@nil Z). by rewrite app_nil_r, Z.add_0_r.
  - apply Forall_cons in Ht as [Hb Ht]. pose proof (prints_cost_pos _ _ Ht) as Hc0. cbn [fst snd] in Hb.
    cbn [prints_cost foldr snd] in Hroom |- *. fold (prints_cost texts) in *.
    apply wp_bind, wp_bind, wp_zoom. eapply wp_mono; [apply (print_text_spec c s0 (sh_fs w) fd x flags f t ptr buf); [done|done|lia|done..]|].
    intros r s1 [-> Hpr1]. pose proof (pt_small _ _ _ Hb).
    unfold process_error. rewrite int32_small, (proj2 (Z.ltb_ge _ _)) by lia. apply wp_ret.
    eapply wp_mono; [apply (IH (c + print_cost (Z.of_nat (length buf))) (t ++ buf) _ Ht); [lia|exact Hpr1]|].
    intros [] w'. unfold output_of. cbn [map concat snd]. by rewrite Z.add_assoc, app_assoc.
Qed.

Lemma output_some texts s : texts <> [] -> Forall (fun t => program_text s t.1 t.2) texts -> output_of texts <> [].
Proof. destruct 2 as [|[ptr buf] texts [_ _ Hb _ _] _]; [done|]. cbn. by destruct buf. Qed.

Lemma stdout_empty sets names ns : start_space sets names = Some ns -> ns !! stdout_path = Some (EFile NULL 0).
Proof. intros H. eapply start_space_keeps; [exact H|]. vm_compute. reflexivity. Qed.

Lemma keeps_without c s s' : keeps c s s' -> keeps c (without_args s) (without_args s').
Proof. by intros []. Qed.

Lemma started_printed c s ns s1 kids : started c s ns s1 kids -> ns !! stdout_path = Some (EFile NULL 0) ->
  Forall simple stdout_path -> exists x f, node_at (files s1) kids stdout_path = x /\ files s1 !! x = Some f /\ ftype f = FILE /\
    x <> NULL /\ printed 0 s1 s1 STDOUT_FILENO x (access_of O_WRONLY) f [].
Proof.
  intros Hst Hns Hsim. pose proof (sr_out _ _ (sd_streams _ _ _ _ _ Hst)) as [Ho Hx].
  destruct (holds_node _ _ _ _ _ (sd_holds _ _ _ _ _ Hst) Hsim Hns) as (f & Hf & Hft & Hc).
  exists (node_at (files s1) kids stdout_path), f. split_and!; [done|done|done|done|]. apply nothing_printed; [|done..].
  apply (sg_sound _ _ _ (kp_grows _ _ _ (sd_keeps _ _ _ _ _ Hst))).
Qed.

(** The standard streams of a program that printed to one of them. *)
Lemma printed_closable c s0 s kids ns fd x flags f path t :
  holds s0 kids ns -> step c s0 kids s kids -> printed c s0 s fd x flags f t -> Forall simple path ->
  node_at (files s0) kids path = x -> x <> NULL -> closable s0 kids ns -> closable s kids (<[path := EText t]> ns).
Proof.
  intros H Hst [_ (p & y & _ & Ho & Hall & _)] Hsim Hat Hx Hc. eapply (closable_step c s0 kids s kids ns _ fd); [done|done| | | |done].
  - intros cs e He Hfile. destruct (decide (cs = path)) as [->|]; [exists (EText t); by rewrite lookup_insert_eq|].
    exists e. by rewrite lookup_insert_ne.
  - intros k Hk. rewrite Hall. apply zlookup_insert_ne; [|by intros <-].
    apply zlookup_range in Ho. lia.
  - right. right. exists (OpenFile x y 0 flags), path, (EText t). rewrite lookup_insert_eq. split_and!; [done..|].
    rewrite (st_stable _ _ _ _ _ Hst path Hsim); by rewrite Hat.
Qed.

(** The whole program. *)
Definition printer (texts : list (Z * list Z)) (code : Z) (_ _ : Z) : prog (shim M) Z :=
  let! _ := print_all STDOUT_FILENO texts in ret code.

Context (libc_init_array libc_fini_array fcloseall : prog (shim M) unit).

(** C10: What a program prints reaches the platform.  The constructors and
    destructors leave the files alone, [fcloseall] closes descriptors of the
    standard streams and has no buffered data, there is enough memory, and the names of
    files end in the memory of their nodes, which [create_file] does not see to
    ([can_start]).  The program writes the
    texts to the standard output and returns [code].  The process ends with
    [code], and for every output set the platform finds the files below the
    directory of the set's name; with the set [stdio] that is the file [stdout],
    and its content is the texts, one after the other. *)
Theorem prints_reach_platform r input_bytes ins outs sets names ns n trees texts code w :
  let s := fs_start r input_bytes in
  quiet libc_init_array (fun _ => True) -> quiet libc_fini_array (fun _ => True) -> closes_streams fcloseall ->
  sh_fs w = s -> can_start s ins outs sets names -> start_space sets names = Some ns ->
  texts <> [] -> Forall (fun t => program_text s t.1 t.2) texts -> Z.of_nat (length (output_of texts)) < 2 ^ 62 ->
  can_pass n (start_cost sets names + prints_cost texts) s outs sets names
    (<[stdout_path := EText (output_of texts)]> ns) trees ->
  wp (run libc_init_array libc_fini_array fcloseall (printer texts code)) (fun _ w' =>
    sys_exited (rt_sys (fs_rt (sh_fs w'))) = true /\ sys_code (rt_sys (fs_rt (sh_fs w'))) = code /\
    exists bufss, handed_over (sh_fs w') outs bufss trees) w.
Proof.
  intros s Hinit Hfini Hclose Hw Hcan Hns Hne Htexts Hlen Hp. eapply whole_run_spec with (ns := ns) (after := <[stdout_path := EText (output_of texts)]> ns); try done.
  2: { intros cs d k. rewrite lookup_insert_Some. by intros [[_ ?]|[_ ?]]. }
  intros c v w1 kids Hst. assert (Hsim : Forall simple stdout_path) by (apply (bool_decide_eq_true_1 _); vm_compute; reflexivity).
  destruct (started_printed _ _ _ _ _ Hst (stdout_empty _ _ _ Hns) Hsim) as (x & f & Hat & Hf & Hft & Hx & Hpr).
  pose proof (sd_keeps _ _ _ _ _ Hst) as Hk. pose proof (sg_room _ _ _ (kp_grows _ _ _ Hk)) as Hroom.
  assert (Ht : Forall (fun t => program_text (sh_fs w1) t.1 t.2) texts).
  { eapply Forall_impl; [exact Htexts|]. intros [ptr buf] Hb. by destruct (program_text_keeps _ _ (without_args (sh_fs w1)) ptr buf Hk Hb). }
  apply wp_bind. eapply wp_mono.
  { apply (print_all_spec (sh_fs w1) STDOUT_FILENO x (access_of O_WRONLY) f) with (c := 0) (t := []); try done.
    - apply (sg_sound _ _ _ (kp_grows _ _ _ Hk)).
    - exact (keeps_first _ _ _ Hk (cs_first _ _ _ _ _ Hcan)).
    - pose proof (pa_room _ _ _ _ _ _ _ _ Hp) as Hr. pose proof (pass_cost_pos _ _ _ _ _ _ _ _ Hp). fold s in Hroom.
      change (rt_sys (fs_rt (without_args (sh_fs w1)))) with (rt_sys (fs_rt (sh_fs w1))) in Hroom. lia. }
  intros [] w2 [_ Hpr2]. apply wp_ret. split_and!; [done|exists kids|].
  - destruct (holds_printed _ (sh_fs w1) _ kids ns stdout_path x STDOUT_FILENO (access_of O_WRONLY) f _
      (sd_holds _ _ _ _ _ Hst) Hsim Hat Hf Hft Hpr2) as [Hh2 Hst2]; [by apply (output_some _ s)|done|]. split; [exact Hh2|].
    eapply printed_closable; [apply Hst|exact Hst2|exact Hpr2|done|done|done|by eapply started_closable].
  - eapply then_keeps; [exact Hk|]. apply keeps_without. exact (pd_keeps _ _ _ _ _ _ _ _ Hpr2).
Qed.
End printing.

(** * A program that says hello *)

Module PrintDemo.
Import InputDemo PassDemo.

Definition hello : list Z := chars "Hello, world" ++ [10].
Definition space_after : dirmap := <[stdout_path := EText hello]> space.

Lemma hello_trees_found : Forall2 (set_trees (descriptions (bytes fs0) space_after)) names (trees hello).
Proof. finds_trees. Qed.

Lemma ready_to_print : can_pass 4 (start_cost sets names + prints_cost texts) fs0 outs sets names space_after (trees hello).
Proof. passes hello_trees_found. Qed.

Lemma texts_outside : Forall (fun t => program_text fs0 t.1 t.2) texts.
Proof.
  assert (H : region platform_bytes 340 (chars "Hello, ") /\ region platform_bytes 350 (chars "world" ++ [10])) by (split; solve_region).
  destruct H as [H1 H2]. apply Forall_cons_2; [|apply Forall_cons_2; [|constructor]]; (split; [done|cbn; lia|done|cbn; lia|right; left; vm_compute; done]).
Qed.
End PrintDemo.
#[local] Existing Instance InputDemo.used_machine.

Lemma prints_reach_platform_witness :
  wp (run PassDemo.nothing PassDemo.nothing PassDemo.close_standard (printer PassDemo.texts 0)) (fun _ w' =>
    sys_exited (rt_sys (fs_rt (sh_fs w'))) = true /\ sys_code (rt_sys (fs_rt (sh_fs w'))) = 0 /\
    exists bufss, Forall2 (shows (sh_fs w')) bufss
        [[(chars "a/x", chars "1234"); (chars "b", chars "ok")]; [];
         [(chars "stderr", []); (chars "stdout", chars "Hello, world" ++ [10])]] /\
      raw_output (fs_rt (sh_fs w')) = flat_bufs (zip_with add_bufs PassDemo.outs bufss)) PassDemo.program.
Proof.
  assert (E : map items_of (PassDemo.trees PrintDemo.hello) =
    [[(chars "a/x", chars "1234"); (chars "b", chars "ok")]; [];
     [(chars "stderr", []); (chars "stdout", chars "Hello, world" ++ [10])]]) by (vm_compute; reflexivity).
  rewrite <-E. eapply wp_mono.
  { apply (prints_reach_platform PassDemo.nothing PassDemo.nothing PassDemo.close_standard PassDemo.rt
      PassDemo.platform_bytes PassDemo.ins PassDemo.outs PassDemo.sets PassDemo.names PassDemo.space 4 (PassDemo.trees PrintDemo.hello)
      PassDemo.texts 0 PassDemo.program PassDemo.nothing_quiet PassDemo.nothing_quiet PassDemo.standard_closed eq_refl
      PassDemo.pass_ready_to_start PassDemo.pass_space_run).
    - done.
    - exact PrintDemo.texts_outside.
    - vm_compute. done.
    - exact PrintDemo.ready_to_print. }
  intros _ w' (H1 & H2 & bufss & Hs & _ & Hraw). split_and!; [done|done|]. exists bufss. by split.
Defined.
