(* ===== verification/CallTheorems.v ===== *)
(** Programs that read inputs, make directories and write files: the calls of
    src/newlib_shim/shim.c on the map from paths to entries, with their results
    and [errno], and what the platform gets of it at the end. *)
From S2P Require Import Prelude Bytes Heap Alloc AllocSession AllocTheorems System RuntimeIO RuntimeTree RuntimeInit RuntimeOutput RuntimeExit Paths PathSpec FsStore FileSystem FsImpl FsLemmas FsTree FsResolve FsData FsWrite FsSeek FsExport FsExportNode FsTerminate FsNames FsSpace FsDirs FsInput FsClose FsInit FsArgs FsStart FsShape FsPrint FsDemo FsNodeTheorems Shim ExportTheorems InputTheorems FsCalls LifeTheorems FsFetch PrintTheorems.

(** * Programs *)

(** What a program does with the file system, and what it does next:
    - it ends with a code;
    - it makes a directory, and looks at the result;
    - it opens a path, reads the file into fresh memory and closes it, and looks
      at what it got, if anything;
    - it opens a path that is not there yet, writes texts to it, which it has or
      read before, and closes it.
    The texts are given by their numbers, in the order in which the program got
    hold of them. *)
Inductive task :=
| Finish (code : Z)
| Mkdir (t : list Z) (omode : Z) (k : Z -> task)
| Fetch (t : list Z) (want : Z) (k : option (list Z) -> task)
| Output (t : list Z) (flags omode : Z) (parts : list nat) (k : task).

Definition c_str (t : list Z) : list Z := t ++ [NUL].
Definition pick {A} (a : A) (l : list A) (parts : list nat) : list A := map (fun i => nth i l a) parts.

(** ** As a C program

    [bufs] are the addresses and contents of the texts. *)
Section run.
Context {M : Type} {HS : System M} {HM : Machine}.

Fixpoint run_task (bufs : list (Z * list Z)) (T : task) : prog (shim M) Z :=
  match T with
  | Finish code => ret code
  | Mkdir t omode k => let! r := mkdir (c_str t) omode in run_task bufs (k r)
  | Fetch t want k =>
      let! b := fetch (c_str t) want in
      match b with
      | None => run_task bufs (k None)
      | Some b => run_task (bufs ++ [b]) (k (Some b.2))
      end
  | Output t flags omode parts k =>
      let! fd := open (c_str t) flags omode in
      let! _ := print_all fd (pick (NULL, []) bufs parts) in
      let! _ := close fd in run_task bufs k
  end.

(** ** On the map

    The texts, the map and [errno] before; the code, the map and [errno]
    afterwards, and the memory that is taken at most.  [m] are the bytes of the
    platform, [ended] says for which lengths a name ends in the memory of a new
    node.  [None] when the program does what this description does not cover: a new
    file whose name does not end, a path that is too long, that ends in a slash or whose components are dots or
    do not fit into a node, a read of something that is no file, of an empty file
    or of one that is longer than the buffer, an output that is empty, or to a path
    that is there or below something that is no directory. *)
Definition path_fits (t : list Z) : bool :=
  bool_decide (Forall (fun c => c <> NUL) t) && bool_decide (file_path t) &&
  bool_decide (Forall (fun c => simple c /\ (length c < 64)%nat) (components t)) && (Z.of_nat (length t) <? FS_PATH_LENGTH).
Definition makes_file (flags omode : Z) : bool :=
  has flags O_CREAT && negb (has flags O_TRUNC) && has omode S_IWUSR && negb (has (access_of flags) O_APPEND).

Definition text_fits (l : list Z) : bool := (0 <? Z.of_nat (length l)) && (Z.of_nat (length l) <? 2 ^ 31 - 4096).
Definition texts_cost (ls : list (list Z)) : Z := foldr (fun l c => print_cost (Z.of_nat (length l)) + c) 0 ls.

Definition add_cost (c : Z) (r : option (Z * Z * dirmap * Z)) : option (Z * Z * dirmap * Z) :=
  match r with Some (cost, code, ns, e) => Some (c + cost, code, ns, e) | None => None end.

(** The content of an entry that is a file. *)
Definition content_in (m : gmap Z Z) (e : entry) : option (list Z) :=
  match e with
  | EFile d n => Some (text_at m d n)
  | EText u => Some u
  | _ => None
  end.

Context (ended : nat -> bool).
Definition name_ends (t : list Z) : bool := match last (components t) with Some nm => ended (length nm) | None => true end.

Fixpoint perform (m : gmap Z Z) (ls : list (list Z)) (ns : dirmap) (e : Z) (T : task) : option (Z * Z * dirmap * Z) :=
  match T with
  | Finish code => Some (0, code, ns, e)
  | Mkdir t omode k =>
      if path_fits t then
        let '(code, ns) := make_dir t ns in
        add_cost dir_cost (if code <? 0 then perform m ls ns (- code) (k (-1)) else perform m ls ns e (k 0))
      else None
  | Fetch t want k =>
      if path_fits t && (want <? 2 ^ 31 - 4096) then
        match ns !! components t with
        | None => perform m ls ns ENOENT (k None)
        | Some en =>
            match content_in m en with
            | Some l =>
                if (0 <? Z.of_nat (length l)) && (Z.of_nat (length l) <=? want)
                then add_cost (sys_cost want) (perform m (ls ++ [l]) ns e (k (Some l)))
                else None
            | None => None
            end
        end
      else None
  | Output t flags omode parts k =>
      let texts := pick [] ls parts in
      if path_fits t && name_ends t && makes_file flags omode && bool_decide (parts <> []) && forallb (fun i => (i <? length ls)%nat) parts &&
         forallb text_fits texts && (Z.of_nat (length (concat texts)) <? 2 ^ 62)
      then
        match create t (EText (concat texts)) ns with
        | Some ns => add_cost (create_cost t + texts_cost texts) (perform m ls ns e k)
        | None => None
        end
      else None
  end.
End run.
(** * What the description says of the map *)

(** Files made of a buffer come from the set-up only. *)
Lemma mkdirs_only ds : forall base ns ns' cs e, mkdirs base ds ns = Some ns' -> ns' !! cs = Some e -> e <> EDir -> ns !! cs = Some e.
Proof.
  induction ds as [|d ds IH]; intros base ns ns' cs e; cbn [mkdirs]; [by intros [= <-]|].
  destruct (ns !! (base ++ [d])) as [[]|] eqn:E; [apply IH|done..|]. intros H Hcs He.
  specialize (IH _ _ _ _ _ H Hcs He). rewrite lookup_insert_ne in IH; [done|]. intros <-. rewrite lookup_insert_eq in IH. congruence.
Qed.
Lemma create_only t l ns ns' cs d n : create t (EText l) ns = Some ns' -> ns' !! cs = Some (EFile d n) -> ns !! cs = Some (EFile d n).
Proof.
  unfold create. destruct (mkdirs _ _ _) as [ns1|] eqn:E; [|done]. intros [_ ->]%put_spec.
  rewrite lookup_insert_Some. intros [[_ ?]|[_ Hcs]]; [done|]. by eapply mkdirs_only.
Qed.
Lemma make_dir_only t ns cs d n : (make_dir t ns).2 !! cs = Some (EFile d n) -> ns !! cs = Some (EFile d n).
Proof.
  unfold make_dir. destruct (ns !! removelast _) as [[]|]; cbn [snd]; [|done..]. destruct (ns !! components t); [done|].
  cbn [snd]. rewrite lookup_insert_Some. by intros [[_ ?]|[_ ?]].
Qed.
Lemma make_dir_code t ns : (make_dir t ns).1 = 0 \/ -2 ^ 31 < (make_dir t ns).1 < 0.
Proof.
  unfold make_dir. destruct (ns !! removelast _) as [[]|]; cbn [fst]; [destruct (ns !! _); cbn [fst]|..];
    first [by left|right; vm_compute; done].
Qed.
Lemma make_dir_keeps t ns cs e : ns !! cs = Some e -> (make_dir t ns).2 !! cs = Some e.
Proof.
  intros H. unfold make_dir. destruct (ns !! removelast _) as [[]|]; cbn; [|done..].
  destruct (ns !! components t) eqn:E; [done|]. cbn. rewrite lookup_insert_ne; [done|]. congruence.
Qed.

Lemma path_fits_spec t : path_fits t = true -> call_path (c_str t) t.
Proof.
  unfold path_fits. rewrite !andb_true_iff, !bool_decide_eq_true, Z.ltb_lt. intros [[[H1 H2] H3] H4].
  split; [split; [by exists []|done|done]|done|done].
Qed.

(** * The descriptors *)

Lemma lowest_free_insert fd o l : lowest_free 0 l = Some fd -> of_file o = NULL -> lowest_free 0 (zinsert fd o l) = Some fd.
Proof.
  enough (H : forall i, 0 <= i -> lowest_free i l = Some fd -> of_file o = NULL -> lowest_free i (zinsert (fd - i) o l) = Some fd).
  { intros Hl Ho. rewrite <-(Z.sub_0_r fd) at 1. by apply H. }
  induction l as [|a l IH]; intros i Hi; cbn [lowest_free]; [done|].
  destruct (of_file a =? NULL) eqn:E.
  - intros [= <-] Ho. rewrite Z.sub_diag. change (zinsert 0 o (a :: l)) with (o :: l).
    cbn [lowest_free]. by rewrite Ho.
  - intros Hl Ho. destruct (lowest_free_spec (i + 1) l fd ltac:(lia) Hl) as [Hr _]. unfold zinsert.
    replace (Z.to_nat (fd - i)) with (S (Z.to_nat (fd - (i + 1)))) by lia.
    cbn [insert list_insert lowest_free]. rewrite E. apply IH; [lia|done|done].
Qed.

(** * The program does what the description says *)

Section programs.
Context {M : Type} {HS : System M} {HM : Machine} (ended : nat -> bool).
Implicit Types s : fs M.

Lemma texts_cost_pos ls : forallb text_fits ls = true -> 0 <= texts_cost ls.
Proof.
  induction ls as [|l ls IH]; cbn [texts_cost foldr forallb]; [lia|]. rewrite andb_true_iff. intros [[H1 H2]%andb_true_iff H%IH].
  apply Z.ltb_lt in H1, H2. pose proof (print_cost_pos (Z.of_nat (length l)) ltac:(lia)). unfold texts_cost in H. lia.
Qed.
Lemma prints_cost_texts texts : prints_cost texts = texts_cost (map snd texts).
Proof. induction texts as [|[ptr l] texts IH]; [done|]. cbn [prints_cost foldr map texts_cost snd]. unfold prints_cost, texts_cost in IH. by rewrite IH. Qed.
Lemma create_cost_pos t : 0 <= create_cost t.
Proof. unfold create_cost. pose proof file_cost_pos. pose proof dir_cost_pos. lia. Qed.

Lemma add_cost_some c r cost code ns e : add_cost c r = Some (cost, code, ns, e) ->
  exists rest, r = Some (rest, code, ns, e) /\ cost = c + rest.
Proof. destruct r as [[[[rest code'] ns'] e']|]; [|done]. cbn. intros [= <- <- <- <-]. by exists rest. Qed.

(** What a description of each kind of call comes to. *)
Lemma perform_mkdir m ls ns e t omode k cost code after e' :
  perform ended m ls ns e (Mkdir t omode k) = Some (cost, code, after, e') -> call_path (c_str t) t /\
  exists rest, cost = dir_cost + rest /\
    (let r := (make_dir t ns).1 in
     perform ended m ls (make_dir t ns).2 (if r <? 0 then - r else e) (k (if r <? 0 then -1 else 0)) = Some (rest, code, after, e')).
Proof.
  cbn [perform]. destruct (path_fits t) eqn:Hfit; [|done]. destruct (make_dir t ns) as [r ns1]. intros (rest & Hr & ->)%add_cost_some.
  split; [by apply path_fits_spec|]. exists rest. cbn. by destruct (r <? 0).
Qed.
Lemma perform_fetch m ls ns e t want k cost code after e' :
  perform ended m ls ns e (Fetch t want k) = Some (cost, code, after, e') -> call_path (c_str t) t /\ want < 2 ^ 31 - 4096 /\
  (ns !! components t = None /\ perform ended m ls ns ENOENT (k None) = Some (cost, code, after, e') \/
   exists en l rest, ns !! components t = Some en /\ content_in m en = Some l /\ 0 < Z.of_nat (length l) <= want /\
     cost = sys_cost want + rest /\ perform ended m (ls ++ [l]) ns e (k (Some l)) = Some (rest, code, after, e')).
Proof.
  cbn [perform]. destruct (_ && _) eqn:Hfit; [|done]. apply andb_true_iff in Hfit as [Hfit Hw%Z.ltb_lt].
  intros H. split_and!; [by apply path_fits_spec|done|]. destruct (ns !! components t) as [en|]; [|by left].
  right. destruct (content_in m en) as [l|] eqn:Hl; [|done]. destruct (_ && _) eqn:Hn; [|done]. apply andb_true_iff in Hn as [?%Z.ltb_lt ?%Z.leb_le].
  apply add_cost_some in H as (rest & Hr & ->). by exists en, l, rest.
Qed.
Lemma perform_output m ls ns e t flags omode parts k cost code after e' :
  let texts := pick [] ls parts in
  perform ended m ls ns e (Output t flags omode parts k) = Some (cost, code, after, e') ->
  (call_path (c_str t) t /\ name_ends ended t = true) /\
  (new_file_flags flags omode /\ has (access_of flags) O_APPEND = false) /\
  (parts <> [] /\ forallb (fun i => (i <? length ls)%nat) parts = true /\ forallb text_fits texts = true /\
   Z.of_nat (length (concat texts)) < 2 ^ 62) /\
  exists ns1 rest, create t (EText (concat texts)) ns = Some ns1 /\ cost = create_cost t + texts_cost texts + rest /\
    perform ended m ls ns1 e k = Some (rest, code, after, e').
Proof.
  intros texts. cbn [perform]. fold texts. destruct (_ && _) eqn:Hfit; [|done].
  apply andb_true_iff in Hfit as [[[[[[Hfit Hend]%andb_true_iff Hflags]%andb_true_iff Hne%bool_decide_eq_true]%andb_true_iff Hin]%andb_true_iff Htf]%andb_true_iff Hw%Z.ltb_lt].
  destruct (create _ _ _) as [ns1|] eqn:E; [|done]. intros (rest & Hr & ->)%add_cost_some.
  apply andb_true_iff in Hflags as [[[H1 H2%negb_true_iff]%andb_true_iff H3]%andb_true_iff H4%negb_true_iff].
  split_and!; try done; [by apply path_fits_spec|]. by exists ns1, rest.
Qed.

Lemma perform_cost_pos m T : forall ls ns e cost code after e', perform ended m ls ns e T = Some (cost, code, after, e') -> 0 <= cost.
Proof.
  induction T as [code0|t omode k IH|t want k IH|t flags omode parts T IH]; intros ls ns e cost code after e'.
  - by intros [= <- _ _ _].
  - intros (_ & rest & -> & Hr%IH)%perform_mkdir. pose proof dir_cost_pos. lia.
  - intros (_ & Hw & [[_ Hr%IH]|(en & l & rest & _ & _ & Hn & -> & Hr%IH)])%perform_fetch; [done|].
    pose proof (sys_cost_nonneg want ltac:(lia)). lia.
  - intros (_ & _ & (_ & _ & Ht & _) & ns1 & rest & _ & -> & Hr%IH)%perform_output.
    pose proof (create_cost_pos t). pose proof (texts_cost_pos _ Ht). lia.
Qed.

Lemma perform_only m T : forall ls ns e cost code after e', perform ended m ls ns e T = Some (cost, code, after, e') ->
  forall cs d n, after !! cs = Some (EFile d n) -> ns !! cs = Some (EFile d n).
Proof.
  induction T as [code0|t omode k IH|t want k IH|t flags omode parts T IH]; intros ls ns e cost code after e'.
  - by intros [= _ _ <- _].
  - intros (_ & rest & _ & Hr)%perform_mkdir cs d n Hcs. by eapply make_dir_only, IH.
  - intros (_ & _ & [[_ Hr]|(en & l & rest & _ & _ & _ & _ & Hr)])%perform_fetch; by eapply IH.
  - intros (_ & _ & _ & ns1 & rest & Hc & _ & Hr)%perform_output cs d n Hcs. eapply create_only; [exact Hc|]. by eapply IH.
Qed.

(** Code, map and cost do not depend on the [errno] at the beginning. *)
Lemma perform_errno m T : forall ls ns e1 e2 cost code after e', perform ended m ls ns e1 T = Some (cost, code, after, e') ->
  exists e, perform ended m ls ns e2 T = Some (cost, code, after, e).
Proof.
  induction T as [code0|t omode k IH|t want k IH|t flags omode parts T IH]; intros ls ns e1 e2 cost code after e'; cbn [perform].
  - intros [= <- <- <- _]. by eexists.
  - destruct (path_fits t); [|done]. destruct (make_dir t ns) as [r ns1].
    intros (rest & Hr & ->)%add_cost_some. destruct (r <? 0); eapply IH in Hr as [e ->]; by eexists.
  - destruct (_ && _); [|done]. destruct (ns !! components t) as [en|]; [|apply IH].
    destruct (content_in m en) as [l|]; [|done]. destruct (_ && _); [|done]. intros (rest & Hr & ->)%add_cost_some. eapply IH in Hr as [e ->]. by eexists.
  - destruct (_ && _); [|done]. destruct (create _ _ _) as [ns1|]; [|done]. intros (rest & Hr & ->)%add_cost_some.
    eapply IH in Hr as [e ->]. by eexists.
Qed.

(** ** A state between two calls

    The file system is the map [ns], the texts are [bufs], [fd] is the first
    descriptor that is free, and at most [c] bytes were taken since [s0]. *)
Record between (m : gmap Z Z) (c : Z) s0 s (bufs : list (Z * list Z)) (ns : dirmap) (fd : Z) : Prop := {
  bt_holds : exists kids, holds s kids ns /\ closable s kids ns;
  bt_root : ns !! [] = Some EDir;
  bt_keeps : keeps c s0 s;
  bt_open : Z.of_nat (length (open_files s)) = FS_MAX_FILES;
  bt_free : lowest_free 0 (open_files s) = Some fd;
  bt_data cs d n : ns !! cs = Some (EFile d n) -> data_ok s0 d n /\ text_at (bytes s0) d n = text_at m d n;
  bt_texts : Forall (fun b => program_text s b.1 b.2) bufs;
}.

Lemma texts_keep c s s' bufs : keeps c s s' ->
  Forall (fun b => program_text s b.1 b.2) bufs -> Forall (fun b => program_text s' b.1 b.2) bufs.
Proof. intros Hk H. eapply Forall_impl; [exact H|]. intros [ptr buf]. by apply (program_text_keeps c). Qed.

Lemma pick_in {A} (a : A) (P : A -> Prop) l parts :
  forallb (fun i => (i <? length l)%nat) parts = true -> Forall P l -> Forall P (pick a l parts).
Proof.
  rewrite forallb_forall. intros Hi Hl. apply Forall_forall. intros x Hx. apply list_elem_of_In, in_map_iff in Hx as (i & <- & Hin).
  specialize (Hi i Hin). apply Nat.ltb_lt in Hi. rewrite Forall_forall in Hl. apply Hl, list_elem_of_In, nth_In, Hi.
Qed.
Lemma pick_map {A B} (f : A -> B) a l parts : map f (pick a l parts) = pick (f a) (map f l) parts.
Proof. unfold pick. rewrite map_map. apply map_ext. intros i. symmetry. apply map_nth. Qed.

Lemma between_next m c d s0 s s' bufs ns ns' kids kids' fd :
  between m c s0 s bufs ns fd -> holds s kids ns -> closable s kids ns -> holds s' kids' ns' ->
  (forall cs e, ns !! cs = Some e -> ns' !! cs = Some e) -> step d s kids s' kids' ->
  (open_files s' = open_files s \/ exists o, of_file o = NULL /\ open_files s' = zinsert fd o (open_files s)) ->
  (forall cs d n, ns' !! cs = Some (EFile d n) -> ns !! cs = Some (EFile d n)) ->
  between m (c + d) s0 s' bufs ns' fd.
Proof.
  intros [_ Hr Hk Hlen Hfree Hdata Hb] Hh Hc Hh' Hstay Hst' Ho Honly. pose proof (st_keeps _ _ _ _ _ Hst') as Hk'.
  destruct (lowest_free_spec 0 _ _ ltac:(lia) Hfree) as (Hfd & _ & _).
  split; [exists kids'; split; [done|]|by apply Hstay|by eapply then_keeps|..].
  - eapply (closable_step d s kids s' kids' ns ns' fd); [done|done|by apply files_grow| | |done].
    + intros k Hkf. destruct Ho as [-> |(o & _ & ->)]; [done|]. apply zlookup_insert_ne; [lia|by intros <-].
    + destruct Ho as [-> |(o & Hz & E)]; [by left|right; left]. exists o. rewrite E. split; [|done]. apply zlookup_insert_eq. lia.
  - destruct Ho as [-> |(o & _ & ->)]; [done|by rewrite zinsert_length].
  - destruct Ho as [-> |(o & Hz & ->)]; [done|by apply lowest_free_insert].
  - intros cs p n Hcs. by eapply Hdata, Honly.
  - by eapply texts_keep.
Qed.

Section session.
Context (m : gmap Z Z) (s0 : fs M) (Hfirst : first_live s0) (Hz : forall n, ended n = true -> ends n).
Notation room := (sys_room (rt_sys (fs_rt s0))).

Lemma mkdir_step c t omode bufs ns fd w :
  call_path (c_str t) t -> c + dir_cost <= room -> between m c s0 (sh_fs w) bufs ns fd ->
  let r := (make_dir t ns).1 in
  wp (mkdir (c_str t) omode) (fun r' w' => r' = (if r <? 0 then -1 else 0) /\ errno w' = (if r <? 0 then - r else errno w) /\
    between m (c + dir_cost) s0 (sh_fs w') bufs (make_dir t ns).2 fd) w.
Proof.
  intros Hpath Hroom Hb r. pose proof Hb as [(kids & Hh & Hc) Hroot Hk Hlen Hfree _ _]. apply wp_bind, wp_zoom.
  pose proof (sg_room _ _ _ (kp_grows _ _ _ Hk)) as Hr.
  eapply (mkdir_spec _ kids ns); [done|apply (sg_sound _ _ _ (kp_grows _ _ _ Hk))|by eapply keeps_first|done|lia|].
  intros s' kids' Hst Hh' Ho' _. fold r. pose proof (make_dir_code t ns) as Hcode. fold r in Hcode.
  assert (Hb' : between m (c + dir_cost) s0 s' bufs (make_dir t ns).2 fd).
  { eapply between_next; [exact Hb|exact Hh|exact Hc|exact Hh'|by apply make_dir_keeps|exact Hst|by left|apply make_dir_only]. }
  unfold process_error. rewrite int32_small by lia. destruct (r <? 0) eqn:E.
  - apply wp_bind, wp_modify, wp_ret. apply Z.ltb_lt in E. split_and!; [done|cbn; rewrite int32_small by lia; done|done].
  - apply wp_ret. apply Z.ltb_ge in E. split_and!; [lia|done|done].
Qed.

Lemma content_found c bufs ns fd s cs e l :
  between m c s0 s bufs ns fd -> ns !! cs = Some e -> content_in m e = Some l -> contents_of s e l.
Proof.
  intros [_ _ Hk _ _ Hdata _] Hent. destruct e as [|d n|u|]; cbn [content_in]; try done; [|by intros [= ->]].
  destruct (Hdata _ _ _ Hent) as [Hd Ht]. rewrite <-Ht. intros [= <-].
  split; [by eapply data_keeps|symmetry; by eapply text_keeps].
Qed.

Lemma fetch_step c t want bufs ns fd e l w :
  call_path (c_str t) t -> ns !! components t = Some e -> content_in m e = Some l -> 0 < Z.of_nat (length l) <= want ->
  want < 2 ^ 31 - 4096 -> c + sys_cost want <= room -> between m c s0 (sh_fs w) bufs ns fd ->
  wp (fetch (c_str t) want) (fun b w' => exists p, b = Some (p, l) /\ errno w' = errno w /\
    between m (c + sys_cost want) s0 (sh_fs w') (bufs ++ [(p, l)]) ns fd) w.
Proof.
  intros Hpath Hent Hl Hn Hw Hroom Hb. pose proof Hb as [(kids & Hh & Hc) Hroot Hk Hlen Hfree _ _].
  pose proof (sg_room _ _ _ (kp_grows _ _ _ Hk)) as Hr.
  eapply (fetch_spec w kids ns (c_str t) t e l want fd); [exact Hh|apply (sg_sound _ _ _ (kp_grows _ _ _ Hk))|by eapply keeps_first
    |apply Hpath|by eapply dir_simple, cp_names|exact Hent|by eapply content_found|intros ->; cbn in Hn; lia|lia|done|done|done|lia|].
  intros p w' He Hh' Hst Ho Htext. exists p. split_and!; [done|done|].
  assert (Hb' : between m (c + sys_cost want) s0 (sh_fs w') bufs ns fd).
  { eapply between_next; [exact Hb|exact Hh|exact Hc|exact Hh'|done|exact Hst|by right|done]. }
  destruct Hb' as [H1 H2 H3 H4 H5 H6 H7]. split; [done..|]. apply Forall_app. by split; [|constructor].
Qed.

Lemma missing_step c t want bufs ns fd w :
  call_path (c_str t) t -> ns !! components t = None -> between m c s0 (sh_fs w) bufs ns fd ->
  wp (fetch (c_str t) want) (fun b w' => b = None /\ errno w' = ENOENT /\ between m c s0 (sh_fs w') bufs ns fd) w.
Proof.
  intros Hpath Hnone Hb. pose proof Hb as [(kids & Hh & Hc) _ _ _ _ _ _]. apply wp_bind, wp_bind, wp_zoom.
  eapply (open_missing_spec _ kids ns); [exact Hh|apply Hpath|by eapply dir_simple, cp_names|done|].
  unfold process_error. change (int32 (- ENOENT) <? 0) with true. cbn iota. apply wp_bind, wp_modify, wp_ret.
  change (-1 <? 0) with true. cbn iota. by apply wp_ret.
Qed.

Lemma output_step {A} c t flags omode parts bufs ns fd ns1 (K : prog (shim M) A) Q w :
  let texts := pick (NULL, []) bufs parts in
  let cost := create_cost t + texts_cost (map snd texts) in
  call_path (c_str t) t -> name_ends ended t = true -> new_file_flags flags omode -> has (access_of flags) O_APPEND = false ->
  parts <> [] -> forallb (fun i => (i <? length bufs)%nat) parts = true -> forallb text_fits (map snd texts) = true ->
  Z.of_nat (length (output_of texts)) < 2 ^ 62 -> create t (EText (output_of texts)) ns = Some ns1 ->
  c + cost <= room -> between m c s0 (sh_fs w) bufs ns fd ->
  (forall w', errno w' = errno w -> between m (c + cost) s0 (sh_fs w') bufs ns1 fd -> wp K Q w') ->
  wp (let! fd := open (c_str t) flags omode in let! _ := print_all fd texts in let! _ := close fd in K) Q w.
Proof.
  intros texts cost Hpath Hend Hflags Happ Hparts Hin Hfits Hsmall Hcr Hroom Hb HK.
  pose proof Hb as [(kids & Hh & Hc) Hroot Hk Hlen Hfree _ Hbufs]. pose proof (sg_room _ _ _ (kp_grows _ _ _ Hk)) as Hr.
  assert (Htexts : Forall (fun t => program_text (sh_fs w) t.1 t.2) texts) by by apply pick_in.
  assert (Hne : texts <> []) by by destruct parts. pose proof (texts_cost_pos _ Hfits) as Hpc. unfold cost in *. clear cost.
  rewrite <-prints_cost_texts in *.
  pose proof (dir_simple _ (cp_names _ _ Hpath)) as Hsim.
  pose proof (create_other _ _ (EFile NULL 0) _ _ Hcr) as Hcr0. pose proof (create_here _ _ _ _ Hcr) as Hhere.
  destruct (lowest_free_spec 0 _ _ ltac:(lia) Hfree) as (Hfd & _ & _). rewrite Hlen in Hfd. unfold FS_MAX_FILES in Hfd.
  assert (Hz1 : path_ends t) by (intros nm E; apply Hz; unfold called in E; unfold name_ends in Hend; by rewrite E in Hend).
  apply wp_bind, wp_bind, wp_zoom.
  eapply (open_new_spec _ kids ns); [done|apply (sg_sound _ _ _ (kp_grows _ _ _ Hk))|by eapply keeps_first|exact Hz1|done|done|done|done|lia|done|done|].
  intros s1 kids1 x f Hst1 Hh1 Ho1 Hat Hx Hf Hft Hcn Hhl. apply wp_process; [lia|].
  pose proof (st_keeps _ _ _ _ _ Hst1) as Hk1. pose proof (sg_room _ _ _ (kp_grows _ _ _ Hk1)) as Hr1.
  assert (Hfd1 : zlookup fd (open_files s1) = Some (OpenFile x NULL 0 (access_of flags))).
  { rewrite Ho1, zlookup_insert_eq; [done|]. rewrite Hlen. unfold FS_MAX_FILES. lia. }
  apply wp_bind. eapply wp_mono.
  { apply (print_all_spec s1 fd x (access_of flags) f) with (c := 0) (t := []); try done; [by eapply step_sound|by eapply keeps_first, keeps_first| |lia|].
    - by eapply texts_keep.
    - apply nothing_printed; [by eapply step_sound|done..]. }
  intros [] w2 [Hew Hpr]. rewrite Z.add_0_l, app_nil_l in Hpr.
  destruct (holds_printed _ s1 _ kids1 _ (components t) x fd (access_of flags) f _ Hh1 Hsim Hat Hf Hft Hpr) as [Hh2 Hst2];
    [by eapply output_some|done|].
  destruct Hpr as [Hk2 (p & y & Hfs & Ho2 & Hall & _)].
  apply wp_bind, wp_bind, wp_zoom. assert (Hf2 : files (sh_fs w2) !! x = Some (set_content p f)) by by rewrite Hfs, lookup_insert_eq.
  eapply (close_spec _ kids1 _ fd _ x (set_content p f)); [exact Hh2|by eapply step_sound|exact Ho2|done|done|exact Hf2|cbn; by rewrite Hhl|].
  intros s3 Hh3 Hst3 Ho3. apply wp_process; [lia|]. apply HK; [exact Hew|].
  change (sh_fs (set_fs s3 w2)) with s3. eapply between_next with (kids' := kids1); [exact Hb|exact Hh|exact Hc| | | | |].
  - rewrite <-(insert_id ns1 (components t) _ Hhere). erewrite <-insert_insert_eq. exact Hh3.
  - intros cs en. by apply (create_keeps _ _ _ _ cs en Hcr).
  - eapply step_mono; [eapply then_step; [exact Hst1|eapply then_step; [exact Hst2|exact Hst3]]|lia].
  - right. exists (OpenFile NULL y 0 (access_of flags)). split; [done|]. by rewrite Ho3, Hall, Ho1, !zinsert_insert.
  - intros cs p0 n0. by eapply create_only.
Qed.

(** The program and its description. *)
Lemma task_spec T : forall c bufs ns fd cost code after e' w,
  perform ended m (map snd bufs) ns (errno w) T = Some (cost, code, after, e') -> c + cost <= room -> between m c s0 (sh_fs w) bufs ns fd ->
  wp (run_task bufs T) (fun r w' => r = code /\ errno w' = e' /\ exists bufs', between m (c + cost) s0 (sh_fs w') bufs' after fd) w.
Proof.
  induction T as [code0|t omode k IH|t want k IH|t flags omode parts T IH]; intros c bufs ns fd cost code after e' w Hp Hroom Hb; cbn [run_task].
  - injection Hp as <- <- <- <-. apply wp_ret. rewrite Z.add_0_r. split_and!; [done|done|by exists bufs].
  - apply perform_mkdir in Hp as (Hpath & rest & -> & Hp). pose proof (perform_cost_pos _ _ _ _ _ _ _ _ _ Hp).
    apply wp_bind. eapply wp_mono; [by apply (mkdir_step c t omode bufs ns fd); [|lia|]|].
    intros r w1 (-> & He & Hb1). cbv zeta in Hp. rewrite <-He in Hp. rewrite Z.add_assoc. eapply IH; [exact Hp|lia|exact Hb1].
  - apply perform_fetch in Hp as (Hpath & Hw & [[Hnone Hp]|(en & l & rest & Hent & Hl & Hn & -> & Hp)]).
    + apply wp_bind. eapply wp_mono; [by apply (missing_step c t want bufs ns fd)|].
      intros b w1 (-> & He & Hb1). rewrite <-He in Hp. by eapply IH.
    + pose proof (perform_cost_pos _ _ _ _ _ _ _ _ _ Hp).
      apply wp_bind. eapply wp_mono; [by apply (fetch_step c t want bufs ns fd en l); [..|lia|]|].
      intros b w1 (p & -> & He & Hb1). rewrite <-He in Hp. rewrite Z.add_assoc. cbn [snd].
      eapply IH; [by rewrite map_app|lia|exact Hb1].
  - apply perform_output in Hp as ([Hpath Hend] & (Hfl & Happ) & (Hne & Hin & Hfit & Hsm) & ns1 & rest & Hcr & -> & Hp).
    pose proof (perform_cost_pos _ _ _ _ _ _ _ _ _ Hp). rewrite length_map in Hin.
    change (pick [] (map snd bufs) parts) with (pick (NULL, [] : list Z).2 (map snd bufs) parts) in *.
    rewrite <-pick_map in Hfit, Hsm, Hcr, Hroom |- *.
    eapply (output_step c t flags omode parts bufs ns fd ns1); try done; [lia|].
    intros w1 He Hb1. rewrite <-He in Hp. rewrite Z.add_assoc. eapply IH; [exact Hp|lia|exact Hb1].
Qed.
End session.

(** ** From the set-up on *)

Lemma started_between c s sets names ns s1 kids statics :
  started c s ns s1 kids -> start_space sets names = Some ns ->
  (forall st it, item_of sets st it -> data_ok s (ib_data it.2) (ib_data_len it.2)) ->
  Forall (fun b => program_text s b.1 b.2) statics -> between (bytes s) 0 s1 s1 statics ns 3.
Proof.
  intros Hst Hns Hdata Htexts.
  pose proof Hst as [Hh Hk Hin [[Hout Ho] [Herr He] _] Hfree _ _ _].
  destruct (lowest_free_third s1 (leads_valid _ _ _ _ Hh Hin)) as [Hlow Hlen]; [|done|].
  { intros fd [-> | ->]; by eexists. }
  split; [exists kids; split; [done|by eapply started_closable]| | |done|done| |].
  - eapply start_space_keeps; [exact Hns|vm_compute; reflexivity].
  - apply keeps_refl, (sg_sound _ _ _ (kp_grows _ _ _ Hk)).
  - intros cs d n Hcs. pose proof (space_data _ _ _ _ Hns Hdata cs d n Hcs) as Hd.
    pose proof (data_keeps _ _ _ _ _ Hk Hd) as Hd1. split; [exact Hd1|exact (text_keeps _ _ _ _ _ Hk Hd)].
  - eapply Forall_impl; [exact Htexts|]. intros [ptr buf] Hb. by destruct (program_text_keeps _ _ _ _ _ Hk Hb).
Qed.

(** The set-up and the program from it on. *)
Lemma task_after_start r input_bytes ins outs sets names ns statics T w kids e cost code after e' :
  let s := fs_start r input_bytes in
  can_start s ins outs sets names -> (forall n, ended n = true -> ends n) -> start_space sets names = Some ns ->
  (forall st it, item_of sets st it -> data_ok s (ib_data it.2) (ib_data_len it.2)) ->
  Forall (fun b => program_text s b.1 b.2) statics ->
  started (start_cost sets names) s ns (sh_fs w) kids -> errno w = e ->
  start_cost sets names + cost <= sys_room (rt_sys (fs_rt s)) ->
  perform ended (bytes s) (map snd statics) ns e T = Some (cost, code, after, e') ->
  wp (run_task statics T) (fun r w' => r = code /\ errno w' = e' /\ (exists kids', holds (sh_fs w') kids' after /\ closable (sh_fs w') kids' after) /\
    keeps (start_cost sets names + cost) s (without_args (sh_fs w')) /\ lowest_free 0 (open_files (sh_fs w')) = Some 3) w.
Proof.
  intros s Hcan Hz Hns Hdata Htexts Hst <- Hroom Hp. pose proof (sd_keeps _ _ _ _ _ Hst) as Hk.
  pose proof (sg_room _ _ _ (kp_grows _ _ _ Hk)) as Hr.
  change (rt_sys (fs_rt (without_args (sh_fs w)))) with (rt_sys (fs_rt (sh_fs w))) in Hr. fold s in Hr.
  eapply wp_mono.
  { eapply (task_spec (bytes s) (sh_fs w)) with (c := 0) (bufs := statics) (fd := 3).
    - exact (keeps_first _ _ _ Hk (cs_first _ _ _ _ _ Hcan)).
    - exact Hz.
    - exact Hp.
    - lia.
    - by eapply started_between. }
  intros c w' (-> & -> & bufs' & [Hh _ Hk' _ Hfree _ _]). split_and!; try done.
  eapply then_keeps; [exact Hk|]. by apply keeps_without.
Qed.

(** C13: Calls do to the files what they do to the map.  There is enough memory,
    and the names of the files of the set-up and of those the program makes end in the
    memory of their nodes, which [create_file] does not see to ([can_start], [ended]).
    After the set-up a program makes directories, reads inputs and files of its own into fresh
    memory, and writes what it read and what it had to new files, each call chosen
    by the results so far: it gets from every call what [perform] says ([-1] for
    a directory whose parent is missing or no directory or whose path is taken, and
    for a file that is not there, and then the [errno] of shim.c is the code of that; the bytes
    that the platform gave for an input), the tree stays well formed (every
    directory a list of named children in order, every node in one place), every
    path without dots leads to what the map has there afterwards, a file that was
    written to the texts, and the descriptors are free again, the next one being
    3. *)
Theorem programs_follow_map r input_bytes ins outs sets names ns statics T cost code after w e' :
  let s := fs_start r input_bytes in
  sh_fs w = s -> can_start s ins outs sets names -> (forall n, ended n = true -> ends n) -> start_space sets names = Some ns ->
  (forall st it, item_of sets st it -> data_ok s (ib_data it.2) (ib_data_len it.2)) ->
  Forall (fun b => program_text s b.1 b.2) statics ->
  start_cost sets names + cost <= sys_room (rt_sys (fs_rt s)) ->
  perform ended (bytes s) (map snd statics) ns (errno w) T = Some (cost, code, after, e') ->
  wp (let! error := on_fs fs_initialize in
      if negb (error =? 0) then ret (error, 0) else
      let! c := run_task statics T in ret (error, c))
    (fun p w' => p = (0, code) /\ errno w' = e' /\ (exists kids, names_ok (files (sh_fs w')) kids) /\
      (forall str t, c_string str t -> Forall simple (components t) -> exists x, find_file str (sh_fs w') = Ret x (sh_fs w') /\
         match after !! components t with Some en => entry_at (sh_fs w') x en | None => x = NULL end) /\
      lowest_free 0 (open_files (sh_fs w')) = Some 3) w.
Proof.
  intros s Hw Hcan Hz Hns Hdata Htexts Hroom Hp. apply wp_bind, wp_zoom. rewrite Hw. eapply wp_mono; [by eapply fs_initialize_spec|].
  intros error s' (-> & kids & Hst). change (negb (0 =? 0)) with false. cbn iota. apply wp_bind.
  eapply wp_mono; [by eapply (task_after_start r input_bytes ins outs sets names ns statics T (set_fs s' w) kids)|].
  intros c w' (-> & He & (kids' & Hh & _) & _ & Hfree). apply wp_ret. split_and!; [done|done|exists kids'; apply Hh| |done].
  intros str t. by apply (find_entry (sh_fs w') kids').
Qed.

Context (libc_init_array libc_fini_array fcloseall : prog (shim M) unit).

(** C9: What a program makes of its inputs reaches the platform.  The constructors
    and destructors leave the files alone, [fcloseall] closes descriptors of the
    standard streams and has no buffered data, there is enough memory, and the
    names of files end in the memory of their nodes, which [create_file] does not see to
    ([can_start], [ended]).  The process ends
    with the code that the program returns, and for every output set the platform
    finds the files that are below the directory of the set's name in the map that
    [perform] computes for the program, the new ones among the inputs, each with
    its path below that directory and with the bytes that were written: what the
    program had in its own memory and what it read of its inputs and of files it
    wrote before. *)
Theorem programs_reach_platform r input_bytes ins outs sets names ns n trees statics T cost code after e e' w :
  let s := fs_start r input_bytes in
  quiet libc_init_array (fun _ => True) -> quiet libc_fini_array (fun _ => True) -> closes_streams fcloseall ->
  sh_fs w = s -> can_start s ins outs sets names -> (forall n, ended n = true -> ends n) -> start_space sets names = Some ns ->
  Forall (fun b => program_text s b.1 b.2) statics ->
  perform ended (bytes s) (map snd statics) ns e T = Some (cost, code, after, e') ->
  can_pass n (start_cost sets names + cost) s outs sets names after trees ->
  wp (run libc_init_array libc_fini_array fcloseall (fun _ _ => run_task statics T)) (fun _ w' =>
    sys_exited (rt_sys (fs_rt (sh_fs w'))) = true /\ sys_code (rt_sys (fs_rt (sh_fs w'))) = code /\
    exists bufss, handed_over (sh_fs w') outs bufss trees) w.
Proof.
  intros s Hinit Hfini Hclose Hw Hcan Hz Hns Htexts Hperf Hp.
  eapply whole_run_spec with (ns := ns) (after := after); try done; [|by eapply perform_only].
  intros c v w1 kids Hst. destruct (perform_errno _ _ _ _ _ (errno w1) _ _ _ _ Hperf) as [e1 Hperf1]. eapply wp_mono.
  { eapply (task_after_start r input_bytes ins outs sets names ns statics T w1 kids); try done; [apply Hp|].
    pose proof (pa_room _ _ _ _ _ _ _ _ Hp). pose proof (pass_cost_pos _ _ _ _ _ _ _ _ Hp). fold s. lia. }
  intros c2 w2 (-> & _ & Hh & Hk & _). by split_and!.
Qed.
End programs.

(** * A program that files a report

    It makes [/data/c], tries to make [/no/x], whose parent is missing, and to
    read [/data/none]; it reads the input [/data/b] and writes it behind a text of
    its own to [/data/c/out], reads that file again, writes what it read to
    [/data/copy] and ends with its length.  The set [data] goes back to the
    platform. *)
Module TaskDemo.
Import InputDemo PassDemo PrintDemo.

Definition new_file : Z := Z.lor O_CREAT O_WRONLY.
Definition report : list Z := chars "Hello, ok".
Definition copy (b : option (list Z)) : task :=
  match b with
  | Some l => Output (chars "/data/copy") new_file 420 [3%nat] (Finish (Z.of_nat (length l)))
  | None => Finish 2
  end.
Definition file_report (b : option (list Z)) : task :=
  match b with
  | Some _ => Output (chars "/data/c/out") new_file 420 [0%nat; 2%nat] (Fetch (chars "/data/c/out") 64 copy)
  | None => Finish 1
  end.
Definition reporter : task :=
  Mkdir (chars "/data/c") 511 (fun _ => Mkdir (chars "/no/x") 511 (fun _ =>
    Fetch (chars "/data/none") 16 (fun _ => Fetch (chars "/data/b") 16 file_report))).

Definition short (n : nat) : bool := (n <? 16)%nat.
Lemma short_names n : short n = true -> ends n.
Proof. intros H. apply short_ends. by apply Nat.ltb_lt. Qed.

Definition performed : option (Z * Z * dirmap * Z) := perform short (bytes fs0) (map snd texts) space 0 reporter.
Definition cost : Z := match performed with Some (c, _, _, _) => c | None => 0 end.
Definition space_after : dirmap := match performed with Some (_, _, ns, _) => ns | None => ∅ end.
Definition report_trees : list (list tree) :=
  [chosen (chars "data") (data_trees ++ [TDir (chars "c") [TFile (chars "out") report]; TFile (chars "copy") report]); [];
   chosen (chars "stdio") (stdio_trees [])].

Lemma reporter_performs : performed = Some (cost, 9, space_after, ENOENT).
Proof.
  assert (H : match performed with Some (_, code, _, e) => Some (code, e) | None => None end = Some (9, ENOENT))
    by (vm_compute; reflexivity).
  unfold cost, space_after. destruct performed as [[[[c code] ns] e]|]; [|done]. by injection H as -> ->.
Qed.

Lemma report_trees_found : Forall2 (set_trees (descriptions (bytes fs0) space_after)) names report_trees.
Proof.
  apply Forall2_cons; split; [|apply Forall2_cons; split; [|apply Forall2_cons; split; [|constructor]]].
  - apply (a_directory _ (chars "data")); [decided|vm_compute; reflexivity|]. split; [a_listing|].
    apply Forall_cons_2; [|apply Forall_cons_2; [|apply Forall_cons_2; [|apply Forall_cons_2; [|constructor]]]].
    + split; [decided|]; split; [vm_compute; reflexivity|]; split; [a_listing|]; split; [|done]. split; [decided|vm_compute; reflexivity].
    + split; [decided|vm_compute; reflexivity].
    + split; [decided|]; split; [vm_compute; reflexivity|]; split; [a_listing|]; split; [|done]. split; [decided|vm_compute; reflexivity].
    + split; [decided|vm_compute; reflexivity].
  - apply no_name; apply (bool_decide_eq_false_1 _); vm_compute; reflexivity.
  - apply (a_directory _ (chars "stdio")); [decided|vm_compute; reflexivity|]; split; [a_listing|].
    repeat (apply Forall_cons_2; [split; [decided|vm_compute; reflexivity]|]); constructor.
Qed.

Lemma ready_to_report : can_pass 4 (start_cost sets names + cost) fs0 outs sets names space_after report_trees.
Proof. passes report_trees_found. Qed.
End TaskDemo.
#[local] Existing Instance InputDemo.used_machine.

Lemma programs_follow_map_witness :
  wp (let! error := on_fs fs_initialize in
      if negb (error =? 0) then ret (error, 0) else
      let! c := run_task PassDemo.texts TaskDemo.reporter in ret (error, c))
    (fun p w' => p = (0, 9) /\ errno w' = ENOENT /\
      exists x, find_file (literal "/data/copy") (sh_fs w') = Ret x (sh_fs w') /\
        entry_at (sh_fs w') x (EText (chars "Hello, ok"))) PassDemo.program.
Proof.
  eapply wp_mono.
  { apply (programs_follow_map TaskDemo.short PassDemo.rt PassDemo.platform_bytes PassDemo.ins PassDemo.outs PassDemo.sets PassDemo.names PassDemo.space
      PassDemo.texts TaskDemo.reporter TaskDemo.cost 9 TaskDemo.space_after PassDemo.program ENOENT eq_refl PassDemo.pass_ready_to_start
      TaskDemo.short_names PassDemo.pass_space_run PassDemo.items_data PrintDemo.texts_outside).
    - vm_compute. done.
    - exact TaskDemo.reporter_performs. }
  intros p w' (-> & He & _ & Hpaths & _). split_and!; [done|done|].
  destruct (Hpaths (literal "/data/copy") (chars "/data/copy")) as (x & Hx & Hent).
  - split; [by exists []|by apply (bool_decide_eq_true_1 _); vm_compute|cbn; unfold FS_PATH_LENGTH; lia].
  - apply (bool_decide_eq_true_1 _). vm_compute. reflexivity.
  - exists x. split; [exact Hx|].
    assert (E : TaskDemo.space_after !! components (chars "/data/copy") = Some (EText (chars "Hello, ok")))
      by (vm_compute; reflexivity).
    by rewrite E in Hent.
Defined.

Lemma programs_reach_platform_witness :
  wp (run PassDemo.nothing PassDemo.nothing PassDemo.close_standard (fun _ _ => run_task PassDemo.texts TaskDemo.reporter)) (fun _ w' =>
    sys_exited (rt_sys (fs_rt (sh_fs w'))) = true /\ sys_code (rt_sys (fs_rt (sh_fs w'))) = 9 /\
    exists bufss, Forall2 (shows (sh_fs w')) bufss
        [[(chars "a/x", chars "1234"); (chars "b", chars "ok"); (chars "c/out", chars "Hello, ok");
          (chars "copy", chars "Hello, ok")]; [];
         [(chars "stderr", []); (chars "stdout", [])]] /\
      raw_output (fs_rt (sh_fs w')) = flat_bufs (zip_with add_bufs PassDemo.outs bufss)) PassDemo.program.
Proof.
  assert (E : map items_of TaskDemo.report_trees =
    [[(chars "a/x", chars "1234"); (chars "b", chars "ok"); (chars "c/out", chars "Hello, ok");
      (chars "copy", chars "Hello, ok")]; [];
     [(chars "stderr", []); (chars "stdout", [])]]) by (vm_compute; reflexivity).
  rewrite <-E. eapply wp_mono.
  { apply (programs_reach_platform TaskDemo.short PassDemo.nothing PassDemo.nothing PassDemo.close_standard PassDemo.rt
      PassDemo.platform_bytes PassDemo.ins PassDemo.outs PassDemo.sets PassDemo.names PassDemo.space 4 TaskDemo.report_trees
      PassDemo.texts TaskDemo.reporter TaskDemo.cost 9 TaskDemo.space_after 0 ENOENT PassDemo.program PassDemo.nothing_quiet
      PassDemo.nothing_quiet PassDemo.standard_closed eq_refl PassDemo.pass_ready_to_start TaskDemo.short_names PassDemo.pass_space_run PrintDemo.texts_outside).
    - exact TaskDemo.reporter_performs.
    - exact TaskDemo.ready_to_report. }
  intros _ w' (H1 & H2 & bufss & Hs & _ & Hraw). split_and!; [done|done|]. exists bufss. by split.
Defined.

(** * What else calls do after the set-up *)

Definition result_after_start (c : Prelude.prog (fs session) (Z * Z)) : option (Z * Z) :=
  match (let! _ := fs_initialize in c) PassDemo.fs0 with Ret r _ => Some r | Fault _ => None end.

(** The file of an input item cannot be removed: its buffer is the platform's. *)
Lemma unlink_input_faults :
  (let! _ := fs_initialize in dandelion_unlink (literal "/data/b")) PassDemo.fs0 = Fault InvalidFree.
Proof. vm_compute. reflexivity. Qed.

(** A slash behind the path of a directory that is there: [dandelion_mkdir]
    returns 0, as if it had made one. *)
Lemma mkdir_slash_succeeds :
  result_after_start (let! a := dandelion_mkdir (literal "/data") 511 in
    let! b := dandelion_mkdir (literal "/data/") 511 in ret (a, b)) = Some (- EEXIST, 0).
Proof. vm_compute. reflexivity. Qed.

(** A new file whose mode has no write permission cannot be opened for writing by
    the call that makes it, which fails and leaves the file. *)
Lemma open_new_read_only :
  let flags := Z.lor O_CREAT (Z.lor O_EXCL O_WRONLY) in
  result_after_start (let! a := dandelion_open (literal "/data/new") flags S_IRUSR in
    let! b := dandelion_open (literal "/data/new") flags S_IRUSR in ret (a, b)) = Some (- EACCES, - EEXIST).
Proof. vm_compute. reflexivity. Qed.
