(* ===== verification/SysCalls.v ===== *)
(** The system call instructions (src/system/syscall): for each kernel and
    architecture the wrappers [__syscall0] to [__syscall6] as statements of
    inline assembly over registers, the call numbers, and the macro that picks
    the wrapper by the number of arguments. *)
From S2P Require Import Prelude.

(** * Registers and inline assembly *)

Inductive reg := rax | rbx | rcx | rdx | rsi | rdi | r8 | r9 | r10 | r11 | x (i : nat).
#[global] Instance reg_eq_dec : EqDecision reg.
Proof. solve_decision. Defined.

(** A statement: the register that holds its result, the registers that hold
    its operands, and the ones it tells the compiler it may change besides.
    Every statement also lists "memory". *)
Record asm := Asm { a_output : reg; a_inputs : list (reg * Z); a_clobbers : list reg }.

(** How the process can leave: an interrupt or a call to the hypervisor, the
    end of the process in the kernel, the jump through a capability. *)
Inductive stop := Interrupt (n : Z) | Hypercall (function : Z) | Ended (status : Z) | Branch (capability : Z).

(** What the program shares with the host: the thread pointer (the base of
    [fs], or [tpidr_el0]), whether it has left, and the rest of the host. *)
Record world (K : Type) := World { w_tp : Z; w_stop : option stop; w_os : K }.
Arguments World {K}.
Arguments w_tp {K}.
Arguments w_stop {K}.
Arguments w_os {K}.

Record cpu (K : Type) := Cpu { c_regs : reg -> Z; c_world : world K }.
Arguments Cpu {K}.
Arguments c_regs {K}.
Arguments c_world {K}.

Definition set_tp {K} (p : Z) (w : world K) : world K := World p (w_stop w) (w_os w).
Definition set_stop {K} (st : stop) (w : world K) : world K := World (w_tp w) (Some st) (w_os w).
Definition on_world {K A} (c : prog (world K) A) : prog (cpu K) A :=
  zoom c_world (fun w m => Cpu (c_regs m) w) c.

(** A register holds 64 bits. *)
Definition set_reg (g : reg -> Z) (o : reg * Z) : reg -> Z :=
  fun y => if decide (y = o.1) then wrap64 o.2 else g y.
Definition load_operands (ops : list (reg * Z)) (g : reg -> Z) : reg -> Z := foldl set_reg g ops.

(** The instruction [syscall] or [svc 0]. *)
Class Instruction (K : Type) := { trap : prog (cpu K) unit }.

(** The compiler puts the operands in place; the result register is read as a
    [long]. *)
Definition run_asm {K} `{Instruction K} (i : asm) : prog (cpu K) Z :=
  let! _ := modify (fun m => Cpu (load_operands (a_inputs i) (c_regs m)) (c_world m)) in
  let! _ := trap in
  gets (fun m => int64 (c_regs m (a_output i))).

(** The macro [__scc]. *)
Definition __scc (v : Z) : Z := int64 v.

(** * Linux, x86_64 *)

Module LinuxX86.
Definition SYS_read : Z := 0.
Definition SYS_write : Z := 1.
Definition SYS_lseek : Z := 8.
Definition SYS_mmap : Z := 9.
Definition SYS_arch_prctl : Z := 158.
Definition SYS_exit_group : Z := 231.
Definition SYS_openat : Z := 257.
Definition SYS_getdents64 : Z := 217.
Definition ARCH_SET_FS : Z := 4098.

Definition __syscall0 (n : Z) : asm := Asm rax [(rax, n)] [rcx; r11].
Definition __syscall1 (n a1 : Z) : asm := Asm rax [(rax, n); (rdi, a1)] [rcx; r11].
Definition __syscall2 (n a1 a2 : Z) : asm := Asm rax [(rax, n); (rdi, a1); (rsi, a2)] [rcx; r11].
Definition __syscall3 (n a1 a2 a3 : Z) : asm :=
  Asm rax [(rax, n); (rdi, a1); (rsi, a2); (rdx, a3)] [rcx; r11].
Definition __syscall4 (n a1 a2 a3 a4 : Z) : asm :=
  Asm rax [(rax, n); (rdi, a1); (rsi, a2); (rdx, a3); (r10, a4)] [rcx; r11].
Definition __syscall5 (n a1 a2 a3 a4 a5 : Z) : asm :=
  Asm rax [(rax, n); (rdi, a1); (rsi, a2); (rdx, a3); (r10, a4); (r8, a5)] [rcx; r11].
Definition __syscall6 (n a1 a2 a3 a4 a5 a6 : Z) : asm :=
  Asm rax [(rax, n); (rdi, a1); (rsi, a2); (rdx, a3); (r10, a4); (r8, a5); (r9, a6)] [rcx; r11].

(** The macro [__syscall]. *)
Definition __syscall (n : Z) (args : list Z) : option asm :=
  match args with
  | [] => Some (__syscall0 n)
  | [a] => Some (__syscall1 n (__scc a))
  | [a; b] => Some (__syscall2 n (__scc a) (__scc b))
  | [a; b; c] => Some (__syscall3 n (__scc a) (__scc b) (__scc c))
  | [a; b; c; d] => Some (__syscall4 n (__scc a) (__scc b) (__scc c) (__scc d))
  | [a; b; c; d; e] => Some (__syscall5 n (__scc a) (__scc b) (__scc c) (__scc d) (__scc e))
  | [a; b; c; d; e; f] => Some (__syscall6 n (__scc a) (__scc b) (__scc c) (__scc d) (__scc e) (__scc f))
  | _ => None
  end.
End LinuxX86.

(** * Linux, aarch64 *)

Module LinuxArm.
Definition SYS_openat : Z := 56.
Definition SYS_lseek : Z := 62.
Definition SYS_read : Z := 63.
Definition SYS_write : Z := 64.
Definition SYS_exit_group : Z := 94.
Definition SYS_mmap : Z := 222.
Definition SYS_getdents64 : Z := 61.

Definition __syscall0 (n : Z) : asm := Asm (x 0) [(x 8, n)] [].
Definition __syscall1 (n a : Z) : asm := Asm (x 0) [(x 8, n); (x 0, a)] [].
Definition __syscall2 (n a b : Z) : asm := Asm (x 0) [(x 8, n); (x 0, a); (x 1, b)] [].
Definition __syscall3 (n a b c : Z) : asm := Asm (x 0) [(x 8, n); (x 0, a); (x 1, b); (x 2, c)] [].
Definition __syscall4 (n a b c d : Z) : asm :=
  Asm (x 0) [(x 8, n); (x 0, a); (x 1, b); (x 2, c); (x 3, d)] [].
Definition __syscall5 (n a b c d e : Z) : asm :=
  Asm (x 0) [(x 8, n); (x 0, a); (x 1, b); (x 2, c); (x 3, d); (x 4, e)] [].
Definition __syscall6 (n a b c d e f : Z) : asm :=
  Asm (x 0) [(x 8, n); (x 0, a); (x 1, b); (x 2, c); (x 3, d); (x 4, e); (x 5, f)] [].

Definition __syscall (n : Z) (args : list Z) : option asm :=
  match args with
  | [] => Some (__syscall0 n)
  | [a] => Some (__syscall1 n (__scc a))
  | [a; b] => Some (__syscall2 n (__scc a) (__scc b))
  | [a; b; c] => Some (__syscall3 n (__scc a) (__scc b) (__scc c))
  | [a; b; c; d] => Some (__syscall4 n (__scc a) (__scc b) (__scc c) (__scc d))
  | [a; b; c; d; e] => Some (__syscall5 n (__scc a) (__scc b) (__scc c) (__scc d) (__scc e))
  | [a; b; c; d; e; f] => Some (__syscall6 n (__scc a) (__scc b) (__scc c) (__scc d) (__scc e) (__scc f))
  | _ => None
  end.
End LinuxArm.

(** * FreeBSD, x86_64 *)

Module FreebsdX86.
Definition FREEBSD_SYS_exit : Z := 1.
Definition FREEBSD_SYS_sysarch : Z := 165.
Definition FREEBSD_AMD64_GET_FSBASE : Z := 128.
Definition FREEBSD_AMD64_SET_FSBASE : Z := 129.

Definition __syscall0 (n : Z) : asm :=
  Asm rax [(rax, n)] [rbx; rcx; rdx; rdi; rsi; r8; r9; r10; r11].
Definition __syscall1 (n a1 : Z) : asm :=
  Asm rax [(rax, n); (rdi, a1)] [rbx; rcx; rdx; rsi; r8; r9; r10; r11].
Definition __syscall2 (n a1 a2 : Z) : asm :=
  Asm rax [(rax, n); (rdi, a1); (rsi, a2)] [rbx; rcx; rdx; r8; r9; r10; r11].
Definition __syscall3 (n a1 a2 a3 : Z) : asm :=
  Asm rax [(rax, n); (rdi, a1); (rsi, a2); (rdx, a3)] [rbx; rcx; r8; r9; r10; r11].
Definition __syscall4 (n a1 a2 a3 a4 : Z) : asm :=
  Asm rax [(rax, n); (rdi, a1); (rsi, a2); (rdx, a3); (rcx, a4)] [rbx; r8; r9; r10; r11].
Definition __syscall5 (n a1 a2 a3 a4 a5 : Z) : asm :=
  Asm rax [(rax, n); (rdi, a1); (rsi, a2); (rdx, a3); (rcx, a4); (r8, a5)] [rbx; r9; r10; r11].
Definition __syscall6 (n a1 a2 a3 a4 a5 a6 : Z) : asm :=
  Asm rax [(rax, n); (rdi, a1); (rsi, a2); (rdx, a3); (rcx, a4); (r8, a5); (r9, a6)] [rbx; r10; r11].

Definition __syscall (n : Z) (args : list Z) : option asm :=
  match args with
  | [] => Some (__syscall0 n)
  | [a] => Some (__syscall1 n (__scc a))
  | [a; b] => Some (__syscall2 n (__scc a) (__scc b))
  | [a; b; c] => Some (__syscall3 n (__scc a) (__scc b) (__scc c))
  | [a; b; c; d] => Some (__syscall4 n (__scc a) (__scc b) (__scc c) (__scc d))
  | [a; b; c; d; e] => Some (__syscall5 n (__scc a) (__scc b) (__scc c) (__scc d) (__scc e))
  | [a; b; c; d; e; f] => Some (__syscall6 n (__scc a) (__scc b) (__scc c) (__scc d) (__scc e) (__scc f))
  | _ => None
  end.
End FreebsdX86.

(** * FreeBSD, aarch64 *)

Module FreebsdArm.
Definition __syscall0 (n : Z) : asm := Asm (x 0) [(x 8, n)] [].
Definition __syscall1 (n a : Z) : asm := Asm (x 0) [(x 8, n); (x 0, a)] [].
Definition __syscall2 (n a b : Z) : asm := Asm (x 0) [(x 8, n); (x 0, a); (x 1, b)] [].
Definition __syscall3 (n a b c : Z) : asm := Asm (x 0) [(x 8, n); (x 0, a); (x 1, b); (x 2, c)] [].
Definition __syscall4 (n a b c d : Z) : asm :=
  Asm (x 0) [(x 8, n); (x 0, a); (x 1, b); (x 2, c); (x 3, d)] [].
Definition __syscall5 (n a b c d e : Z) : asm :=
  Asm (x 0) [(x 8, n); (x 0, a); (x 1, b); (x 2, c); (x 3, d); (x 4, e)] [].
Definition __syscall6 (n a b c d e f : Z) : asm :=
  Asm (x 0) [(x 8, n); (x 0, a); (x 1, b); (x 2, c); (x 3, d); (x 4, e); (x 5, f)] [].

Definition __syscall (n : Z) (args : list Z) : option asm :=
  match args with
  | [] => Some (__syscall0 n)
  | [a] => Some (__syscall1 n (__scc a))
  | [a; b] => Some (__syscall2 n (__scc a) (__scc b))
  | [a; b; c] => Some (__syscall3 n (__scc a) (__scc b) (__scc c))
  | [a; b; c; d] => Some (__syscall4 n (__scc a) (__scc b) (__scc c) (__scc d))
  | [a; b; c; d; e] => Some (__syscall5 n (__scc a) (__scc b) (__scc c) (__scc d) (__scc e))
  | [a; b; c; d; e; f] => Some (__syscall6 n (__scc a) (__scc b) (__scc c) (__scc d) (__scc e) (__scc f))
  | _ => None
  end.
End FreebsdArm.

(** * All four *)

Inductive target := OnLinuxX86 | OnLinuxArm | OnFreebsdX86 | OnFreebsdArm.

Definition __syscall (t : target) : Z -> list Z -> option asm :=
  match t with
  | OnLinuxX86 => LinuxX86.__syscall
  | OnLinuxArm => LinuxArm.__syscall
  | OnFreebsdX86 => FreebsdX86.__syscall
  | OnFreebsdArm => FreebsdArm.__syscall
  end.

(** A call with at most six arguments. *)
Definition system_call {K} `{Instruction K} (t : target) (n : Z) (args : list Z) : prog (cpu K) Z :=
  let! i := from_option OutOfBounds (__syscall t n args) in run_asm i.
