(* ===== verification/Platforms.v ===== *)
(** The platforms of the isolation back ends (src/system/platform: kvm,
    mmu_linux, mmu_freebsd, cheri, test, and the thread pointer of debug) and
    the calls of src/system/system.c and runtime.c that reach them. *)
From S2P Require Import Prelude SysCalls.

Inductive arch := x86_64 | aarch64.

(** The operations of [system.h]. *)
Record platform (K : Type) := Platform {
  __dandelion_platform_init : prog (cpu K) unit;
  __dandelion_platform_exit : prog (cpu K) unit;
  __dandelion_platform_set_thread_pointer : Z -> prog (cpu K) unit;
}.
Arguments Platform {K}.
Arguments __dandelion_platform_init {K}.
Arguments __dandelion_platform_exit {K}.
Arguments __dandelion_platform_set_thread_pointer {K}.

Section platforms.
Context {K : Type} `{Instruction K}.
(** [__dandelion_return_address] as the isolation library left it. *)
Context (__dandelion_return_address : Z).

(** The instructions [wrfsbase] and [msr tpidr_el0]. *)
Definition write_thread_pointer (thread_data : Z) : prog (cpu K) unit :=
  on_world (modify (set_tp (wrap64 thread_data))).
Definition leave (st : stop) : prog (cpu K) unit := on_world (modify (set_stop st)).

(** ** kvm.c *)
Definition kvm_init : prog (cpu K) unit := ret tt.
Definition kvm_exit (a : arch) : prog (cpu K) unit :=
  match a with
  | x86_64 => leave (Interrupt 32)
  | aarch64 =>
      let! _ := modify (fun m => Cpu (set_reg (c_regs m) (x 0, 2214592520)) (c_world m)) in
      let! x0 := gets (fun m => c_regs m (x 0)) in
      leave (Hypercall x0)
  end.
Definition kvm_set_thread_pointer (a : arch) (ptr : Z) : prog (cpu K) unit :=
  match a with x86_64 | aarch64 => write_thread_pointer ptr end.

(** ** mmu_linux.c *)
Definition linux_target (a : arch) : target := match a with x86_64 => OnLinuxX86 | aarch64 => OnLinuxArm end.
Definition SYS_exit_group (a : arch) : Z :=
  match a with x86_64 => LinuxX86.SYS_exit_group | aarch64 => LinuxArm.SYS_exit_group end.

Definition mmu_linux_init : prog (cpu K) unit := ret tt.
Definition mmu_linux_exit (a : arch) : prog (cpu K) unit :=
  let! _ := system_call (linux_target a) (SYS_exit_group a) [0] in ret tt.
Definition mmu_linux_set_thread_pointer (a : arch) (ptr : Z) : prog (cpu K) unit :=
  match a with
  | x86_64 =>
      let! _ := system_call OnLinuxX86 LinuxX86.SYS_arch_prctl [LinuxX86.ARCH_SET_FS; ptr] in ret tt
  | aarch64 => write_thread_pointer ptr
  end.

(** ** mmu_freebsd.c *)
Definition freebsd_target (a : arch) : target := match a with x86_64 => OnFreebsdX86 | aarch64 => OnFreebsdArm end.

Definition mmu_freebsd_init : prog (cpu K) unit := ret tt.
Definition mmu_freebsd_exit (a : arch) : prog (cpu K) unit :=
  let! _ := system_call (freebsd_target a) FreebsdX86.FREEBSD_SYS_exit [0] in ret tt.
Definition mmu_freebsd_set_thread_pointer (a : arch) (ptr : Z) : prog (cpu K) unit :=
  match a with
  | x86_64 =>
      let! _ := system_call OnFreebsdX86 FreebsdX86.FREEBSD_SYS_sysarch
                  [FreebsdX86.FREEBSD_AMD64_GET_FSBASE; ptr] in ret tt
  | aarch64 => write_thread_pointer ptr
  end.

(** ** cheri.c *)
Definition cheri_init : prog (cpu K) unit := ret tt.
Definition cheri_exit : prog (cpu K) unit := leave (Branch __dandelion_return_address).
Definition cheri_set_thread_pointer (ptr : Z) : prog (cpu K) unit := write_thread_pointer ptr.

(** ** test.c *)
Definition test_init : prog (cpu K) unit := ret tt.
Definition test_exit : prog (cpu K) unit := ret tt.
Definition test_set_thread_pointer (ptr : Z) : prog (cpu K) unit := ret tt.

(** ** debug.c *)
Definition debug_set_thread_pointer (a : arch) (ptr : Z) : prog (cpu K) unit :=
  match a with
  | x86_64 =>
      let! _ := system_call OnLinuxX86 LinuxX86.SYS_arch_prctl [LinuxX86.ARCH_SET_FS; ptr] in ret tt
  | aarch64 => write_thread_pointer ptr
  end.

(** ** The back ends, each by the name of its directory *)
Inductive backend := Kvm (a : arch) | MmuLinux (a : arch) | MmuFreebsd (a : arch) | Cheri | TestPlatform.

Definition platform_of (b : backend) : platform K :=
  match b with
  | Kvm a => Platform kvm_init (kvm_exit a) (kvm_set_thread_pointer a)
  | MmuLinux a => Platform mmu_linux_init (mmu_linux_exit a) (mmu_linux_set_thread_pointer a)
  | MmuFreebsd a => Platform mmu_freebsd_init (mmu_freebsd_exit a) (mmu_freebsd_set_thread_pointer a)
  | Cheri => Platform cheri_init cheri_exit cheri_set_thread_pointer
  | TestPlatform => Platform test_init test_exit test_set_thread_pointer
  end.

(** ** system.c and runtime.c *)
Section system.
Context (P : platform K).

Definition __dandelion_system_init : prog (cpu K) unit := __dandelion_platform_init P.
Definition __dandelion_system_exit : prog (cpu K) unit := __dandelion_platform_exit P.
Definition __dandelion_system_set_thread_pointer (ptr : Z) : prog (cpu K) unit :=
  __dandelion_platform_set_thread_pointer P ptr.
Definition dandelion_set_thread_pointer (ptr : Z) : prog (cpu K) unit :=
  __dandelion_system_set_thread_pointer ptr.

(** The first two statements of [dandelion_init], with the address of the
    static array [TLS]; the rest is [RuntimeIO.dandelion_init]. *)
Definition dandelion_init_platform (TLS : Z) : prog (cpu K) unit :=
  let! _ := __dandelion_system_init in
  __dandelion_system_set_thread_pointer TLS.
End system.
End platforms.
