(* ===== verification/PlatformTheorems.v ===== *)
(** What the system call instructions and the small platforms promise: the
    arguments reach the kernel in the registers of its convention, the thread
    pointer is set, and the process leaves.  The documented convention of each
    kernel is the class [KernelAbi]; [Demo] has an instance. *)
From S2P Require Import Prelude SysCalls Platforms.

(** * The convention of a kernel *)

(** The registers of the call number, of the arguments and of the result. *)
Record convention := Convention { cv_number : reg; cv_arguments : list reg; cv_result : reg }.

Definition convention_of (t : target) : convention :=
  match t with
  | OnLinuxX86 | OnFreebsdX86 => Convention rax [rdi; rsi; rdx; r10; r8; r9] rax
  | OnLinuxArm | OnFreebsdArm => Convention (x 8) [x 0; x 1; x 2; x 3; x 4; x 5] (x 0)
  end.

(** The kernel is a function of the number and six arguments; the instruction
    runs it on the registers of the convention and may destroy some others. *)
Class KernelAbi (t : target) (K : Type) `{Instruction K} := {
  kernel : Z -> list Z -> world K -> Z * world K;
  destroyed : list reg;
  trap_law m :
    wp trap (fun _ m' =>
      let r := kernel (c_regs m (cv_number (convention_of t)))
                 (map (c_regs m) (cv_arguments (convention_of t))) (c_world m) in
      c_world m' = r.2 /\ c_regs m' (cv_result (convention_of t)) = wrap64 r.1 /\
      forall y, y <> cv_result (convention_of t) -> (y ∉ destroyed) -> c_regs m' y = c_regs m y) m;
}.
Arguments kernel t {K H KernelAbi}.
Arguments destroyed t {K H KernelAbi}.

(** * Conversions *)

Lemma wrap64_int64 v : wrap64 (int64 v) = wrap64 v.
Proof.
  unfold wrap64, int64. rewrite Zminus_mod_idemp_l. f_equal. lia.
Qed.

Lemma int64_wrap64 v : int64 (wrap64 v) = int64 v.
Proof. unfold wrap64, int64. by rewrite Zplus_mod_idemp_l. Qed.

(** * One call *)

Section calls.
Context {K : Type} `{Instruction K} {t : target} `{!KernelAbi t K}.

(** The statement runs the kernel on what its operands put in place. *)
Lemma run_asm_spec i m :
  a_output i = cv_result (convention_of t) ->
  wp (run_asm i) (fun r m' =>
    let g := load_operands (a_inputs i) (c_regs m) in
    let k := kernel t (g (cv_number (convention_of t))) (map g (cv_arguments (convention_of t))) (c_world m) in
    r = int64 k.1 /\ c_world m' = k.2 /\
    forall y, y <> a_output i -> (y ∉ destroyed t) -> c_regs m' y = g y) m.
Proof.
  intros Ho. unfold run_asm. apply wp_bind, wp_modify, wp_bind.
  eapply wp_mono; [exact (trap_law (Cpu (load_operands (a_inputs i) (c_regs m)) (c_world m)))|].
  intros [] m' (Hw & Hr & Hk). apply wp_gets. cbn in *. split_and!.
  - by rewrite Ho, Hr, int64_wrap64.
  - done.
  - intros y Hy. rewrite Ho in Hy. by apply Hk.
Qed.

(** The wrapper of a call puts the number and the arguments where the kernel
    looks for them. *)
Lemma operands_in_place n args i g :
  __syscall t n args = Some i -> (t = OnFreebsdX86 -> (length args <= 3)%nat) ->
  a_output i = cv_result (convention_of t) /\
  load_operands (a_inputs i) g (cv_number (convention_of t)) = wrap64 n /\
  exists rest, map (load_operands (a_inputs i) g) (cv_arguments (convention_of t)) = map wrap64 args ++ rest.
Proof.
  intros Hi Ht. destruct t;
    destruct args as [|a1 [|a2 [|a3 [|a4 [|a5 [|a6 [|]]]]]]]; simplify_eq/=;
    try (exfalso; pose proof (Ht eq_refl); lia);
    (split; [done|]); (split; [done|]);
    unfold set_reg, __scc; simpl; rewrite ?wrap64_int64; eexists; reflexivity.
Qed.

Lemma system_call_run n args i : __syscall t n args = Some i -> system_call t n args = bind (ret i) run_asm.
Proof. intros Hi. unfold system_call. by rewrite Hi. Qed.

(** C40: A call with at most six arguments reaches the kernel with its number and
    its arguments; the result comes back, and a register that the kernel does
    not destroy holds what the compiler put there. *)
Theorem syscall_passes_arguments n args i m :
  __syscall t n args = Some i -> (t = OnFreebsdX86 -> (length args <= 3)%nat) ->
  wp (system_call t n args) (fun r m' => exists rest,
    (length args + length rest = 6)%nat /\
    let k := kernel t (wrap64 n) (map wrap64 args ++ rest) (c_world m) in
    r = int64 k.1 /\ c_world m' = k.2 /\
    forall y, y <> a_output i -> (y ∉ destroyed t) -> c_regs m' y = load_operands (a_inputs i) (c_regs m) y) m.
Proof.
  intros Hi Ht. rewrite (system_call_run _ _ _ Hi). apply wp_bind, wp_ret.
  destruct (operands_in_place n args i (c_regs m) Hi Ht) as (Ho & Hn & rest & Hargs).
  eapply wp_mono; [by apply run_asm_spec|]. cbn. intros r m' (Hr & Hw & Hk). exists rest.
  split; [|by rewrite Hr, Hw, Hn, Hargs].
  apply (f_equal length) in Hargs. rewrite length_app, !length_map in Hargs.
  rewrite <-Hargs. by destruct t.
Qed.
End calls.

(** The wrapper of FreeBSD on x86_64 puts the fourth argument into [rcx], which
    the instruction overwrites: the kernel does not see it. *)
Theorem freebsd_fourth_argument_lost {K} `{!Instruction K} `{!KernelAbi OnFreebsdX86 K} n a b c d d' m :
  exists r m1 m2, system_call OnFreebsdX86 n [a; b; c; d] m = Ret r m1 /\
    system_call OnFreebsdX86 n [a; b; c; d'] m = Ret r m2 /\ c_world m1 = c_world m2.
Proof.
  destruct (wp_run _ _ _ (run_asm_spec (t := OnFreebsdX86)
    (FreebsdX86.__syscall4 n (__scc a) (__scc b) (__scc c) (__scc d)) m eq_refl)) as (r1 & m1 & E1 & Hr1 & Hw1 & _).
  destruct (wp_run _ _ _ (run_asm_spec (t := OnFreebsdX86)
    (FreebsdX86.__syscall4 n (__scc a) (__scc b) (__scc c) (__scc d')) m eq_refl)) as (r2 & m2 & E2 & Hr2 & Hw2 & _).
  assert (r2 = r1) as -> by by rewrite Hr1, Hr2.
  exists r1, m1, m2. split_and!; [exact E1|exact E2|by rewrite Hw1, Hw2].
Qed.

(** * The platforms *)

(** What the manual pages say about the calls of the platforms. *)
Definition exit_number (t : target) : Z :=
  match t with
  | OnLinuxX86 => LinuxX86.SYS_exit_group
  | OnLinuxArm => LinuxArm.SYS_exit_group
  | OnFreebsdX86 | OnFreebsdArm => FreebsdX86.FREEBSD_SYS_exit
  end.

Class HostLaws (t : target) (K : Type) `{KernelAbi t K} := {
  exit_law status rest w : 0 <= status < 256 ->
    w_stop (kernel t (exit_number t) (status :: rest) w).2 = Some (Ended status);
  set_fs_law p rest w : t = OnLinuxX86 -> 0 <= p < 2 ^ 47 ->
    (kernel t LinuxX86.SYS_arch_prctl (LinuxX86.ARCH_SET_FS :: p :: rest) w).2 = set_tp p w;
  get_fs_law p rest w : t = OnFreebsdX86 ->
    w_tp (kernel t FreebsdX86.FREEBSD_SYS_sysarch (FreebsdX86.FREEBSD_AMD64_GET_FSBASE :: p :: rest) w).2 = w_tp w;
}.

(** The kernel a back end needs, and how it leaves. *)
Definition runs_on (b : backend) (t : target) : Prop :=
  match b with
  | MmuLinux a => t = linux_target a
  | MmuFreebsd a => t = freebsd_target a
  | _ => True
  end.
Definition leaves (return_address : Z) (b : backend) : option stop :=
  match b with
  | Kvm x86_64 => Some (Interrupt 32)
  | Kvm aarch64 => Some (Hypercall (2 ^ 31 + 2 ^ 26 + 8))
  | MmuLinux _ | MmuFreebsd _ => Some (Ended 0)
  | Cheri => Some (Branch return_address)
  | TestPlatform => None
  end.

Section platforms.
Context {K : Type} `{Instruction K} {t : target} `{!KernelAbi t K} `{!HostLaws t K}.
Implicit Types m : cpu K.

(** The host after a call. *)
Lemma system_call_world n args i m (Q : world K -> Prop) :
  __syscall t n args = Some i -> (t = OnFreebsdX86 -> (length args <= 3)%nat) ->
  (forall rest, Q (kernel t (wrap64 n) (map wrap64 args ++ rest) (c_world m)).2) ->
  wp (let! _ := system_call t n args in ret tt) (fun _ m' => Q (c_world m')) m.
Proof.
  intros Hi Ht HQ. apply wp_bind. rewrite (system_call_run _ _ _ Hi). apply wp_bind, wp_ret.
  destruct (operands_in_place n args i (c_regs m) Hi Ht) as (Ho & Hn & rest & Hargs).
  eapply wp_mono; [by apply run_asm_spec|]. cbv zeta. intros r m' (_ & Hw & _). apply wp_ret.
  rewrite Hw, Hn, Hargs. apply HQ.
Qed.

Lemma write_thread_pointer_spec p m :
  0 <= p < 2 ^ 47 ->
  wp (write_thread_pointer p) (fun _ m' => c_world m' = set_tp p (c_world m)) m.
Proof. intros Hp. unfold wp, write_thread_pointer, on_world, zoom, modify. cbn. by rewrite wrap64_small by lia. Qed.

Lemma exit_call_spec m :
  wp (let! _ := system_call t (exit_number t) [0] in ret tt)
    (fun _ m' => w_stop (c_world m') = Some (Ended 0)) m.
Proof.
  assert (exists i, __syscall t (exit_number t) [0] = Some i) as [i Hi] by (destruct t; by eexists).
  apply (system_call_world _ _ _ m (fun w => w_stop w = Some (Ended 0)) Hi); [cbn; lia|]. intros rest. cbn.
  rewrite (wrap64_small (exit_number t)) by (by destruct t). by apply exit_law.
Qed.

Lemma set_fs_call_spec p m :
  t = OnLinuxX86 -> 0 <= p < 2 ^ 47 ->
  wp (let! _ := system_call t LinuxX86.SYS_arch_prctl [LinuxX86.ARCH_SET_FS; p] in ret tt)
    (fun _ m' => c_world m' = set_tp p (c_world m)) m.
Proof.
  intros Ht Hp.
  assert (exists i, __syscall t LinuxX86.SYS_arch_prctl [LinuxX86.ARCH_SET_FS; p] = Some i) as [i Hi]
    by (rewrite Ht; by eexists).
  apply (system_call_world _ _ _ m (fun w => w = set_tp p (c_world m)) Hi); [cbn; lia|].
  intros rest. cbn [map app]. rewrite (wrap64_small p) by lia. by apply set_fs_law.
Qed.

(** C39: Every back end but the one of FreeBSD on x86_64 (and the empty test
    platform) starts by pointing the thread pointer at the thread-local
    storage, and its exit leaves the process in its own way. *)
Theorem backends_implement return_address (b : backend) TLS m :
  runs_on b t -> b <> TestPlatform -> b <> MmuFreebsd x86_64 -> 0 <= TLS < 2 ^ 47 ->
  let P := platform_of return_address b in
  wp (dandelion_init_platform P TLS) (fun _ m' => c_world m' = set_tp TLS (c_world m)) m /\
  wp (__dandelion_system_exit P) (fun _ m' => w_stop (c_world m') = leaves return_address b) m.
Proof.
  intros Hb Htest Hfree HTLS P. split.
  - apply wp_bind. destruct b as [a|[|]|[|]| |]; try done; subst P; cbn in *; apply wp_ret;
      try (by destruct a; apply write_thread_pointer_spec); try by apply write_thread_pointer_spec.
    rewrite <-Hb. by apply set_fs_call_spec.
  - unfold __dandelion_system_exit. destruct b as [[|]|a|a| |]; try done; subst P;
      cbn [runs_on platform_of __dandelion_platform_exit leaves] in *;
      unfold mmu_linux_exit, mmu_freebsd_exit; rewrite <-Hb.
    + replace (SYS_exit_group a) with (exit_number t) by (rewrite Hb; by destruct a). apply exit_call_spec.
    + replace FreebsdX86.FREEBSD_SYS_exit with (exit_number t) by (rewrite Hb; by destruct a). apply exit_call_spec.
Qed.
End platforms.

(** On FreeBSD and x86_64 the platform asks for the thread pointer instead of
    setting it: it keeps its value. *)
Theorem freebsd_keeps_thread_pointer {K} `{!Instruction K} `{!KernelAbi OnFreebsdX86 K}
    `{!HostLaws OnFreebsdX86 K} return_address TLS m :
  wp (dandelion_init_platform (platform_of return_address (MmuFreebsd x86_64)) TLS)
    (fun _ m' => w_tp (c_world m') = w_tp (c_world m)) m.
Proof.
  apply wp_bind, wp_ret. cbn.
  eapply (system_call_world _ _ _ m (fun w => w_tp w = w_tp (c_world m))); [reflexivity|cbn; lia|].
  intros rest. cbn [map app]. by apply get_fs_law.
Qed.

(** * A kernel that satisfies the laws *)

Module Demo.
Definition kernel (t : target) (n : Z) (args : list Z) (w : world unit) : Z * world unit :=
  match args with
  | a :: rest =>
      if n =? exit_number t then (0, set_stop (Ended a) w)
      else match t with
           | OnLinuxX86 => if (n =? 158) && (a =? 4098) then (0, set_tp (hd 0 rest) w) else (-38, w)
           | _ => (-38, w)
           end
  | _ => (-38, w)
  end.

Definition demo_trap (t : target) : prog (cpu unit) unit := fun m =>
  let cv := convention_of t in
  let r := kernel t (c_regs m (cv_number cv)) (map (c_regs m) (cv_arguments cv)) (c_world m) in
  Ret tt (Cpu (set_reg (c_regs m) (cv_result cv, r.1)) r.2).

Definition instruction (t : target) : Instruction unit := {| trap := demo_trap t |}.

Lemma demo_trap_law t m :
  wp (demo_trap t) (fun _ m' =>
      let r := kernel t (c_regs m (cv_number (convention_of t)))
                 (map (c_regs m) (cv_arguments (convention_of t))) (c_world m) in
      c_world m' = r.2 /\ c_regs m' (cv_result (convention_of t)) = wrap64 r.1 /\
      forall y, y <> cv_result (convention_of t) -> (y ∉ []) -> c_regs m' y = c_regs m y) m.
Proof.
  unfold wp, demo_trap. cbn [c_world c_regs]. split_and!; [done| |]; unfold set_reg; cbn [fst snd].
  - by rewrite decide_True.
  - intros y Hy _. by rewrite decide_False.
Qed.

Definition abi (t : target) : @KernelAbi t unit (instruction t) :=
  @Build_KernelAbi t unit (instruction t) (kernel t) [] (demo_trap_law t).

Lemma laws (t : target) : @HostLaws t unit (instruction t) (abi t).
Proof.
  split.
  - intros status rest w _. cbn. by destruct rest, t.
  - intros p rest w -> _. done.
  - intros p rest w ->. done.
Qed.

Definition start : cpu unit := Cpu (fun _ => 7) (World 0 None tt).
End Demo.

(** [write(1, p, 5)] on Linux and x86_64. *)
Lemma syscall_passes_arguments_witness :
  LinuxX86.__syscall 1 [1; 4096; 5] = Some (LinuxX86.__syscall3 1 1 4096 5) /\
  let I := Demo.instruction OnLinuxX86 in let A := Demo.abi OnLinuxX86 in
  wp (system_call OnLinuxX86 1 [1; 4096; 5]) (fun r m' => exists rest,
    (length [1; 4096; 5] + length rest = 6)%nat /\
    let k := kernel OnLinuxX86 (wrap64 1) (map wrap64 [1; 4096; 5] ++ rest) (c_world Demo.start) in
    r = int64 k.1 /\ c_world m' = k.2 /\
    forall y, y <> a_output (LinuxX86.__syscall3 1 1 4096 5) -> (y ∉ destroyed OnLinuxX86) ->
      c_regs m' y = load_operands (a_inputs (LinuxX86.__syscall3 1 1 4096 5)) (c_regs Demo.start) y) Demo.start.
Proof.
  split; [reflexivity|]. intros I A.
  apply (syscall_passes_arguments (t := OnLinuxX86) 1 [1; 4096; 5]); [reflexivity|discriminate].
Defined.

Lemma freebsd_fourth_argument_lost_witness :
  let I := Demo.instruction OnFreebsdX86 in let A := Demo.abi OnFreebsdX86 in
  exists r m1 m2, system_call OnFreebsdX86 477 [0; 4096; 3; 2] Demo.start = Ret r m1 /\
    system_call OnFreebsdX86 477 [0; 4096; 3; 4098] Demo.start = Ret r m2 /\ c_world m1 = c_world m2.
Proof. intros I A. apply (freebsd_fourth_argument_lost 477 0 4096 3 2 4098 Demo.start). Defined.

Lemma backends_implement_witness :
  let I := Demo.instruction OnLinuxX86 in
  let P := platform_of 64 (MmuLinux x86_64) in
  wp (dandelion_init_platform P 8192) (fun _ m' => c_world m' = World 8192 None tt) Demo.start /\
  wp (__dandelion_system_exit P) (fun _ m' => w_stop (c_world m') = Some (Ended 0)) Demo.start.
Proof.
  intros I. apply (backends_implement (t := OnLinuxX86) (KernelAbi0 := Demo.abi OnLinuxX86)
    (HostLaws0 := Demo.laws OnLinuxX86) 64 (MmuLinux x86_64) 8192 Demo.start); try done.
Defined.

Lemma freebsd_keeps_thread_pointer_witness :
  let I := Demo.instruction OnFreebsdX86 in
  wp (dandelion_init_platform (platform_of 64 (MmuFreebsd x86_64)) 8192)
    (fun _ m' => w_tp (c_world m') = 0) Demo.start.
Proof.
  intros I. apply (freebsd_keeps_thread_pointer (KernelAbi0 := Demo.abi OnFreebsdX86)
    (HostLaws0 := Demo.laws OnFreebsdX86) 64 8192 Demo.start).
Defined.
