(* ===== verification/Kernel.v ===== *)
(** The interface to the kernel of the host that the debug platform runs on:
    the system calls it uses, what their documentation promises, and the format
    of the directory entries that [getdents64] returns. *)
From S2P Require Import Prelude Heap Alloc.

(** * Directory entries

    [struct linux_dirent64]: inode and offset (8 bytes each), the length of the
    record (2 bytes, little endian), the type, the name with its terminator, and
    padding. *)
Record entry := Entry { e_name : list Z; e_type : Z }.

Definition record_of (e : entry) (r : list Z) : Prop :=
  exists header pad, length header = 16%nat /\
    r = header ++ [Z.of_nat (length r) mod 256; Z.of_nat (length r) / 256; e_type e] ++ e_name e ++ [0] ++ pad /\
    Z.of_nat (length r) < 2 ^ 16 /\ Forall (fun c => c <> 0) (e_name e).

(** An entry that a directory can hold. *)
Definition entry_ok (e : entry) : Prop :=
  Forall (fun c => c <> 0) (e_name e) /\ (length (e_name e) <= 255)%nat /\ 0 <= e_type e < 256.

(** The records of consecutive entries. *)
Inductive records : list entry -> list Z -> Prop :=
| records_nil : records [] []
| records_cons e r es rs : record_of e r -> records es rs -> records (e :: es) (r ++ rs).

(** * System calls

    A file or directory of the host, by its path; a descriptor stands for a
    directory of which [rest] is still to be read, for a file, or for a file
    that is written. *)
Inductive host_node :=
| HostDir (entries : list entry)
| HostFile (content : list Z).

Inductive handle :=
| Listing (path : list (list Z)) (rest : list entry)
| Reading (content : list Z)
| Writing (path : list Z) (written : list Z).

Definition handle_of (path : list (list Z)) (n : host_node) : handle :=
  match n with HostDir es => Listing path es | HostFile c => Reading c end.

Definition AT_FDCWD : Z := -100.
Definition O_RDONLY : Z := 0.
Definition O_WRONLY : Z := 1.
Definition O_CREAT : Z := 64.
Definition O_TRUNC : Z := 512.

(** The calls of the platform, each with its result; [k_getdents] also returns
    the bytes it stored in the buffer and [k_mmap_file] the bytes that appear in
    memory.  [k_garbage] is what an argument register happens to hold, and
    [k_stack] what a local array does. *)
Class Kernel (K : Type) := {
  k_openat : Z -> list Z -> Z -> prog K Z;
  k_getdents : Z -> Z -> prog K (Z * list Z);
  k_write : Z -> list Z -> prog K Z;
  k_seek_end : Z -> prog K Z;
  k_mmap : Z -> prog K Z;
  k_mmap_file : Z -> Z -> prog K (Z * list Z);
  k_garbage : Z;
  k_stack : Z;
}.

(** ** What the manual pages promise

    [k_handles] are the open descriptors, [k_tree] the files of the host by
    their path from the working directory, [k_areas] the mapped memory.
    [k_files] are the contents of the files that can be written, [k_file] says
    which file a path leads to, and [k_console] is the path of standard output.
    [k_spare] counts the descriptors and mappings that are still available. *)
Class KernelSpec (K : Type) {HK : Kernel K} := {
  k_handles : K -> gmap Z handle;
  k_tree : list (list Z) -> option host_node;
  k_creatable : list Z -> Prop;
  k_files : K -> gmap Z (list Z);
  k_file : list Z -> Z;
  k_console : list Z;
  k_areas : K -> list (Z * Z);
  k_spare : K -> nat;

  (** [openat] of an existing file returns a new descriptor. *)
  openat_law k fd dir name n c :
    (fd = AT_FDCWD /\ dir = [] \/ exists rest, k_handles k !! fd = Some (Listing dir rest)) ->
    k_tree (dir ++ [name]) = Some n -> k_spare k = S c ->
    wp (k_openat fd name O_RDONLY) (fun r k' => 0 <= r < 2 ^ 31 /\ k_handles k !! r = None /\
      k_handles k' = <[r := handle_of (dir ++ [name]) n]> (k_handles k) /\
      k_areas k' = k_areas k /\ k_spare k' = c) k;
  (** With [O_CREAT] and [O_TRUNC] it returns one for the file of that path, of
      which it erases what was there. *)
  create_law k path c :
    k_creatable path -> k_spare k = S c ->
    wp (k_openat AT_FDCWD path (Z.lor O_WRONLY (Z.lor O_CREAT O_TRUNC))) (fun r k' => 0 <= r < 2 ^ 31 /\
      k_handles k !! r = None /\ k_handles k' = <[r := Writing path []]> (k_handles k) /\
      k_files k' = <[k_file path := []]> (k_files k) /\
      k_areas k' = k_areas k /\ k_spare k' = c) k;
  (** [getdents64] returns the records of the next entries that fit, and 0 at
      the end of the directory. *)
  getdents_law k fd path es size :
    k_handles k !! fd = Some (Listing path es) -> Forall entry_ok es -> 1024 <= size < 2 ^ 31 ->
    wp (k_getdents fd size) (fun r k' => exists es1 es2, es = es1 ++ es2 /\ (es <> [] -> es1 <> []) /\
      records es1 r.2 /\ r.1 = Z.of_nat (length r.2) /\ r.1 <= size /\
      k_handles k' = <[fd := Listing path es2]> (k_handles k) /\
      k_areas k' = k_areas k /\ k_spare k' = k_spare k) k;
  (** [write] writes at least one of the bytes, behind those that were written to
      the descriptor before; no other file changes. *)
  write_law k fd path old bs :
    k_handles k !! fd = Some (Writing path old) -> bs <> [] ->
    wp (k_write fd bs) (fun n k' => 1 <= n <= Z.of_nat (length bs) /\
      k_handles k' = <[fd := Writing path (old ++ take (Z.to_nat n) bs)]> (k_handles k) /\
      (k_files k !! k_file path = Some old -> k_files k' !! k_file path = Some (old ++ take (Z.to_nat n) bs)) /\
      (forall f, f <> k_file path -> k_files k' !! f = k_files k !! f) /\
      k_areas k' = k_areas k /\ k_spare k' = k_spare k) k;
  (** [lseek] to the end returns the size of the file. *)
  seek_law k fd content :
    k_handles k !! fd = Some (Reading content) ->
    wp (k_seek_end fd) (fun n k' => n = Z.of_nat (length content) /\ k_handles k' = k_handles k /\
      k_areas k' = k_areas k /\ k_spare k' = k_spare k) k;
  (** A mapping starts at a page and is apart from all others. *)
  mmap_law k size c :
    0 < size <= 2 ^ 31 -> k_spare k = S c ->
    wp (k_mmap size) (fun p k' => 0 < p /\ p mod 4096 = 0 /\ p + size <= 2 ^ 47 /\
      (forall q n, (q, n) ∈ k_areas k -> p + size <= q \/ q + n <= p) /\
      k_handles k' = k_handles k /\ k_areas k' = (p, size) :: k_areas k /\ k_spare k' = c) k;
  mmap_file_law k fd content c :
    k_handles k !! fd = Some (Reading content) -> 0 < Z.of_nat (length content) <= 2 ^ 31 -> k_spare k = S c ->
    wp (k_mmap_file fd (Z.of_nat (length content))) (fun r k' => 0 < r.1 /\ r.1 + Z.of_nat (length content) <= 2 ^ 47 /\
      r.2 = content /\
      (forall q n, (q, n) ∈ k_areas k -> r.1 + Z.of_nat (length content) <= q \/ q + n <= r.1) /\
      k_handles k' = k_handles k /\ k_areas k' = (r.1, Z.of_nat (length content)) :: k_areas k /\ k_spare k' = c) k;
}.
