(* ===== verification/Debug.v ===== *)
(** The debug platform (src/system/platform/debug/debug.c): it presents the
    directories of [input_sets] to the runtime as sets and writes the output
    sets to files.  The kernel is a parameter. *)
From S2P Require Import Prelude Bytes Heap Alloc System RuntimeIO Kernel.

(** * State *)

(** [__dandelion_system_data]. *)
Record system_data := SystemData {
  sd_exit_code : Z; sd_heap_begin : Z; sd_heap_end : Z;
  sd_input_sets_len : Z; sd_input_sets : Z; sd_output_sets_len : Z; sd_output_sets : Z;
  sd_input_bufs : Z; sd_output_bufs : Z;
}.

(** [mem] are the bytes that were stored or mapped from a file, [zeroed] the
    anonymous mappings, whose bytes are 0 until they are stored; [buffer_space]
    and [used] are the static variables of [debug_alloc]; then the arrays that
    [sysdata] points to; [status] is the status of a process that has ended. *)
Record platform (K : Type) := Platform {
  kernel : K;
  mem : gmap Z Z;
  zeroed : list (Z * Z);
  buffer_space : Z;
  used : Z;
  in_infos : list io_set_info;
  in_bufs : list io_buffer;
  out_infos : list io_set_info;
  out_bufs : list io_buffer;
  sysdata : system_data;
  status : option Z;
}.
Arguments Platform {K}.
Arguments kernel {K}. Arguments mem {K}. Arguments zeroed {K}. Arguments buffer_space {K}.
Arguments used {K}. Arguments in_infos {K}. Arguments in_bufs {K}. Arguments out_infos {K}.
Arguments out_bufs {K}. Arguments sysdata {K}. Arguments status {K}.

Section debug_act.
Context {K : Type} {HK : Kernel K}.
Implicit Types s : platform K.

Definition with_kernel (k : K) s : platform K :=
  Platform k (mem s) (zeroed s) (buffer_space s) (used s) (in_infos s) (in_bufs s)
    (out_infos s) (out_bufs s) (sysdata s) (status s).
Definition with_mem (m : gmap Z Z) s : platform K :=
  Platform (kernel s) m (zeroed s) (buffer_space s) (used s) (in_infos s) (in_bufs s)
    (out_infos s) (out_bufs s) (sysdata s) (status s).
Definition with_zeroed (z : list (Z * Z)) s : platform K :=
  Platform (kernel s) (mem s) z (buffer_space s) (used s) (in_infos s) (in_bufs s)
    (out_infos s) (out_bufs s) (sysdata s) (status s).
Definition with_space (p u : Z) s : platform K :=
  Platform (kernel s) (mem s) (zeroed s) p u (in_infos s) (in_bufs s)
    (out_infos s) (out_bufs s) (sysdata s) (status s).
Definition with_inputs (infos : list io_set_info) (bufs : list io_buffer) s : platform K :=
  Platform (kernel s) (mem s) (zeroed s) (buffer_space s) (used s) infos bufs
    (out_infos s) (out_bufs s) (sysdata s) (status s).
Definition with_out_infos (infos : list io_set_info) s : platform K :=
  Platform (kernel s) (mem s) (zeroed s) (buffer_space s) (used s) (in_infos s) (in_bufs s)
    infos (out_bufs s) (sysdata s) (status s).
Definition with_sysdata (d : system_data) s : platform K :=
  Platform (kernel s) (mem s) (zeroed s) (buffer_space s) (used s) (in_infos s) (in_bufs s)
    (out_infos s) (out_bufs s) d (status s).
Definition with_status (c : option Z) s : platform K :=
  Platform (kernel s) (mem s) (zeroed s) (buffer_space s) (used s) (in_infos s) (in_bufs s)
    (out_infos s) (out_bufs s) (sysdata s) c.

(** ** Programs that can end the process

    [None]: the process has ended with [status]. *)
Definition act (A : Type) : Type := prog (platform K) (option A).
Definition go {A} (a : A) : act A := ret (Some a).
Definition andthen {A B} (c : act A) (k : A -> act B) : act B :=
  let! r := c in match r with Some a => k a | None => ret None end.
Definition lift {A} (c : prog (platform K) A) : act A := let! a := c in go a.
End debug_act.

Notation "'let?' x := c 'in' k" := (andthen c (fun x => k))
  (at level 10, x pattern, c at level 150, k at level 200,
   format "'let?'  x  :=  c  'in' '//' k") : prog_scope.

Section debug.
Context {K : Type} {HK : Kernel K}.
Implicit Types s : platform K.
Notation act := (act (K := K)).

Definition act_loop {A B} (fuel : nat) (body : A -> act (A + B)) (a : A) : act B :=
  loop fuel (fun a => let! r := body a in
    ret (match r with
         | None => inr None
         | Some (inl a) => inl a
         | Some (inr b) => inr (Some b) end)) a.

Definition syscall {A} (c : prog K A) : act A := lift (zoom kernel with_kernel c).
Definition exit_group {A} (code : Z) : act A :=
  let! _ := modify (with_status (Some (int32 code))) in ret None.

(** ** Memory *)

Definition inside (a : Z) (area : Z * Z) : bool := (area.1 <=? a) && (a <? area.1 + area.2).
Definition load s (a : Z) : option Z :=
  match mem s !! a with
  | Some b => Some b
  | None => if existsb (inside a) (zeroed s) then Some 0 else None
  end.
Definition store (a b : Z) : act unit := fun s =>
  if existsb (inside a) (zeroed s) then Ret (Some tt) (with_mem (<[a := b]> (mem s)) s)
  else Fault OutOfBounds.

(** An object that is read through a [char *]. *)
Definition local (array : list Z) (offset : Z) : Z -> option Z := fun i => zlookup (offset + i) array.
Definition at_address s (p : Z) : Z -> option Z := fun i => load s (p + i).

Definition my_strlen (extent : nat) (string : Z -> option Z) : act Z :=
  act_loop (S extent) (fun len =>
    match string len with
    | None => fail OutOfBounds
    | Some c => if c =? 0 then go (inr len) else go (inl (len + 1))
    end) 0.

(** [put] stores a character of the destination. *)
Definition my_memcpy (put : Z -> Z -> act unit) (src : Z -> option Z) (size : Z) : act unit :=
  act_loop (S (Z.to_nat size)) (fun i =>
    if i <? size then
      match src i with
      | None => fail OutOfBounds
      | Some c => let? _ := put i c in go (inl (i + 1))
      end
    else go (inr tt)) 0.

(** The bytes of an object of [size] bytes. *)
Fixpoint bytes_of (size : nat) (src : Z -> option Z) (i : Z) : option (list Z) :=
  match size with
  | O => Some []
  | S n => match src i, bytes_of n src (i + 1) with
           | Some c, Some l => Some (c :: l) | _, _ => None end
  end.

(** The path at which the kernel reads a string, or its error. *)
Definition PATH_MAX : nat := 4096.
Definition EFAULT : Z := 14.
Definition ENAMETOOLONG : Z := 36.
Fixpoint read_path (fuel : nat) (string : Z -> option Z) (i : Z) : Z + list Z :=
  match fuel with
  | O => inl ENAMETOOLONG
  | S n => match string i with
           | None => inl EFAULT
           | Some c => if c =? 0 then inr [] else
                       match read_path n string (i + 1) with inl e => inl e | inr l => inr (c :: l) end
           end
  end.

(** * Output of the platform *)

Definition openat (fd : Z) (string : Z -> option Z) (flags : Z) : act Z :=
  match read_path PATH_MAX string 0 with
  | inl e => go (- e)
  | inr path => let? r := syscall (k_openat fd path flags) in go (int32 r)
  end.

Definition print_and_exit {A} (message : list Z) (exit_code : Z) : act A :=
  let? string_length := my_strlen (length message) (local message 0) in
  let? _ := syscall (k_write 2 (take (Z.to_nat string_length) message)) in
  exit_group exit_code.

Definition write_all (fd : Z) (buffer : list Z) : act unit :=
  let size := Z.of_nat (length buffer) in
  act_loop (S (length buffer)) (fun written =>
    if written <? size then
      let? e := syscall (k_write fd (drop (Z.to_nat written) buffer)) in
      if e <? 0 then exit_group k_garbage else go (inl (written + e))
    else go (inr tt)) 0.

(** [write_all] of [size] bytes from an address. *)
Definition write_from (fd p size : Z) : act unit := fun s =>
  match bytes_of (Z.to_nat size) (at_address s p) 0 with
  | Some l => write_all fd l s
  | None => Fault OutOfBounds
  end.

Definition newline : list Z := [10].
Definition tab : list Z := [9].

(** ** [dump_io_buf]

    [tmp] is threaded through the copies. *)
Definition TMP_SIZE : nat := 256.
Definition put_local (offset : Z) (tmp : list Z) (i c : Z) : option (list Z) :=
  match zlookup (offset + i) tmp with Some _ => Some (zinsert (offset + i) c tmp) | None => None end.

(** [my_memcpy(tmp + offset, src, size)] *)
Definition copy_local (tmp : list Z) (offset : Z) (src : Z -> option Z) (size : Z) : act (list Z) :=
  act_loop (S (Z.to_nat size)) (fun '(i, tmp) =>
    if i <? size then
      match src i with
      | None => fail OutOfBounds
      | Some c => match put_local offset tmp i c with
                  | None => fail OutOfBounds
                  | Some tmp => go (inl (i + 1, tmp)) end
      end
    else go (inr tmp)) (0, tmp).

Definition set_local (tmp : list Z) (i c : Z) : act (list Z) :=
  match put_local 0 tmp i c with Some tmp => go tmp | None => fail OutOfBounds end.

(** [buf] is [&output_bufs[index]]; it is [NULL] when the array is [NULL] and
    the index 0. *)
Definition dump_io_buf (setid setidlen index : Z) : act unit := fun s =>
  let buf_null := (sd_output_bufs (sysdata s) =? NULL) && (index =? 0) in
  let refuse := write_all 2 (chars "Output set id, buffer pointer or buffer id are NULL") in
  let tmp := literal "output_sets/" ++ replicate (TMP_SIZE - 13) 0 in
  (let? start_len := my_strlen (length tmp) (local tmp 0) in
   if (setid =? NULL) || buf_null then refuse else
   match zlookup index (out_bufs s) with
   | None => fail OutOfBounds
   | Some buf =>
     if ib_ident buf =? NULL then refuse else
     let? tmp := copy_local tmp start_len (at_address s setid) setidlen in
     let identlen := ib_ident_len buf in
     let? tmp := set_local tmp (start_len + setidlen) 47 in
     let? tmp := copy_local tmp (start_len + setidlen + 1) (at_address s (ib_ident buf)) identlen in
     let? tmp := set_local tmp (start_len + setidlen + 1 + identlen) 0 in
     let? _ := write_all 1 (take (Z.to_nat (start_len + setidlen + 1 + identlen)) tmp) in
     let? _ := write_all 1 newline in
     let? out_fd := openat AT_FDCWD (local tmp 0) (Z.lor O_WRONLY (Z.lor O_CREAT O_TRUNC)) in
     if out_fd <? 0 then print_and_exit (literal "Failed to open output file" ++ newline) (- out_fd) else
     write_from out_fd (ib_data buf) (ib_data_len buf)
   end) s.

(** The loops [for (size_t i = 0; i < n; ++i)] of the platform. *)
Definition for_each (n : Z) (body : Z -> act unit) : act unit :=
  act_loop (S (Z.to_nat n)) (fun i =>
    if i <? n then let? _ := body i in go (inl (i + 1)) else go (inr tt)) 0.

Definition info_at (infos : list io_set_info) (i : Z) : act io_set_info :=
  match zlookup i infos with Some a => go a | None => fail OutOfBounds end.

Definition dump_global_data : act unit := fun s =>
  for_each (sd_output_sets_len (sysdata s)) (fun i =>
    let? set := info_at (out_infos s) i in
    let? next := info_at (out_infos s) (wrap64 (i + 1)) in
    let num_elems := wrap64 (si_offset next - si_offset set) in
    for_each num_elems (fun j =>
      dump_io_buf (si_ident set) (si_ident_len set) (wrap64 (si_offset set + j)))) s.

(** * Memory of the platform *)

Definition vm_alloc (size : Z) : act Z :=
  let? r := syscall (k_mmap size) in
  if (r <? 0) && (-4096 <? r) then go NULL else
  let? _ := lift (modify (fun s => with_zeroed ((r, size) :: zeroed s) s)) in go r.

Definition round_up_to (original alignment : Z) : Z :=
  let rem := original mod alignment in
  let additional := wrap64 (alignment - (if rem =? 0 then alignment else rem)) in
  wrap64 (original + additional).

Definition sizeof_size_t : Z := 8.
Definition page_size : Z := 4096.

Definition debug_alloc (size : Z) : act Z :=
  let new_allocation := wrap64 (size + sizeof_size_t - 1) / sizeof_size_t in
  let! s := gets id in
  let? _ := if (buffer_space s =? NULL)
               || (page_size <? wrap64 (wrap64 (used s + new_allocation) * sizeof_size_t))
            then let? p := vm_alloc page_size in lift (modify (with_space p 0))
            else go tt in
  let! s := gets id in
  let ret_ptr := buffer_space s + sizeof_size_t * used s in
  let? _ := lift (modify (with_space (buffer_space s) (wrap64 (used s + new_allocation)))) in
  go ret_ptr.

(** * Directories *)

Definition DIRENT_BUF_SIZE : Z := 4096.
Definition DT_DIR : Z := 4.

(** Fields of [(linux_dirent * )&buffer[offset]]. *)
Definition field (buffer : list Z) (i : Z) : act Z :=
  match zlookup i buffer with Some c => go c | None => fail OutOfBounds end.
Definition d_reclen (buffer : list Z) (offset : Z) : act Z :=
  let? lo := field buffer (offset + 16) in
  let? hi := field buffer (offset + 17) in go (lo + 256 * hi).
Definition d_type (buffer : list Z) (offset : Z) : act Z := field buffer (offset + 18).
Definition d_name (buffer : list Z) (offset : Z) : Z -> option Z := local buffer (offset + 19).

(** [while ((n = getdents64(fd, buffer)) > 0)
     for (offset = 0; offset < n; offset += d_reclen) body]:
    the buffer keeps what the call does not overwrite, and [T] are the variables
    of the body.  [turns] bounds the calls. *)
Definition each_record {T} (n : Z) (body : list Z -> Z -> T -> act T) (buffer : list Z) (t : T) : act T :=
  act_loop (S (Z.to_nat n)) (fun '(offset, t) =>
    if offset <? n then
      let? t := body buffer offset t in
      let? reclen := d_reclen buffer offset in go (inl (offset + reclen, t))
    else go (inr t)) (0, t).

Definition each_dirent {T} (turns : nat) (fd : Z) (body : list Z -> Z -> T -> act T)
    (buffer : list Z) (t : T) : act (Z * list Z * T) :=
  act_loop turns (fun '(buffer, t) =>
    let? r := syscall (k_getdents fd DIRENT_BUF_SIZE) in
    let buffer := r.2 ++ drop (length r.2) buffer in
    if r.1 >? 0 then let? t := each_record r.1 body buffer t in go (inl (buffer, t))
    else go (inr (r.1, buffer, t))) (buffer, t).

(** The tests for the entries [.] and [..]. *)
Definition is_dots (buffer : list Z) (offset ident_len : Z) : act bool :=
  if ident_len =? 1 then
    let? a := field buffer (offset + 19) in go (a =? 46)
  else if ident_len =? 2 then
    let? a := field buffer (offset + 19) in
    if a =? 46 then let? b := field buffer (offset + 20) in go (b =? 46) else go false
  else go false.

Definition name_len (buffer : list Z) (offset : Z) : act Z :=
  my_strlen (length buffer) (d_name buffer offset).

(** [debug_alloc] and the copy of the name. *)
Definition copy_name (buffer : list Z) (offset ident_len : Z) : act Z :=
  let? ident_buffer := debug_alloc ident_len in
  let? _ := my_memcpy (fun i c => store (ident_buffer + i) c) (d_name buffer offset) ident_len in
  go ident_buffer.

(** * [__dandelion_platform_init] *)

(** An entry of [input_sets]; the offset of the descriptor is still zero. *)
Definition collect_input_set (buffer : list Z) (offset : Z) (_ : unit) : act unit :=
  let? ident_len := name_len buffer offset in
  let? dots := is_dots buffer offset ident_len in
  if dots then go tt else
  let? t := d_type buffer offset in
  if negb (t =? DT_DIR) then print_and_exit (literal "file in input_sets not direcotory") (-1) else
  let? ident_buffer := copy_name buffer offset ident_len in
  lift (modify (fun s => with_inputs (in_infos s ++ [IoSetInfo ident_buffer ident_len 0]) (in_bufs s) s)).

(** [for (index...) if (item_ident_buffer[index] == '+') ... = '/'] *)
Definition unfold_names (item_ident_buffer item_ident_len : Z) : act unit :=
  for_each item_ident_len (fun index =>
    let! s := gets id in
    match load s (item_ident_buffer + index) with
    | None => fail OutOfBounds
    | Some c => if c =? 43 then store (item_ident_buffer + index) 47 else go tt
    end).

(** The data of an item: its address, [NULL] for an empty file. *)
Definition map_item (item_fd file_size : Z) : act Z :=
  if file_size >? 0 then
    let? r := syscall (k_mmap_file item_fd file_size) in
    if r.1 <? 0 then print_and_exit (literal "Could not map item file" ++ newline) (int32 (- int32 r.1)) else
    let? _ := lift (modify (fun s => with_mem (write_bytes r.1 r.2 (mem s)) s)) in go r.1
  else go NULL.

(** An entry of a set; [heap_ptr] and [total_buffers] are updated. *)
Definition collect_item (set_folder_fd : Z) (buffer : list Z) (offset : Z) (t : Z * Z) : act (Z * Z) :=
  let '(heap_ptr, total_buffers) := t in
  let? item_ident_len := name_len buffer offset in
  let? dots := is_dots buffer offset item_ident_len in
  if dots then go (heap_ptr, total_buffers) else
  let? _ := write_all 1 (tab ++ tab) in
  let? _ := match bytes_of (Z.to_nat item_ident_len) (d_name buffer offset) 0 with
            | Some l => write_all 1 l | None => fail OutOfBounds end in
  let? _ := write_all 1 newline in
  let heap_ptr := wrap64 (heap_ptr + sizeof_io) in
  let? item_ident_buffer := copy_name buffer offset item_ident_len in
  let? _ := unfold_names item_ident_buffer item_ident_len in
  let? item_fd := openat set_folder_fd (d_name buffer offset) O_RDONLY in
  if item_fd <? 0 then print_and_exit (literal "could not open item file") (-1) else
  let? file_size := syscall (k_seek_end item_fd) in
  if file_size <? 0 then print_and_exit (literal "Could not get file size" ++ newline) (-1) else
  let? file_addr := map_item item_fd file_size in
  let? _ := lift (modify (fun s => with_inputs (in_infos s)
              (in_bufs s ++ [IoBuffer item_ident_buffer item_ident_len file_addr file_size 0]) s)) in
  go (heap_ptr, wrap64 (total_buffers + 1)).

Definition set_offset (off : Z) (info : io_set_info) : io_set_info :=
  IoSetInfo (si_ident info) (si_ident_len info) off.

(** The body of the loop over the input sets; [dirent_read] is the result of
    the last call for [input_sets], which the test at the end reports. *)
Definition collect_set (turns : nat) (in_sets_fd dirent_read input_set : Z) (t : Z * Z * list Z)
    : act (Z * Z * list Z) :=
  let '(heap_ptr, total_buffers, set_buffer) := t in
  let! s := gets id in
  let? info := info_at (in_infos s) input_set in
  let? _ := lift (modify (fun s => with_inputs
    (zinsert input_set (set_offset total_buffers info) (in_infos s)) (in_bufs s) s)) in
  let? _ := write_all 1 tab in
  let? _ := write_from 1 (si_ident info) (si_ident_len info) in
  let? _ := write_all 1 newline in
  let! s := gets id in
  let? set_folder_fd := openat in_sets_fd (at_address s (si_ident info)) O_RDONLY in
  if set_folder_fd <? 0 then print_and_exit (literal "could not open set folder" ++ newline) (-1) else
  let? r := each_dirent turns set_folder_fd (collect_item set_folder_fd) set_buffer (heap_ptr, total_buffers) in
  let '(set_dirent_read, set_buffer, (heap_ptr, total_buffers)) := r in
  if set_dirent_read <? 0 then print_and_exit (literal "getdents failed" ++ newline) (- dirent_read) else
  go (heap_ptr, total_buffers, set_buffer).

Definition collect_sets (turns : nat) (in_sets_fd dirent_read n : Z) (t : Z * Z * list Z) : act (Z * Z * list Z) :=
  act_loop (S (Z.to_nat n)) (fun '(input_set, t) =>
    if input_set <? n then
      let? t := collect_set turns in_sets_fd dirent_read input_set t in go (inl (input_set + 1, t))
    else go (inr t)) (0, t).

(** An entry of [output_sets]. *)
Definition collect_output_set (buffer : list Z) (offset : Z) (_ : unit) : act unit :=
  let? ident_len := name_len buffer offset in
  let? dots := is_dots buffer offset ident_len in
  if dots then go tt else
  let? _ := write_all 1 tab in
  let? _ := match bytes_of (Z.to_nat ident_len) (d_name buffer offset) 0 with
            | Some l => write_all 1 l | None => fail OutOfBounds end in
  let? _ := write_all 1 newline in
  let? t := d_type buffer offset in
  if negb (t =? DT_DIR) then print_and_exit (literal "file in output_sets not direcotory") (-1) else
  let? ident_buffer := copy_name buffer offset ident_len in
  lift (modify (fun s => with_out_infos (out_infos s ++ [IoSetInfo ident_buffer ident_len 0]) s)).

Definition sizeof_info : Z := 24.
Definition alignof_info : Z := 8.

(** The statements up to the sentinel of the input sets; the result is the
    position in the heap. *)
Definition init_inputs (turns : nat) (heap_ptr : Z) (buffer : list Z) : act (Z * list Z) :=
  let? in_sets_fd := openat AT_FDCWD (local (literal "input_sets") 0) O_RDONLY in
  if in_sets_fd <? 0 then
    print_and_exit (literal "No input_sets directory in current working directory" ++ newline) (-1) else
  let input_sets := heap_ptr in
  let? _ := write_all 1 (chars "input_sets:" ++ newline ++ [0]) in
  let? r := each_dirent turns in_sets_fd collect_input_set buffer tt in
  let '(dirent_read, buffer, _) := r in
  if dirent_read <? 0 then print_and_exit (literal "getdents failed" ++ newline) (- dirent_read) else
  let! s := gets id in
  let input_set_index := Z.of_nat (length (in_infos s)) in
  let heap_ptr := wrap64 (heap_ptr + (input_set_index + 1) * sizeof_info) in
  let heap_ptr := round_up_to heap_ptr alignof_io in
  let input_bufs := heap_ptr in
  let? t := collect_sets turns in_sets_fd dirent_read input_set_index
              (heap_ptr, 0, replicate (Z.to_nat DIRENT_BUF_SIZE) k_stack) in
  let '(heap_ptr, total_buffers, _) := t in
  let? _ := lift (modify (fun s => with_inputs (in_infos s ++ [IoSetInfo NULL 0 total_buffers]) (in_bufs s) s)) in
  let? _ := lift (modify (fun s => let d := sysdata s in
    with_sysdata (SystemData (sd_exit_code d) (sd_heap_begin d) (sd_heap_end d) input_set_index input_sets
      (sd_output_sets_len d) (sd_output_sets d) input_bufs (sd_output_bufs d)) s)) in
  go (heap_ptr, buffer).

Definition init_outputs (turns : nat) (heap_ptr heap_end : Z) (buffer : list Z) : act unit :=
  let? _ := write_all 1 (chars "output_sets:" ++ newline ++ [0]) in
  let? out_sets_fd := openat AT_FDCWD (local (literal "output_sets") 0) O_RDONLY in
  if out_sets_fd <? 0 then
    print_and_exit (literal "No output set directory in current working directory" ++ newline) (-1) else
  let heap_ptr := round_up_to heap_ptr alignof_info in
  let output_sets := heap_ptr in
  let? r := each_dirent turns out_sets_fd collect_output_set buffer tt in
  let '(dirent_read, buffer, _) := r in
  if dirent_read <? 0 then print_and_exit (literal "getdents failed" ++ newline) (- dirent_read) else
  let! s := gets id in
  let output_set_index := Z.of_nat (length (out_infos s)) in
  let? _ := lift (modify (fun s => with_out_infos (out_infos s ++ [IoSetInfo NULL 0 0]) s)) in
  let heap_ptr := wrap64 (heap_ptr + (output_set_index + 1) * sizeof_info) in
  lift (modify (fun s => let d := sysdata s in
    with_sysdata (SystemData (sd_exit_code d) heap_ptr heap_end (sd_input_sets_len d) (sd_input_sets d)
      output_set_index output_sets (sd_input_bufs d) NULL) s)).

Definition platform_init (turns : nat) : act unit :=
  let alloc_size := 2 ^ 31 in
  let? heap_ptr := vm_alloc alloc_size in
  let heap_end := wrap64 (heap_ptr + alloc_size) in
  if heap_ptr =? NULL then exit_group 1 else
  let? r := init_inputs turns heap_ptr (replicate (Z.to_nat DIRENT_BUF_SIZE) k_stack) in
  let '(heap_ptr, buffer) := r in
  init_outputs turns heap_ptr heap_end buffer.

(** [__dandelion_system_data] and the platform before the entry point. *)
Definition initial_data : system_data :=
  SystemData 256 size_max 0 size_max NULL size_max NULL NULL NULL.
Definition platform_start (k : K) : platform K := Platform k ∅ [] NULL 0 [] [] [] [] initial_data None.

(** * [__dandelion_platform_exit] *)

(** The characters of the exit code; [exit_code *= -1] wraps for the smallest
    integer.  [/] and [%] truncate. *)
Fixpoint exit_digits (n : nat) (index exit_code : Z) (string : list Z) : list Z :=
  match n with
  | O => string
  | S n =>
      let string := zinsert (10 - index) (48 + Z.rem exit_code 10) string in
      let exit_code := Z.quot exit_code 10 in
      if exit_code =? 0 then string else exit_digits n (index + 1) exit_code string
  end.
Definition exit_code_string (exit_code : Z) : list Z :=
  let string := chars " 0000000000" ++ newline in
  if exit_code <? 0
  then exit_digits 10 0 (int32 (exit_code * -1)) (zinsert 0 45 string)
  else exit_digits 10 0 exit_code string.

Definition platform_exit : act unit :=
  let? _ := dump_global_data in
  let? _ := write_all 1 (chars "Exiting with code ") in
  let! s := gets id in
  let exit_code := sd_exit_code (sysdata s) in
  let? _ := write_all 1 (exit_code_string exit_code) in
  exit_group exit_code.
End debug.
