(* ===== verification/DebugLemmas.v ===== *)
(** The debug platform: the rules for programs that can end the process, the
    invariant of its memory, and its operations on strings and memory. *)
From S2P Require Import Prelude Bytes Heap Alloc System RuntimeIO Kernel Debug.

(** * Rules

    [does c Q s]: started in [s], [c] ends without a fault and without ending
    the process, and its result and state satisfy [Q]. *)
Section rules.
Context {K : Type} {HK : Kernel K}.
Implicit Types s : platform K.
Notation act := (act (K := K)).

Definition does {A} (c : act A) (Q : A -> platform K -> Prop) s : Prop :=
  wp c (fun r s' => match r with Some a => Q a s' | None => False end) s.

Lemma does_go {A} (a : A) (Q : A -> platform K -> Prop) s : Q a s -> does (go a) Q s.
Proof. done. Qed.

Lemma does_andthen {A B} (c : act A) (k : A -> act B) Q s :
  does c (fun a s' => does (k a) Q s') s -> does (andthen c k) Q s.
Proof. intros H. apply wp_bind. eapply wp_mono; [exact H|]. by intros [a|] s'. Qed.

Lemma wp_andthen {A B} (c : act A) (k : A -> act B) (Q : option B -> platform K -> Prop) s :
  does c (fun a s' => wp (k a) Q s') s -> wp (andthen c k) Q s.
Proof. intros H. apply wp_bind. eapply wp_mono; [exact H|]. by intros [a|] s'. Qed.

(** A fault in the rest, or at the start, of a program. *)
Lemma fault_after {A B} (c : act A) (k : A -> act B) f s :
  does c (fun a s' => k a s' = Fault f) s -> andthen c k s = Fault f.
Proof. unfold does, wp, andthen, bind. by destruct (c s) as [[a|] s'|]. Qed.

Lemma fault_here {A B} (c : act A) (k : A -> act B) f s : c s = Fault f -> andthen c k s = Fault f.
Proof. unfold andthen, bind. by intros ->. Qed.

(** Four steps in front of the rest are one program. *)
Lemma does_join4 {A B C D E} (c1 : act A) (c2 : A -> act B) (c3 : B -> act C) (c4 : C -> act D) (k : D -> act E) Q s :
  does (let? a := c1 in let? b := c2 a in let? c := c3 b in c4 c) (fun d s' => does (k d) Q s') s ->
  does (let? a := c1 in let? b := c2 a in let? c := c3 b in let? d := c4 c in k d) Q s.
Proof.
  unfold does, wp, andthen, bind. destruct (c1 s) as [[a|] s1|]; [|done..].
  destruct (c2 a s1) as [[b|] s2|]; [|done..]. destruct (c3 b s2) as [[c|] s3|]; [|done..].
  by destruct (c4 c s3) as [[d|] s4|].
Qed.

Lemma does_lift {A} (c : prog (platform K) A) Q s : wp c Q s -> does (lift c) Q s.
Proof. intros H. by apply wp_bind. Qed.

Lemma does_get {B} (k : platform K -> act B) Q s : does (k s) Q s -> does (bind (gets id) k) Q s.
Proof. done. Qed.

Lemma does_state {A} (c : platform K -> act A) Q s : does (c s) Q s -> does (fun s => c s s) Q s.
Proof. done. Qed.

Lemma does_mono {A} (c : act A) (P Q : A -> platform K -> Prop) s :
  does c P s -> (forall a s', P a s' -> Q a s') -> does c Q s.
Proof. intros H HPQ. eapply wp_mono; [exact H|]. intros [a|] s'; [apply HPQ|done]. Qed.

Lemma does_syscall {A} (c : prog K A) Q s :
  wp c (fun a k => Q a (with_kernel k s)) (kernel s) -> does (syscall c) Q s.
Proof. intros H. apply does_lift. unfold wp, zoom in *. by destruct (c (kernel s)). Qed.

Lemma does_loop_step {A B} n (body : A -> act (A + B)) a Q s :
  does (body a) (fun r s' => match r with
    | inl a' => does (act_loop n body a') Q s' | inr b => Q b s' end) s ->
  does (act_loop (S n) body a) Q s.
Proof.
  intros H. apply wp_loop_step, wp_bind. eapply wp_mono; [exact H|].
  intros [[a'|b]|] s' Hs; [exact Hs|exact Hs|done].
Qed.

(** Counting loops keep an invariant [I i]. *)
Lemma does_count n (body : Z -> act unit) (I : Z -> platform K -> Prop) k i (Q : unit -> platform K -> Prop) s :
  0 <= i <= Z.max 0 n -> (Z.to_nat (n - i) < k)%nat -> I i s ->
  (forall i s, 0 <= i < n -> I i s -> does (body i) (fun _ s' => I (i + 1) s') s) ->
  (forall s', I (Z.max 0 n) s' -> Q tt s') ->
  does (act_loop k (fun i => if i <? n then let? _ := body i in go (inl (i + 1)) else go (inr tt)) i) Q s.
Proof.
  intros Hi Hk HI Hb HQ. revert i s Hi Hk HI. induction k as [|k IH]; intros i s Hi Hk HI; [lia|].
  apply does_loop_step. destruct (i <? n) eqn:E; bool_to_prop.
  - apply does_andthen. eapply does_mono; [apply Hb; [lia|done]|]. intros [] s' HI'. apply does_go.
    apply IH; [lia|lia|done].
  - apply does_go, HQ. by replace (Z.max 0 n) with i by lia.
Qed.
End rules.
(** * Strings *)
Section strings.
Context {K : Type} {HK : Kernel K}.
Implicit Types s : platform K.
Notation act := (act (K := K)).

(** [src] is an object that starts with [l]. *)
Definition starts (src : Z -> option Z) (l : list Z) : Prop :=
  forall i b, zlookup i l = Some b -> src i = Some b.

Lemma zlookup_S {A} i (a : A) l : 0 <= i -> zlookup (i + 1) (a :: l) = zlookup i l.
Proof.
  intros Hi. unfold zlookup. rewrite !(proj2 (Z.leb_le _ _)) by lia.
  by replace (Z.to_nat (i + 1)) with (S (Z.to_nat i)) by lia.
Qed.

Lemma starts_app_l src l k : starts src (l ++ k) -> starts src l.
Proof.
  intros H i b Hi. apply H. pose proof (zlookup_range _ _ _ Hi). unfold zlookup in *.
  destruct (0 <=? i); [|done]. rewrite lookup_app_l; [done|]. by eapply lookup_lt_Some.
Qed.

Lemma starts_at src l k i b :
  starts src (l ++ b :: k) -> i = Z.of_nat (length l) -> src i = Some b.
Proof. intros H ->. apply H. rewrite zlookup_nat. by apply list_lookup_middle. Qed.

Lemma starts_cons src b l :
  starts src (b :: l) -> src 0 = Some b /\ starts (fun i => src (i + 1)) l.
Proof.
  intros H. split; [by apply H|]. intros i c Hi. apply H.
  pose proof (zlookup_range _ _ _ Hi). rewrite zlookup_S by lia. done.
Qed.

Lemma local_starts array offset l k :
  0 <= offset -> drop (Z.to_nat offset) array = l ++ k -> starts (local array offset) l.
Proof.
  intros Ho Hd i b Hi. pose proof (zlookup_range _ _ _ Hi) as Hr. unfold local, zlookup in *.
  rewrite (proj2 (Z.leb_le 0 i)) in Hi by lia. rewrite (proj2 (Z.leb_le 0 (offset + i))) by lia.
  replace (Z.to_nat (offset + i)) with (Z.to_nat offset + Z.to_nat i)%nat by lia.
  rewrite <-lookup_drop, Hd, lookup_app_l; [done|lia].
Qed.

Lemma starts_region src m p l :
  region m p l -> (forall i, src i = m !! (p + i)) -> starts src l.
Proof. intros Hr E i b Hi. rewrite E. by apply Hr. Qed.

(** A string [name] with its terminator. *)
Definition plain (name : list Z) : Prop := Forall (fun c => c <> 0) name.

Lemma my_strlen_spec extent string name (Q : Z -> platform K -> Prop) s :
  starts string (name ++ [0]) -> plain name -> (length name <= extent)%nat ->
  Q (Z.of_nat (length name)) s -> does (my_strlen extent string) Q s.
Proof.
  intros Hst Hp He HQ. unfold my_strlen.
  assert (H : forall k i, (length (drop i name) < k)%nat -> (i <= length name)%nat ->
    does (act_loop k (fun len => match string len with None => fail OutOfBounds
      | Some c => if c =? 0 then go (inr len) else go (inl (len + 1)) end) (Z.of_nat i)) Q s).
  2: { apply (H _ 0%nat); [rewrite drop_0; lia|lia]. }
  induction k as [|k IH]; intros i Hk Hi; [lia|]. apply does_loop_step.
  destruct (decide (i = length name)) as [->|Hne].
  - by rewrite (starts_at _ _ _ _ _ Hst eq_refl).
  - destruct (lookup_lt_is_Some_2 name i ltac:(lia)) as [c Hc].
    rewrite (starts_app_l _ _ _ Hst (Z.of_nat i) c) by by rewrite zlookup_nat.
    assert (c <> 0) by (eapply Forall_lookup in Hc; [|exact Hp]; done).
    rewrite (proj2 (Z.eqb_neq _ _)) by done. apply does_go.
    replace (Z.of_nat i + 1) with (Z.of_nat (S i)) by lia. apply IH; [|lia].
    rewrite !length_drop in *. lia.
Qed.

Lemma bytes_of_spec src l i :
  starts (fun j => src (i + j)) l -> bytes_of (length l) src i = Some l.
Proof.
  revert i. induction l as [|b l IH]; intros i H; [done|]. cbn [length bytes_of].
  apply starts_cons in H as [H0 H]. rewrite Z.add_0_r in H0. rewrite H0.
  rewrite (IH (i + 1)); [done|]. intros j c Hj. rewrite <-(H j c Hj). f_equal. lia.
Qed.

Lemma read_path_spec n string name i :
  starts (fun j => string (i + j)) (name ++ [0]) -> plain name -> (length name < n)%nat ->
  read_path n string i = inr name.
Proof.
  revert n i. induction name as [|c name IH]; intros [|n] i H Hp Hn; cbn in Hn; try lia; cbn [read_path app] in *;
    apply starts_cons in H as [H0 H]; rewrite Z.add_0_r in H0; rewrite H0; [done|].
  apply Forall_cons in Hp as [Hc Hp]. rewrite (proj2 (Z.eqb_neq _ _)) by done.
  rewrite (IH n (i + 1)); [done| |done|lia]. intros j d Hj. rewrite <-(H j d Hj). f_equal. lia.
Qed.

(** [my_memcpy] stores the bytes one by one. *)
Lemma store_spec a b (Q : unit -> platform K -> Prop) s :
  existsb (inside a) (zeroed s) = true -> Q tt (with_mem (<[a := b]> (mem s)) s) -> does (store a b) Q s.
Proof. intros H HQ. unfold does, wp, store. by rewrite H. Qed.

Lemma my_memcpy_store p src l (Q : unit -> platform K -> Prop) s :
  starts src l -> (forall i, 0 <= i < Z.of_nat (length l) -> existsb (inside (p + i)) (zeroed s) = true) ->
  Q tt (with_mem (write_bytes p l (mem s)) s) ->
  does (my_memcpy (fun i c => store (p + i) c) src (Z.of_nat (length l))) Q s.
Proof.
  intros Hsrc Hin HQ. unfold my_memcpy. rewrite Nat2Z.id.
  assert (H : forall k i s1, (length (drop i l) < k)%nat -> (i <= length l)%nat ->
    s1 = with_mem (write_bytes p (take i l) (mem s)) s ->
    does (act_loop k (fun i => if i <? Z.of_nat (length l) then
      match src i with None => fail OutOfBounds
      | Some c => let? _ := store (p + i) c in go (inl (i + 1)) end else go (inr tt)) (Z.of_nat i)) Q s1).
  2: { apply (H _ 0%nat); [rewrite drop_0; lia|lia|by destruct s]. }
  induction k as [|k IH]; intros i s1 Hk Hi ->; [lia|]. apply does_loop_step.
  destruct (decide (i = length l)) as [->|Hne].
  - rewrite (proj2 (Z.ltb_ge _ _)) by lia. apply does_go. by rewrite firstn_all.
  - rewrite (proj2 (Z.ltb_lt _ _)) by lia. destruct (lookup_lt_is_Some_2 l i ltac:(lia)) as [c Hc].
    rewrite (Hsrc (Z.of_nat i) c) by by rewrite zlookup_nat.
    apply does_andthen, store_spec; [apply Hin; lia|]. apply does_go.
    replace (Z.of_nat i + 1) with (Z.of_nat (S i)) by lia. apply IH; [|lia|].
    + rewrite !length_drop in *. lia.
    + rewrite (take_S_r _ _ _ Hc), write_bytes_snoc, length_take. cbn [mem with_mem].
      by replace (i `min` length l)%nat with i by lia.
Qed.
End strings.
