(* ===== verification/DebugStep.v ===== *)
(** The debug platform: the invariant of its memory and descriptors, what a
    step of it keeps, and its operations: output, allocation of pages, names,
    opening and mapping files. *)
From S2P Require Import Prelude Bytes Heap Alloc System RuntimeIO Kernel Debug DebugLemmas.

Section step.
Context {K : Type} {HK : Kernel K} {HS : KernelSpec K}.
Implicit Types s : platform K.
Notation act := (act (K := K)).

Definition handles s : gmap Z handle := k_handles (kernel s).
Definition areas s : list (Z * Z) := k_areas (kernel s).
Definition spare s : nat := k_spare (kernel s).
Definition host_files s : gmap Z (list Z) := k_files (kernel s).
Definition arrays s := (in_infos s, in_bufs s, out_infos s, out_bufs s, sysdata s).

Definition mapped s (a : Z) : Prop := exists p n, (p, n) ∈ areas s /\ p <= a < p + n.
(** The part of the page of [debug_alloc] that is still free. *)
Definition unused s (a : Z) : Prop :=
  buffer_space s <> NULL /\ buffer_space s + 8 * used s <= a < buffer_space s + 4096.
(** Memory whose content does not change any more. *)
Definition settled s (a : Z) : Prop := mapped s a /\ ~ unused s a.

Record plat_ok s : Prop := {
  po_zeroed : zeroed s ⊆ areas s;
  po_mem a : is_Some (mem s !! a) -> mapped s a;
  po_page : buffer_space s <> NULL -> (buffer_space s, 4096) ∈ zeroed s;
  po_used : 0 <= used s <= 512;
  po_space : 0 <= buffer_space s;
  po_unused a : unused s a -> mem s !! a = None;
  po_console : exists d, handles s !! 1 = Some (Writing k_console d);
}.

(** What happens between two states: settled memory and the descriptors other
    than standard output and [ex] stay, and at most [c] of the spare resources
    are used. *)
Record step (ex : list Z) (c : nat) s s' : Prop := {
  st_ok : plat_ok s';
  st_settled a : settled s a -> settled s' a /\ load s' a = load s a;
  st_handles fd h : fd ∉ 1 :: ex -> handles s !! fd = Some h -> handles s' !! fd = Some h;
  st_spare : (spare s <= c + spare s')%nat;
}.

Lemma step_refl s : plat_ok s -> step [] 0 s s.
Proof. by split. Qed.

Lemma step_refl' ex s : plat_ok s -> step ex 0 s s.
Proof. by split. Qed.

Lemma step_trans ex c1 c2 s s1 s2 : step ex c1 s s1 -> step ex c2 s1 s2 -> step ex (c1 + c2) s s2.
Proof.
  intros [_ Hk1 Hh1 Hs1] [Ho Hk2 Hh2 Hs2]. split; [done| | |lia].
  - intros a Ha. destruct (Hk1 a Ha) as [Ha1 <-]. by apply Hk2.
  - intros fd h Hfd Hh. by apply Hh2, Hh1.
Qed.

Lemma step_weaken ex ex' c c' s s' : step ex c s s' -> ex ⊆ ex' -> (c <= c')%nat -> step ex' c' s s'.
Proof. intros [? ? Hh ?] Hex Hc. split; [done|done| |lia]. intros fd h Hfd. apply Hh. set_solver. Qed.

(** [text s p l]: the bytes [l] are at [p], for good. *)
Definition text s (p : Z) (l : list Z) : Prop :=
  forall i b, zlookup i l = Some b -> settled s (p + i) /\ load s (p + i) = Some b.

Lemma text_step ex c s s' p l : step ex c s s' -> text s p l -> text s' p l.
Proof.
  intros Hs Ht i b Hi. destruct (Ht i b Hi) as [Hset Hl]. destruct (st_settled _ _ _ _ Hs _ Hset) as [? ->]. done.
Qed.

Lemma text_starts s p l : text s p l -> starts (at_address s p) l.
Proof. intros Ht i b Hi. by apply Ht. Qed.

Lemma text_app s p l k : text s p (l ++ k) -> text s p l.
Proof.
  intros Ht i b Hi. apply Ht. pose proof (zlookup_range _ _ _ Hi). unfold zlookup in *.
  destruct (0 <=? i); [|done]. rewrite lookup_app_l; [done|]. by eapply lookup_lt_Some.
Qed.

(** A change of the kernel's state alone. *)
Lemma kernel_step ex c s k :
  plat_ok s -> k_areas k = areas s -> (spare s <= c + k_spare k)%nat ->
  (exists d, k_handles k !! 1 = Some (Writing k_console d)) ->
  (forall fd h, fd ∉ 1 :: ex -> handles s !! fd = Some h -> k_handles k !! fd = Some h) ->
  step ex c s (with_kernel k s).
Proof.
  intros [] Ha Hc H1 Hh. split; [|intros a [Hm Hu]; split; [split|]|done|done].
  - split; try done; unfold mapped, areas in *; cbn; by rewrite Ha.
  - unfold mapped, areas in *. cbn. by rewrite Ha.
  - exact Hu.
  - done.
Qed.

(** * Output *)

Lemma write_all_spec fd path old bs (Q : unit -> platform K -> Prop) s :
  handles s !! fd = Some (Writing path old) ->
  (forall k, k_handles k = <[fd := Writing path (old ++ bs)]> (handles s) -> k_areas k = areas s ->
    k_spare k = spare s -> (host_files s !! k_file path = Some old -> k_files k !! k_file path = Some (old ++ bs)) ->
    (forall f, f <> k_file path -> k_files k !! f = host_files s !! f) -> Q tt (with_kernel k s)) ->
  does (write_all fd bs) Q s.
Proof.
  intros Hfd HQ. unfold write_all.
  assert (H : forall n i s1 k1, (length (drop i bs) < n)%nat -> (i <= length bs)%nat -> s1 = with_kernel k1 s ->
    k_handles k1 = <[fd := Writing path (old ++ take i bs)]> (handles s) -> k_areas k1 = areas s ->
    k_spare k1 = spare s -> (host_files s !! k_file path = Some old -> k_files k1 !! k_file path = Some (old ++ take i bs)) ->
    (forall f, f <> k_file path -> k_files k1 !! f = host_files s !! f) ->
    does (act_loop n (fun written => if written <? Z.of_nat (length bs) then
      let? e := syscall (k_write fd (drop (Z.to_nat written) bs)) in
      if e <? 0 then exit_group k_garbage else go (inl (written + e)) else go (inr tt)) (Z.of_nat i)) Q s1).
  2: { apply (H _ 0%nat s (kernel s)); [rewrite drop_0; lia|lia|by destruct s| |done|done|by rewrite take_0, app_nil_r|done].
       rewrite take_0, app_nil_r. symmetry. by apply insert_id. }
  induction n as [|n IH]; intros i s1 k1 Hn Hi -> Hh Ha Hs Hc Hf; [lia|]. apply does_loop_step.
  destruct (decide (i = length bs)) as [->|Hne].
  { rewrite (proj2 (Z.ltb_ge _ _)) by lia. rewrite firstn_all in Hh, Hc. by apply does_go, HQ. }
  rewrite (proj2 (Z.ltb_lt _ _)) by lia. rewrite Nat2Z.id. apply does_andthen, does_syscall. cbn [kernel with_kernel].
  assert (Hne' : drop i bs <> []).
  { intros E. apply (f_equal length) in E. rewrite length_drop in E. cbn in E. lia. }
  eapply wp_mono; [apply (write_law _ _ path (old ++ take i bs)); [rewrite Hh; apply lookup_insert_eq|done]|].
  intros e k2 (He & Hh2 & Hc2 & Hf2 & Ha2 & Hs2). rewrite length_drop in He.
  rewrite (proj2 (Z.ltb_ge _ _)) by lia. apply does_go.
  replace (Z.of_nat i + e) with (Z.of_nat (i + Z.to_nat e)) by lia.
  assert (E : (old ++ take i bs) ++ take (Z.to_nat e) (drop i bs) = old ++ take (i + Z.to_nat e) bs) by (rewrite <-app_assoc, take_take_drop; done).
  rewrite E in Hh2, Hc2.
  apply (IH _ _ k2); [rewrite length_drop in *; lia|lia|done| |congruence|congruence|auto|].
  - by rewrite Hh2, Hh, insert_insert_eq.
  - intros f Hne2. by rewrite Hf2, Hf.
Qed.

(** Text on standard output changes nothing else; it is behind the text before. *)
Lemma print_appends bs (Q : unit -> platform K -> Prop) s :
  plat_ok s ->
  (forall s' d, step [] 0 s s' -> arrays s' = arrays s -> handles s !! 1 = Some (Writing k_console d) ->
    handles s' !! 1 = Some (Writing k_console (d ++ bs)) ->
    (forall f, f <> k_file k_console -> host_files s' !! f = host_files s !! f) -> Q tt s') -> does (write_all 1 bs) Q s.
Proof.
  intros Hok HQ. destruct (po_console _ Hok) as (d & H1). eapply write_all_spec; [done|].
  intros k Hh Ha Hs _ Hf. eapply HQ; [|done|exact H1| |exact Hf].
  - apply kernel_step; [done|done|lia| |].
    + exists (d ++ bs). rewrite Hh. apply lookup_insert_eq.
    + intros fd h Hfd. rewrite Hh, lookup_insert_ne; [done|set_solver].
  - unfold handles. cbn. rewrite Hh. apply lookup_insert_eq.
Qed.
Lemma print_spec bs (Q : unit -> platform K -> Prop) s :
  plat_ok s -> (forall s', step [] 0 s s' -> arrays s' = arrays s -> Q tt s') -> does (write_all 1 bs) Q s.
Proof. intros Hok HQ. apply print_appends; [done|]. intros s' d Hs Ha _ _ _. by apply HQ. Qed.

Lemma print_from_spec p l (Q : unit -> platform K -> Prop) s :
  plat_ok s -> text s p l -> (forall s', step [] 0 s s' -> arrays s' = arrays s -> Q tt s') ->
  does (write_from 1 p (Z.of_nat (length l))) Q s.
Proof.
  intros Hok Ht HQ. unfold does, write_from, wp. rewrite Nat2Z.id.
  rewrite (bytes_of_spec _ l) by (by apply text_starts). by apply print_spec.
Qed.

(** * Pages *)

Lemma inside_spec a p n : inside a (p, n) = true <-> p <= a < p + n.
Proof. unfold inside. cbn. rewrite andb_true_iff, Z.leb_le, Z.ltb_lt. lia. Qed.

Lemma in_zeroed s a p n : (p, n) ∈ zeroed s -> p <= a < p + n -> existsb (inside a) (zeroed s) = true.
Proof.
  intros Hp Ha. apply existsb_exists. exists (p, n). split; [by apply list_elem_of_In|by apply inside_spec].
Qed.

(** A new area holds nothing that was settled, stored or unused before. *)
Lemma fresh_area s p n a :
  plat_ok s -> (forall q m, (q, m) ∈ areas s -> p + n <= q \/ q + m <= p) -> p <= a < p + n ->
  ~ mapped s a /\ mem s !! a = None /\ ~ unused s a.
Proof.
  intros Hok Hap Ha. assert (Hm : ~ mapped s a).
  { intros (q & m & Hq & Hr). specialize (Hap q m Hq). lia. }
  split_and!; [done| |].
  - apply eq_None_not_Some. intros H. by apply Hm, (po_mem _ Hok).
  - intros [Hb Hu]. apply Hm. exists (buffer_space s), 4096. pose proof (po_used _ Hok). split; [|lia].
    apply (po_zeroed _ Hok). by apply (po_page _ Hok).
Qed.

Lemma vm_alloc_spec size (Q : Z -> platform K -> Prop) s :
  plat_ok s -> 0 < size <= 2 ^ 31 -> (1 <= spare s)%nat ->
  (forall p k, 0 < p -> p mod 4096 = 0 -> p + size <= 2 ^ 47 ->
    (forall q n, (q, n) ∈ areas s -> p + size <= q \/ q + n <= p) ->
    k_handles k = handles s -> k_areas k = (p, size) :: areas s -> (spare s <= 1 + k_spare k)%nat ->
    Q p (with_zeroed ((p, size) :: zeroed s) (with_kernel k s))) ->
  does (vm_alloc size) Q s.
Proof.
  intros Hok Hsz Hsp HQ. apply does_andthen, does_syscall.
  eapply wp_mono; [apply (mmap_law _ _ (pred (spare s))); [done|unfold spare in *; lia]|].
  intros p k (Hp & Hm & He & Hap & Hh & Ha & Hc).
  replace ((p <? 0) && (-4096 <? p)) with false.
  2: { symmetry. apply andb_false_iff. left. apply Z.ltb_ge. lia. }
  apply does_andthen, does_lift, wp_modify. apply does_go, HQ; try done. lia.
Qed.

(** Adding a zeroed area. *)
Lemma area_step s p size k :
  plat_ok s -> 0 < p -> (forall q n, (q, n) ∈ areas s -> p + size <= q \/ q + n <= p) ->
  k_handles k = handles s -> k_areas k = (p, size) :: areas s -> (spare s <= 1 + k_spare k)%nat ->
  step [] 1 s (with_zeroed ((p, size) :: zeroed s) (with_kernel k s)).
Proof.
  intros Hok Hp Hap Hh Ha Hc. pose proof Hok as [Hz Hm Hpg Hu Hsp Hun Hcon].
  assert (Hmap : forall a, mapped s a -> mapped (with_zeroed ((p, size) :: zeroed s) (with_kernel k s)) a).
  { intros a (q & n & Hq & Hr). exists q, n. split; [|done]. unfold areas in *. cbn. rewrite Ha. set_solver. }
  split; [split|intros a [Hma Hua]; split; [split|]| |exact Hc]; cbn; try done.
  - unfold areas in *. cbn. rewrite Ha. set_solver.
  - intros a Hs. by apply Hmap, Hm.
  - intros Hb. specialize (Hpg Hb). set_solver.
  - unfold handles in *. cbn. by rewrite Hh.
  - by apply Hmap.
  - unfold load. cbn. destruct (mem s !! a); [done|].
    assert (Hin : inside a (p, size) = false).
    { apply not_true_iff_false. intros Hi%inside_spec. destruct Hma as (q & n & Hq & Hr).
      specialize (Hap q n Hq). lia. }
    by rewrite Hin.
  - intros fd h _. unfold handles in *. cbn. by rewrite Hh.
Qed.

(** * [debug_alloc] *)

Definition words_of (size : Z) : Z := (size + 7) / 8.

Lemma words_of_spec size : 0 <= size -> size <= 8 * words_of size < size + 8.
Proof. intros H. unfold words_of. pose proof (Z.div_mod (size + 7) 8). pose proof (Z.mod_pos_bound (size + 7) 8). lia. Qed.

(** Between [s] and [s1] the [n] bytes at [p] have been handed out. *)
Record claimed s s1 (p n : Z) : Prop := {
  cl_pos : 0 < p;
  cl_zeroed a : p <= a < p + n -> existsb (inside a) (zeroed s1) = true;
  cl_mem a : p <= a < p + n -> mem s1 !! a = None;
  cl_new a : p <= a < p + n -> ~ settled s a;
  cl_settled a : p <= a < p + n -> settled s1 a;
}.

(** Moving the free part of the current page to [u] words. *)
Lemma space_step s u :
  plat_ok s -> buffer_space s <> NULL -> used s <= u <= 512 ->
  step [] 0 s (with_space (buffer_space s) u s).
Proof.
  intros Hok Hb Hu. pose proof Hok as [Hz Hm Hpg Hus Hsp Hun Hcon].
  assert (H : forall a, unused (with_space (buffer_space s) u s) a -> unused s a).
  { intros a [_ Ha]. cbn in Ha. split; [done|]. lia. }
  split; [split|intros a [Hma Hua]; split; [split|]| |done]; cbn; try done; try lia.
  - intros a Ha. by apply Hun, H.
  - intros Ha. by apply Hua, H.
Qed.

Lemma claim_here s n :
  plat_ok s -> buffer_space s <> NULL -> 0 <= n -> used s + n <= 512 ->
  claimed s (with_space (buffer_space s) (used s + n) s) (buffer_space s + 8 * used s) (8 * n).
Proof.
  intros Hok Hb Hn Hu. pose proof Hok as [Hz Hm Hpg Hus Hsp Hun Hcon].
  assert (Hpos : 0 < buffer_space s) by (unfold NULL in *; lia).
  assert (Hu' : forall a, buffer_space s + 8 * used s <= a < buffer_space s + 8 * used s + 8 * n -> unused s a).
  { intros a Ha. split; [done|lia]. }
  split; cbn.
  - lia.
  - intros a Ha. apply (in_zeroed s _ (buffer_space s) 4096); [by apply Hpg|lia].
  - intros a Ha. by apply Hun, Hu'.
  - intros a Ha [_ Hx]. by apply Hx, Hu'.
  - intros a Ha. split.
    + exists (buffer_space s), 4096. split; [apply Hz, Hpg, Hb|lia].
    + intros [_ Hx]. cbn in Hx. lia.
Qed.

(** The new page. *)
Lemma page_step s p k :
  plat_ok s -> 0 < p -> (forall q n, (q, n) ∈ areas s -> p + 4096 <= q \/ q + n <= p) ->
  k_handles k = handles s -> k_areas k = (p, 4096) :: areas s -> (spare s <= 1 + k_spare k)%nat ->
  step [] 1 s (with_space p 0 (with_zeroed ((p, 4096) :: zeroed s) (with_kernel k s))).
Proof.
  intros Hok Hp Hap Hh Ha Hc. destruct (area_step s p 4096 k Hok Hp Hap Hh Ha Hc) as [[Hz Hm Hpg Hus Hsp Hun Hcon] Hk Hha Hs].
  assert (Hun' : forall a, unused (with_space p 0 (with_zeroed ((p, 4096) :: zeroed s) (with_kernel k s))) a ->
    p <= a < p + 4096).
  { intros a [_ H]. cbn in H. lia. }
  split; [split| |exact Hha|exact Hs]; cbn; try done; try lia.
  - intros _. set_solver.
  - intros a Hu%Hun'. by apply (fresh_area s p 4096 a Hok Hap Hu).
  - intros a Hset. destruct (Hk a Hset) as [[Hma _] Hl]. split; [split|]; [exact Hma| |exact Hl].
    intros Hu%Hun'. by apply (proj1 (fresh_area s p 4096 a Hok Hap Hu)), Hset.
Qed.

Lemma claimed_step ex c s s1 s2 p n : step ex c s s1 -> claimed s1 s2 p n -> claimed s s2 p n.
Proof.
  intros Hs [? ? ? Hn ?]. split; try done. intros a Ha Hset. apply (Hn a Ha). by apply Hs.
Qed.

Lemma debug_alloc_spec size (Q : Z -> platform K -> Prop) s :
  plat_ok s -> 0 <= size <= 4096 -> (1 <= spare s)%nat ->
  (forall p s1, step [] 1 s s1 -> arrays s1 = arrays s -> claimed s s1 p (8 * words_of size) -> Q p s1) ->
  does (debug_alloc size) Q s.
Proof.
  intros Hok Hsz Hsp HQ. pose proof (words_of_spec size ltac:(lia)) as Hw.
  unfold debug_alloc. rewrite wrap64_small by (unfold sizeof_size_t; lia).
  replace ((size + sizeof_size_t - 1) / sizeof_size_t) with (words_of size)
    by (unfold words_of, sizeof_size_t; f_equal; lia).
  set (n := words_of size) in *. assert (Hn : 0 <= n <= 512) by lia. clearbody n.
  pose proof Hok as [_ _ _ Hus Hbs _ _]. apply does_get, does_andthen. cbv beta.
  unfold page_size, sizeof_size_t. rewrite (wrap64_small (used s + n)), (wrap64_small ((used s + n) * 8)) by lia.
  assert (Hrest : forall s1, step [] 1 s s1 -> arrays s1 = arrays s -> buffer_space s1 <> NULL -> used s1 + n <= 512 ->
    does (let! s := gets id in
      let ret_ptr := buffer_space s + 8 * used s in
      let? _ := lift (modify (with_space (buffer_space s) (wrap64 (used s + n)))) in go ret_ptr) Q s1).
  { intros s1 H1 Ha Hb1 Hu1. pose proof (st_ok _ _ _ _ H1) as Hok1. pose proof (po_used _ Hok1).
    apply does_get, does_andthen, does_lift, wp_modify. unfold id. rewrite wrap64_small by lia. apply does_go, HQ.
    - change 1%nat with (1 + 0)%nat. eapply step_trans; [exact H1|]. apply space_step; [done|done|lia].
    - done.
    - eapply claimed_step; [exact H1|]. apply claim_here; [done|done|lia|done]. }
  destruct ((buffer_space s =? NULL) || _) eqn:E.
  - apply does_andthen, vm_alloc_spec; [done|lia|done|]. intros p k Hp Hm He Hap Hh Ha Hc.
    apply does_lift, wp_modify. apply Hrest; [by apply page_step|done|cbn; unfold NULL; lia|cbn; lia].
  - apply orb_false_iff in E as [Eb Eu]. bool_to_prop. apply does_go.
    apply Hrest; [|done|done|lia]. eapply step_weaken; [by apply step_refl|done|lia].
Qed.

(** An allocation that fits in the current page follows the one before. *)
Lemma debug_alloc_here size (Q : Z -> platform K -> Prop) s :
  plat_ok s -> 0 <= size <= 4096 -> buffer_space s <> NULL -> used s + words_of size <= 512 ->
  Q (buffer_space s + 8 * used s) (with_space (buffer_space s) (used s + words_of size) s) ->
  does (debug_alloc size) Q s.
Proof.
  intros Hok Hsz Hb Hu HQ. pose proof (words_of_spec size ltac:(lia)). pose proof (po_used _ Hok).
  unfold debug_alloc. rewrite wrap64_small by (unfold sizeof_size_t; lia).
  replace ((size + sizeof_size_t - 1) / sizeof_size_t) with (words_of size)
    by (unfold words_of, sizeof_size_t; f_equal; lia).
  apply does_get, does_andthen. cbv beta. unfold id, page_size, sizeof_size_t.
  rewrite (wrap64_small (used s + _)), (wrap64_small ((used s + _) * 8)) by lia.
  rewrite (proj2 (Z.eqb_neq _ _)), (proj2 (Z.ltb_ge _ _)) by (done || lia). apply does_go, does_get.
  apply does_andthen, does_lift, wp_modify. unfold id. rewrite wrap64_small by lia. by apply does_go.
Qed.

(** Storing in memory that was handed out. *)
Lemma claimed_write s s1 c p n l :
  step [] c s s1 -> claimed s s1 p n -> Z.of_nat (length l) <= n ->
  let s2 := with_mem (write_bytes p l (mem s1)) s1 in
  step [] c s s2 /\ text s2 p (l ++ replicate (Z.to_nat n - length l) 0).
Proof.
  intros [Hok Hk Hh Hs] [Hp Hz Hm Hn Hse] Hl s2. pose proof Hok as [Hz1 Hm1 Hpg Hus Hsp Hun Hcon].
  assert (Hout : forall a, ~ (p <= a < p + n) -> mem s2 !! a = mem s1 !! a).
  { intros a Ha. cbn. rewrite write_bytes_out; [done|lia]. }
  assert (Hset : forall a, settled s2 a <-> settled s1 a) by done.
  split.
  - split; [split| |exact Hh|exact Hs]; try done.
    + intros a Ha. destruct (decide (p <= a < p + n)) as [Hin|Hin]; [by apply (Hse a Hin)|].
      apply Hm1. by rewrite <-Hout.
    + intros a Hu. rewrite Hout; [by apply Hun|]. intros Hin. by apply (Hse a Hin).
    + intros a Ha. destruct (Hk a Ha) as [Ha1 <-]. split; [done|]. unfold load. rewrite Hout; [done|].
      intros Hin. by apply (Hn a Hin).
  - intros i b Hi. pose proof (zlookup_range _ _ _ Hi) as Hr. rewrite length_app, length_replicate in Hr.
    assert (Hin : p <= p + i < p + n) by lia. split; [by apply Hset, Hse|]. unfold load. cbn [mem with_mem s2].
    rewrite write_bytes_spec, Z.add_simpl_l. destruct (zlookup i l) as [b'|] eqn:E.
    + unfold zlookup in *. destruct (0 <=? i); [|done]. rewrite (lookup_app_l_Some _ _ _ _ E) in Hi. congruence.
    + change (zeroed s2) with (zeroed s1). rewrite (Hm _ Hin), (Hz _ Hin). unfold zlookup in *. destruct (0 <=? i); [|done].
      apply lookup_ge_None in E. rewrite lookup_app_r in Hi by lia. by apply lookup_replicate in Hi as [-> _].
Qed.
End step.
