(* ===== verification/DebugDirs.v ===== *)
(** The debug platform: reading the entries of a directory, copying names,
    opening files. *)
From S2P Require Import Prelude Bytes Heap Alloc System RuntimeIO Kernel Debug DebugLemmas DebugStep.

(** * Names *)

Definition unfold_char (c : Z) : Z := if c =? 43 then 47 else c.
Definition dot : list Z := [46].
Definition dot_dot : list Z := [46; 46].
Definition visible (es : list entry) : list entry :=
  filter (fun e => e_name e <> dot /\ e_name e <> dot_dot) es.

Lemma visible_app es1 es2 : visible (es1 ++ es2) = visible es1 ++ visible es2.
Proof. apply filter_app. Qed.

Lemma write_bytes_update p l m i c b :
  zlookup i l = Some c -> <[p + i := b]> (write_bytes p l m) = write_bytes p (zinsert i b l) m.
Proof.
  intros Hi. pose proof (zlookup_range _ _ _ Hi) as Hr. apply map_eq. intros x. rewrite write_bytes_spec.
  destruct (decide (x = p + i)) as [->|Hne].
  - by rewrite lookup_insert_eq, Z.add_simpl_l, zlookup_insert_eq.
  - by rewrite lookup_insert_ne, write_bytes_spec, zlookup_insert_ne by lia.
Qed.

Section dirs.
Context {K : Type} {HK : Kernel K} {HS : KernelSpec K}.
Implicit Types s : platform K.
Notation act := (act (K := K)).

(** * Records *)

Lemma field_spec array offset l b k i (Q : Z -> platform K -> Prop) s :
  0 <= offset -> drop (Z.to_nat offset) array = l ++ b :: k -> i = offset + Z.of_nat (length l) ->
  Q b s -> does (field array i) Q s.
Proof.
  intros Ho Hd -> HQ. unfold field.
  assert (E : local array offset (Z.of_nat (length l)) = Some b).
  { apply (starts_at _ l [] _ b); [|done]. apply (local_starts _ _ _ k Ho). by rewrite <-app_assoc. }
  unfold local in E. rewrite E.
  by apply does_go.
Qed.

(** The record of [e] at an offset of the buffer. *)
Record record_at (buffer : list Z) (offset : Z) (e : entry) (r : list Z) : Prop := {
  ra_offset : 0 <= offset;
  ra_bytes : exists tl, drop (Z.to_nat offset) buffer = r ++ tl;
  ra_record : record_of e r;
}.

Lemma record_bytes buffer offset e r :
  record_at buffer offset e r -> exists header rest,
    length header = 16%nat /\ drop (Z.to_nat offset) buffer =
      header ++ (Z.of_nat (length r) mod 256) :: (Z.of_nat (length r) / 256) :: e_type e :: e_name e ++ 0 :: rest.
Proof.
  intros [Ho (tl & Hd) (header & pad & Hh & Hr & _)]. exists header, (pad ++ tl). split; [done|].
  rewrite Hd. rewrite Hr at 1. by rewrite <-!app_assoc.
Qed.

Lemma record_length e r : record_of e r -> (20 <= length r)%nat.
Proof.
  intros (header & pad & Hh & Hr & _). rewrite Hr, !length_app, Hh. cbn. lia.
Qed.

Lemma d_reclen_spec buffer offset e r (Q : Z -> platform K -> Prop) s :
  record_at buffer offset e r -> Q (Z.of_nat (length r)) s -> does (d_reclen buffer offset) Q s.
Proof.
  intros Hat HQ. destruct (record_bytes _ _ _ _ Hat) as (header & rest & Hh & Hd). pose proof (ra_offset _ _ _ _ Hat).
  apply does_andthen. eapply field_spec; [done|exact Hd|lia|].
  apply does_andthen. eapply (field_spec _ _ (header ++ [_])); [done|by rewrite Hd, <-app_assoc|rewrite length_app; cbn; lia|].
  apply does_go. rewrite Z.add_comm, <-Z_div_mod_eq_full. done.
Qed.

Lemma d_type_spec buffer offset e r (Q : Z -> platform K -> Prop) s :
  record_at buffer offset e r -> Q (e_type e) s -> does (d_type buffer offset) Q s.
Proof.
  intros Hat HQ. destruct (record_bytes _ _ _ _ Hat) as (header & rest & Hh & Hd). pose proof (ra_offset _ _ _ _ Hat).
  eapply (field_spec _ _ (header ++ [_; _])); [done|by rewrite Hd, <-app_assoc|rewrite length_app; cbn; lia|done].
Qed.

Lemma d_name_starts buffer offset e r :
  record_at buffer offset e r -> starts (d_name buffer offset) (e_name e ++ [0]).
Proof.
  intros Hat. destruct (record_bytes _ _ _ _ Hat) as (header & rest & Hh & Hd). pose proof (ra_offset _ _ _ _ Hat).
  apply (local_starts _ _ _ rest); [lia|]. replace (Z.to_nat (offset + 19)) with (Z.to_nat offset + 19)%nat by lia.
  rewrite <-drop_drop, Hd, drop_app_ge by lia. rewrite Hh. cbn. by rewrite <-app_assoc.
Qed.

Lemma name_plain buffer offset e r : record_at buffer offset e r -> plain (e_name e).
Proof. by intros [_ _ (header & pad & _ & _ & _ & Hp)]. Qed.

Lemma name_fits buffer offset e r : record_at buffer offset e r -> (length (e_name e) <= length buffer)%nat.
Proof.
  intros [Ho (tl & Hd) Hr]. apply (f_equal length) in Hd. rewrite length_drop, length_app in Hd.
  destruct Hr as (header & pad & Hh & Hr & _). rewrite Hr, !length_app in Hd. lia.
Qed.

Lemma name_len_spec buffer offset e r (Q : Z -> platform K -> Prop) s :
  record_at buffer offset e r -> Q (Z.of_nat (length (e_name e))) s -> does (name_len buffer offset) Q s.
Proof.
  intros Hat HQ. eapply my_strlen_spec; [by eapply d_name_starts|by eapply name_plain|by eapply name_fits|done].
Qed.

Lemma is_dots_spec buffer offset e r (Q : bool -> platform K -> Prop) s :
  record_at buffer offset e r ->
  Q (bool_decide (e_name e = dot \/ e_name e = dot_dot)) s ->
  does (is_dots buffer offset (Z.of_nat (length (e_name e)))) Q s.
Proof.
  intros Hat HQ. destruct (record_bytes _ _ _ _ Hat) as (header & rest & Hh & Hd). pose proof (ra_offset _ _ _ _ Hat).
  assert (Hf : forall l a k (Q : Z -> platform K -> Prop), e_name e = l ++ a :: k ->
    Q a s -> does (field buffer (offset + 19 + Z.of_nat (length l))) Q s).
  { intros l a k Q' E HQ'. eapply (field_spec _ _ (header ++ _ :: _ :: _ :: l)); [done| |rewrite length_app; cbn; lia|done].
    rewrite Hd, E, <-!app_assoc. done. }
  unfold is_dots, dot, dot_dot in *. destruct (e_name e) as [|a [|b [|c l]]] eqn:E; cbn [length].
  - rewrite bool_decide_eq_false_2 in HQ by naive_solver. by apply does_go.
  - apply does_andthen. replace (offset + 19) with (offset + 19 + Z.of_nat (length (@nil Z))) by (cbn; lia).
    apply (Hf [] a []); [done|]. apply does_go. destruct (a =? 46) eqn:Ea; bool_to_prop.
    + subst a. rewrite bool_decide_eq_true_2 in HQ; [done|by left].
    + rewrite bool_decide_eq_false_2 in HQ by naive_solver. done.
  - apply does_andthen. replace (offset + 19) with (offset + 19 + Z.of_nat (length (@nil Z))) by (cbn; lia).
    apply (Hf [] a [b]); [done|]. destruct (a =? 46) eqn:Ea; bool_to_prop.
    + apply does_andthen. replace (offset + 20) with (offset + 19 + Z.of_nat (length [a])) by (cbn; lia).
      apply (Hf [a] b []); [done|]. apply does_go. subst a. destruct (b =? 46) eqn:Eb; bool_to_prop.
      * subst b. rewrite bool_decide_eq_true_2 in HQ; [done|by right].
      * rewrite bool_decide_eq_false_2 in HQ by naive_solver. done.
    + rewrite bool_decide_eq_false_2 in HQ by naive_solver. by apply does_go.
  - rewrite bool_decide_eq_false_2 in HQ by naive_solver.
    rewrite (proj2 (Z.eqb_neq _ _)), (proj2 (Z.eqb_neq _ _)) by lia. by apply does_go.
Qed.

(** * All entries of a directory *)

Lemma each_record_spec {T} (body : list Z -> Z -> T -> act T) (I : list entry -> T -> platform K -> Prop)
    es rs tail acc t s (Q : T -> platform K -> Prop) :
  records es rs ->
  (forall es1 e es2 offset r t s, es = es1 ++ e :: es2 -> record_at (rs ++ tail) offset e r ->
    I (acc ++ es1) t s -> does (body (rs ++ tail) offset t) (fun t' s' => I (acc ++ es1 ++ [e]) t' s') s) ->
  I acc t s -> (forall t' s', I (acc ++ es) t' s' -> Q t' s') ->
  does (each_record (Z.of_nat (length rs)) body (rs ++ tail) t) Q s.
Proof.
  intros Hrec Hbody HI HQ. unfold each_record. rewrite Nat2Z.id.
  assert (H : forall es2 rs2, records es2 rs2 -> forall n es1 rs1 t s, es = es1 ++ es2 -> rs = rs1 ++ rs2 ->
    I (acc ++ es1) t s -> (length rs2 < n)%nat ->
    does (act_loop n (fun '(offset, t) => if offset <? Z.of_nat (length rs) then
      let? t := body (rs ++ tail) offset t in
      let? reclen := d_reclen (rs ++ tail) offset in go (inl (offset + reclen, t))
      else go (inr t)) (Z.of_nat (length rs1), t)) Q s).
  2: { apply (H es rs Hrec _ [] []); [done|done|by rewrite app_nil_r|lia]. }
  clear t s HI Hrec. induction 1 as [|e r es2 rs2 Hr Hrec IH]; intros n es1 rs1 t s He Hrs HI Hn;
    (destruct n as [|n]; [lia|]); apply does_loop_step; (assert (Hlen := f_equal length Hrs); rewrite length_app in Hlen).
  - cbn [length] in Hlen. rewrite (proj2 (Z.ltb_ge _ _)) by lia. apply does_go, HQ. by rewrite He, app_nil_r.
  - pose proof (record_length _ _ Hr). rewrite length_app in Hn, Hlen. rewrite (proj2 (Z.ltb_lt _ _)) by lia.
    assert (Hat : record_at (rs ++ tail) (Z.of_nat (length rs1)) e r).
    { split; [lia| |done]. exists (rs2 ++ tail). rewrite Nat2Z.id, Hrs, <-!app_assoc. by rewrite drop_app_length. }
    apply does_andthen. eapply does_mono; [by eapply Hbody|]. intros t1 s1 H1.
    apply does_andthen. eapply d_reclen_spec; [done|]. apply does_go.
    rewrite <-Nat2Z.inj_add, <-length_app.
    apply (IH n (es1 ++ [e]) (rs1 ++ r)); [by rewrite <-app_assoc|by rewrite <-app_assoc|done|lia].
Qed.

Lemma each_dirent_spec {T} turns fd path all (body : list Z -> Z -> T -> act T)
    (I : list entry -> T -> platform K -> Prop) buffer t s (Q : Z * list Z * T -> platform K -> Prop) :
  Forall entry_ok all -> (length all < turns)%nat -> length buffer = 4096%nat ->
  handles s !! fd = Some (Listing path all) ->
  (forall es1 e es2 buffer offset r t s rest, all = es1 ++ e :: es2 -> length buffer = 4096%nat ->
    record_at buffer offset e r -> handles s !! fd = Some (Listing path rest) -> I es1 t s ->
    does (body buffer offset t) (fun t' s' => I (es1 ++ [e]) t' s' /\ handles s' !! fd = Some (Listing path rest)) s) ->
  (forall es t s k rest, I es t s -> k_handles k = <[fd := Listing path rest]> (handles s) ->
    k_areas k = areas s -> k_spare k = spare s -> I es t (with_kernel k s)) ->
  I [] t s ->
  (forall buffer' t' s', length buffer' = 4096%nat -> handles s' !! fd = Some (Listing path []) -> I all t' s' ->
    Q (0, buffer', t') s') ->
  does (each_dirent turns fd body buffer t) Q s.
Proof.
  intros Hall Hturns Hbuf Hfd Hbody Hstable HI HQ. unfold each_dirent.
  assert (H : forall n rest acc buffer t s, (length rest < n)%nat -> all = acc ++ rest -> length buffer = 4096%nat ->
    handles s !! fd = Some (Listing path rest) -> I acc t s ->
    does (act_loop n (fun '(buffer, t) =>
      let? r := syscall (k_getdents fd DIRENT_BUF_SIZE) in
      let buffer := r.2 ++ drop (length r.2) buffer in
      if r.1 >? 0 then let? t := each_record r.1 body buffer t in go (inl (buffer, t))
      else go (inr (r.1, buffer, t))) (buffer, t)) Q s).
  2: { by apply (H turns all []). }
  clear buffer t s Hbuf Hfd HI Hturns. induction n as [|n IH]; intros rest acc buffer t s Hn Hacc Hbuf Hfd HI; [lia|].
  apply does_loop_step, does_andthen, does_syscall.
  eapply wp_mono; [apply (getdents_law _ _ path rest); [done| |unfold DIRENT_BUF_SIZE; lia]|].
  { rewrite Hacc in Hall. by apply Forall_app in Hall as [_ Hall]. }
  intros [m bs] k (es1 & es2 & -> & Hne & Hrec & Hm & Hsz & Hh & Ha & Hs). cbn [fst snd] in *. subst m.
  unfold DIRENT_BUF_SIZE in Hsz. cbv zeta.
  assert (Hbuf' : length (bs ++ drop (length bs) buffer) = 4096%nat) by (rewrite length_app, length_drop; lia).
  pose proof (Hstable _ _ _ k es2 HI Hh Ha Hs) as HI1.
  assert (Hfd1 : handles (with_kernel k s) !! fd = Some (Listing path es2)).
  { unfold handles. cbn. rewrite Hh. apply lookup_insert_eq. }
  destruct es1 as [|e es1].
  - inversion Hrec; subst. cbn [length Z.of_nat Z.gtb Z.compare]. apply does_go.
    destruct es2; [|by destruct Hne]. apply HQ; [done|done|]. by rewrite !app_nil_r.
  - assert (0 < Z.of_nat (length bs)).
    { inversion Hrec as [|? r ? rs Hr]; subst. apply record_length in Hr. rewrite length_app. lia. }
    rewrite (proj2 (Z.gtb_lt _ _)) by lia. apply does_andthen.
    eapply (each_record_spec _ (fun es t s => I es t s /\ handles s !! fd = Some (Listing path es2)) (e :: es1) _ _ acc);
      [done| |done|].
    + intros es1' e' es2' offset r t' s' E Hat [HI' Hh']. eapply does_mono.
      * eapply (Hbody (acc ++ es1') e' (es2' ++ es2)); [|done|done|exact Hh'|done].
        by rewrite Hacc, E, <-!app_assoc.
      * intros t2 s2 [H2 H2']. by rewrite app_assoc.
    + intros t' s' [HI' Hh']. apply does_go. apply (IH es2 (acc ++ e :: es1)); [|by rewrite <-app_assoc|done|done|done].
      rewrite length_app in Hn. cbn in Hn. lia.
Qed.

(** * Names in memory *)

Lemma copy_name_spec buffer offset e r (Q : Z -> platform K -> Prop) s :
  plat_ok s -> record_at buffer offset e r -> (length (e_name e) <= 255)%nat -> (1 <= spare s)%nat ->
  (forall p s1, step [] 1 s s1 -> arrays s1 = arrays s ->
    claimed s s1 p (8 * words_of (Z.of_nat (length (e_name e)))) ->
    Q p (with_mem (write_bytes p (e_name e) (mem s1)) s1)) ->
  does (copy_name buffer offset (Z.of_nat (length (e_name e)))) Q s.
Proof.
  intros Hok Hat Hlen Hsp HQ. pose proof (words_of_spec (Z.of_nat (length (e_name e))) ltac:(lia)) as Hw.
  apply does_andthen, debug_alloc_spec; [done|lia|done|]. intros p s1 H1 Ha Hc.
  apply does_andthen, my_memcpy_store.
  - eapply starts_app_l, d_name_starts; exact Hat.
  - intros i Hi. apply (cl_zeroed _ _ _ _ Hc). lia.
  - apply does_go. by apply HQ.
Qed.

(** The characters [+] of a name that has just been copied become [/]. *)
Lemma unfold_names_spec p name s1 (Q : unit -> platform K -> Prop) :
  (forall i, 0 <= i < Z.of_nat (length name) -> existsb (inside (p + i)) (zeroed s1) = true) ->
  Q tt (with_mem (write_bytes p (map unfold_char name) (mem s1)) s1) ->
  does (unfold_names p (Z.of_nat (length name))) Q (with_mem (write_bytes p name (mem s1)) s1).
Proof.
  intros Hz HQ. unfold unfold_names, for_each.
  apply (does_count _ _ (fun i s => exists k : nat, i = Z.of_nat k /\
    s = with_mem (write_bytes p (map unfold_char (take k name) ++ drop k name) (mem s1)) s1)).
  - lia.
  - lia.
  - by exists 0%nat.
  - intros i s Hi (k & -> & ->). destruct (lookup_lt_is_Some_2 name k ltac:(lia)) as [c Hc].
    assert (Hk : zlookup (Z.of_nat k) (map unfold_char (take k name) ++ drop k name) = Some c).
    { rewrite zlookup_nat, lookup_app_r by (rewrite length_map, length_take; lia).
      rewrite length_map, length_take, lookup_drop. rewrite <-Hc. f_equal. lia. }
    apply does_get. unfold id, load. cbn [mem with_mem zeroed].
    rewrite write_bytes_spec, Z.add_simpl_l, Hk.
    assert (Hnext : forall b, b = unfold_char c ->
      zinsert (Z.of_nat k) b (map unfold_char (take k name) ++ drop k name) =
      map unfold_char (take (S k) name) ++ drop (S k) name).
    { intros b ->. unfold zinsert. rewrite Nat2Z.id.
      replace k with (length (map unfold_char (take k name)) + 0)%nat at 1 by (rewrite length_map, length_take; lia).
      rewrite insert_app_r, (drop_S _ _ _ Hc), (take_S_r _ _ _ Hc), map_app. cbn. by rewrite <-app_assoc. }
    destruct (c =? 43) eqn:E; bool_to_prop.
    + apply store_spec; [apply Hz; lia|]. exists (S k). split; [lia|]. cbn [mem with_mem].
      rewrite (write_bytes_update _ _ _ _ c _ Hk), Hnext by (unfold unfold_char; by rewrite (proj2 (Z.eqb_eq _ _))).
      done.
    + apply does_go. exists (S k). split; [lia|]. f_equal. f_equal. rewrite <-(Hnext c).
      * symmetry. by apply zinsert_id.
      * unfold unfold_char. by rewrite (proj2 (Z.eqb_neq _ _)).
  - intros s (k & Hk & ->). replace k with (length name) by lia. rewrite firstn_all, drop_all, app_nil_r. exact HQ.
Qed.

(** * Opening *)

Lemma openat_spec fd string dir name n (Q : Z -> platform K -> Prop) s :
  plat_ok s -> starts string (name ++ [0]) -> plain name -> (length name < 4096)%nat ->
  (fd = AT_FDCWD /\ dir = [] \/ exists rest, handles s !! fd = Some (Listing dir rest)) ->
  k_tree (dir ++ [name]) = Some n -> (1 <= spare s)%nat ->
  (forall r k, 0 <= r < 2 ^ 31 -> handles s !! r = None ->
    step [] 1 s (with_kernel k s) ->
    handles (with_kernel k s) !! r = Some (handle_of (dir ++ [name]) n) -> Q r (with_kernel k s)) ->
  does (openat fd string O_RDONLY) Q s.
Proof.
  intros Hok Hst Hp Hlen Hfd Ht Hsp HQ. unfold openat. rewrite (read_path_spec _ _ name) by done.
  apply does_andthen, does_syscall.
  eapply wp_mono; [apply (openat_law _ _ dir name n (pred (spare s))); [done|done|unfold spare in *; lia]|].
  intros r k (Hr & Hnew & Hh & Ha & Hc). rewrite int32_small by lia. apply does_go, HQ; [done|done| |].
  - apply kernel_step; [done|done|unfold spare in *; lia| |].
    + destruct (po_console _ Hok) as (d & H1). exists d. rewrite Hh, lookup_insert_ne; [done|].
      intros ->. unfold handles in *. congruence.
    + intros fd' h _ Hfd'. rewrite Hh, lookup_insert_ne; [done|]. intros ->. unfold handles in *. congruence.
  - unfold handles. cbn. rewrite Hh. apply lookup_insert_eq.
Qed.
End dirs.
