(* ===== verification/DebugInit.v ===== *)
(** The debug platform: what [__dandelion_platform_init] makes of the host's
    directories. *)
From S2P Require Import Prelude Bytes Heap Alloc System RuntimeIO RuntimeTree Kernel Debug DebugLemmas DebugStep DebugDirs.

(** * The directories of the host

    A set is a directory with its files, each with its content. *)
Definition item : Type := list Z * list Z.
Definition host_set : Type := list Z * list item.

Section init.
Context {K : Type} {HK : Kernel K} {HS : KernelSpec K}.
Implicit Types s : platform K.
Notation act := (act (K := K)).

Record item_on (path : list (list Z)) (e : entry) (i : item) : Prop := {
  io_name : e_name e = i.1;
  io_file : k_tree (path ++ [i.1]) = Some (HostFile i.2);
  io_size : Z.of_nat (length i.2) <= 2 ^ 31;
}.

(** A set below [root].  The length of its name is not a multiple of 8:
    otherwise no byte is left for the terminator of its copy. *)
Record set_on (turns : nat) (root : list Z) (e : entry) (set : host_set) : Prop := {
  so_name : e_name e = set.1;
  so_type : e_type e = DT_DIR;
  so_length : Z.of_nat (length set.1) mod 8 <> 0;
  so_items : exists es, k_tree [root; set.1] = Some (HostDir es) /\ Forall entry_ok es /\
    (length es < turns)%nat /\ Forall2 (item_on [root; set.1]) (visible es) set.2;
}.

(** * What memory holds of them *)

Definition buf_holds s (b : io_buffer) (i : item) : Prop :=
  text s (ib_ident b) (map unfold_char i.1) /\ ib_ident_len b = Z.of_nat (length i.1) /\
  ib_data_len b = Z.of_nat (length i.2) /\ ib_key b = 0 /\
  (if decide (i.2 = []) then ib_data b = NULL else text s (ib_data b) i.2).

Definition view_holds s (v : view) (set : host_set) : Prop :=
  text s v.1.1 (set.1 ++ [0]) /\ v.1.2 = Z.of_nat (length set.1) /\ Forall2 (buf_holds s) v.2 set.2.

Lemma buf_holds_step ex c s s' b i : step ex c s s' -> buf_holds s b i -> buf_holds s' b i.
Proof.
  intros Hs (H1 & H2 & H3 & H4 & H5). split_and!; try done; [by eapply text_step|].
  case_decide; [done|by eapply text_step].
Qed.

Lemma view_holds_step ex c s s' v i : step ex c s s' -> view_holds s v i -> view_holds s' v i.
Proof.
  intros Hs (H1 & H2 & H3). split_and!; [by eapply text_step|done|].
  eapply Forall2_impl; [exact H3|]. intros b j. by eapply buf_holds_step.
Qed.

(** A descriptor that is opened and used does not concern the old ones. *)
Lemma step_fresh c1 c2 s s1 s2 fd :
  step [] c1 s s1 -> handles s !! fd = None -> step [fd] c2 s1 s2 -> step [] (c1 + c2) s s2.
Proof.
  intros H1 Hn H2. pose proof (step_trans [fd] c1 c2 s s1 s2 (step_weaken [] [fd] c1 c1 s s1 H1 ltac:(set_solver) ltac:(done)) H2) as H.
  destruct H as [? ? Hh ?]. split; [done|done| |done]. intros fd' h Hfd Hfd'. apply Hh; [|done].
  intros [->|[->|Hx]%elem_of_cons]%elem_of_cons; [set_solver|congruence|by apply elem_of_nil in Hx].
Qed.

Lemma not_console fd path rest s : plat_ok s -> handles s !! fd = Some (Listing path rest) -> fd <> 1.
Proof. intros Hok Hfd ->. destruct (po_console _ Hok) as (d & H1). congruence. Qed.

(** The kernel moves on in the directory [fd]. *)
Lemma listing_step c fd path rest s0 s k :
  step [fd] c s0 s -> fd <> 1 -> k_handles k = <[fd := Listing path rest]> (handles s) ->
  k_areas k = areas s -> k_spare k = spare s -> step [fd] c s0 (with_kernel k s).
Proof.
  intros Hs Hfd Hh Ha Hc. replace c with (c + 0)%nat by lia. eapply step_trans; [exact Hs|].
  pose proof (st_ok _ _ _ _ Hs) as Hok. apply kernel_step; [done|done|lia| |].
  - destruct (po_console _ Hok) as (d & H1). exists d. by rewrite Hh, lookup_insert_ne.
  - intros fd' h Hfd' Hfd1. rewrite Hh, lookup_insert_ne; [done|]. set_solver.
Qed.

(** * Names of the sets *)

(** [tl] is what follows the name: its terminator, or nothing when only the
    length counts. *)
Definition info_named (tl : list Z) s (info : io_set_info) (e : entry) : Prop :=
  text s (si_ident info) (e_name e ++ tl) /\ si_ident_len info = Z.of_nat (length (e_name e)) /\
  si_offset info = 0.

Lemma info_named_step tl ex c s s' info e : step ex c s s' -> info_named tl s info e -> info_named tl s' info e.
Proof. intros Hs (H1 & H2 & H3). split_and!; [by eapply text_step|done|done]. Qed.

(** The copy of a name whose length is not a multiple of 8 has a terminator. *)
Lemma named_text s p name :
  Z.of_nat (length name) mod 8 <> 0 ->
  text s p (name ++ replicate (Z.to_nat (8 * words_of (Z.of_nat (length name))) - length name) 0) ->
  text s p (name ++ [0]).
Proof.
  intros Hm. pose proof (words_of_spec (Z.of_nat (length name)) ltac:(lia)).
  assert (8 * words_of (Z.of_nat (length name)) <> Z.of_nat (length name)).
  { intros E. apply Hm. rewrite <-E, Z.mul_comm. by apply Z.mod_mul. }
  destruct (Z.to_nat (8 * words_of (Z.of_nat (length name))) - length name)%nat as [|n] eqn:E; [lia|].
  cbn [replicate]. intros Ht. apply (text_app _ _ _ (replicate n 0)). by rewrite <-app_assoc.
Qed.

Lemma record_entry buffer offset e r all es1 es2 :
  Forall entry_ok all -> all = es1 ++ e :: es2 -> record_at buffer offset e r -> (length (e_name e) <= 255)%nat.
Proof. intros Hall -> _. apply Forall_app in Hall as [_ Hall]. apply Forall_cons in Hall as [(_ & H & _) _]. done. Qed.

Lemma visible_snoc es e :
  visible (es ++ [e]) = visible es ++ (if bool_decide (e_name e = dot \/ e_name e = dot_dot) then [] else [e]).
Proof.
  rewrite visible_app. f_equal. unfold visible. destruct (bool_decide_reflect (e_name e = dot \/ e_name e = dot_dot)) as [H|H].
  - rewrite filter_cons_False; [done|]. naive_solver.
  - rewrite filter_cons_True; [done|]. naive_solver.
Qed.

Lemma visible_cons e es :
  ~ (e_name e = dot \/ e_name e = dot_dot) -> visible (e :: es) = e :: visible es.
Proof. intros H. unfold visible. apply filter_cons_True. naive_solver. Qed.

Lemma other_fd fd : fd <> 1 -> fd ∉ [1].
Proof. set_solver. Qed.

Lemma in_visible e all es1 es2 :
  all = es1 ++ e :: es2 -> ~ (e_name e = dot \/ e_name e = dot_dot) -> e ∈ visible all.
Proof. intros -> H. apply list_elem_of_filter. split; [naive_solver|set_solver]. Qed.

(** The common part of [collect_input_set] and [collect_output_set]: the copy of
    the name and the descriptor [info] of the set. *)
Definition tail_ok (tl : list Z) (e : entry) : Prop :=
  tl = [] \/ tl = [0] /\ Z.of_nat (length (e_name e)) mod 8 <> 0.

Lemma name_set tl buffer offset e r s (Q : Z -> platform K -> Prop) :
  plat_ok s -> record_at buffer offset e r -> (length (e_name e) <= 255)%nat -> (1 <= spare s)%nat ->
  tail_ok tl e ->
  (forall p s1, step [] 1 s s1 -> arrays s1 = arrays s ->
    info_named tl s1 (IoSetInfo p (Z.of_nat (length (e_name e))) 0) e -> Q p s1) ->
  does (copy_name buffer offset (Z.of_nat (length (e_name e)))) Q s.
Proof.
  intros Hok Hat Hlen Hsp Htl HQ. eapply copy_name_spec; [done|exact Hat|done|done|]. intros p s1 H1 Ha Hcl.
  pose proof (words_of_spec (Z.of_nat (length (e_name e))) ltac:(lia)) as Hw.
  destruct (claimed_write _ _ _ _ _ (e_name e) H1 Hcl ltac:(lia)) as [H2 Ht].
  apply HQ; [done|done|]. split_and!; [|done|done]. destruct Htl as [->|[-> Hm]]; [|by apply named_text].
  rewrite app_nil_r. by eapply text_app.
Qed.

(** The infos [infos] are those of the visible entries [es]. *)
Definition sets_named tl s0 s (fd : Z) (es : list entry) (infos : list io_set_info) : Prop :=
  step [fd] (length (visible es)) s0 s /\ Forall2 (info_named tl s) infos (visible es).

(** A change of the arrays. *)
Lemma arrays_step s s' :
  plat_ok s -> kernel s' = kernel s -> mem s' = mem s -> zeroed s' = zeroed s ->
  buffer_space s' = buffer_space s -> used s' = used s -> step [] 0 s s'.
Proof.
  destruct s, s'. cbn. intros Hok -> -> -> -> ->. destruct Hok. split; [by split|done|done|done].
Qed.

Lemma sets_named_snoc tl s0 s s1 s2 fd es e infos info :
  sets_named tl s0 s fd es infos -> step [] 1 s s1 -> info_named tl s1 info e ->
  ~ (e_name e = dot \/ e_name e = dot_dot) -> step [] 0 s1 s2 ->
  sets_named tl s0 s2 fd (es ++ [e]) (infos ++ [info]).
Proof.
  intros [H0 HF] H1 Hi Hd H12.
  assert (H02 : step [fd] 1 s s2).
  { eapply step_weaken; [exact (step_trans _ _ _ _ _ _ H1 H12)|set_solver|lia]. }
  unfold sets_named. rewrite visible_snoc, bool_decide_eq_false_2, length_app by done. split.
  - eapply step_trans; [exact H0|exact H02].
  - apply Forall2_app; [|constructor; [exact (info_named_step _ _ _ _ _ _ _ H12 Hi)|constructor]].
    eapply Forall2_impl; [exact HF|]. intros ? ? Hx. exact (info_named_step _ _ _ _ _ _ _ H02 Hx).
Qed.

Lemma sets_named_dots tl s0 s fd es e infos :
  sets_named tl s0 s fd es infos -> e_name e = dot \/ e_name e = dot_dot ->
  sets_named tl s0 s fd (es ++ [e]) infos.
Proof. intros H Hd. unfold sets_named. by rewrite visible_snoc, bool_decide_eq_true_2, app_nil_r. Qed.

Lemma sets_named_kernel tl s0 s fd path es rest infos k :
  sets_named tl s0 s fd es infos -> fd <> 1 -> k_handles k = <[fd := Listing path rest]> (handles s) ->
  k_areas k = areas s -> k_spare k = spare s -> sets_named tl s0 (with_kernel k s) fd es infos.
Proof.
  intros [Hst HF] Hfd Hh Ha Hc.
  assert (Hs : step [fd] 0 s (with_kernel k s)) by (eapply listing_step; [by apply step_refl', Hst|done..]).
  split.
  - replace (length (visible es)) with (length (visible es) + 0)%nat by lia. eapply step_trans; [exact Hst|exact Hs].
  - eapply Forall2_impl; [exact HF|]. intros ? ? Hx. exact (info_named_step _ _ _ _ _ _ _ Hs Hx).
Qed.

Lemma sets_named_step tl s0 s s' fd es infos :
  sets_named tl s0 s fd es infos -> step [] 0 s s' -> sets_named tl s0 s' fd es infos.
Proof.
  intros [Hst HF] Hs. split.
  - replace (length (visible es)) with (length (visible es) + 0)%nat by lia.
    eapply step_trans; [exact Hst|]. by eapply step_weaken; [exact Hs|set_solver|].
  - eapply Forall2_impl; [exact HF|]. intros ? ? Hx. exact (info_named_step _ _ _ _ _ _ _ Hs Hx).
Qed.

(** There is room for one more name. *)
Lemma sets_named_spare tl s0 s fd all es1 e es2 infos :
  sets_named tl s0 s fd es1 infos -> (length (visible all) <= spare s0)%nat ->
  all = es1 ++ e :: es2 -> ~ (e_name e = dot \/ e_name e = dot_dot) -> (1 <= spare s)%nat.
Proof.
  intros [Hst _] Hsp -> Hd. pose proof (st_spare _ _ _ _ Hst). rewrite visible_app, length_app in Hsp.
  rewrite visible_cons in Hsp by done. cbn in Hsp. lia.
Qed.

(** The arrays apart from the input sets, and apart from the output sets. *)
Definition others s := (in_bufs s, out_infos s, out_bufs s, sysdata s).
Definition rest_of s := (in_infos s, in_bufs s, out_bufs s, sysdata s).

Section names.
Variables (turns : nat) (fd : Z) (path : list (list Z)) (all : list entry) (buffer : list Z) (s0 : platform K).
Hypotheses (Hok : plat_ok s0) (Hall : Forall entry_ok all) (Hturns : (length all < turns)%nat)
  (Hbuf : length buffer = 4096%nat) (Hfd : handles s0 !! fd = Some (Listing path all))
  (Hsp : (length (visible all) <= spare s0)%nat).

Lemma collect_input_sets_spec (Q : Z * list Z * unit -> platform K -> Prop) :
  in_infos s0 = [] ->
  Forall (fun e => e_type e = DT_DIR /\ Z.of_nat (length (e_name e)) mod 8 <> 0) (visible all) ->
  (forall buffer' s', length buffer' = 4096%nat -> sets_named [0] s0 s' fd all (in_infos s') ->
    others s' = others s0 -> handles s' !! fd = Some (Listing path []) -> Q (0, buffer', tt) s') ->
  does (each_dirent turns fd collect_input_set buffer tt) Q s0.
Proof.
  intros Hin Hv HQ. pose proof (not_console _ _ _ _ Hok Hfd) as Hfd1.
  eapply (each_dirent_spec turns fd path all _ (fun es _ s => sets_named [0] s0 s fd es (in_infos s) /\ others s = others s0));
    [done..| | | |].
  - intros es1 e es2 buf off r [] s rest Hes Hbl Hat Hrest [Hn Ho]. pose proof (st_ok _ _ _ _ (proj1 Hn)) as Hoks.
    apply does_andthen. eapply name_len_spec; [done|]. apply does_andthen. eapply is_dots_spec; [done|].
    destruct (bool_decide_reflect (e_name e = dot \/ e_name e = dot_dot)) as [Hd|Hd].
    { apply does_go. split_and!; [by apply sets_named_dots|done|done]. }
    pose proof (in_visible _ _ _ _ Hes Hd) as Hev. rewrite Forall_forall in Hv. destruct (Hv e Hev) as [Ht Hmod].
    apply does_andthen. eapply d_type_spec; [done|]. rewrite Ht, Z.eqb_refl. cbn [negb].
    apply does_andthen. eapply (name_set [0]); [done|done|by eapply record_entry|by eapply sets_named_spare|by right|].
    intros p s1 H1 Ha Hni. apply does_lift, wp_modify. unfold arrays in Ha. injection Ha as Ha1 Ha2 Ha3 Ha4 Ha5.
    split_and!.
    + cbn [in_infos with_inputs]. rewrite Ha1. eapply sets_named_snoc; [done|done|exact Hni|done|].
      apply arrays_step; try done. apply H1.
    + unfold others in *. cbn. rewrite Ha2, Ha3, Ha4, Ha5. done.
    + change (handles s1 !! fd = Some (Listing path rest)). apply (st_handles _ _ _ _ H1); [by apply other_fd|done].
  - intros es t s k rest [Hn Ho] Hh Ha Hc. split; [|done]. by eapply sets_named_kernel.
  - split; [|done]. split; [by apply step_refl'|]. rewrite Hin. constructor.
  - intros buffer' [] s' Hb Hh [Hn Ho]. by apply HQ.
Qed.

Lemma collect_output_sets_spec (Q : Z * list Z * unit -> platform K -> Prop) :
  out_infos s0 = [] -> Forall (fun e => e_type e = DT_DIR) (visible all) ->
  (forall buffer' s', length buffer' = 4096%nat -> sets_named [] s0 s' fd all (out_infos s') ->
    rest_of s' = rest_of s0 -> Q (0, buffer', tt) s') ->
  does (each_dirent turns fd collect_output_set buffer tt) Q s0.
Proof.
  intros Hin Hv HQ. pose proof (not_console _ _ _ _ Hok Hfd) as Hfd1.
  eapply (each_dirent_spec turns fd path all _ (fun es _ s => sets_named [] s0 s fd es (out_infos s) /\ rest_of s = rest_of s0));
    [done..| | | |].
  - intros es1 e es2 buf off r [] s rest Hes Hbl Hat Hrest [Hn Ho]. pose proof (st_ok _ _ _ _ (proj1 Hn)) as Hoks.
    apply does_andthen. eapply name_len_spec; [done|]. apply does_andthen. eapply is_dots_spec; [done|].
    destruct (bool_decide_reflect (e_name e = dot \/ e_name e = dot_dot)) as [Hd|Hd].
    { apply does_go. split_and!; [by apply sets_named_dots|done|done]. }
    pose proof (in_visible _ _ _ _ Hes Hd) as Hev. rewrite Forall_forall in Hv. specialize (Hv e Hev).
    apply does_andthen, print_spec; [done|]. intros s1 H1 Ha1. apply does_andthen. rewrite Nat2Z.id.
    rewrite (bytes_of_spec _ (e_name e)) by (eapply starts_app_l, d_name_starts; exact Hat).
    apply print_spec; [apply H1|]. intros s2 H2 Ha2. apply does_andthen, print_spec; [apply H2|]. intros s3 H3 Ha3.
    assert (H03 : step [] 0 s s3) by exact (step_trans _ _ _ _ _ _ H1 (step_trans _ _ _ _ _ _ H2 H3)).
    pose proof (sets_named_step _ _ _ _ _ _ _ Hn H03) as Hn3. pose proof (st_ok _ _ _ _ H3) as Hok3.
    assert (Ha03 : arrays s3 = arrays s) by congruence. unfold arrays in Ha03. injection Ha03 as Hb1 Hb2 Hb3 Hb4 Hb5.
    apply does_andthen. eapply d_type_spec; [done|]. rewrite Hv, Z.eqb_refl. cbn [negb].
    apply does_andthen. eapply (name_set []); [done|done|by eapply record_entry|by eapply sets_named_spare|by left|].
    intros p s4 H4 Ha Hni. apply does_lift, wp_modify. unfold arrays in Ha. injection Ha as Hc1 Hc2 Hc3 Hc4 Hc5.
    split_and!.
    + cbn [out_infos with_out_infos]. rewrite Hc3, Hb3. eapply sets_named_snoc; [exact Hn3|done|exact Hni|done|].
      apply arrays_step; try done. apply H4.
    + unfold rest_of in *. cbn. rewrite Hc1, Hc2, Hc4, Hc5, Hb1, Hb2, Hb4, Hb5. done.
    + change (handles s4 !! fd = Some (Listing path rest)). apply (st_handles _ _ _ _ H4); [by apply other_fd|].
      apply (st_handles _ _ _ _ H03); [by apply other_fd|done].
  - intros es t s k rest [Hn Ho] Hh Ha Hc. split; [|done]. by eapply sets_named_kernel.
  - split; [|done]. split; [by apply step_refl'|]. rewrite Hin. constructor.
  - intros buffer' [] s' Hb Hh [Hn Ho]. by apply HQ.
Qed.
End names.
End init.
