(* ===== verification/DebugSets.v ===== *)
(** The debug platform: the buffers of the input sets. *)
From S2P Require Import Prelude Bytes Heap Alloc System RuntimeIO RuntimeTree Kernel Debug DebugLemmas DebugStep DebugDirs DebugInit.

Section sets.
Context {K : Type} {HK : Kernel K} {HS : KernelSpec K}.
Implicit Types s : platform K.
Notation act := (act (K := K)).

(** * One file *)

(** A file that is mapped into memory. *)
Lemma map_step s p content k :
  plat_ok s -> 0 < p -> (forall q n, (q, n) ∈ areas s -> p + Z.of_nat (length content) <= q \/ q + n <= p) ->
  k_handles k = handles s -> k_areas k = (p, Z.of_nat (length content)) :: areas s -> (spare s <= 1 + k_spare k)%nat ->
  let s' := with_mem (write_bytes p content (mem s)) (with_kernel k s) in
  step [] 1 s s' /\ text s' p content.
Proof.
  intros Hok Hp Hap Hh Ha Hc s'. pose proof Hok as [Hz Hm Hpg Hus Hsp Hun Hcon].
  pose proof (fun a => fresh_area s p (Z.of_nat (length content)) a Hok Hap) as Hfresh.
  assert (Hmap : forall a, mapped s a -> mapped s' a).
  { intros a (q & n & Hq & Hr). exists q, n. split; [|done]. unfold areas in *. cbn. rewrite Ha. set_solver. }
  assert (Hout : forall a, ~ (p <= a < p + Z.of_nat (length content)) -> mem s' !! a = mem s !! a).
  { intros a Hx. cbn. rewrite write_bytes_out; [done|lia]. }
  assert (Hnew : forall a, p <= a < p + Z.of_nat (length content) -> mapped s' a).
  { intros a Hx. exists p, (Z.of_nat (length content)). split; [|done]. unfold areas. cbn. rewrite Ha. constructor. }
  split.
  - split; [split|intros a [Hma Hua]; split; [split|]| |exact Hc]; cbn; try done.
    + unfold areas in *. cbn. rewrite Ha. set_solver.
    + intros a Hs. destruct (decide (p <= a < p + Z.of_nat (length content))) as [Hx|Hx]; [by apply Hnew|].
      apply Hmap, Hm. change (is_Some (mem s' !! a)) in Hs. by rewrite Hout in Hs.
    + intros a Hu. change (mem s' !! a = None). rewrite Hout; [by apply Hun|]. intros Hx. by apply (Hfresh a Hx).
    + unfold handles in *. cbn. by rewrite Hh.
    + by apply Hmap.
    + unfold load. rewrite Hout; [done|]. intros Hx. destruct (Hfresh a Hx) as [Hx1 _]. by apply Hx1.
    + intros fd h _. unfold handles in *. cbn. by rewrite Hh.
  - intros i b Hi. pose proof (zlookup_range _ _ _ Hi). split; [split|].
    + apply Hnew. lia.
    + assert (Hu : ~ unused s (p + i)) by (apply Hfresh; lia). exact Hu.
    + unfold load. cbn [mem with_mem s']. rewrite write_bytes_spec, Z.add_simpl_l, Hi. done.
Qed.

Lemma map_item_spec fd content (Q : Z -> platform K -> Prop) s :
  plat_ok s -> handles s !! fd = Some (Reading content) -> Z.of_nat (length content) <= 2 ^ 31 ->
  (1 <= spare s)%nat ->
  (forall p s', step [] 1 s s' -> arrays s' = arrays s ->
    (if decide (content = []) then p = NULL else text s' p content) -> Q p s') ->
  does (map_item fd (Z.of_nat (length content))) Q s.
Proof.
  intros Hok Hfd Hsz Hsp HQ. unfold map_item. destruct (decide (content = [])) as [->|Hne].
  { apply does_go, HQ; [|done|done]. eapply step_weaken; [by apply step_refl|done|lia]. }
  assert (0 < Z.of_nat (length content)) by (destruct content; [done|cbn; lia]).
  rewrite (proj2 (Z.gtb_lt _ _)) by lia. apply does_andthen, does_syscall.
  eapply wp_mono; [apply (mmap_file_law _ _ content (pred (spare s))); [done|lia|unfold spare in *; lia]|].
  intros [p bs] k (Hp & He & Hbs & Hap & Hh & Ha & Hc). cbn [fst snd] in *. subst bs.
  rewrite (proj2 (Z.ltb_ge _ _)) by lia. apply does_andthen, does_lift, wp_modify. apply does_go.
  destruct (map_step s p content k) as [H1 H2]; [done|done|done|done|done|lia|].
  by apply HQ.
Qed.

(** The result of one entry. *)
Record collected s s' (e : entry) (content : list Z) (b : io_buffer) : Prop := {
  cd_step : step [] 3 s s';
  cd_holds : buf_holds s' b (e_name e, content);
  cd_arrays : arrays s' = (in_infos s, in_bufs s ++ [b], out_infos s, out_bufs s, sysdata s);
}.

Lemma collect_item_spec fd path rest buffer offset e r content heap_ptr total s (Q : Z * Z -> platform K -> Prop) :
  plat_ok s -> record_at buffer offset e r -> (length (e_name e) <= 255)%nat ->
  ~ (e_name e = dot \/ e_name e = dot_dot) ->
  k_tree (path ++ [e_name e]) = Some (HostFile content) -> Z.of_nat (length content) <= 2 ^ 31 ->
  handles s !! fd = Some (Listing path rest) -> (3 <= spare s)%nat ->
  (forall b s', collected s s' e content b -> Q (wrap64 (heap_ptr + sizeof_io), wrap64 (total + 1)) s') ->
  does (collect_item fd buffer offset (heap_ptr, total)) Q s.
Proof.
  intros Hok Hat Hlen Hd Ht Hsz Hfd Hsp HQ. unfold collect_item.
  apply does_andthen. eapply name_len_spec; [done|]. apply does_andthen. eapply is_dots_spec; [done|].
  rewrite bool_decide_eq_false_2 by done.
  apply does_andthen, print_spec; [done|]. intros s1 H1 Ha1. apply does_andthen. rewrite Nat2Z.id.
  rewrite (bytes_of_spec _ (e_name e)) by (eapply starts_app_l, d_name_starts; exact Hat).
  apply print_spec; [apply H1|]. intros s2 H2 Ha2. apply does_andthen, print_spec; [apply H2|]. intros s3 H3 Ha3.
  assert (H03 : step [] 0 s s3) by exact (step_trans _ _ _ _ _ _ H1 (step_trans _ _ _ _ _ _ H2 H3)).
  assert (Ha03 : arrays s3 = arrays s) by congruence. pose proof (st_ok _ _ _ _ H03) as Hok3.
  pose proof (st_spare _ _ _ _ H03) as Hsp3. cbv zeta. clear s1 H1 Ha1 s2 H2 Ha2 H3 Ha3.
  apply does_andthen. eapply copy_name_spec; [done|exact Hat|done|lia|]. intros p s4 H4 Ha4 Hcl.
  pose proof (words_of_spec (Z.of_nat (length (e_name e))) ltac:(lia)) as Hw.
  apply does_andthen, unfold_names_spec; [intros i Hi; apply (cl_zeroed _ _ _ _ Hcl); lia|].
  destruct (claimed_write _ _ _ _ _ (map unfold_char (e_name e)) H4 Hcl) as [H5 Ht5]; [rewrite length_map; lia|].
  apply text_app in Ht5. set (s5 := with_mem _ s4) in *.
  assert (Ha5 : arrays s5 = arrays s) by (transitivity (arrays s4); [done|congruence]).
  pose proof (st_ok _ _ _ _ H5) as Hok5. pose proof (st_spare _ _ _ _ H5) as Hsp5.
  apply does_andthen. eapply (openat_spec _ _ path (e_name e)); [done|by eapply d_name_starts|by eapply name_plain|lia|
    |exact Ht|lia|].
  { pose proof (other_fd _ (not_console _ _ _ _ Hok Hfd)) as Hfd1. right. exists rest.
    apply (st_handles _ _ _ _ H5); [done|]. by apply (st_handles _ _ _ _ H03). }
  intros fd' k6 Hr _ H6 Hfd6. rewrite (proj2 (Z.ltb_ge _ _)) by lia. set (s6 := with_kernel k6 s5) in *.
  pose proof (st_ok _ _ _ _ H6) as Hok6. pose proof (st_spare _ _ _ _ H6) as Hsp6.
  apply does_andthen, does_syscall. eapply wp_mono; [apply (seek_law _ _ content); exact Hfd6|].
  intros n k7 (-> & Hh7 & Hx7 & Hc7). rewrite (proj2 (Z.ltb_ge _ _)) by lia.
  assert (H7 : step [] 0 s6 (with_kernel k7 s6)).
  { apply kernel_step; [done|done|unfold spare in *; lia|rewrite Hh7; apply Hok6|]. intros fd2 h _. by rewrite Hh7. }
  pose proof (st_spare _ _ _ _ H7) as Hsp7.
  apply does_andthen, map_item_spec; [apply H7| |done|lia|].
  { unfold handles. cbn. rewrite Hh7. exact Hfd6. }
  intros addr s8 H8 Ha8 Hdata. apply does_andthen, does_lift, wp_modify. apply does_go.
  assert (H08 : step [] 3 s s8).
  { change 3%nat with (0 + (1 + (1 + (0 + 1))))%nat. eapply step_trans; [exact H03|]. eapply step_trans; [exact H5|].
    eapply step_trans; [exact H6|]. by eapply step_trans. }
  assert (Ha08 : arrays s8 = arrays s) by (rewrite Ha8; exact Ha5).
  assert (H9 : step [] 0 s8 (with_inputs (in_infos s8)
    (in_bufs s8 ++ [IoBuffer p (Z.of_nat (length (e_name e))) addr (Z.of_nat (length content)) 0]) s8)).
  { apply arrays_step; try done. apply H8. }
  apply (HQ (IoBuffer p (Z.of_nat (length (e_name e))) addr (Z.of_nat (length content)) 0)). split.
  - eapply step_weaken; [exact (step_trans _ _ _ _ _ _ H08 H9)|done|lia].
  - split_and!; try done. eapply text_step; [exact H9|]. eapply text_step; [exact H8|].
    eapply text_step; [exact H7|]. by eapply text_step; [exact H6|].
  - unfold arrays in *. injection Ha08 as E1 E2 E3 E4 E5. cbn. by rewrite E1, E2, E3, E4, E5.
Qed.

(** * All files of a set *)

Definition entry_buf (path : list (list Z)) s (b : io_buffer) (e : entry) : Prop :=
  exists content, k_tree (path ++ [e_name e]) = Some (HostFile content) /\ buf_holds s b (e_name e, content).

Lemma entry_buf_step path ex c s s' b e : step ex c s s' -> entry_buf path s b e -> entry_buf path s' b e.
Proof. intros Hs (content & Ht & Hb). exists content. split; [done|by eapply buf_holds_step]. Qed.

Lemma collect_items_spec turns fd path all buffer heap_ptr total s0 (Q : Z * list Z * (Z * Z) -> platform K -> Prop) :
  plat_ok s0 -> Forall entry_ok all -> (length all < turns)%nat -> length buffer = 4096%nat ->
  handles s0 !! fd = Some (Listing path all) -> (3 * length (visible all) <= spare s0)%nat ->
  Forall (fun e => exists content, k_tree (path ++ [e_name e]) = Some (HostFile content) /\
    Z.of_nat (length content) <= 2 ^ 31) (visible all) ->
  0 <= heap_ptr -> heap_ptr + 40 * Z.of_nat (length (visible all)) < 2 ^ 63 -> 0 <= total < 2 ^ 62 ->
  (forall buffer' bufs s', length buffer' = 4096%nat -> step [fd] (3 * length (visible all)) s0 s' ->
    arrays s' = (in_infos s0, in_bufs s0 ++ bufs, out_infos s0, out_bufs s0, sysdata s0) ->
    Forall2 (entry_buf path s') bufs (visible all) ->
    Q (0, buffer', (heap_ptr + 40 * Z.of_nat (length (visible all)), total + Z.of_nat (length (visible all)))) s') ->
  does (each_dirent turns fd (collect_item fd) buffer (heap_ptr, total)) Q s0.
Proof.
  intros Hok Hall Hturns Hbuf Hfd Hsp Hv Hhp0 Hhp Htot HQ. pose proof (not_console _ _ _ _ Hok Hfd) as Hfd1.
  eapply (each_dirent_spec turns fd path all _ (fun es t s =>
    t = (heap_ptr + 40 * Z.of_nat (length (visible es)), total + Z.of_nat (length (visible es))) /\
    step [fd] (3 * length (visible es)) s0 s /\ exists bufs,
    arrays s = (in_infos s0, in_bufs s0 ++ bufs, out_infos s0, out_bufs s0, sysdata s0) /\
    Forall2 (entry_buf path s) bufs (visible es))); [done..| | | |].
  - intros es1 e es2 buf off r t s rest Hes Hbl Hat Hrest (-> & Hst & bufs & Ha & HF).
    pose proof (record_entry _ _ _ _ _ _ _ Hall Hes Hat) as Hle. pose proof (st_ok _ _ _ _ Hst) as Hoks.
    destruct (bool_decide_reflect (e_name e = dot \/ e_name e = dot_dot)) as [Hd|Hd].
    { unfold collect_item. apply does_andthen. eapply name_len_spec; [done|]. apply does_andthen.
      eapply is_dots_spec; [done|]. rewrite bool_decide_eq_true_2 by done. apply does_go.
      rewrite visible_snoc, bool_decide_eq_true_2, app_nil_r by done. split_and!; [done|done|by exists bufs|done]. }
    pose proof (in_visible _ _ _ _ Hes Hd) as Hev. rewrite Forall_forall in Hv. destruct (Hv e Hev) as (content & Ht & Hc).
    assert (Hn : (length (visible es1) + 1 <= length (visible all))%nat).
    { rewrite Hes, visible_app, length_app.
      rewrite visible_cons by done. cbn. lia. }
    pose proof (st_spare _ _ _ _ Hst) as Hsp1.
    eapply (collect_item_spec fd path rest); [done|done|done|done|exact Ht|done|exact Hrest|lia|].
    intros b s' [Hs' Hb Ha']. rewrite visible_snoc, bool_decide_eq_false_2, length_app by done. cbn [length].
    assert (Hs1 : step [fd] 3 s s') by (eapply step_weaken; [exact Hs'|apply list_subseteq_nil|done]).
    split_and!.
    + unfold sizeof_io. rewrite !wrap64_small by lia. f_equal; lia.
    + replace (3 * (length (visible es1) + 1))%nat with (3 * length (visible es1) + 3)%nat by lia.
      eapply step_trans; [exact Hst|exact Hs1].
    + exists (bufs ++ [b]). rewrite Ha'. unfold arrays in Ha. injection Ha as -> -> -> -> ->. split.
      * by rewrite app_assoc.
      * apply Forall2_app; [|constructor; [by exists content|constructor]].
        eapply Forall2_impl; [exact HF|]. intros ? ? Hx. exact (entry_buf_step _ _ _ _ _ _ _ Hs' Hx).
    + apply (st_handles _ _ _ _ Hs'); [by apply other_fd|done].
  - intros es t s k rest (-> & Hst & bufs & Ha & HF) Hh Hx Hc.
    assert (Hs : step [fd] 0 s (with_kernel k s)) by (eapply listing_step; [by apply step_refl', Hst|done..]).
    split_and!; [done|by eapply listing_step|]. exists bufs. split; [done|].
    eapply Forall2_impl; [exact HF|]. intros ? ? H. exact (entry_buf_step _ _ _ _ _ _ _ Hs H).
  - split_and!; [cbn; f_equal; lia|by apply step_refl'|]. exists []. split; [|constructor]. by rewrite app_nil_r.
  - intros buffer' t' s' Hb _ (-> & Hst & bufs & Ha & HF). by apply (HQ buffer' bufs).
Qed.

(** * One set *)

Definition set_cost (set : host_set) : nat := 1 + 3 * length set.2.

Lemma items_entries path es items :
  Forall2 (item_on path) es items ->
  Forall (fun e => exists content, k_tree (path ++ [e_name e]) = Some (HostFile content) /\
    Z.of_nat (length content) <= 2 ^ 31) es.
Proof.
  induction 1 as [|e [n c] es items [Hn Hf Hc] _ IH]; constructor; [|done]. cbn in *. exists c. by rewrite Hn.
Qed.

Lemma items_hold path s bufs es items :
  Forall2 (entry_buf path s) bufs es -> Forall2 (item_on path) es items -> Forall2 (buf_holds s) bufs items.
Proof.
  intros H. revert items. induction H as [|b e bufs es (content & Ht & Hb) _ IH]; intros items Hi.
  - by inversion Hi.
  - inversion Hi as [|? [n c] ? its [Hn Hf Hc] Hr]; subst. cbn in *. constructor; [|by apply IH].
    rewrite Hn in *. rewrite Hf in Ht. injection Ht as <-. done.
Qed.

Lemma collect_set_spec turns in_fd root rest dirent_read i info e set heap_ptr total set_buffer s
    (Q : Z * Z * list Z -> platform K -> Prop) :
  plat_ok s -> zlookup i (in_infos s) = Some info -> info_named [0] s info e -> entry_ok e ->
  set_on turns root e set -> handles s !! in_fd = Some (Listing [root] rest) -> (set_cost set <= spare s)%nat ->
  length set_buffer = 4096%nat ->
  0 <= heap_ptr -> heap_ptr + 40 * Z.of_nat (length set.2) < 2 ^ 63 -> 0 <= total < 2 ^ 62 ->
  (forall buffer' bufs s', length buffer' = 4096%nat -> step [] (set_cost set) s s' ->
    arrays s' = (zinsert i (set_offset total info) (in_infos s), in_bufs s ++ bufs, out_infos s, out_bufs s, sysdata s) ->
    Forall2 (buf_holds s') bufs set.2 ->
    Q (heap_ptr + 40 * Z.of_nat (length set.2), total + Z.of_nat (length set.2), buffer') s') ->
  does (collect_set turns in_fd dirent_read i (heap_ptr, total, set_buffer)) Q s.
Proof.
  intros Hok Hi Hn (Hp & He & _) [Hse Hst Hsl (es & Htree & Hes & Hturns & Hitems)] Hfd Hsp Hbuf Hhp0 Hhp Htot HQ.
  unfold collect_set. apply does_get, does_andthen. unfold info_at, id. rewrite Hi. apply does_go.
  apply does_andthen, does_lift, wp_modify. set (s1 := with_inputs _ _ s).
  assert (H1 : step [] 0 s s1) by (apply arrays_step; done).
  assert (Ha1 : arrays s1 = (zinsert i (set_offset total info) (in_infos s), in_bufs s, out_infos s, out_bufs s, sysdata s)) by done.
  clearbody s1. pose proof (info_named_step _ _ _ _ _ _ _ H1 Hn) as (Ht1 & Hl & _).
  apply does_andthen, print_spec; [apply H1|]. intros s2 H2 Ha2. apply does_andthen. rewrite Hl.
  apply print_from_spec; [apply H2|eapply text_step; [exact H2|by eapply text_app]|]. intros s3 H3 Ha3.
  apply does_andthen, print_spec; [apply H3|]. intros s4 H4 Ha4. apply does_get, does_andthen.
  assert (H14 : step [] 0 s1 s4) by exact (step_trans _ _ _ _ _ _ H2 (step_trans _ _ _ _ _ _ H3 H4)).
  assert (H04 : step [] 0 s s4) by exact (step_trans _ _ _ _ _ _ H1 H14).
  assert (Ha04 : arrays s4 = arrays s1) by congruence. pose proof (text_step _ _ _ _ _ _ H14 Ht1) as Ht4.
  pose proof (st_ok _ _ _ _ H04) as Hok4. pose proof (st_spare _ _ _ _ H04) as Hsp4.
  pose proof (not_console _ _ _ _ Hok Hfd) as Hfd1. unfold set_cost in *.
  eapply (openat_spec _ _ [root] (e_name e)); [done|by apply text_starts|exact Hp|lia| |by rewrite Hse|lia|].
  { right. exists rest. apply (st_handles _ _ _ _ H04); [by apply other_fd|done]. }
  intros fd k Hr Hnew H5 Hfd5. rewrite (proj2 (Z.ltb_ge _ _)) by lia. set (s5 := with_kernel k s4) in *.
  pose proof (st_ok _ _ _ _ H5) as Hok5. pose proof (st_spare _ _ _ _ H5) as Hsp5.
  pose proof (Forall2_length _ _ _ Hitems) as Hlen. rewrite Hse in Hfd5. cbn in Hfd5.
  apply does_andthen. eapply (collect_items_spec turns fd [root; set.1] es); [done|done|done|done|exact Hfd5|lia| |done|lia|lia|].
  { by eapply items_entries. }
  intros buffer' bufs s6 Hb' H6 Ha6 HF. rewrite Hlen in *. cbn [Z.ltb Z.compare]. apply does_go.
  assert (H46 : step [] (1 + 3 * length set.2) s4 s6) by (eapply step_fresh; [exact H5|exact Hnew|exact H6]).
  apply (HQ buffer' bufs); [done| | |by eapply items_hold].
  - exact (step_trans _ _ _ _ _ _ H04 H46).
  - rewrite Ha6. change (arrays s5) with (arrays s4) in *. rewrite Ha1 in Ha04. unfold arrays in Ha04.
    injection Ha04 as E1 E2 E3 E4 E5. cbn. by rewrite E1, E2, E3, E4, E5.
Qed.

(** * All sets *)

(** [flat_infos] without the sentinel. *)
Fixpoint offsets (off : Z) (t : list view) : list io_set_info :=
  match t with
  | [] => []
  | (id, len, bs) :: t => IoSetInfo id len off :: offsets (off + Z.of_nat (length bs)) t
  end.

Lemma flat_offsets off sen t :
  flat_infos off sen t =
  offsets off t ++ [IoSetInfo (si_ident sen) (si_ident_len sen) (off + Z.of_nat (length (flat_bufs t)))].
Proof.
  revert off. induction t as [|[[id len] bs] t IH]; intros off; cbn; [by rewrite Z.add_0_r|].
  rewrite IH. unfold flat_bufs. cbn. rewrite length_app. by do 4 f_equal; lia.
Qed.

Lemma offsets_snoc off t id len bs :
  offsets off (t ++ [(id, len, bs)]) = offsets off t ++ [IoSetInfo id len (off + Z.of_nat (length (flat_bufs t)))].
Proof.
  revert off. induction t as [|[[id' len'] bs'] t IH]; intros off; cbn; [by rewrite Z.add_0_r|].
  rewrite IH. unfold flat_bufs. cbn. rewrite length_app. by do 4 f_equal; lia.
Qed.

Lemma offsets_length off t : length (offsets off t) = length t.
Proof. revert off. induction t as [|[[id len] bs] t IH]; intros off; cbn; [done|by rewrite IH]. Qed.

Lemma flat_bufs_snoc t id len bs : flat_bufs (t ++ [(id, len, bs)]) = flat_bufs t ++ bs.
Proof. unfold flat_bufs. rewrite fmap_app, concat_app. cbn. by rewrite app_nil_r. Qed.

Definition sets_cost (sets : list host_set) : nat := sum_list_with set_cost sets.
Definition sets_items (sets : list host_set) : nat := sum_list_with (fun set : host_set => length set.2) sets.

Lemma views_length s t sets :
  Forall2 (view_holds s) t sets -> length (flat_bufs t) = sets_items sets.
Proof.
  induction 1 as [|[[id len] bs] set t sets (_ & _ & Hb) _ IH]; [done|].
  unfold flat_bufs, sets_items in *. cbn in *. rewrite length_app, IH. apply Forall2_length in Hb. lia.
Qed.

Lemma sets_cost_snoc sets st : sets_cost (sets ++ [st]) = (sets_cost sets + set_cost st)%nat.
Proof. unfold sets_cost. rewrite sum_list_with_app. cbn. lia. Qed.
Lemma sets_items_snoc sets st : sets_items (sets ++ [st]) = (sets_items sets + length st.2)%nat.
Proof. unfold sets_items. rewrite sum_list_with_app. cbn. lia. Qed.
Lemma sets_cost_app sets1 st sets2 : sets_cost (sets1 ++ st :: sets2) = (sets_cost sets1 + (set_cost st + sets_cost sets2))%nat.
Proof. unfold sets_cost. by rewrite sum_list_with_app. Qed.
Lemma sets_items_app sets1 st sets2 : sets_items (sets1 ++ st :: sets2) = (sets_items sets1 + (length st.2 + sets_items sets2))%nat.
Proof. unfold sets_items. by rewrite sum_list_with_app. Qed.

Lemma collect_sets_spec turns in_fd root rest dirent_read es sets infos heap_ptr set_buffer s0
    (Q : Z * Z * list Z -> platform K -> Prop) :
  plat_ok s0 -> in_infos s0 = infos -> in_bufs s0 = [] -> Forall2 (info_named [0] s0) infos es -> Forall entry_ok es ->
  Forall2 (set_on turns root) es sets -> handles s0 !! in_fd = Some (Listing [root] rest) ->
  (sets_cost sets <= spare s0)%nat -> length set_buffer = 4096%nat ->
  0 <= heap_ptr -> heap_ptr + 40 * Z.of_nat (sets_items sets) < 2 ^ 63 -> Z.of_nat (sets_items sets) < 2 ^ 61 ->
  (forall buffer' t s', step [] (sets_cost sets) s0 s' ->
    arrays s' = (offsets 0 t, flat_bufs t, out_infos s0, out_bufs s0, sysdata s0) ->
    Forall2 (view_holds s') t sets ->
    Q (heap_ptr + 40 * Z.of_nat (sets_items sets), Z.of_nat (sets_items sets), buffer') s') ->
  does (collect_sets turns in_fd dirent_read (Z.of_nat (length sets)) (heap_ptr, 0, set_buffer)) Q s0.
Proof.
  intros Hok Hin Hib Hnamed Hent Hsets Hfd Hsp Hbuf Hhp0 Hhp Htot HQ. unfold collect_sets. rewrite Nat2Z.id.
  pose proof (not_console _ _ _ _ Hok Hfd) as Hfd1.
  assert (H : forall es2 sets2 infos2 n t sets1 buf s, Forall2 (info_named [0] s) infos2 es2 -> Forall entry_ok es2 ->
    Forall2 (set_on turns root) es2 sets2 -> sets = sets1 ++ sets2 -> (length sets2 < n)%nat ->
    step [] (sets_cost sets1) s0 s -> length buf = 4096%nat ->
    arrays s = (offsets 0 t ++ infos2, flat_bufs t, out_infos s0, out_bufs s0, sysdata s0) ->
    Forall2 (view_holds s) t sets1 ->
    does (act_loop n (fun '(input_set, t) => if input_set <? Z.of_nat (length sets) then
      let? t := collect_set turns in_fd dirent_read input_set t in go (inl (input_set + 1, t))
      else go (inr t)) (Z.of_nat (length sets1), (heap_ptr + 40 * Z.of_nat (sets_items sets1), Z.of_nat (sets_items sets1), buf))) Q s).
  2: { assert (E : heap_ptr = heap_ptr + 40 * Z.of_nat (sets_items [])) by (unfold sets_items; cbn; lia). rewrite E at 1. clear E.
       apply (H es sets infos _ [] []); [done|done|done|done|lia|by apply step_refl|done| |constructor].
       unfold arrays. by rewrite Hin, Hib. }
  induction es2 as [|e es2 IH]; intros sets2 infos2 n t sets1 buf s Hn He Hs Hse Hfuel Hst Hbl Ha Hv;
    (destruct n as [|n]; [lia|]); apply does_loop_step.
  - inversion Hs; subst. inversion Hn; subst. rewrite !app_nil_r in *. rewrite (proj2 (Z.ltb_ge _ _)) by lia.
    apply does_go. by eapply HQ.
  - inversion Hs as [|? set ? sets3 Hset Hs3]; subst. inversion Hn as [|info ? infos3 ? Hinfo Hn3]; subst.
    apply Forall_cons in He as [He He3]. pose proof (st_spare _ _ _ _ Hst) as Hspare.
    pose proof (sets_cost_app sets1 set sets3) as Ecost. pose proof (sets_items_app sets1 set sets3) as Eitems.
    rewrite (proj2 (Z.ltb_lt _ _)) by (rewrite length_app; cbn; lia).
    pose proof (Forall2_length _ _ _ Hv) as Hlv. pose proof (views_length _ _ _ Hv) as Hfl.
    unfold arrays in Ha. injection Ha as Ea1 Ea2 Ea3 Ea4 Ea5.
    apply does_andthen. eapply (collect_set_spec turns in_fd root rest _ _ info e set); [apply Hst| |done|done|done| |lia|done|lia|lia|lia|].
    { rewrite Ea1, zlookup_nat, lookup_app_r; rewrite offsets_length, Hlv; [|done]. by rewrite Nat.sub_diag. }
    { apply (st_handles _ _ _ _ Hst); [by apply other_fd|done]. }
    intros buf' bufs s' Hb' H' Ha' HF. apply does_go. destruct info as [id len off].
    destruct Hinfo as (Hi1 & Hi2 & Hi3). cbn in Hi1, Hi2, Hi3.
    replace (Z.of_nat (length sets1) + 1) with (Z.of_nat (length (sets1 ++ [set]))) by (rewrite length_app; cbn; lia).
    pose proof (sets_items_snoc sets1 set) as Ei1.
    replace (heap_ptr + 40 * Z.of_nat (sets_items sets1) + 40 * Z.of_nat (length set.2))
      with (heap_ptr + 40 * Z.of_nat (sets_items (sets1 ++ [set]))) by lia.
    replace (Z.of_nat (sets_items sets1) + Z.of_nat (length set.2)) with (Z.of_nat (sets_items (sets1 ++ [set]))) by lia.
    apply (IH sets3 infos3 n (t ++ [(id, len, bufs)]) (sets1 ++ [set])); [|done|done|by rewrite <-app_assoc| | |done| |].
    + eapply Forall2_impl; [exact Hn3|]. intros ? ? Hx. exact (info_named_step _ _ _ _ _ _ _ H' Hx).
    + cbn in Hfuel. lia.
    + rewrite sets_cost_snoc. by eapply step_trans.
    + rewrite Ha', Ea1, Ea2, Ea3, Ea4, Ea5, offsets_snoc, flat_bufs_snoc, <-app_assoc. f_equal. f_equal. f_equal. f_equal.
      unfold zinsert. rewrite Nat2Z.id. replace (length sets1) with (length (offsets 0 t) + 0)%nat by (rewrite offsets_length; lia).
      rewrite insert_app_r. cbn. unfold set_offset. cbn. by rewrite Hfl.
    + apply Forall2_app; [|constructor; [|constructor]].
      * eapply Forall2_impl; [exact Hv|]. intros ? ? Hx. exact (view_holds_step _ _ _ _ _ _ H' Hx).
      * rewrite (so_name _ _ _ _ Hset) in Hi1, Hi2. split_and!; [|exact Hi2|exact HF].
        by eapply text_step; [exact H'|].
Qed.
End sets.
