(* ===== verification/DebugDump.v ===== *)
(** The debug platform: the files it writes for the output sets, and the text
    of the exit code. *)
From S2P Require Import Prelude Bytes Heap Alloc System RuntimeIO RuntimeTree RuntimeExit Kernel Debug DebugLemmas DebugStep DebugDirs DebugInit DebugSets.

(** * The exit code *)

(** The [n] decimal digits of [x], and the value of a text of digits. *)
Fixpoint digits (n : nat) (x : Z) : list Z :=
  match n with O => [] | S n => digits n (x / 10) ++ [48 + x mod 10] end.
Definition decimal (l : list Z) : Z := foldl (fun acc c => 10 * acc + (c - 48)) 0 l.

Lemma digits_length n x : length (digits n x) = n.
Proof. revert x. induction n as [|n IH]; intros x; cbn; [done|]. rewrite length_app, IH. cbn. lia. Qed.

Lemma digits_zero n : digits n 0 = replicate n 48.
Proof.
  induction n as [|n IH]; [done|]. cbn [digits]. change (0 / 10) with 0. rewrite IH.
  by rewrite <-replicate_cons_app.
Qed.

Lemma digits_decimal n x : 0 <= x < 10 ^ Z.of_nat n -> decimal (digits n x) = x.
Proof.
  revert x. induction n as [|n IH]; intros x Hx; [cbn in *; lia|].
  rewrite Nat2Z.inj_succ, Z.pow_succ_r in Hx by lia. unfold decimal in *. cbn [digits]. rewrite foldl_app. cbn.
  rewrite IH; [pose proof (Z.div_mod x 10); lia|].
  split; [apply Z.div_pos; lia|]. apply Z.div_lt_upper_bound; lia.
Qed.

Lemma digits_range n x : Forall (fun c => 48 <= c <= 57) (digits n x).
Proof.
  revert x. induction n as [|n IH]; intros x; cbn; [constructor|]. apply Forall_app. split; [done|].
  pose proof (Z.mod_pos_bound x 10). repeat constructor; lia.
Qed.

Lemma exit_digits_spec n x sign tail :
  0 <= x < 10 ^ Z.of_nat n -> (n + length tail = 11)%nat -> (1 <= length tail)%nat ->
  (0 < n)%nat ->
  exit_digits n (10 - Z.of_nat n) x (sign :: replicate n 48 ++ tail) = sign :: digits n x ++ tail.
Proof.
  revert x tail. induction n as [|n IH]; intros x tail Hx Hlen Ht Hn; [lia|].
  rewrite Nat2Z.inj_succ, Z.pow_succ_r in Hx by lia. cbn [exit_digits].
  rewrite Z.rem_mod_nonneg, Z.quot_div_nonneg by lia.
  assert (Hins : zinsert (10 - (10 - Z.of_nat (S n))) (48 + x mod 10) (sign :: replicate (S n) 48 ++ tail) =
    sign :: replicate n 48 ++ (48 + x mod 10) :: tail).
  { unfold zinsert. rewrite replicate_S_end, <-app_assoc. cbn [app].
    replace (Z.to_nat (10 - (10 - Z.of_nat (S n)))) with (length (sign :: replicate n 48%Z) + 0)%nat
      by (cbn [length]; rewrite length_replicate; lia).
    change (sign :: replicate n 48 ++ 48 :: tail) with ((sign :: replicate n 48) ++ 48 :: tail). by rewrite insert_app_r. }
  assert (Hdiv : 0 <= x / 10 < 10 ^ Z.of_nat n).
  { split; [apply Z.div_pos; lia|]. apply Z.div_lt_upper_bound; lia. }
  rewrite Hins. destruct (x / 10 =? 0) eqn:E; bool_to_prop.
  - cbn [digits]. rewrite E, digits_zero, <-app_assoc. done.
  - replace (10 - Z.of_nat (S n) + 1) with (10 - Z.of_nat n) by lia.
    destruct n as [|n]; [cbn in Hdiv; lia|]. rewrite IH; [|done|cbn in *; lia|cbn; lia|lia].
    cbn [digits]. by rewrite <-!app_assoc.
Qed.

Lemma exit_code_string_spec code :
  - 2 ^ 31 < code < 2 ^ 31 ->
  exit_code_string code = (if code <? 0 then 45 else 32) :: digits 10 (Z.abs code) ++ newline.
Proof.
  intros Hc. unfold exit_code_string. assert (Hp : 10 ^ Z.of_nat 10 = 10000000000) by done. destruct (code <? 0) eqn:E; bool_to_prop.
  - rewrite int32_small by lia. replace (code * -1) with (Z.abs code) by lia.
    change (zinsert 0 45 (chars " 0000000000" ++ newline)) with (45 :: replicate 10 48 ++ newline).
    change 0 with (10 - Z.of_nat 10) at 1. apply exit_digits_spec; rewrite ?Hp; cbn; lia.
  - replace (Z.abs code) with code by lia.
    change (chars " 0000000000" ++ newline) with (32 :: replicate 10 48 ++ newline).
    change 0 with (10 - Z.of_nat 10) at 1. apply exit_digits_spec; rewrite ?Hp; cbn; lia.
Qed.

Section dump.
Context {K : Type} {HK : Kernel K} {HS : KernelSpec K}.
Implicit Types s : platform K.
Notation act := (act (K := K)).

(** * Copies into [tmp] *)

Lemma put_local_spec a x b i c :
  i = Z.of_nat (length a) -> put_local 0 (a ++ x :: b) i c = Some (a ++ c :: b).
Proof.
  intros ->. unfold put_local. rewrite Z.add_0_l, zlookup_nat, list_lookup_middle by done. f_equal.
  unfold zinsert. rewrite Nat2Z.id. replace (length a) with (length a + 0)%nat by lia. by rewrite insert_app_r.
Qed.

Lemma put_local_offset off a i c : put_local off a i c = put_local 0 a (off + i) c.
Proof. done. Qed.

Lemma set_local_spec a x b i c (Q : list Z -> platform K -> Prop) s :
  i = Z.of_nat (length a) -> Q (a ++ c :: b) s -> does (set_local (a ++ x :: b) i c) Q s.
Proof. intros Hi HQ. unfold set_local. rewrite put_local_spec by done. by apply does_go. Qed.

Lemma copy_local_spec a b offset src l (Q : list Z -> platform K -> Prop) s :
  starts src l -> offset = Z.of_nat (length a) -> (length l <= length b)%nat ->
  Q (a ++ l ++ drop (length l) b) s ->
  does (copy_local (a ++ b) offset src (Z.of_nat (length l))) Q s.
Proof.
  intros Hsrc -> Hlen HQ. unfold copy_local. rewrite Nat2Z.id.
  assert (H : forall n i, (length l - i < n)%nat -> (i <= length l)%nat ->
    does (act_loop n (fun '(i, tmp) => if i <? Z.of_nat (length l) then
      match src i with None => fail OutOfBounds | Some c =>
        match put_local (Z.of_nat (length a)) tmp i c with None => fail OutOfBounds
        | Some tmp => go (inl (i + 1, tmp)) end end
      else go (inr tmp)) (Z.of_nat i, a ++ take i l ++ drop i b)) Q s).
  2: { specialize (H (S (length l)) 0%nat). rewrite take_0, drop_0 in H. apply H; lia. }
  induction n as [|n IH]; intros i Hn Hi; [lia|]. apply does_loop_step. cbn beta iota.
  destruct (decide (i = length l)) as [->|Hne].
  - rewrite (proj2 (Z.ltb_ge _ _)) by lia. apply does_go. by rewrite firstn_all.
  - rewrite (proj2 (Z.ltb_lt _ _)) by lia. destruct (lookup_lt_is_Some_2 l i ltac:(lia)) as [c Hc].
    destruct (lookup_lt_is_Some_2 b i ltac:(lia)) as [x Hx].
    rewrite (Hsrc (Z.of_nat i) c) by by rewrite zlookup_nat. rewrite (drop_S _ _ _ Hx), put_local_offset, app_assoc.
    rewrite put_local_spec by (rewrite length_app, length_take; lia). apply does_go.
    replace (Z.of_nat i + 1) with (Z.of_nat (S i)) by lia.
    replace ((a ++ take i l) ++ c :: drop (S i) b) with (a ++ take (S i) l ++ drop (S i) b); [apply IH; lia|].
    by rewrite (take_S_r _ _ _ Hc), <-!app_assoc.
Qed.

(** A copy that does not fit in [tmp]. *)
Lemma copy_local_overflow a b offset src l s :
  starts src l -> offset = Z.of_nat (length a) -> (length b < length l)%nat ->
  copy_local (a ++ b) offset src (Z.of_nat (length l)) s = Fault OutOfBounds.
Proof.
  intros Hsrc -> Hlen. unfold copy_local. rewrite Nat2Z.id.
  assert (H : forall n i, (length l - i < n)%nat -> (i <= length b)%nat ->
    act_loop n (fun '(i, tmp) => if i <? Z.of_nat (length l) then
      match src i with None => fail OutOfBounds | Some c =>
        match put_local (Z.of_nat (length a)) tmp i c with None => fail OutOfBounds
        | Some tmp => go (inl (i + 1, tmp)) end end
      else go (inr tmp)) (Z.of_nat i, a ++ take i l ++ drop i b) s = Fault OutOfBounds).
  2: { specialize (H (S (length l)) 0%nat). rewrite take_0, drop_0 in H. apply H; lia. }
  induction n as [|n IH]; intros i Hn Hi; [lia|]. unfold act_loop. cbn [loop]. unfold bind at 1 2.
  rewrite (proj2 (Z.ltb_lt _ _)) by lia. destruct (lookup_lt_is_Some_2 l i ltac:(lia)) as [c Hc].
  rewrite (Hsrc (Z.of_nat i) c) by by rewrite zlookup_nat.
  destruct (decide (i = length b)) as [->|Hne].
  - unfold put_local. rewrite drop_all, app_nil_r. rewrite <-Nat2Z.inj_add, zlookup_nat, lookup_ge_None_2; [done|].
    rewrite length_app, length_take. lia.
  - destruct (lookup_lt_is_Some_2 b i ltac:(lia)) as [x Hx].
    rewrite (drop_S _ _ _ Hx), put_local_offset, app_assoc.
    rewrite put_local_spec by (rewrite length_app, length_take; lia).
    replace (Z.of_nat i + 1) with (Z.of_nat (S i)) by lia.
    replace ((a ++ take i l) ++ c :: drop (S i) b) with (a ++ take (S i) l ++ drop (S i) b); [apply IH; lia|].
    by rewrite (take_S_r _ _ _ Hc), <-!app_assoc.
Qed.

(** * One buffer *)

(** The output that the runtime left: sets with their buffers. *)
Record out_buf s (b : io_buffer) (i : item) : Prop := {
  ob_ident : ib_ident b <> NULL;
  ob_name : text s (ib_ident b) i.1;
  ob_name_len : ib_ident_len b = Z.of_nat (length i.1);
  ob_data : text s (ib_data b) i.2;
  ob_data_len : ib_data_len b = Z.of_nat (length i.2);
}.

Lemma out_buf_step ex c s s' b i : step ex c s s' -> out_buf s b i -> out_buf s' b i.
Proof. intros Hs []. split; try done; by eapply text_step. Qed.

Definition prefix : list Z := chars "output_sets/".
Definition path_of (set name : list Z) : list Z := prefix ++ set ++ [47] ++ name.

Record path_ok (set name : list Z) : Prop := {
  pk_plain : plain set /\ plain name;
  pk_size : (length (path_of set name) < TMP_SIZE)%nat;
  pk_create : k_creatable (path_of set name);
  pk_apart : k_file (path_of set name) <> k_file k_console;
}.

(** What a file holds after the files [l] were written one after the other, each
    erasing what was there, and [c] before. *)
Definition latest (f : Z) (l : list (list Z * list Z)) (c : option (list Z)) : option (list Z) :=
  foldl (fun c file => if decide (k_file file.1 = f) then Some file.2 else c) c l.
Definition dumped s s' (l : list (list Z * list Z)) : Prop :=
  forall f, f <> k_file k_console -> host_files s' !! f = latest f l (host_files s !! f).

Lemma dumped_app s s1 s' l1 l2 : dumped s s1 l1 -> dumped s1 s' l2 -> dumped s s' (l1 ++ l2).
Proof. intros H1 H2 f Hf. unfold latest in *. by rewrite (H2 f Hf), (H1 f Hf), foldl_app. Qed.

(** What [tmp] holds before the file is opened. *)
Lemma tmp_starts set name rest : starts (local (path_of set name ++ 0 :: rest) 0) (path_of set name ++ [0]).
Proof. apply (local_starts _ _ _ rest); [lia|]. by rewrite <-app_assoc. Qed.

Lemma write_from_spec fd path old p l s (Q : unit -> platform K -> Prop) :
  plat_ok s -> handles s !! fd = Some (Writing path old) -> fd <> 1 -> text s p l ->
  (forall s', step [fd] 0 s s' -> arrays s' = arrays s ->
    (host_files s !! k_file path = Some old -> host_files s' !! k_file path = Some (old ++ l)) ->
    (forall f, f <> k_file path -> host_files s' !! f = host_files s !! f) -> Q tt s') ->
  does (write_from fd p (Z.of_nat (length l))) Q s.
Proof.
  intros Hok Hfd Hne Ht HQ. unfold does, write_from, wp. rewrite Nat2Z.id.
  rewrite (bytes_of_spec _ l) by (by apply text_starts). eapply write_all_spec; [done|].
  intros k Hh Ha Hc Hcon Hoth. apply HQ; [|done|exact Hcon|exact Hoth].
  - destruct (po_console _ Hok) as (d & H1). apply kernel_step; [done|done|lia| |].
    + exists d. by rewrite Hh, lookup_insert_ne.
    + intros fd' h Hfd'. rewrite Hh, lookup_insert_ne; [done|set_solver].
Qed.

Lemma create_spec set name rest s (Q : Z -> platform K -> Prop) :
  plat_ok s -> path_ok set name -> (1 <= spare s)%nat ->
  (forall r k, 0 <= r < 2 ^ 31 -> handles s !! r = None -> step [] 1 s (with_kernel k s) ->
    handles (with_kernel k s) !! r = Some (Writing (path_of set name) []) ->
    k_files k = <[k_file (path_of set name) := []]> (host_files s) -> Q r (with_kernel k s)) ->
  does (openat AT_FDCWD (local (path_of set name ++ 0 :: rest) 0) (Z.lor O_WRONLY (Z.lor O_CREAT O_TRUNC))) Q s.
Proof.
  intros Hok [[Hp1 Hp2] Hsize Hcr _] Hsp HQ. unfold openat.
  rewrite (read_path_spec _ _ (path_of set name)); [|by apply tmp_starts| |unfold PATH_MAX, TMP_SIZE in *; lia].
  2: { unfold path_of. apply Forall_app. split; [by repeat constructor|]. apply Forall_app. split; [done|]. by constructor. }
  apply does_andthen, does_syscall.
  eapply wp_mono; [apply (create_law _ (path_of set name) (pred (spare s))); [done|unfold spare in *; lia]|].
  intros r k (Hr & Hnew & Hh & Hf & Ha & Hc). rewrite int32_small by lia. apply does_go, HQ; [done|done| | |exact Hf].
  - apply kernel_step; [done|done|unfold spare in *; lia| |].
    + destruct (po_console _ Hok) as (d & H1). exists d. rewrite Hh, lookup_insert_ne; [done|].
      intros ->. unfold handles in *. congruence.
    + intros fd' h _ Hfd'. rewrite Hh, lookup_insert_ne; [done|]. intros ->. unfold handles in *. congruence.
  - unfold handles. cbn. rewrite Hh. apply lookup_insert_eq.
Qed.

Definition tmp_start : list Z := literal "output_sets/" ++ replicate (TMP_SIZE - 13) 0.

Lemma tmp_start_split : tmp_start = prefix ++ replicate 244 0.
Proof. reflexivity. Qed.

(** The statements that build the path in [tmp]. *)
Lemma tmp_path_spec s setid set ident name start (Q : list Z -> platform K -> Prop) :
  text s setid set -> text s ident name -> start = Z.of_nat (length prefix) ->
  (length (path_of set name) < TMP_SIZE)%nat ->
  (forall rest, Q (path_of set name ++ 0 :: rest) s) ->
  does (let? tmp := copy_local tmp_start start (at_address s setid) (Z.of_nat (length set)) in
    let? tmp := set_local tmp (start + Z.of_nat (length set)) 47 in
    let? tmp := copy_local tmp (start + Z.of_nat (length set) + 1) (at_address s ident) (Z.of_nat (length name)) in
    set_local tmp (start + Z.of_nat (length set) + 1 + Z.of_nat (length name)) 0) Q s.
Proof.
  intros Hs Hn -> Hsize HQ. unfold path_of in Hsize. rewrite !length_app in Hsize. cbn [length] in Hsize.
  assert (Hp : length prefix = 12%nat) by done. unfold TMP_SIZE in Hsize. rewrite tmp_start_split.
  apply does_andthen, copy_local_spec; [by apply text_starts|done|rewrite length_replicate; lia|].
  rewrite drop_replicate. destruct (244 - length set)%nat as [|n1] eqn:E1; [lia|]. cbn [replicate].
  rewrite (app_assoc prefix set). apply does_andthen, set_local_spec; [rewrite length_app; lia|].
  change (47 :: replicate n1 0) with ([47] ++ replicate n1 0). rewrite (app_assoc _ [47]).
  apply does_andthen, copy_local_spec; [by apply text_starts|rewrite !length_app; cbn; lia|rewrite length_replicate; lia|].
  rewrite drop_replicate. destruct (n1 - length name)%nat as [|n2] eqn:E2; [lia|]. cbn [replicate].
  rewrite (app_assoc _ name). apply set_local_spec; [rewrite !length_app; cbn; lia|].
  specialize (HQ (replicate n2 0)). unfold path_of in HQ. by rewrite <-!app_assoc in HQ |- *.
Qed.

Lemma set_local_overflow tmp i c s :
  i = Z.of_nat (length tmp) -> set_local (K := K) tmp i c s = Fault OutOfBounds.
Proof.
  intros ->. unfold set_local, put_local. rewrite Z.add_0_l, zlookup_nat, lookup_ge_None_2; done.
Qed.

Lemma tmp_path_overflow {A} s setid set ident name (k : list Z -> act A) :
  text s setid set -> text s ident name -> (TMP_SIZE <= length (path_of set name))%nat ->
  let start := Z.of_nat (length prefix) in
  (let? tmp := copy_local tmp_start start (at_address s setid) (Z.of_nat (length set)) in
    let? tmp := set_local tmp (start + Z.of_nat (length set)) 47 in
    let? tmp := copy_local tmp (start + Z.of_nat (length set) + 1) (at_address s ident) (Z.of_nat (length name)) in
    let? tmp := set_local tmp (start + Z.of_nat (length set) + 1 + Z.of_nat (length name)) 0 in k tmp) s = Fault OutOfBounds.
Proof.
  intros Hs Hn Hsize. cbv zeta. unfold path_of in Hsize. rewrite !length_app in Hsize. cbn [length] in Hsize.
  assert (Hp : length prefix = 12%nat) by done. unfold TMP_SIZE in Hsize. rewrite tmp_start_split.
  destruct (decide (length set <= 244)%nat) as [H1|H1].
  2: { apply fault_here, copy_local_overflow; [by apply text_starts|done|rewrite length_replicate; lia]. }
  apply fault_after, copy_local_spec; [by apply text_starts|done|rewrite length_replicate; lia|].
  rewrite drop_replicate, (app_assoc prefix set). destruct (244 - length set)%nat as [|n1] eqn:E1; cbn [replicate].
  { apply fault_here. rewrite app_nil_r. apply set_local_overflow. rewrite length_app. lia. }
  apply fault_after, set_local_spec; [rewrite length_app; lia|].
  change (47 :: replicate n1 0) with ([47] ++ replicate n1 0). rewrite (app_assoc _ [47]).
  destruct (decide (length name <= n1)%nat) as [H2|H2].
  2: { apply fault_here, copy_local_overflow; [by apply text_starts|rewrite !length_app; cbn; lia|rewrite length_replicate; lia]. }
  apply fault_after, copy_local_spec; [by apply text_starts|rewrite !length_app; cbn; lia|rewrite length_replicate; lia|].
  rewrite drop_replicate. destruct (n1 - length name)%nat as [|n2] eqn:E2; [|lia]. cbn [replicate]. rewrite app_nil_r.
  apply fault_here, set_local_overflow. rewrite !length_app. cbn [length]. lia.
Qed.

Lemma dump_io_buf_spec s setid set index b i (Q : unit -> platform K -> Prop) :
  plat_ok s -> text s setid set -> setid <> NULL -> sd_output_bufs (sysdata s) <> NULL ->
  zlookup index (out_bufs s) = Some b -> out_buf s b i -> path_ok set i.1 -> (1 <= spare s)%nat ->
  (forall s', step [] 1 s s' -> arrays s' = arrays s -> dumped s s' [(path_of set i.1, i.2)] -> Q tt s') ->
  does (dump_io_buf setid (Z.of_nat (length set)) index) Q s.
Proof.
  intros Hok Hset Hsetid Hout Hb [Hi Hn Hnl Hd Hdl] Hpath Hsp HQ.
  unfold dump_io_buf. apply (does_state (fun s0 => _)). fold tmp_start. cbv zeta.
  apply does_andthen. eapply (my_strlen_spec _ _ prefix).
  { apply (local_starts _ _ _ (replicate 243 0)); [lia|]. reflexivity. }
  { by repeat constructor. }
  { unfold tmp_start, TMP_SIZE. cbn. lia. }
  rewrite (proj2 (Z.eqb_neq _ _)) by done. rewrite (proj2 (Z.eqb_neq (sd_output_bufs _) _)) by done. cbn [andb orb].
  rewrite Hb, (proj2 (Z.eqb_neq (ib_ident b) _)), Hnl by done.
  apply does_join4. apply tmp_path_spec; [done|done|done|apply Hpath|]. intros rest.
  apply does_andthen, print_appends; [done|]. intros s1 d1 H1 Ha1 _ _ Hf1.
  apply does_andthen, print_appends; [apply H1|]. intros s2 d2 H2 Ha2 _ _ Hf2.
  assert (H02 : step [] 0 s s2) by exact (step_trans _ _ _ _ _ _ H1 H2). pose proof (st_spare _ _ _ _ H02) as Hs2.
  apply does_andthen, create_spec; [apply H2|done|lia|]. intros fd k Hr Hnew H3 Hfd Hf3.
  rewrite (proj2 (Z.ltb_ge _ _)) by lia. rewrite Hdl.
  assert (H03 : step [] 1 s (with_kernel k s2)) by exact (step_trans _ _ _ _ _ _ H02 H3).
  assert (Hne : fd <> 1).
  { intros ->. destruct (po_console _ (st_ok _ _ _ _ H2)) as (d' & H1'). congruence. }
  eapply write_from_spec; [apply H3|exact Hfd|done|by eapply text_step|]. intros s4 H4 Ha4 Hc4 Hf4. apply HQ.
  - eapply (step_trans _ 0 1); [exact H02|]. change 1%nat with (1 + 0)%nat. by eapply step_fresh.
  - rewrite Ha4. change (arrays s2 = arrays s). congruence.
  - intros f Hf. unfold latest. cbn [foldl fst snd]. change (host_files (with_kernel k s2)) with (k_files k) in Hc4, Hf4.
    destruct (decide _) as [<-|Hne2].
    + rewrite <-(app_nil_l i.2). apply Hc4. rewrite Hf3. apply lookup_insert_eq.
    + rewrite Hf4, Hf3, lookup_insert_ne, Hf2, Hf1; done.
Qed.

(** * All buffers *)

Definition out_view s (v : view) (set : host_set) : Prop :=
  v.1.1 <> NULL /\ text s v.1.1 set.1 /\ v.1.2 = Z.of_nat (length set.1) /\ Forall2 (out_buf s) v.2 set.2.

Lemma out_view_step ex c s s' v set : step ex c s s' -> out_view s v set -> out_view s' v set.
Proof.
  intros Hs (H1 & H2 & H3 & H4). split_and!; [done|by eapply text_step|done|].
  eapply Forall2_impl; [exact H4|]. intros ? ? Hx. exact (out_buf_step _ _ _ _ _ _ Hs Hx).
Qed.

(** The files of the buffers, in the order in which they are written. *)
Definition set_files (set : host_set) : list (list Z * list Z) :=
  map (fun i : item => (path_of set.1 i.1, i.2)) set.2.
Definition outputs (sets : list host_set) : list (list Z * list Z) := concat (map set_files sets).

Lemma dump_set_spec s0 v set off (Q : unit -> platform K -> Prop) :
  plat_ok s0 -> sd_output_bufs (sysdata s0) <> NULL -> out_view s0 v set ->
  Forall (fun i : item => path_ok set.1 i.1) set.2 -> (length set.2 <= spare s0)%nat ->
  (forall j b, zlookup j v.2 = Some b -> zlookup (off + j) (out_bufs s0) = Some b) ->
  0 <= off -> off + Z.of_nat (length v.2) < 2 ^ 64 ->
  (forall s', step [] (length set.2) s0 s' -> arrays s' = arrays s0 -> dumped s0 s' (set_files set) -> Q tt s') ->
  does (for_each (Z.of_nat (length v.2)) (fun j => dump_io_buf v.1.1 v.1.2 (wrap64 (off + j)))) Q s0.
Proof.
  intros Hok Hout (Hid & Htext & Hlen & Hbufs) Hpaths Hsp Hlook Hoff Hmax HQ.
  pose proof (Forall2_length _ _ _ Hbufs) as Hll. unfold for_each.
  apply (does_count _ _ (fun j s => step [] (Z.to_nat j) s0 s /\ arrays s = arrays s0 /\
    dumped s0 s (take (Z.to_nat j) (set_files set)))); [lia|lia| | |].
  - split_and!; [by apply step_refl|done|by intros f _].
  - intros j s Hj (Hst & Ha & Hd). destruct (zlookup_lt j v.2 ltac:(lia)) as [b Hb].
    pose proof Hb as Hb'. unfold zlookup in Hb'. rewrite (proj2 (Z.leb_le _ _)) in Hb' by lia.
    destruct (Forall2_lookup_l _ _ _ _ _ Hbufs Hb') as (i & Hi & Hbi).
    pose proof (st_spare _ _ _ _ Hst). unfold arrays in Ha. injection Ha as E1 E2 E3 E4 E5.
    rewrite Hlen, wrap64_small by lia. eapply (dump_io_buf_spec s _ set.1 _ b i);
      [apply Hst|by eapply text_step|done|by rewrite E5|rewrite E4; by apply Hlook|by eapply out_buf_step| |lia|].
    { eapply Forall_lookup in Hpaths; [|exact Hi]. done. }
    intros s' Hs' Ha' Hdump. replace (Z.to_nat (j + 1)) with (Z.to_nat j + 1)%nat by lia. split_and!.
    + eapply step_trans; [exact Hst|exact Hs'].
    + unfold arrays in *. congruence.
    + rewrite Nat.add_1_r, (take_S_r _ _ (path_of set.1 i.1, i.2)); [by eapply dumped_app|].
      unfold set_files. rewrite list_lookup_fmap. by rewrite Hi.
  - intros s (Hst & Ha & Hd). rewrite Z.max_r in Hst, Hd by lia. rewrite Nat2Z.id in *. rewrite Hll in *.
    apply HQ; [done|done|]. rewrite take_ge in Hd; [done|]. unfold set_files. rewrite length_map. lia.
Qed.

(** * The end of the process *)

(** What the runtime leaves to [__dandelion_platform_exit]: the flat arrays of
    the sets [sets], whose files can be created. *)
Record output_ready s (t : list view) (sets : list host_set) : Prop := {
  or_ok : plat_ok s;
  or_infos : exists sen, out_infos s = flat_infos 0 sen t;
  or_bufs : out_bufs s = flat_bufs t;
  or_len : sd_output_sets_len (sysdata s) = Z.of_nat (length t);
  or_array : sd_output_bufs (sysdata s) <> NULL;
  or_views : Forall2 (out_view s) t sets;
  or_paths : Forall (fun set : host_set => Forall (fun i : item => path_ok set.1 i.1) set.2) sets;
  or_spare : (sets_items sets <= spare s)%nat;
  or_size : Z.of_nat (length t) < 2 ^ 62 /\ Z.of_nat (length (flat_bufs t)) < 2 ^ 62;
}.

Lemma sets_items_take k (sets : list host_set) (set : host_set) :
  sets !! k = Some set ->
  sets_items (take (S k) sets) = (sets_items (take k sets) + length set.2)%nat /\
  (sets_items (take (S k) sets) <= sets_items sets)%nat.
Proof.
  intros Hk. unfold sets_items. rewrite (take_S_r _ _ _ Hk), sum_list_with_app. cbn. split; [lia|].
  rewrite <-(take_drop_middle _ _ _ Hk) at 2. rewrite sum_list_with_app. cbn. lia.
Qed.

Lemma flat_next sen t i v a :
  zlookup i t = Some v -> zlookup (i + 1) (flat_infos 0 sen t) = Some a -> si_offset a = offset_of t (i + 1).
Proof.
  intros Hv Ha. pose proof (zlookup_range _ _ _ Hv) as Hi.
  destruct (decide (i + 1 = Z.of_nat (length t))) as [E|Hne].
  - rewrite E, flat_infos_last in Ha. injection Ha as <-. cbn. by rewrite (offset_all t (i + 1)).
  - destruct (zlookup_lt (i + 1) t ltac:(lia)) as [w Hw]. rewrite (flat_infos_lookup _ _ _ _ _ Hw) in Ha.
    by injection Ha as <-.
Qed.

Lemma does_info infos i a (Q : io_set_info -> platform K -> Prop) s :
  zlookup i infos = Some a -> Q a s -> does (info_at infos i) Q s.
Proof. intros Hi HQ. unfold info_at. rewrite Hi. by apply does_go. Qed.

Lemma dump_global_data_spec s0 t sets (Q : unit -> platform K -> Prop) :
  output_ready s0 t sets ->
  (forall s', step [] (sets_items sets) s0 s' -> arrays s' = arrays s0 -> dumped s0 s' (outputs sets) -> Q tt s') ->
  does dump_global_data Q s0.
Proof.
  intros [Hok (sen & Hinf) Hbufs Hlen Harr Hviews Hpaths Hsp [Hsz1 Hsz2]] HQ.
  pose proof (Forall2_length _ _ _ Hviews) as Hll. unfold dump_global_data. apply (does_state (fun s => _)).
  rewrite Hlen. unfold for_each at 1.
  apply (does_count _ _ (fun i s => step [] (sets_items (take (Z.to_nat i) sets)) s0 s /\ arrays s = arrays s0 /\
    dumped s0 s (outputs (take (Z.to_nat i) sets)))); [lia|lia| | |].
  - split_and!; [by apply step_refl|done|by intros f _].
  - intros i s Hi (Hst & Ha & Hd). destruct (zlookup_lt i t ltac:(lia)) as [v Hv].
    pose proof Hv as Hv'. unfold zlookup in Hv'. rewrite (proj2 (Z.leb_le _ _)) in Hv' by lia.
    destruct (Forall2_lookup_l _ _ _ _ _ Hviews Hv') as (set & Hset & Hview).
    destruct (sets_items_take _ _ _ Hset) as [Et Ele]. pose proof (st_spare _ _ _ _ Hst) as Hs.
    unfold arrays in Ha. injection Ha as E1 E2 E3 E4 E5. rewrite Hinf.
    destruct (zlookup_lt (i + 1) (flat_infos 0 sen t)) as [nxt Hnxt]; [rewrite flat_infos_length; lia|].
    pose proof (flat_next _ _ _ _ _ Hv Hnxt) as Hoff. pose proof (offset_step _ _ _ Hv) as Hstep.
    pose proof (offset_le t (i + 1)) as Hle. assert (0 <= offset_of t i) by (unfold offset_of; lia).
    apply does_andthen. eapply does_info; [by apply flat_infos_lookup|]. apply does_andthen.
    rewrite (wrap64_small (i + 1)) by lia. eapply does_info; [exact Hnxt|]. cbv zeta. cbn [si_offset si_ident si_ident_len].
    rewrite Hoff, Z.add_0_l, wrap64_small by lia.
    replace (offset_of t (i + 1) - offset_of t i) with (Z.of_nat (length v.2)) by lia.
    apply (dump_set_spec s v set); [apply Hst|by rewrite E5|by eapply out_view_step| |lia| |lia|lia|].
    { eapply Forall_lookup in Hpaths; [|exact Hset]. done. }
    { intros j b Hj. rewrite E4, Hbufs. by eapply flat_bufs_lookup. }
    intros s' Hs' Ha' Hdump. replace (Z.to_nat (i + 1)) with (S (Z.to_nat i)) by lia. split_and!.
    + rewrite Et. eapply step_trans; [exact Hst|exact Hs'].
    + unfold arrays in *. congruence.
    + rewrite (take_S_r _ _ _ Hset). unfold outputs. rewrite map_app, concat_app. eapply dumped_app; [exact Hd|].
      cbn. by rewrite app_nil_r.
  - intros s (Hst & Ha & Hd). rewrite Z.max_r in Hst, Hd by lia. rewrite Nat2Z.id, Hll, firstn_all in *. by apply HQ.
Qed.

Lemma platform_exit_spec s t sets :
  output_ready s t sets -> - 2 ^ 31 < sd_exit_code (sysdata s) < 2 ^ 31 ->
  wp platform_exit (fun r s' => r = None /\ status s' = Some (sd_exit_code (sysdata s)) /\
    dumped s s' (outputs sets) /\
    exists d, handles s' !! 1 = Some (Writing k_console (d ++ chars "Exiting with code " ++
      (if sd_exit_code (sysdata s) <? 0 then 45 else 32) :: digits 10 (Z.abs (sd_exit_code (sysdata s))) ++ newline))) s.
Proof.
  intros Hr Hc. apply wp_andthen. eapply dump_global_data_spec; [done|]. intros s1 H1 Ha1 Hd1.
  apply wp_andthen, print_appends; [apply H1|]. intros s2 d H2 Ha2 Hh Hh2 Hf2.
  assert (Hcode : sd_exit_code (sysdata s2) = sd_exit_code (sysdata s)) by (unfold arrays in *; congruence).
  apply wp_bind, wp_gets. unfold id. rewrite Hcode. apply wp_andthen, print_appends; [apply H2|].
  intros s3 d3 H3 Ha3 Hh3 Hh3' Hf3. apply wp_bind, wp_modify, wp_ret.
  rewrite int32_small by lia. split_and!; [done|done| |].
  - intros f Hf. change (host_files (with_status _ s3)) with (host_files s3). by rewrite (Hf3 f Hf), (Hf2 f Hf), (Hd1 f Hf).
  - exists d. rewrite Hh2 in Hh3. injection Hh3 as <-. change (handles (with_status _ s3)) with (handles s3).
    rewrite Hh3', exit_code_string_spec, <-app_assoc by done. done.
Qed.
End dump.
