(* ===== verification/DebugDemo.v ===== *)
(** A host for the debug platform: a small kernel that keeps the promises of
    [KernelSpec], with one input set, one file and one output set. *)
From S2P Require Import Prelude Bytes Heap Alloc System RuntimeIO RuntimeTree Kernel Debug DebugLemmas DebugStep DebugDirs DebugInit DebugSets DebugDump.

(** * The state of the kernel *)

Record host := Host {
  h_handles : gmap Z handle;
  h_next : Z;
  h_areas : list (Z * Z);
  h_top : Z;
  h_left : nat;
  h_files : gmap Z (list Z);
}.

Definition demo_dir (names : list (list Z)) (t : Z) : list entry :=
  [Entry dot 4; Entry dot_dot 4] ++ map (fun n => Entry n t) names.

Definition demo_tree : list (list (list Z) * host_node) := [
  ([chars "input_sets"], HostDir (demo_dir [chars "files"] 4));
  ([chars "input_sets"; chars "files"], HostDir (demo_dir [chars "a+b"] 8));
  ([chars "input_sets"; chars "files"; chars "a+b"], HostFile (chars "hello"));
  ([chars "output_sets"], HostDir (demo_dir [chars "out"] 4))].

Fixpoint find_path (path : list (list Z)) (t : list (list (list Z) * host_node)) : option host_node :=
  match t with
  | [] => None
  | (p, n) :: t => if decide (p = path) then Some n else find_path path t
  end.
Definition host_tree (path : list (list Z)) : option host_node := find_path path demo_tree.

Definition encode (e : entry) : list Z :=
  let len := Z.of_nat (20 + length (e_name e)) in
  replicate 16 0 ++ [len mod 256; len / 256; e_type e] ++ e_name e ++ [0].

Definition open_handle (h : handle) (files : gmap Z (list Z)) (k : host) : outcome host Z :=
  match h_left k with
  | O => Ret (-24) k
  | S c => Ret (h_next k) (Host (<[h_next k := h]> (h_handles k)) (h_next k + 1) (h_areas k) (h_top k) c files)
  end.
Definition set_handle (fd : Z) (h : handle) (k : host) : host :=
  Host (<[fd := h]> (h_handles k)) (h_next k) (h_areas k) (h_top k) (h_left k) (h_files k).

(** Every path has a file of its own; the bytes written at an offset. *)
Definition host_file (path : list Z) : Z := foldl (fun acc c => acc * 256 + c) 1 path.
Definition overwrite (offset : nat) (bs c : list Z) : list Z :=
  take offset c ++ replicate (offset - length c) 0 ++ bs ++ drop (offset + length bs) c.
Definition set_file (path : list Z) (c : option (list Z)) (k : host) : host :=
  Host (h_handles k) (h_next k) (h_areas k) (h_top k) (h_left k)
    (partial_alter (fun _ => c) (host_file path) (h_files k)).

Definition h_openat (fd : Z) (name : list Z) (flags : Z) : prog host Z := fun k =>
  let dir := if fd =? AT_FDCWD then Some []
             else match h_handles k !! fd with Some (Listing dir _) => Some dir | _ => None end in
  if flags =? O_RDONLY then
    match dir with
    | Some dir => match host_tree (dir ++ [name]) with
                  | Some n => open_handle (handle_of (dir ++ [name]) n) (h_files k) k | None => Ret (-2) k end
    | None => Ret (-9) k
    end
  else open_handle (Writing name []) (<[host_file name := []]> (h_files k)) k.

Definition h_getdents (fd size : Z) : prog host (Z * list Z) := fun k =>
  match h_handles k !! fd with
  | Some (Listing path (e :: es)) =>
      Ret (Z.of_nat (length (encode e)), encode e) (set_handle fd (Listing path es) k)
  | Some (Listing path []) => Ret (0, []) (set_handle fd (Listing path []) k)
  | _ => Ret (-9, []) k
  end.

(** At most seven bytes are written at once. *)
Definition h_write (fd : Z) (bs : list Z) : prog host Z := fun k =>
  match h_handles k !! fd with
  | Some (Writing path d) =>
      let n := Nat.min 7 (length bs) in 
      Ret (Z.of_nat n) (set_file path (overwrite (length d) (take n bs) <$> h_files k !! host_file path)
        (set_handle fd (Writing path (d ++ take n bs)) k))
  | _ => Ret (-9) k
  end.

Definition h_seek_end (fd : Z) : prog host Z := fun k =>
  match h_handles k !! fd with Some (Reading c) => Ret (Z.of_nat (length c)) k | _ => Ret (-9) k end.

Definition new_area (size : Z) (k : host) : option (Z * host) :=
  match h_left k with
  | O => None
  | S c => Some (h_top k, Host (h_handles k) (h_next k) ((h_top k, size) :: h_areas k) (h_top k + round_up size 4096) c (h_files k))
  end.
Definition h_mmap (size : Z) : prog host Z := fun k =>
  match new_area size k with Some (p, k) => Ret p k | None => Ret (-12) k end.
Definition h_mmap_file (fd size : Z) : prog host (Z * list Z) := fun k =>
  match h_handles k !! fd, new_area size k with
  | Some (Reading c), Some (p, k) => Ret (p, c) k
  | _, _ => Ret (-12, []) k
  end.

#[export] Instance host_kernel : Kernel host := {|
  k_openat := h_openat; k_getdents := h_getdents; k_write := h_write; k_seek_end := h_seek_end;
  k_mmap := h_mmap; k_mmap_file := h_mmap_file; k_garbage := 77; k_stack := 170 |}.

(** * Its promises *)

Definition host_wf (k : host) : Prop :=
  map_Forall (fun fd _ => 0 <= fd < h_next k) (h_handles k) /\ 0 <= h_next k /\ h_next k + Z.of_nat (h_left k) < 2 ^ 31 /\
  Forall (fun area => area.1 + area.2 <= h_top k) (h_areas k) /\ 0 < h_top k /\ h_top k mod 4096 = 0 /\
  h_top k + Z.of_nat (h_left k) * (2 ^ 31 + 4096) <= 2 ^ 47.
#[export] Instance host_wf_dec k : Decision (host_wf k).
Proof. unfold host_wf. apply _. Defined.

Definition host_spare (k : host) : nat := if decide (host_wf k) then h_left k else O.

Lemma spare_left k c : host_spare k = S c -> host_wf k /\ h_left k = S c.
Proof. unfold host_spare. by case_decide. Qed.

Lemma spare_wf k : host_wf k -> host_spare k = h_left k.
Proof. intros. unfold host_spare. by rewrite decide_True. Qed.

Lemma spare_handle k fd h h' : h_handles k !! fd = Some h -> host_spare (set_handle fd h' k) = host_spare k.
Proof.
  intros Hfd. unfold host_spare. assert (E : host_wf (set_handle fd h' k) <-> host_wf k).
  { unfold host_wf. cbn. assert (Hm : map_Forall (fun fd' (_ : handle) => 0 <= fd' < h_next k) (<[fd := h']> (h_handles k)) <->
      map_Forall (fun fd' (_ : handle) => 0 <= fd' < h_next k) (h_handles k)); [|by rewrite Hm].
    split; intros Hm i x Hi.
    - destruct (decide (i = fd)) as [->|]; [apply (Hm fd h'), lookup_insert_eq|].
      apply (Hm i x). by rewrite lookup_insert_ne.
    - apply lookup_insert_Some in Hi as [[<- _]|[_ Hi]]; [by apply (Hm fd h)|by apply (Hm i x)]. }
  by repeat case_decide; tauto.
Qed.

Lemma spare_file path c k : host_spare (set_file path c k) = host_spare k.
Proof. done. Qed.

Lemma overwrite_end d bs : overwrite (length d) bs d = d ++ bs.
Proof. unfold overwrite. rewrite firstn_all, Nat.sub_diag, drop_ge by lia. by rewrite app_nil_r. Qed.

Lemma open_spec h files k c (Q : Z -> host -> Prop) :
  host_spare k = S c ->
  (forall k', 0 <= h_next k < 2 ^ 31 -> h_handles k !! h_next k = None ->
    h_handles k' = <[h_next k := h]> (h_handles k) -> h_areas k' = h_areas k -> h_files k' = files -> host_spare k' = c -> Q (h_next k) k') ->
  match open_handle h files k with Ret r k' => Q r k' | Fault _ => False end.
Proof.
  intros [(Hm & Hn & Hb & Ha & Ht & Hmod & Hs) Hl]%spare_left HQ. unfold open_handle. rewrite Hl in *. apply HQ; try done.
  - lia.
  - destruct (h_handles k !! h_next k) eqn:E; [|done]. specialize (Hm _ _ E). cbv beta in Hm. lia.
  - rewrite spare_wf; [done|]. split_and!; cbn [h_handles h_next h_left h_areas h_top]; try done; try lia.
    intros i x Hi. apply lookup_insert_Some in Hi as [[<- _]|[_ Hi]]; [lia|]. specialize (Hm _ _ Hi). cbv beta in Hm. lia.
Qed.

Lemma area_spec size k c :
  host_spare k = S c -> 0 < size <= 2 ^ 31 -> exists k',
  new_area size k = Some (h_top k, k') /\ 0 < h_top k /\ h_top k mod 4096 = 0 /\ h_top k + size <= 2 ^ 47 /\
  (forall q n, (q, n) ∈ h_areas k -> h_top k + size <= q \/ q + n <= h_top k) /\
  h_handles k' = h_handles k /\ h_areas k' = (h_top k, size) :: h_areas k /\ host_spare k' = c.
Proof.
  intros [(Hm & Hn & Hb & Ha & Ht & Hmod & Hs) Hl]%spare_left Hsz. unfold new_area. rewrite Hl in *.
  pose proof (round_up_spec size 4096 ltac:(lia)) as [Hr [q Hq]].
  eexists. split; [done|]. split_and!; try done; try lia.
  - intros p n Hp. rewrite Forall_forall in Ha. specialize (Ha _ Hp). cbn in Ha. lia.
  - rewrite spare_wf; [done|]. split_and!; cbn [h_handles h_next h_left h_areas h_top]; try done; try lia.
    + constructor; [cbn; lia|]. eapply Forall_impl; [exact Ha|]. intros x Hx. cbv beta in *. lia.
    + rewrite Hq, Z.mod_add by lia. done.
Qed.

Lemma encode_record e : entry_ok e -> record_of e (encode e).
Proof.
  intros (Hp & Hl & Ht). exists (replicate 16 0), [].
  assert (E : length (encode e) = (20 + length (e_name e))%nat).
  { unfold encode. rewrite !length_app, length_replicate. cbn. lia. }
  split_and!; [done| |lia|done]. rewrite E. reflexivity.
Qed.

#[export, refine] Instance host_spec : KernelSpec host := {|
  k_handles := h_handles; k_tree := host_tree; k_creatable _ := True; k_files := h_files; k_file := host_file; k_console := []; k_areas := h_areas; k_spare := host_spare |}.
Proof.
  - intros k fd dir name n c Hfd Ht Hc. unfold wp. cbn [k_openat host_kernel]. unfold h_openat.
    assert (E : (if fd =? AT_FDCWD then Some []
      else match h_handles k !! fd with Some (Listing dir _) => Some dir | _ => None end) = Some dir).
    { destruct Hfd as [[-> ->]|(rest & Hr)]; [done|]. destruct (spare_left _ _ Hc) as [(Hm & _) _].
      specialize (Hm _ _ Hr). cbv beta in Hm. rewrite (proj2 (Z.eqb_neq _ _)) by (unfold AT_FDCWD; lia). by rewrite Hr. }
    rewrite E. cbv zeta. change (O_RDONLY =? O_RDONLY) with true. cbv iota. rewrite Ht. apply (open_spec _ _ _ _ (fun r k' => _ /\ _) Hc); naive_solver.
  - intros k path c _ Hc. unfold wp. cbn [k_openat host_kernel]. unfold h_openat. cbv zeta.
    replace (Z.lor O_WRONLY (Z.lor O_CREAT O_TRUNC) =? O_RDONLY) with false by done.
    apply (open_spec _ _ _ _ (fun r k' => _ /\ _) Hc); naive_solver.
  - intros k fd path es size Hfd Hes Hsz. unfold wp. cbn [k_getdents host_kernel]. unfold h_getdents. rewrite Hfd. destruct es as [|e es].
    + exists [], []. rewrite (spare_handle _ _ _ _ Hfd). split_and!; try done; [constructor|cbn; lia].
    + apply Forall_cons in Hes as [He _]. exists [e], es. rewrite (spare_handle _ _ _ _ Hfd). split_and!; try done.
      * cbn [snd]. rewrite <-(app_nil_r (encode e)). constructor; [by apply encode_record|constructor].
      * destruct He as (_ & Hl & _). unfold encode. cbn [fst]. rewrite !length_app, length_replicate. cbn. lia.
  - intros k fd path old bs Hfd Hbs. unfold wp. cbn [k_write host_kernel]. unfold h_write. rewrite Hfd. cbv zeta.
    rewrite spare_file, (spare_handle _ _ _ _ Hfd), Nat2Z.id. cbn [h_files h_handles h_areas set_file set_handle].
    split_and!; try done; [destruct bs; [done|]; cbn [length]; lia|lia| |].
    + intros Hf. rewrite lookup_partial_alter_eq, Hf. cbn. by rewrite overwrite_end.
    + intros f Hf. by rewrite lookup_partial_alter_ne.
  - intros k fd content Hfd. unfold wp. cbn [k_seek_end host_kernel]. unfold h_seek_end. by rewrite Hfd.
  - intros k size c Hsz Hc. unfold wp. cbn [k_mmap host_kernel]. unfold h_mmap.
    destruct (area_spec size k c Hc Hsz) as (k' & -> & H). exact H.
  - intros k fd content c Hfd Hsz Hc. unfold wp. cbn [k_mmap_file host_kernel]. unfold h_mmap_file. rewrite Hfd.
    destruct (area_spec _ k c Hc Hsz) as (k' & -> & H). cbn [fst snd]. naive_solver.
Defined.
