(* ===== verification/DebugTheorems.v ===== *)
(** What the debug platform promises to the runtime, and what it writes at the
    end. *)
From S2P Require Import Prelude Bytes Heap Alloc AllocSession AllocTheorems System RuntimeIO RuntimeTree RuntimeInit RuntimeExit Kernel Debug DebugLemmas DebugStep DebugDirs DebugInit DebugSets DebugDump DebugDemo.

Section init.
Context {K : Type} {HK : Kernel K} {HS : KernelSpec K}.
Implicit Types s : platform K.
Notation act := (act (K := K)).

(** * The hosts's directories *)

(** The directory [input_sets] has the sets [sets], and [output_sets] the sets
    [outs]; they fit in the memory and within the limits of the process. *)
Record host_ok (turns : nat) (sets : list host_set) (outs : list (list Z)) (k : K) : Prop := {
  ho_input : exists es, k_tree [chars "input_sets"] = Some (HostDir es) /\ Forall entry_ok es /\
    (length es < turns)%nat /\ Forall2 (set_on turns (chars "input_sets")) (visible es) sets;
  ho_output : exists es, k_tree [chars "output_sets"] = Some (HostDir es) /\ Forall entry_ok es /\
    (length es < turns)%nat /\ Forall (fun e => e_type e = DT_DIR) (visible es) /\ map e_name (visible es) = outs;
  ho_memory : 24 * Z.of_nat (length sets + 1) + 40 * Z.of_nat (sets_items sets) + 24 * Z.of_nat (length outs + 1) + 16 < 2 ^ 31;
  ho_spare : (3 + length sets + sets_cost sets + length outs <= k_spare k)%nat;
  ho_console : exists d, k_handles k !! 1 = Some (Writing k_console d);
}.

Definition out_named s (info : io_set_info) (name : list Z) : Prop :=
  text s (si_ident info) name /\ si_ident_len info = Z.of_nat (length name).

(** What the platform leaves for the runtime. *)
Record presented s (sets : list host_set) (outs : list (list Z)) : Prop := {
  pr_inputs : exists t, Forall2 (view_holds s) t sets /\
    in_infos s = flat_infos 0 (IoSetInfo NULL 0 0) t /\ in_bufs s = flat_bufs t;
  pr_outputs : exists infos, Forall2 (out_named s) infos outs /\ out_infos s = infos ++ [IoSetInfo NULL 0 0];
  pr_input_len : sd_input_sets_len (sysdata s) = Z.of_nat (length sets);
  pr_output_len : sd_output_sets_len (sysdata s) = Z.of_nat (length outs);
  pr_heap : 0 < sd_heap_begin (sysdata s) <= sd_heap_end (sysdata s) /\ sd_heap_end (sysdata s) < 2 ^ 62;
  pr_code : sd_exit_code (sysdata s) = 256;
}.

Lemma round_up_to_spec x : 0 <= x < 2 ^ 63 -> x <= round_up_to x 8 < x + 8.
Proof.
  intros Hx. unfold round_up_to. pose proof (Z.mod_pos_bound x 8 ltac:(lia)) as Hm. cbv zeta.
  rewrite (wrap64_small (8 - _)) by (case_bool; lia). rewrite wrap64_small by (case_bool; lia). case_bool; lia.
Qed.

Lemma start_ok k : (exists d, k_handles k !! 1 = Some (Writing k_console d)) -> plat_ok (platform_start k).
Proof.
  intros H. split; cbn; try done; try lia.
  - set_solver.
  - intros a [x Hx]. by rewrite lookup_empty in Hx.
Qed.

Lemma Forall_visible (P : entry -> Prop) es : Forall P es -> Forall P (visible es).
Proof. rewrite !Forall_forall. intros H x [_ Hx]%list_elem_of_filter. by apply H. Qed.

Lemma literal_plain_starts (str : list Z) : starts (local (str ++ [0]) 0) (str ++ [0]).
Proof. apply (local_starts _ _ _ []); [lia|]. by rewrite app_nil_r. Qed.

Lemma init_inputs_spec turns hp buffer sets s0 (Q : Z * list Z -> platform K -> Prop) :
  plat_ok s0 -> in_infos s0 = [] -> in_bufs s0 = [] -> length buffer = 4096%nat ->
  (exists es, k_tree [chars "input_sets"] = Some (HostDir es) /\ Forall entry_ok es /\
    (length es < turns)%nat /\ Forall2 (set_on turns (chars "input_sets")) (visible es) sets) ->
  (1 + length sets + sets_cost sets <= spare s0)%nat -> 0 < hp -> hp < 2 ^ 47 ->
  24 * Z.of_nat (length sets + 1) + 40 * Z.of_nat (sets_items sets) < 2 ^ 31 ->
  (forall hp' buffer' t s', length buffer' = 4096%nat ->
    hp <= hp' < hp + 24 * Z.of_nat (length sets + 1) + 40 * Z.of_nat (sets_items sets) + 8 ->
    step [] (1 + length sets + sets_cost sets) s0 s' -> Forall2 (view_holds s') t sets ->
    in_infos s' = flat_infos 0 (IoSetInfo NULL 0 0) t -> in_bufs s' = flat_bufs t ->
    out_infos s' = out_infos s0 -> out_bufs s' = out_bufs s0 ->
    sd_input_sets_len (sysdata s') = Z.of_nat (length sets) -> sd_exit_code (sysdata s') = sd_exit_code (sysdata s0) ->
    Q (hp', buffer') s') ->
  does (init_inputs turns hp buffer) Q s0.
Proof.
  intros Hok Hi Hb Hbl (es & Htree & Hes & Hturns & Hsets) Hsp Hhp0 Hhp Hmem HQ.
  pose proof (Forall2_length _ _ _ Hsets) as Hlen. unfold init_inputs. apply does_andthen.
  eapply (openat_spec _ _ [] (chars "input_sets")); [done|apply literal_plain_starts|by repeat constructor|cbn; lia|by left|exact Htree|lia|].
  intros fd k Hr Hnew H1 Hfd. rewrite (proj2 (Z.ltb_ge _ _)) by lia. set (s1 := with_kernel k s0) in *.
  pose proof (st_spare _ _ _ _ H1) as Hs1. cbv zeta. apply does_andthen, print_spec; [apply H1|]. intros s2 H2 Ha2.
  pose proof (st_spare _ _ _ _ H2) as Hs2. pose proof (not_console _ _ _ _ (st_ok _ _ _ _ H1) Hfd) as Hfd1.
  unfold arrays in Ha2. injection Ha2 as E1 E2 E3 E4 E5. cbn in E1, E2, E3, E4, E5, Hfd.
  apply does_andthen. eapply (collect_input_sets_spec turns fd [chars "input_sets"] es); [apply H2|done|done|done| |lia|congruence| |].
  { apply (st_handles _ _ _ _ H2); [by apply other_fd|done]. }
  { rewrite Forall_forall. intros e He. apply list_elem_of_lookup in He as [i Hi'].
    destruct (Forall2_lookup_l _ _ _ _ _ Hsets Hi') as (set & _ & [Hn Ht Hm _]). by rewrite Hn. }
  intros buffer' s3 Hb' [H3 HF] Ho3 Hfd3. cbn [Z.ltb Z.compare].
  unfold others in Ho3. injection Ho3 as F1 F2 F3 F4. pose proof (st_spare _ _ _ _ H3) as Hs3.
  pose proof (Forall2_length _ _ _ HF) as Hlf. apply does_get. unfold id. rewrite Hlf, Hlen.
  set (hp1 := wrap64 _). assert (Ehp1 : hp1 = hp + 24 * Z.of_nat (length sets + 1)).
  { unfold hp1, sizeof_info. rewrite wrap64_small; lia. }
  pose proof (round_up_to_spec hp1 ltac:(lia)) as Hru. unfold alignof_io. set (hp2 := round_up_to hp1 8) in *.
  apply does_andthen. rewrite <-Hlen, Hlen.
  eapply (collect_sets_spec turns fd (chars "input_sets") [] 0 (visible es) sets (in_infos s3));
    [apply H3|done|congruence|exact HF|by apply Forall_visible|done|exact Hfd3|lia|by rewrite length_replicate|lia|lia|lia|].
  intros buffer'' t s4 H4 Ha4 Hv. unfold arrays in Ha4. injection Ha4 as G1 G2 G3 G4 G5.
  apply does_andthen, does_lift, wp_modify. apply does_andthen, does_lift, wp_modify. apply does_go.
  match goal with |- Q _ ?x => set (s5 := x) end.
  assert (H45 : step [] 0 s4 s5) by (apply arrays_step; try done; apply H4).
  assert (H15 : step [fd] (length sets + sets_cost sets) s1 s5).
  { pose proof (list_subseteq_nil [fd]) as Hnil.
    eapply (step_trans _ 0); [by eapply step_weaken; [exact H2|..]|].
    eapply step_trans; [rewrite <-Hlen; exact H3|]. rewrite <-(Nat.add_0_r (sets_cost sets)).
    by eapply step_trans; (eapply step_weaken; [eassumption|..]). }
  apply (HQ (hp2 + 40 * Z.of_nat (sets_items sets)) buffer' t s5); try done.
  - lia.
  - rewrite <-Nat.add_assoc. by eapply step_fresh.
  - cbn. rewrite G1, flat_offsets, (views_length _ _ _ Hv). done.
  - cbn. congruence.
  - cbn. congruence.
  - cbn. congruence.
Qed.

Lemma init_outputs_spec turns hp heap_end buffer outs s0 (Q : unit -> platform K -> Prop) :
  plat_ok s0 -> out_infos s0 = [] -> length buffer = 4096%nat ->
  (exists es, k_tree [chars "output_sets"] = Some (HostDir es) /\ Forall entry_ok es /\
    (length es < turns)%nat /\ Forall (fun e => e_type e = DT_DIR) (visible es) /\ map e_name (visible es) = outs) ->
  (1 + length outs <= spare s0)%nat -> 0 < hp -> hp < 2 ^ 48 -> 24 * Z.of_nat (length outs + 1) < 2 ^ 31 ->
  (forall hp' infos s', hp <= hp' <= hp + 24 * Z.of_nat (length outs + 1) + 8 ->
    step [] (1 + length outs) s0 s' -> Forall2 (out_named s') infos outs ->
    out_infos s' = infos ++ [IoSetInfo NULL 0 0] -> in_infos s' = in_infos s0 -> in_bufs s' = in_bufs s0 ->
    sd_heap_begin (sysdata s') = hp' -> sd_heap_end (sysdata s') = heap_end ->
    sd_input_sets_len (sysdata s') = sd_input_sets_len (sysdata s0) ->
    sd_output_sets_len (sysdata s') = Z.of_nat (length outs) ->
    sd_exit_code (sysdata s') = sd_exit_code (sysdata s0) -> Q tt s') ->
  does (init_outputs turns hp heap_end buffer) Q s0.
Proof.
  intros Hok Hi Hbl (es & Htree & Hes & Hturns & Hdirs & Houts) Hsp Hhp0 Hhp Hmem HQ.
  assert (Hlen : length (visible es) = length outs) by (by rewrite <-Houts, length_map).
  unfold init_outputs. apply does_andthen, print_spec; [done|]. intros s1 H1 Ha1.
  pose proof (st_spare _ _ _ _ H1) as Hs1. unfold arrays in Ha1. injection Ha1 as E1 E2 E3 E4 E5.
  apply does_andthen.
  eapply (openat_spec _ _ [] (chars "output_sets")); [apply H1|apply literal_plain_starts|by repeat constructor|cbn; lia|by left|exact Htree|lia|].
  intros fd k Hr Hnew H2 Hfd. rewrite (proj2 (Z.ltb_ge _ _)) by lia. set (s2 := with_kernel k s1) in *.
  pose proof (st_spare _ _ _ _ H2) as Hs2. cbv zeta. unfold alignof_info.
  pose proof (round_up_to_spec hp ltac:(lia)) as Hru. set (hp2 := round_up_to hp 8) in *. cbn in Hfd.
  apply does_andthen. eapply (collect_output_sets_spec turns fd [chars "output_sets"] es); [apply H2|done|done|done|done|lia|change (out_infos s1 = []); congruence|done|].
  intros buffer' s3 Hb' [H3 HF] Ho3. cbn [Z.ltb Z.compare]. unfold rest_of in Ho3. injection Ho3 as F1 F2 F3 F4.
  pose proof (Forall2_length _ _ _ HF) as Hlf. apply does_get. unfold id. rewrite Hlf, Hlen.
  apply does_andthen, does_lift, wp_modify. apply does_lift, wp_modify.
  match goal with |- Q _ ?x => set (s4 := x) end.
  assert (H34 : step [] 0 s3 s4) by (apply arrays_step; try done; apply H3).
  assert (H24 : step [fd] (length outs) s2 s4).
  { rewrite <-Hlen, <-(Nat.add_0_r (length (visible es))). eapply step_trans; [exact H3|].
    eapply step_weaken; [exact H34|apply list_subseteq_nil|done]. }
  apply (HQ (wrap64 (hp2 + (Z.of_nat (length outs) + 1) * sizeof_info)) (out_infos s3) s4); try done; try (cbn; congruence).
  - unfold sizeof_info. rewrite wrap64_small; lia.
  - change (1 + length outs)%nat with (0 + (1 + length outs))%nat. eapply step_trans; [exact H1|].
    by eapply step_fresh; [exact H2| |exact H24].
  - rewrite <-Houts. apply Forall2_fmap_r. eapply Forall2_impl; [exact HF|]. intros info e (Ht & Hl & _).
    split; [|exact Hl]. rewrite app_nil_r in Ht. exact (text_step _ _ _ _ _ _ H34 Ht).
Qed.

Lemma platform_init_spec turns sets outs k :
  host_ok turns sets outs k ->
  does (platform_init turns) (fun _ s => presented s sets outs) (platform_start k).
Proof.
  intros [Hin Hout Hmem Hsp Hcon]. pose proof (start_ok k Hcon) as Hok.
  unfold platform_init. cbv zeta. apply does_andthen, vm_alloc_spec; [done|lia|unfold spare; cbn; lia|].
  intros hp k1 Hp Hm He Hap Hh Ha Hc.
  pose proof (area_step _ hp (2 ^ 31) k1 Hok Hp Hap Hh Ha Hc) as H1. set (s1 := with_zeroed _ _) in *.
  pose proof (st_spare _ _ _ _ H1) as Hs1. assert (Hs0 : spare (platform_start k) = k_spare k) by done.
  rewrite (proj2 (Z.eqb_neq hp NULL)) by (unfold NULL; lia). rewrite wrap64_small by lia.
  apply does_andthen. apply (init_inputs_spec turns hp _ sets); [apply H1|done|done|by rewrite length_replicate|done|lia|lia|lia|lia|].
  intros hp' buffer' t s2 Hb' Hhp' H2 Hv Hii Hib Hoi Hob Hl Hc2. pose proof (st_spare _ _ _ _ H2) as Hs2.
  apply (init_outputs_spec turns hp' _ buffer' outs); [apply H2|by rewrite Hoi|done|done|lia|lia|lia|lia|].
  intros hp2 infos s3 Hhp2 H3 Hn Hoi3 Hii3 Hib3 Hhb Hhe Hl3 Hol Hc3. split.
  - exists t. split_and!; [|congruence|congruence].
    eapply Forall2_impl; [exact Hv|]. intros ? ? Hx. exact (view_holds_step _ _ _ _ _ _ H3 Hx).
  - by exists infos.
  - congruence.
  - done.
  - rewrite Hhb, Hhe. lia.
  - rewrite Hc3, Hc2. done.
Qed.

(** C15: Started in a process whose directory [input_sets] has a directory for every
    set of [sets], with its files, under a name whose length is not a multiple of 8
    (the copy of such a name has no terminator, see [names_run_together]), and whose directory [output_sets] has the
    directories [outs], with memory, descriptors and mappings to spare ([host_ok]),
    the platform ends its set-up without undefined behaviour
    and without ending the process.  It leaves to the runtime the flat arrays of
    exactly these sets, in the order of the directory: every set with its name,
    every buffer with the name of its file, [+] replaced by [/], and the file's
    content; the output sets with their names; and a heap that is not empty. *)
Theorem platform_init_presents turns sets outs k :
  host_ok turns sets outs k ->
  does (platform_init turns) (fun _ s => presented s sets outs) (platform_start k).
Proof. apply platform_init_spec. Qed.

(** * The runtime on the platform *)

(** The state in which the runtime starts: its heap is what the platform left,
    the arrays are those of the platform. *)
Definition handover s : runtime session :=
  let d := sysdata s in
  Runtime (Session (init_heap (sd_heap_begin d) (sd_heap_end d) ∅) [])
    (sd_input_sets_len d) (in_infos s) (sd_output_sets_len d) (out_infos s) (in_bufs s)
    (sd_output_bufs d) NULL NULL ∅ ∅.

Lemma empty_tree_names infos (n : Z) sen :
  n = Z.of_nat (length infos) ->
  empty_tree (infos ++ [sen]) n = (fun info => (si_ident info, si_ident_len info, [])) <$> infos.
Proof. intros ->. unfold empty_tree. by rewrite Nat2Z.id, take_app_length. Qed.

(** C16: Platform and runtime together: after the set-up of the platform on such a
    host (no set name with a length that is a multiple of 8), [dandelion_init] either ends the process because memory is exhausted, or
    builds the input tree of exactly the host's directories and files, and the
    output tree with the names of the output directories and no buffers. *)
Theorem host_reaches_runtime turns sets outs k junk_set junk_buf :
  host_ok turns sets outs k ->
  does (platform_init turns) (fun _ s =>
    wp (dandelion_init (HS := session_system true) junk_set junk_buf) (fun _ (s' : runtime session) => oom (HS := session_system true) s' \/
      exists t u, tree_at (HS := session_system true) s' (rt_input_sets s') t /\ Forall2 (view_holds s) t sets /\
        out_tree (HS := session_system true) s' (rt_output_sets s') u /\
        Forall2 (fun v name => text s v.1.1 name /\ v.1.2 = Z.of_nat (length name) /\ v.2 = []) u outs)
      (handover s)) (platform_start k).
Proof.
  intros Hk. eapply does_mono; [by apply platform_init_spec|]. intros [] s [(t & Hv & Hi & Hb) (infos & Hn & Ho) Hl1 Hl2 Hh _].
  pose proof (Forall2_length _ _ _ Hv) as Hlt. pose proof (Forall2_length _ _ _ Hn) as Hlo.
  pose proof (views_length _ _ _ Hv) as Hlb. destruct Hk as [_ _ Hmem _ _].
  eapply wp_mono; [apply (dandelion_init_spec (HS := session_system true) junk_set junk_buf (handover s))|].
  - exists []. apply inv_init; lia.
  - cbn. rewrite Hi, Hb, Hl1, <-Hlt. apply wf_raw_flat; unfold sizeof_io; lia.
  - cbn. rewrite Ho, Hl2. split; [rewrite length_app; cbn; lia|lia|unfold sizeof_io; lia].
  - intros [] s' [Hoom|(_ & _ & Ht & Hu)]; [by left|right]. cbn [input_sets input_bufs output_sets output_sets_len handover] in Ht, Hu.
    rewrite Hi, Hb in Ht. pose proof (unflatten_flat [] (IoSetInfo NULL 0 0) t) as Eu. change (Z.of_nat (length [])) with 0 in Eu.
    cbn [app] in Eu. rewrite Eu in Ht. rewrite Ho, Hl2, <-Hlo, empty_tree_names in Hu by done.
    exists t, ((fun info => (si_ident info, si_ident_len info, [])) <$> infos). split_and!; [done..|].
    apply Forall2_fmap_l. eapply Forall2_impl; [exact Hn|]. intros info name [? ?]. by split_and!.
Qed.

(** * Names without a terminator *)

(** The path at bytes that were stored into zeroed memory. *)
Lemma stored_path s (m : gmap Z Z) p (l : list Z) :
  mem s = write_bytes p l m -> m !! (p + Z.of_nat (length l)) = None ->
  existsb (inside (p + Z.of_nat (length l))) (zeroed s) = true ->
  plain l -> (length l < PATH_MAX)%nat ->
  read_path PATH_MAX (at_address s p) 0 = inr l.
Proof.
  intros Hm Hnone Hz Hl Hmax. apply read_path_spec; [|done|done].
  intros j c Hj. rewrite Z.add_0_l. unfold at_address, load. rewrite Hm, write_bytes_spec, Z.add_simpl_l.
  destruct (zlookup j l) as [c'|] eqn:E.
  - unfold zlookup in *. destruct (0 <=? j); [|done]. rewrite (lookup_app_l_Some _ _ _ _ E) in Hj. congruence.
  - pose proof (zlookup_range _ _ _ Hj) as Hr. rewrite length_app in Hr. cbn [length] in Hr.
    unfold zlookup in *. destruct (0 <=? j) eqn:Ej; [|done]. bool_to_prop. apply lookup_ge_None in E.
    replace j with (Z.of_nat (length l)) in * by lia. rewrite Hnone, Hz.
    rewrite lookup_app_r in Hj by lia. by apply list_lookup_singleton_Some in Hj as [_ <-].
Qed.

(** Two names that are copied one after the other into the same page run
    together when the length of the first is a multiple of 8: its copy has no
    terminator, and the path the kernel reads at it is both names. *)
Theorem names_run_together s buf1 off1 e1 r1 buf2 off2 e2 r2 :
  plat_ok s -> buffer_space s <> NULL ->
  record_at buf1 off1 e1 r1 -> record_at buf2 off2 e2 r2 ->
  (length (e_name e1) <= 255)%nat -> (length (e_name e2) <= 255)%nat ->
  used s + words_of (Z.of_nat (length (e_name e1))) + words_of (Z.of_nat (length (e_name e2))) <= 512 ->
  Z.of_nat (length (e_name e1)) mod 8 = 0 -> Z.of_nat (length (e_name e2)) mod 8 <> 0 ->
  does (let? p := copy_name buf1 off1 (Z.of_nat (length (e_name e1))) in
        let? _ := copy_name buf2 off2 (Z.of_nat (length (e_name e2))) in go p)
    (fun p s' => read_path PATH_MAX (at_address s' p) 0 = inr (e_name e1 ++ e_name e2)) s.
Proof.
  intros Hok Hb Hat1 Hat2 Hl1 Hl2 Hu Hm1 Hm2.
  set (n1 := e_name e1) in *. set (n2 := e_name e2) in *.
  pose proof (words_of_spec (Z.of_nat (length n1)) ltac:(lia)) as Hw1. pose proof (words_of_spec (Z.of_nat (length n2)) ltac:(lia)) as Hw2.
  assert (E1 : 8 * words_of (Z.of_nat (length n1)) = Z.of_nat (length n1)).
  { apply Z.mod_divide in Hm1 as [q Hq]; lia. }
  assert (E2 : Z.of_nat (length n2) < 8 * words_of (Z.of_nat (length n2))).
  { assert (8 * words_of (Z.of_nat (length n2)) <> Z.of_nat (length n2)); [|lia].
    intros E. apply Hm2. rewrite <-E, Z.mul_comm. by apply Z.mod_mul. }
  set (w1 := words_of (Z.of_nat (length n1))) in *. set (w2 := words_of (Z.of_nat (length n2))) in *.
  pose proof (po_used _ Hok) as Hus. pose proof (po_page _ Hok Hb) as Hpg. pose proof (po_space _ Hok) as Hsp.
  set (p1 := buffer_space s + 8 * used s). assert (Hz : forall i, p1 <= i < p1 + 8 * (w1 + w2) -> existsb (inside i) (zeroed s) = true).
  { intros i Hi. apply (in_zeroed s i _ _ Hpg). lia. }
  assert (Hnone : forall i, p1 <= i < p1 + 8 * (w1 + w2) -> mem s !! i = None).
  { intros i Hi. apply (po_unused _ Hok). split; [done|lia]. }
  apply does_andthen, does_andthen, debug_alloc_here; [done|lia|done|lia|]. fold p1 w1.
  apply does_andthen, my_memcpy_store; [eapply starts_app_l, d_name_starts; exact Hat1|intros i Hi; apply Hz; lia|].
  apply does_go. set (s1 := with_mem _ _).
  assert (Hok1 : plat_ok s1).
  { destruct (claimed_write s (with_space (buffer_space s) (used s + w1) s) 0 p1 (8 * w1) n1) as [Hs1 _]; [| |lia|apply Hs1].
    - apply space_step; [done|done|lia].
    - apply claim_here; [done|done|lia|lia]. }
  apply does_andthen, does_andthen, debug_alloc_here; [done|lia|done|cbn; lia|]. fold w2. cbn [used s1 with_mem with_space buffer_space].
  replace (buffer_space s + 8 * (used s + w1)) with (p1 + Z.of_nat (length n1)) by lia.
  apply does_andthen, my_memcpy_store; [eapply starts_app_l, d_name_starts; exact Hat2|intros i Hi; apply Hz; lia|].
  apply does_go, does_go. apply (stored_path _ (mem s)).
  - cbn [mem with_mem with_space s1]. by rewrite <-write_bytes_app.
  - rewrite length_app. apply Hnone. lia.
  - rewrite length_app. apply Hz. lia.
  - apply Forall_app. split; [exact (name_plain _ _ _ _ Hat1)|exact (name_plain _ _ _ _ Hat2)].
  - rewrite length_app. unfold PATH_MAX. lia.
Qed.

(** * The end *)

Lemma latest_none f l c : (forall file, file ∈ l -> k_file file.1 <> f) -> latest f l c = c.
Proof.
  unfold latest. revert c. induction l as [|file l IH]; intros c H; [done|]. cbn. rewrite decide_False by (apply H; constructor).
  apply IH. intros x Hx. apply H. by constructor.
Qed.
Lemma latest_last l1 path content l2 c :
  (forall file, file ∈ l2 -> k_file file.1 <> k_file path) -> latest (k_file path) (l1 ++ (path, content) :: l2) c = Some content.
Proof.
  intros H. unfold latest. rewrite foldl_app. cbn [foldl fst snd]. rewrite decide_True by done. by apply (latest_none _ l2).
Qed.

(** No output goes to the file of standard output. *)
Lemma outputs_apart s t sets file : output_ready s t sets -> file ∈ outputs sets -> k_file file.1 <> k_file k_console.
Proof.
  intros Hr. unfold outputs. rewrite list_elem_of_In, in_concat. intros (l & (set & <- & Hset)%in_map_iff & Hfile).
  apply in_map_iff in Hfile as (i & <- & Hi). pose proof (or_paths _ _ _ Hr) as Hp.
  rewrite Forall_forall in Hp. specialize (Hp set ltac:(by apply list_elem_of_In)). rewrite Forall_forall in Hp.
  apply (Hp i), list_elem_of_In, Hi.
Qed.

(** C17: At the end every buffer of every output set is written to the file
    [output_sets/<set>/<name>], whose path must be shorter than 256 bytes (see
    [dump_overflows]), must be one that can be created, and must not lead to the file
    of standard output.  A file that several buffers go to holds the content of the
    last one, because opening it erases what the earlier ones wrote; files to which no
    buffer goes keep their content.  The exit code is printed as a sign and ten
    digits, and the process ends with the exit code. *)
Theorem exit_writes_outputs s t sets :
  output_ready s t sets -> - 2 ^ 31 < sd_exit_code (sysdata s) < 2 ^ 31 ->
  wp platform_exit (fun r s' => r = None /\ status s' = Some (sd_exit_code (sysdata s)) /\
    (forall l1 path content l2, outputs sets = l1 ++ (path, content) :: l2 ->
      (forall file, file ∈ l2 -> k_file file.1 <> k_file path) -> host_files s' !! k_file path = Some content) /\
    (forall f, f <> k_file k_console -> (forall file, file ∈ outputs sets -> k_file file.1 <> f) ->
      host_files s' !! f = host_files s !! f) /\
    exists d sign ds, handles s' !! 1 = Some (Writing k_console (d ++ chars "Exiting with code " ++ sign :: ds ++ newline)) /\
      length ds = 10%nat /\ decimal ds = Z.abs (sd_exit_code (sysdata s)) /\
      Forall (fun c => 48 <= c <= 57) ds /\ sign = (if sd_exit_code (sysdata s) <? 0 then 45 else 32)) s.
Proof.
  intros Hr Hc. eapply wp_mono; [by eapply platform_exit_spec|]. intros r s' (-> & Hst & Hd & d & Hh).
  split_and!; [done|done| | |].
  - intros l1 path content l2 E Hlast. assert (Hin : (path, content) ∈ outputs sets) by (rewrite E; apply elem_of_app; right; constructor).
    rewrite (Hd (k_file path) (outputs_apart _ _ _ (path, content) Hr Hin)), E. by apply latest_last.
  - intros f Hf Hnone. rewrite (Hd f Hf). by apply latest_none.
  - exists d, (if sd_exit_code (sysdata s) <? 0 then 45 else 32), (digits 10 (Z.abs (sd_exit_code (sysdata s)))).
    split_and!; [done|apply digits_length|apply digits_decimal; cbn; lia|apply digits_range|done].
Qed.

(** C22: A set name and a buffer name that do not fit, with the prefix, the slash
    and the terminator, in the array of 256 characters are written behind it. *)
Theorem dump_overflows s setid set index b i :
  text s setid set -> setid <> NULL -> sd_output_bufs (sysdata s) <> NULL ->
  zlookup index (out_bufs s) = Some b -> out_buf s b i ->
  (TMP_SIZE <= length (path_of set i.1))%nat ->
  dump_io_buf setid (Z.of_nat (length set)) index s = Fault OutOfBounds.
Proof.
  intros Hset Hsetid Hout Hb [Hi Hn Hnl _ _] Hsize. unfold dump_io_buf. fold tmp_start. cbv zeta.
  apply fault_after. eapply (my_strlen_spec _ _ prefix).
  { apply (local_starts _ _ _ (replicate 243 0)); [lia|]. reflexivity. }
  { by repeat constructor. }
  { unfold tmp_start, TMP_SIZE. cbn. lia. }
  rewrite (proj2 (Z.eqb_neq _ _)) by done. rewrite (proj2 (Z.eqb_neq (sd_output_bufs _) _)) by done. cbn [andb orb].
  rewrite Hb, (proj2 (Z.eqb_neq (ib_ident b) _)), Hnl by done. by apply tmp_path_overflow.
Qed.
End init.

(** * Instances *)

Definition demo_host : host := Host {[1 := Writing [] []]} 3 [] 65536 20 ∅.
Definition demo_sets : list host_set := [(chars "files", [(chars "a+b", chars "hello")])].
Definition demo_outs : list (list Z) := [chars "out"].

Lemma demo_entries names t :
  Forall (fun n => plain n /\ (length n <= 255)%nat) names -> 0 <= t < 256 -> Forall entry_ok (demo_dir names t).
Proof.
  intros Hn Ht. unfold demo_dir. apply Forall_app. split.
  - repeat constructor; cbn; done || lia.
  - apply Forall_map. eapply Forall_impl; [exact Hn|]. intros n [Hp Hl]. unfold entry_ok; cbn; split_and!; [exact Hp|exact Hl|lia|lia].
Qed.

Ltac demo_names := repeat constructor; cbn; done || lia.

Lemma demo_host_ok : host_ok 10 demo_sets demo_outs demo_host.
Proof.
  split.
  - exists (demo_dir [chars "files"] 4). split_and!; [reflexivity|apply demo_entries; [demo_names|lia]|cbn; lia|].
    change (visible (demo_dir [chars "files"] 4)) with [Entry (chars "files") 4]. constructor; [|constructor].
    split; [reflexivity|reflexivity|vm_compute; discriminate|].
    exists (demo_dir [chars "a+b"] 8). split_and!; [reflexivity|apply demo_entries; [demo_names|lia]|cbn; lia|].
    change (visible (demo_dir [chars "a+b"] 8)) with [Entry (chars "a+b") 8]. constructor; [|constructor].
    split; [reflexivity|reflexivity|cbn; lia].
  - exists (demo_dir [chars "out"] 4). split_and!; [reflexivity|apply demo_entries; [demo_names|lia]|cbn; lia| |reflexivity].
    change (visible (demo_dir [chars "out"] 4)) with [Entry (chars "out") 4]. by constructor.
  - vm_compute. reflexivity.
  - change (k_spare demo_host) with 20%nat. vm_compute. lia.
  - by exists [].
Qed.

Lemma platform_init_presents_witness :
  does (platform_init 10) (fun _ s => presented s demo_sets demo_outs) (platform_start demo_host).
Proof. exact (platform_init_presents 10 demo_sets demo_outs demo_host demo_host_ok). Defined.

Lemma host_reaches_runtime_witness :
  does (platform_init 10) (fun _ s =>
    wp (dandelion_init (HS := session_system true) (IoSet 7 7 7 7 7) (IoBuffer 7 7 7 7 7))
      (fun _ (s' : runtime session) => oom (HS := session_system true) s' \/
        exists t, tree_at (HS := session_system true) s' (rt_input_sets s') t /\ Forall2 (view_holds s) t demo_sets)
      (handover s)) (platform_start demo_host).
Proof.
  eapply does_mono; [apply (host_reaches_runtime 10 demo_sets demo_outs demo_host (IoSet 7 7 7 7 7) (IoBuffer 7 7 7 7 7) demo_host_ok)|].
  intros [] s H. eapply wp_mono; [exact H|]. intros [] s' [Ho|(t & u & Ht & Hv & _)]; [left; exact Ho|right]. exists t. split; [exact Ht|exact Hv].
Defined.

(** A page of which [u] words are used. *)
Definition page_host : host := Host {[1 := Writing [] []]} 3 [(65536, 4096)] 69632 20 ∅.
Definition page_state (m : gmap Z Z) (u : Z) (infos : list io_set_info) (bufs : list io_buffer) (d : system_data) : platform host :=
  Platform page_host m [(65536, 4096)] 65536 u [] [] infos bufs d None.

Lemma page_ok m u infos bufs d :
  0 <= u <= 512 -> (forall a, is_Some (m !! a) -> 65536 <= a < 65536 + 8 * u) -> plat_ok (page_state m u infos bufs d).
Proof.
  intros Hu Hm. split; cbn; try done; try lia.
  - intros a Ha. exists 65536, 4096. split; [constructor|]. specialize (Hm a Ha). lia.
  - intros _. constructor.
  - intros a [_ Ha]. cbn in Ha. destruct (m !! a) eqn:E; [|done]. specialize (Hm a ltac:(by eexists)). lia.
  - by exists [].
Qed.

Lemma written_range a l x :
  is_Some (write_bytes a l (∅ : gmap Z Z) !! x) -> a <= x < a + Z.of_nat (length l).
Proof.
  rewrite write_bytes_spec, lookup_empty. destruct (zlookup (x - a) l) eqn:E; [|by intros [? ?]].
  intros _. apply zlookup_range in E. lia.
Qed.

Definition eight : entry := Entry (chars "12345678") 4.
Definition three : entry := Entry (chars "abc") 4.

Lemma demo_record e : entry_ok e -> record_at (encode e) 0 e (encode e).
Proof. intros He. split; [lia|exists []; by rewrite app_nil_r|by apply encode_record]. Qed.

Lemma names_run_together_witness :
  does (let? p := copy_name (encode eight) 0 8 in let? _ := copy_name (encode three) 0 3 in go p)
    (fun p s' => read_path PATH_MAX (at_address s' p) 0 = inr (chars "12345678abc"))
    (page_state ∅ 0 [] [] initial_data).
Proof.
  eapply does_mono; [apply (names_run_together (page_state ∅ 0 [] [] initial_data)
    (encode eight) 0 eight (encode eight) (encode three) 0 three (encode three))|].
  - apply page_ok; [lia|]. intros a [x Hx]. by rewrite lookup_empty in Hx.
  - discriminate.
  - apply demo_record. split_and!; [by repeat constructor|cbn; lia|cbn; lia|cbn; lia].
  - apply demo_record. split_and!; [by repeat constructor|cbn; lia|cbn; lia|cbn; lia].
  - cbn. lia.
  - cbn. lia.
  - vm_compute. discriminate.
  - reflexivity.
  - vm_compute. discriminate.
  - intros p s' H. exact H.
Defined.

Definition out_data (code : Z) : system_data := SystemData code 0 0 0 NULL 1 4096 NULL 8192.
Definition out_memory (set : list Z) : gmap Z Z := write_bytes 65536 (chars "a.txt" ++ chars "hello" ++ set) ∅.
Definition out_buffer : io_buffer := IoBuffer 65536 5 65541 5 0.
(** A part of the same text, under the same name. *)
Definition short_buffer : io_buffer := IoBuffer 65536 5 65542 3 0.
Definition out_state_of (bufs : list io_buffer) (set : list Z) (code : Z) : platform host :=
  page_state (out_memory set) 512 (flat_infos 0 (IoSetInfo NULL 0 0) [(65546, Z.of_nat (length set), bufs)])
    bufs (out_data code).
Definition out_state : list Z -> Z -> platform host := out_state_of [out_buffer].

Lemma out_text bufs set code l1 l l2 p :
  chars "a.txt" ++ chars "hello" ++ set = l1 ++ l ++ l2 -> (length set <= 4000)%nat ->
  p = 65536 + Z.of_nat (length l1) -> text (out_state_of bufs set code) p l.
Proof.
  intros E Hlen -> i b Hi. pose proof (zlookup_range _ _ _ Hi) as Hr.
  pose proof (f_equal length E) as El. rewrite !length_app in El. cbn [length chars map String.list_ascii_of_string] in El.
  split; [split|].
  - exists 65536, 4096. split; [constructor|lia].
  - intros [_ Hu]. cbn in Hu. lia.
  - unfold load. cbn [mem out_state_of page_state]. unfold out_memory. rewrite E, write_bytes_spec.
    replace (65536 + Z.of_nat (length l1) + i - 65536) with (Z.of_nat (length l1 + Z.to_nat i)) by lia.
    rewrite zlookup_nat, lookup_app_r by lia. replace (length l1 + Z.to_nat i - length l1)%nat with (Z.to_nat i) by lia.
    unfold zlookup in Hi. rewrite (proj2 (Z.leb_le _ _)) in Hi by lia. by rewrite (lookup_app_l_Some _ _ _ _ Hi).
Qed.

Lemma out_buf_demo bufs set code :
  (length set <= 4000)%nat -> out_buf (out_state_of bufs set code) out_buffer (chars "a.txt", chars "hello").
Proof.
  intros Hl. split; [discriminate|by apply (out_text _ _ _ [] _ (chars "hello" ++ set))|reflexivity|
    by apply (out_text _ _ _ (chars "a.txt") _ set)|reflexivity].
Qed.
Lemma short_buf_demo bufs set code :
  (length set <= 4000)%nat -> out_buf (out_state_of bufs set code) short_buffer (chars "a.txt", chars "ell").
Proof.
  intros Hl. split; [discriminate|by apply (out_text _ _ _ [] _ (chars "hello" ++ set))|reflexivity|
    by apply (out_text _ _ _ (chars "a.txt" ++ chars "h") _ (chars "o" ++ set))|reflexivity].
Qed.

Lemma out_state_ok bufs set code : (length set <= 4000)%nat -> plat_ok (out_state_of bufs set code).
Proof.
  intros Hl. apply page_ok; [lia|]. intros a Ha%written_range. rewrite !length_app in Ha. cbn [length chars map String.list_ascii_of_string] in Ha. lia.
Qed.

Lemma out_name bufs set code : (length set <= 4000)%nat -> text (out_state_of bufs set code) 65546 set.
Proof. intros Hl. apply (out_text _ _ _ (chars "a.txt" ++ chars "hello") _ []); [by rewrite app_nil_r|done|reflexivity]. Qed.

(** Two buffers with the name [a.txt]: the second one erases the first. *)
Definition two_buffers : platform host := out_state_of [out_buffer; short_buffer] (chars "out") (-3).
Definition two_files : list host_set := [(chars "out", [(chars "a.txt", chars "hello"); (chars "a.txt", chars "ell")])].

Lemma two_ready : output_ready two_buffers [(65546, 3, [out_buffer; short_buffer])] two_files.
Proof.
  split.
  - apply out_state_ok. cbn. lia.
  - by exists (IoSetInfo NULL 0 0).
  - reflexivity.
  - reflexivity.
  - discriminate.
  - constructor; [|constructor]. split_and!; [discriminate|apply out_name; cbn; lia|reflexivity|].
    constructor; [apply out_buf_demo; cbn; lia|]. constructor; [apply short_buf_demo; cbn; lia|constructor].
  - constructor; [|constructor]. repeat constructor; try (cbn; lia); vm_compute; discriminate.
  - change (spare two_buffers) with 20%nat. vm_compute. lia.
  - cbn. lia.
Qed.

Lemma exit_writes_outputs_witness :
  wp platform_exit (fun r s' => status s' = Some (-3) /\
    host_files s' !! k_file (chars "output_sets/out/a.txt") = Some (chars "ell")) two_buffers.
Proof.
  eapply wp_mono; [apply (exit_writes_outputs two_buffers [(65546, 3, [out_buffer; short_buffer])] two_files two_ready)|].
  - cbn. lia.
  - intros r s' (_ & Hst & Hd & _). split; [exact Hst|].
    apply (Hd [(chars "output_sets/out/a.txt", chars "hello")] _ _ []); [reflexivity|]. intros file Hfile. by apply elem_of_nil in Hfile.
Defined.

Lemma dump_overflows_witness :
  dump_io_buf 65546 240 0 (out_state (replicate 240 120) 0) = Fault OutOfBounds.
Proof.
  apply (dump_overflows (out_state (replicate 240 120) 0) 65546 (replicate 240 120) 0 out_buffer (chars "a.txt", chars "hello")).
  - apply out_name. rewrite length_replicate. lia.
  - discriminate.
  - discriminate.
  - reflexivity.
  - apply out_buf_demo. rewrite length_replicate. lia.
  - vm_compute. lia.
Defined.
